(* ===== verification/_CoqProject ===== *)
-Q . S2P
Prelude.v
PyValue.v
Effects.v
Logic.v
Metrics.v
PyTime.v
Services.v
Config.v
CrCache.v
RestClient.v
StatusRecords.v
KubeOps.v
K8sApi.v
Json.v
Url.v
PyText.v
OrchestratorSnippet.v
AutoClose.v
WorkflowInjections.v
FixtureDrift.v
Base64.v
Sha256.v
Archival.v
ArchivalSpec.v
RedisClient.v
StatusStore.v
StatusStoreFacts.v
StatusScalars.v
Events.v
AnalysisSla.v
DatapointWatchdog.v
Retention.v
SimWorld.v
ClientFactory.v
RestClientSpec.v
StatusStoreSpec.v
EventsSpec.v
Singleton.v
LogFormat.v
KopfPersistence.v
DryRunAudit.v
SingletonSpec.v
OscmTick.v
PruneEntrypoint.v
Actions.v
MetricsServer.v
AnalysisSlaSpec.v
RetentionSpec.v
PruneSpec.v
DatapointWatchdogSpec.v
WorkerRecycler.v
RedisClientSpec.v
RedisUrlSpec.v
WebBackground.v
WebBackgroundSpec.v
RedisLayout.v
Frame.v
Operator.v
OperatorSpec.v
Process.v
EntryPoint.v
ProcessSpec.v
Ownership.v
MetricUpdates.v
