(* ===== verification/Prelude.v ===== *)
(** * The OpenStudio Server operator, verified

    A model of the Python package [src/src/openstudio_operator] and of the
    scripts of [src/scripts], and theorems about them.  The package is a Kubernetes operator: four kopf timers act on an
    OpenStudio server for each OpenStudioClusterManager (CR) of a namespace,
    watch handlers guard and audit the CRs, and a CronJob archives and deletes
    old analyses.  All durable state is the [.status] of the CR.

    ** Parts and how they interact

    - The foundation: this file (shared tactics, hint databases, lemmas on
      lists and strings); [PyValue] (Python values, truthiness, equality,
      dictionaries); [Effects] (exceptions, the state-and-error monad [M W P],
      the log of outward actions, lenses into the process memory); [Logic]
      ([within], bounds on what a run may do, and exact runs); [Actions]
      (harmless and mutating actions); [Metrics] (the metric families and the
      updates they admit).
    - The standard library and formats: [PyTime] (_time.py, datetime), [Json]
      (json.loads), [Url] (urlparse), [Base64], [Sha256].
    - The world: [Services] is one type class per external service, with
      arbitrary answers; [SimWorld] is a small executable cluster for witnesses.
    - Durable state: [StatusRecords] and [StatusStore] (status_store.py), with
      [StatusStoreFacts], [StatusScalars] and [StatusStoreSpec]; [Config]
      (config.py) reads the spec of the CR, [CrCache] (_cr_cache.py) keys
      process memory by CR and uid.
    - Clients: [RestClient] (openstudio_client.py), [RedisClient]
      (redis_client.py), [KubeOps] (_k8s.py), [K8sApi] (the cached API clients of
      singleton.py), [ClientFactory] (client_factory.py), with [RestClientSpec],
      [RedisClientSpec] and [RedisUrlSpec].
    - Warnings and Events: [Events] (events.py, events_sinks.py), [EventsSpec].
    - The ticks: [AnalysisSla], [DatapointWatchdog], [WorkerRecycler],
      [WebBackground] (handlers/), [Retention] with [Archival] (retention.py,
      archival.py), each with its [...Spec]; [OscmTick] (_oscm_handlers.py) runs
      them, [PruneEntrypoint] is the CronJob (prune_entrypoint.py).
    - Around them: [Singleton] (singleton.py: election, gating, one-time
      warnings, fingerprint cache), [DryRunAudit] and [RedisLayout]
      (handlers/), [KopfPersistence], [MetricsServer] (the server of
      metrics.py) and [LogFormat] (logging_setup.py).
    - The scripts, on [PyText] (methods of texts and small patterns):
      [OrchestratorSnippet] (render_orchestrator_snippet.py), [AutoClose]
      (auto_close_issues.py), [WorkflowInjections]
      (check_workflow_run_injections.py), [FixtureDrift]
      (check_fixture_drift.py).
    - The whole: [Operator] is the memory of the process and the timers wired
      and gated as the package does it; [Process] lets kopf call any handler at
      any moment, the world change between calls, and the process restart.
      [EntryPoint] is the boot (__main__.py, handlers/__init__.py): the command
      line, then the steps in their order up to [kopf.run]; what it registers is
      what [Process] may call ([calls_registered]).
      [Frame] bounds what a tick may do to the world, the memory and the metrics
      at once; [ProcessSpec], [Ownership] and [MetricUpdates] instantiate it.

    A component is written over a world [W] and a memory [P] with a [Lens] for
    each cell it owns; collaborators (an event sink, an emitter, a Redis
    client) are type classes or arguments, as in the code.  A definition has
    the name of the function or method it translates; a guard, an early return
    or an [except] clause of the code is a branch of it.  Names that are not in
    the code are parts of one function, split off.

    ** What the theorems show

    - The operator as a whole ([ProcessSpec], [OperatorSpec]): over every
      execution each mutating action answers to a timer call outside dry run in
      the namespace of its CR; the memory stays bounded; a shutdown request is
      final; the warning queue implements the event sink the store relies on.
    - The boot ([EntryPoint]): kopf is started only when every step was made,
      with the four timers gated and without finalizers where its registry is
      laid out as expected; elsewhere nothing is gated and the gauges say so.
    - Ownership ([Ownership]): each status field has its owners, and no handler
      writes another one, so the timers do not disturb each other.
    - Metrics ([MetricUpdates]): no update is ever rejected by the client library.
    - Deletion ([RetentionSpec], [PruneSpec]): an analysis is deleted only when
      its archival is verified, and the verification is durable first.
    - The status store ([StatusStoreSpec]): writes are atomic on one map, the
      cap is an invariant and spares protected anchors, pruning removes and
      reports exactly the dead entries and is all or nothing when it raises, a
      record is read back as it was set, the read-modify-write loop ends within
      five patches and survives conflicts.
    - Election ([SingletonSpec]): exactly one CR is served, the oldest, whatever
      the order of the listing, and a gated handler runs for it only.
    - The ticks: refinement of an abstract decision function and one-shot
      markers (SLA), budgets over time with the counts lost on the way
      (watchdog), cooldowns (recycler), the stall window
      against its reference definition and the spacing of restarts (stall
      monitor), the classes of failures (runner).
    - The clients: retry envelopes, no repetition of an answered mutating
      request, the allowlist of Redis commands, URLs and Secrets, archival names
      and shell quoting.
    - Observers: the audit posts one Event for each change, whatever becomes of
      the posts, warnings are delivered at least once,
      the layout check is total, the metrics endpoint leaks nothing, log lines
      keep their canonical fields.
    - The scripts: a rendered snippet has no placeholder left, every issue of a
      documented closing list and only open issues on a closing line are
      closed, the injection gate and the drift checker
      report exactly what their documentation asks for.
    - [failed_announcement_lost], [secret_fence_bypass],
      [secret_ref_only_not_pruned], [undecodable_token_escapes],
      [circular_value_escapes], [streak_never_counted],
      [other_repo_ref_misread], [wrapped_expr_passes] and others prove where the code and its
      documentation part.

    ** Bounds and fuel

    [_mutate_loop] recurses on [MAX_CONFLICT_RETRIES] = 5 attempts and [_attempts]
    on the retries of the client, as the loops of the code do.
    [_normalize_timestamps] has the size of the value as fuel, which
    the unfolding lemmas of [RestClientSpec] show to be enough.  The key scan of
    [validate_key_layout] has an argument [fuel]: a scan ends when Redis says so,
    and [None] stands for a scan that outlasts it ([layout_verdict] gives the
    enough).  [Sha256] pads to whole blocks and folds over them.  Everything
    else is structural recursion.

    ** Assumptions

    The answers of services are arbitrary, with these exceptions.  [StatusServer]:
    a read returns the stored status, a merge patch that succeeds or conflicts
    has its documented effect, and one that fails otherwise may have been
    applied.  [StatusApart] and [ConfigKeepsStatus]: a call that is not about the
    status of a CR, or loads the cluster configuration, does not write it.
    [GitHub]: what the three [gh] commands document; a close that fails may have
    closed the issue.  [RacingServer] and the worlds of the functional theorems
    on Redis: other writers and keys as described where they are used.
    [UrlTables] are the Unicode tables of [urlparse].  [TimerDecorator]: the
    entry [kopf.timer] makes has the id, the selector and the function given to
    it.  [KeyOrder] and [SetOrder] are unspecified iteration orders.  A handler
    runs without interleaving with another; between two handlers anything may
    happen.

    ** Not modelled

    Logging calls; floating point rounding (times
    are integers of microseconds, pauses are rationals); case folding outside
    ASCII; threads, connection pools, sockets and TLS themselves; [kopf.run] and
    kopf's own scheduling, which [Process] over-approximates; the argument
    parsers, printing and file access of the scripts; the non-ASCII letters and
    digits of the texts of the scripts; manifests, workflows and documentation.

    This file holds what all the others share. *)
From stdpp Require Export prelude strings gmap sorting pretty.
From Stdlib Require Export ZArith QArith Lia.

#[global] Open Scope Z_scope.
#[global] Open Scope stdpp_scope.
#[export] Set Warnings "-register-all".

(** ** Hint databases

    [within] holds the lemmas that bound what a computation may do to the
    state; [oscm] holds the small facts on lists and strings. *)
Create HintDb within discriminated.
Create HintDb oscm.
Create Rewrite HintDb oscm_rw.

(** ** Tactics *)

(** Split a goal or hypothesis on the first [match] or [if] that blocks it. *)
Ltac break_goal :=
  match goal with
  | |- context [match ?x with _ => _ end] => destruct x eqn:?
  end.

Ltac break_hyp H :=
  match type of H with
  | context [match ?x with _ => _ end] => destruct x eqn:?
  end.

(** [lia] on goals with division and remainder by constants. *)
Ltac dlia := Z.to_euclidean_division_equations; lia.

Ltac inv H := inversion H; subst; clear H.

(** ** Strings *)

Notation "s1 +:+ s2" := (String.append s1 s2) (only parsing) : stdpp_scope.

(** The double quote, kept out of literals. *)
Definition dquote : string := String (Ascii.ascii_of_nat 34) EmptyString.

(** The line feed. *)
Definition newline : string := String (Ascii.ascii_of_nat 10) EmptyString.

(** Characters by code. *)
Notation code := Ascii.nat_of_ascii.
Definition is_char (n : nat) (c : Ascii.ascii) : bool := Nat.eqb (code c) n.

(** [sep.join(l)] *)
Fixpoint join (sep : string) (l : list string) : string :=
  match l with
  | [] => ""
  | [x] => x
  | x :: l => x +:+ sep +:+ join sep l
  end.

(** [str(z)] for an integer *)
Definition str_of_Z (z : Z) : string := pretty z.

(** ** Lists *)

(** Python's [sorted] on strings: code-point order. *)
Definition sorted_strings (l : list string) : list string := merge_sort String.le l.

Lemma sorted_strings_perm l : sorted_strings l ≡ₚ l.
Proof. apply merge_sort_Permutation. Qed.

Lemma sorted_strings_length l : length (sorted_strings l) = length l.
Proof. by rewrite sorted_strings_perm. Qed.

Lemma elem_of_sorted_strings x l : x ∈ sorted_strings l ↔ x ∈ l.
Proof. by rewrite sorted_strings_perm. Qed.

Lemma NoDup_sorted_strings l : NoDup l → NoDup (sorted_strings l).
Proof. by rewrite sorted_strings_perm. Qed.

#[export] Hint Resolve NoDup_sorted_strings : oscm.

(** Python's [sorted] with a key: a stable sort by a boolean order. *)
Fixpoint insert_by {A} (leb : A → A → bool) (x : A) (l : list A) : list A :=
  match l with
  | [] => [x]
  | y :: l => if leb x y then x :: y :: l else y :: insert_by leb x l
  end.

Definition stable_sort {A} (leb : A → A → bool) (l : list A) : list A := foldr (insert_by leb) [] l.

Lemma insert_by_perm {A} leb (x : A) l : insert_by leb x l ≡ₚ x :: l.
Proof.
  induction l as [|y l IH]; simpl; [done|]. destruct (leb x y); [done|]. rewrite IH. apply Permutation_swap.
Qed.

Lemma stable_sort_perm {A} leb (l : list A) : stable_sort leb l ≡ₚ l.
Proof. induction l as [|x l IH]; simpl; [done|]. by rewrite insert_by_perm, IH. Qed.

Section stable_sort.
Context {A : Type} (leb : A → A → bool).
Context (leb_total : ∀ x y, leb x y = false → leb y x = true).
Context (leb_trans : ∀ x y z, leb x y = true → leb y z = true → leb x z = true).

Lemma insert_by_sorted x l :
  StronglySorted (λ a b, leb a b = true) l → StronglySorted (λ a b, leb a b = true) (insert_by leb x l).
Proof.
  induction 1 as [|y l Hl IH Hy]; simpl; [by repeat constructor|].
  destruct (leb x y) eqn:E.
  - constructor; [by constructor|]. constructor; [done|]. eapply Forall_impl; [exact Hy|]. eauto.
  - constructor; [done|]. rewrite insert_by_perm. constructor; [by apply leb_total|done].
Qed.

Lemma stable_sort_sorted l : StronglySorted (λ a b, leb a b = true) (stable_sort leb l).
Proof. induction l as [|x l IH]; simpl; [constructor|]. by apply insert_by_sorted. Qed.

(** The first element is a least one. *)
Lemma stable_sort_head l x : head (stable_sort leb l) = Some x → x ∈ l ∧ ∀ y, y ∈ l → y = x ∨ leb x y = true.
Proof.
  pose proof (stable_sort_sorted l) as Hs. pose proof (stable_sort_perm leb l) as Hp.
  destruct (stable_sort leb l) as [|x' l'] eqn:E; [done|]. intros [= ->]. rewrite <-Hp in *. split; [by left|].
  intros y. rewrite <-Hp. intros [->|Hy]%elem_of_cons; [by left|right].
  apply StronglySorted_inv in Hs as [_ Hf]. by eapply Forall_forall in Hf.
Qed.
End stable_sort.

(** A list split by a test is a permutation of the two parts. *)
Lemma filter_split_perm {A} (P : A → Prop) `{∀ x, Decision (P x)} (l : list A) :
  filter (λ x, ¬ P x) l ++ filter P l ≡ₚ l.
Proof.
  induction l as [|x l IH]; [done|].
  rewrite !filter_cons. destruct (decide (P x)) as [Hx|Hx].
  - rewrite decide_False by tauto. rewrite <-Permutation_middle. by rewrite IH.
  - rewrite decide_True by done. simpl. by rewrite IH.
Qed.

Lemma NoDup_take {A} n (l : list A) : NoDup l → NoDup (take n l).
Proof. intros H. rewrite <-(take_drop n l) in H. by apply NoDup_app in H as [? _]. Qed.

#[export] Hint Resolve NoDup_take : oscm.

(** ** Options *)

Definition opt_is_some {A} (o : option A) : bool :=
  match o with Some _ => true | None => false end.

Lemma opt_is_some_spec {A} (o : option A) : opt_is_some o = true ↔ is_Some o.
Proof. destruct o; simpl; split; intros; eauto; [done|by destruct H]. Qed.

(** ** Filters that keep all or nothing *)

Lemma filter_Forall_all {A} (Q : A → Prop) `{∀ x, Decision (Q x)} l : Forall Q l → filter Q l = l.
Proof. induction 1; [done|]. rewrite filter_cons_True by done. by f_equal. Qed.

Lemma filter_Forall_none {A} (Q : A → Prop) `{∀ x, Decision (Q x)} l : Forall (λ x, ¬ Q x) l → filter Q l = [].
Proof. induction 1; [done|]. by rewrite filter_cons_False. Qed.
