(* ===== verification/PyValue.v ===== *)
(** * Python values

    The dynamically typed values the operator handles: what [json.loads] of an
    API response can hold, plus the [datetime] objects the REST client puts in
    place of timestamp strings.  A [dict] is a finite map from strings; the
    order in which a server lists its keys is a parameter where the code
    iterates over it (see [Services]).  Fractional JSON numbers are not
    modelled: no path of the operator reads one. *)
From S2P Require Import Prelude.

Inductive pv :=
  | PNone
  | PBool (b : bool)
  | PInt (z : Z)
  | PStr (s : string)
  | PDate (t : Z)                 (** aware UTC datetime, microseconds since the epoch *)
  | PList (l : list pv)
  | PDict (m : gmap string pv).

(** ** Induction through lists and maps *)

Fixpoint pv_size (v : pv) : nat :=
  match v with
  | PList l => S (sum_list (pv_size <$> l))
  | PDict m => S (map_fold (λ _ v n, (pv_size v + n)%nat) O m)
  | _ => 1
  end.

Lemma pv_size_dict m k v : m !! k = Some v → (pv_size v < pv_size (PDict m))%nat.
Proof.
  intros H. simpl. rewrite (map_fold_delete_L _ _ k v m); [lia| |done]. intros; lia.
Qed.

Lemma pv_size_list l v : v ∈ l → (pv_size v < pv_size (PList l))%nat.
Proof. intros H. enough (pv_size v ≤ sum_list (pv_size <$> l))%nat by (simpl; lia). induction H; csimpl; lia. Qed.

Lemma pv_rect_nested (Q : pv → Prop) :
  (∀ v, (∀ w, (pv_size w < pv_size v)%nat → Q w) → Q v) → ∀ v, Q v.
Proof.
  intros IH v. remember (pv_size v) as n eqn:E.
  revert v E. induction (lt_wf n) as [n _ IHn]; intros v ->.
  apply IH. intros w Hw. by apply (IHn (pv_size w)).
Qed.

#[export] Instance pv_eq_dec : EqDecision pv.
Proof.
  refine (fix go (x y : pv) := match x, y with
  | PNone, PNone => left eq_refl
  | PBool a, PBool b => cast_if (decide (a = b))
  | PInt a, PInt b => cast_if (decide (a = b))
  | PStr a, PStr b => cast_if (decide (a = b))
  | PDate a, PDate b => cast_if (decide (a = b))
  | PList a, PList b => cast_if (@decide (a = b) (@list_eq_dec pv go a b))
  | PDict a, PDict b => cast_if (@decide (a = b) (@gmap_eq_dec string _ _ pv go a b))
  | _, _ => right _ end); abstract congruence.
Defined.

(** ** Equality and truth *)

(** Python's [==]: [True == 1] and [False == 0]; dictionaries compare without
    regard to key order. *)
Fixpoint norm (v : pv) : pv :=
  match v with
  | PBool b => PInt (if b then 1 else 0)
  | PList l => PList (norm <$> l)
  | PDict m => PDict (norm <$> m)
  | _ => v
  end.

Definition py_eq (x y : pv) : bool := bool_decide (norm x = norm y).

Lemma py_eq_refl x : py_eq x x = true.
Proof. by apply bool_decide_eq_true. Qed.

(** [bool(v)] *)
Definition truthy (v : pv) : bool :=
  match v with
  | PNone => false
  | PBool b => b
  | PInt z => negb (z =? 0)
  | PStr s => negb (String.eqb s "")
  | PDate _ => true
  | PList l => match l with [] => false | _ => true end
  | PDict m => bool_decide (m ≠ ∅)
  end.

(** [v or w] *)
Definition py_or (v w : pv) : pv := if truthy v then v else w.

(** [type(v).__name__] *)
Definition type_name (v : pv) : string :=
  match v with
  | PNone => "NoneType" | PBool _ => "bool" | PInt _ => "int" | PStr _ => "str"
  | PDate _ => "datetime" | PList _ => "list" | PDict _ => "dict"
  end.

Definition is_dict (v : pv) : bool := match v with PDict _ => true | _ => false end.

Definition as_dict (v : pv) : option (gmap string pv) :=
  match v with PDict m => Some m | _ => None end.

(** [m.get(k)]: an absent key reads as [None]. *)
Definition dget (m : gmap string pv) (k : string) : pv := default PNone (m !! k).

(** ** [repr] and [str] *)

Section repr.
Local Open Scope string_scope.

Definition hex_digit (n : nat) : string :=
  match String.get n "0123456789abcdef" with
  | Some c => String c EmptyString
  | None => EmptyString
  end.

Definition repr_char (quote : nat) (c : Ascii.ascii) : string :=
  let n := Ascii.nat_of_ascii c in
  if Nat.eqb n 92 then String c (String c EmptyString)
  else if Nat.eqb n quote then String (Ascii.ascii_of_nat 92) (String c EmptyString)
  else if Nat.eqb n 10 then "\n"
  else if Nat.eqb n 13 then "\r"
  else if Nat.eqb n 9 then "\t"
  else if Nat.ltb n 32 || Nat.eqb n 127
  then "\x" ++ hex_digit (n / 16) ++ hex_digit (n mod 16)
  else String c EmptyString.

Fixpoint repr_chars (quote : nat) (s : string) : string :=
  match s with
  | EmptyString => EmptyString
  | String c s => repr_char quote c ++ repr_chars quote s
  end.

Fixpoint has_char (n : nat) (s : string) : bool :=
  match s with
  | EmptyString => false
  | String c s => Nat.eqb (Ascii.nat_of_ascii c) n || has_char n s
  end.

(** [repr(s)]: single quotes, unless the text holds one and no double quote. *)
Definition repr_str (s : string) : string :=
  let q := if has_char 39 s && negb (has_char 34 s) then 34%nat else 39%nat in
  let qs := String (Ascii.ascii_of_nat q) EmptyString in
  qs ++ repr_chars q s ++ qs.
End repr.

(** [str(v)] of the scalar values; containers and datetimes, which the code never
    formats, print as their type's name. *)
Definition py_str (v : pv) : string :=
  match v with
  | PNone => "None"
  | PBool b => if b then "True" else "False"
  | PInt z => str_of_Z z
  | PStr s => s
  | v => "<" +:+ type_name v +:+ ">"
  end.

(** [str(doc.get(k) or "")] *)
Definition str_or_empty (v : pv) : string := py_str (py_or v (PStr "")).

Definition py_repr (v : pv) : string :=
  match v with PStr s => repr_str s | v => py_str v end.

(** ** JSON merge patch

    RFC 7386, the semantics the Kubernetes API server documents for the content
    type [application/merge-patch+json].  [patcher p] is the action of the patch
    document [p] on a target; [None] means the member is removed. *)
Fixpoint patcher (p : pv) : pv → option pv :=
  match p with
  | PNone => λ _, None
  | PDict pm =>
      let fs := patcher <$> pm in
      λ t, Some (PDict (merge (λ o q, match q with
                                      | None => o
                                      | Some f => f (default PNone o)
                                      end)
                              (default ∅ (as_dict t)) fs))
  | v => λ _, Some v
  end.

Definition merge_patch (t p : pv) : pv := default PNone (patcher p t).

Definition merge_dict (t p : gmap string pv) : gmap string pv :=
  merge (λ o q, match q with
                | None => o
                | Some v => patcher v (default PNone o)
                end) t p.

Lemma merge_patch_dict t p : merge_patch t (PDict p) = PDict (merge_dict (default ∅ (as_dict t)) p).
Proof.
  unfold merge_patch, merge_dict. simpl. f_equal. apply map_eq. intros k.
  rewrite !lookup_merge, lookup_fmap.
  destruct (p !! k), (default ∅ (as_dict t) !! k); done.
Qed.

Lemma patcher_dict p t : patcher (PDict p) t = Some (PDict (merge_dict (default ∅ (as_dict t)) p)).
Proof.
  pose proof (merge_patch_dict t p) as H. unfold merge_patch in H.
  simpl in *. by f_equal.
Qed.

Lemma lookup_merge_dict t p k :
  merge_dict t p !! k =
  match p !! k with
  | None => t !! k
  | Some v => patcher v (default PNone (t !! k))
  end.
Proof. unfold merge_dict. rewrite lookup_merge. by destruct (p !! k), (t !! k). Qed.

Lemma merge_dict_singleton t k v :
  merge_dict t {[k := v]} =
  match patcher v (default PNone (t !! k)) with
  | Some w => <[k := w]> t
  | None => delete k t
  end.
Proof.
  apply map_eq. intros k'. rewrite lookup_merge_dict.
  destruct (decide (k' = k)) as [->|Hne].
  - rewrite lookup_singleton_eq. destruct (patcher _ _); by simplify_map_eq.
  - rewrite lookup_singleton_ne by done. destruct (patcher _ _); by simplify_map_eq.
Qed.

(** A document without null members: a merge patch of it onto itself is the
    identity.  (A merge patch can only create such documents.) *)
Fixpoint no_null (v : pv) : bool :=
  match v with
  | PNone => false
  | PDict m => map_fold (λ _ v b, no_null v && b) true m
  | _ => true
  end.

Lemma no_null_dict m : no_null (PDict m) = true ↔ map_Forall (λ _ v, no_null v = true) m.
Proof.
  simpl. induction m as [|k v m Hk Hf IH] using map_first_key_ind.
  - rewrite map_fold_empty. split; [intros _; apply map_Forall_empty|done].
  - rewrite map_fold_insert_L by first [done | intros; destruct (no_null _), (no_null _); done].
    rewrite andb_true_iff, map_Forall_insert, IH by done. done.
Qed.

Lemma patcher_self v : no_null v = true → patcher v v = Some v.
Proof.
  induction v as [v IH] using pv_rect_nested. destruct v as [| | | | | |m]; try done.
  intros Hm. rewrite patcher_dict. do 2 f_equal. apply map_eq. intros k. simpl.
  rewrite lookup_merge_dict. destruct (m !! k) as [v|] eqn:E; [|done]. simpl.
  apply IH; [by eapply pv_size_dict|]. apply no_null_dict in Hm. by apply (Hm k).
Qed.

Lemma patcher_Some v t : v ≠ PNone → is_Some (patcher v t).
Proof. destruct v; simpl; eauto. done. Qed.
