(* ===== verification/Effects.v ===== *)
(** * Effects

    The operator is a sequential Python process talking to the Kubernetes API,
    the OpenStudio REST API and Redis.  A piece of it is a computation of type
    [M W P A] over
    - [world : W], everything outside the process (a type parameter);
    - [mem : P], the process memory the component keeps (a type parameter);
    - [shared], the module-level state of [status_store.py];
    - [log], the outward actions performed so far, oldest first.
    A raised exception keeps the state reached when it was raised, as in
    Python.  Logging ([logger.*] calls) is not modelled. *)
From S2P Require Import Prelude PyValue.

(** ** Exceptions *)

Inductive exn :=
  | ApiException (status : Z) (reason : string)        (** kubernetes client *)
  | ConfigException (msg : string)                     (** kubernetes.config *)
  | LocationValueError (msg : string)                  (** urllib3 *)
  | UrllibTimeout (msg : string)                       (** urllib3 TimeoutError *)
  | MaxRetryError (timeout : bool) (msg : string)      (** urllib3; [timeout]: its reason is a TimeoutError *)
  | RequestsError (transient : bool) (cls msg : string) (** requests.exceptions *)
  | RedisError (msg : string)                          (** redis-py *)
  | StatusStoreError (msg : string)
  | StatusStoreConflictError (msg : string)
  | OpenStudioApiError (msg : string)
  | RedisClientError (msg : string)
  | RedisCredentialResolutionError (msg : string) (cause : option Z)
  | WriteCommandForbidden (msg : string)
  | OperatorConfigError (msg : string)
  | SingletonGuardError (msg : string)
  | ValueError (msg : string)
  | TypeError (msg : string)
  | AttributeError (msg : string)
  | KeyError (msg : string)
  | OverflowError (msg : string)
  | OSError (msg : string)
  | OtherError (cls msg : string).

(** [type(exc).__name__] *)
Definition exn_class (e : exn) : string :=
  match e with
  | ApiException _ _ => "ApiException"
  | ConfigException _ => "ConfigException"
  | LocationValueError _ => "LocationValueError"
  | UrllibTimeout _ => "TimeoutError"
  | MaxRetryError _ _ => "MaxRetryError"
  | RequestsError _ cls _ => cls
  | RedisError _ => "RedisError"
  | StatusStoreError _ => "StatusStoreError"
  | StatusStoreConflictError _ => "StatusStoreConflictError"
  | OpenStudioApiError _ => "OpenStudioApiError"
  | RedisClientError _ => "RedisClientError"
  | RedisCredentialResolutionError _ _ => "RedisCredentialResolutionError"
  | WriteCommandForbidden _ => "WriteCommandForbidden"
  | OperatorConfigError _ => "OperatorConfigError"
  | SingletonGuardError _ => "SingletonGuardError"
  | ValueError _ => "ValueError"
  | TypeError _ => "TypeError"
  | AttributeError _ => "AttributeError"
  | KeyError _ => "KeyError"
  | OverflowError _ => "OverflowError"
  | OSError _ => "OSError"
  | OtherError cls _ => cls
  end.

Definition exn_msg (e : exn) : string :=
  match e with
  | ApiException _ m | ConfigException m | LocationValueError m | UrllibTimeout m
  | MaxRetryError _ m | RequestsError _ _ m | RedisError m | StatusStoreError m
  | StatusStoreConflictError m | OpenStudioApiError m | RedisClientError m
  | RedisCredentialResolutionError m _ | WriteCommandForbidden m | OperatorConfigError m
  | SingletonGuardError m | ValueError m | TypeError m | AttributeError m
  | KeyError m | OverflowError m | OSError m | OtherError _ m => m
  end.

(** The subclass tests of the [except] clauses. *)
Definition is_api_exception (e : exn) : bool :=
  match e with ApiException _ _ => true | _ => false end.
Definition is_status_store_error (e : exn) : bool :=
  match e with StatusStoreError _ | StatusStoreConflictError _ => true | _ => false end.
Definition is_redis_client_error (e : exn) : bool :=
  match e with RedisClientError _ | RedisCredentialResolutionError _ _ => true | _ => false end.
Definition is_value_error (e : exn) : bool :=
  match e with ValueError _ | LocationValueError _ => true | _ => false end.

(** ** Results *)

Inductive res (A : Type) :=
  | Ok (a : A)
  | Raise (e : exn).
Arguments Ok {A} a.
Arguments Raise {A} e.

#[export] Instance res_ret : MRet res := λ A a, Ok a.
#[export] Instance res_bind : MBind res := λ A B f m,
  match m with Ok a => f a | Raise e => Raise e end.

Definition is_ok {A} (r : res A) : bool := match r with Ok _ => true | Raise _ => false end.

(** Run a list of fallible conversions in order, stopping at the first failure. *)
Fixpoint map_res {A B} (f : A → res B) (l : list A) : res (list B) :=
  match l with
  | [] => Ok []
  | x :: l => b ← f x; bs ← map_res f l; mret (b :: bs)
  end.

Lemma map_res_Ok {A B} (f : A → res B) l bs :
  map_res f l = Ok bs ↔ Forall2 (λ x b, f x = Ok b) l bs.
Proof.
  revert bs. induction l as [|x l IH]; intros bs; simpl.
  - split; [intros [= <-]; constructor|by inversion 1].
  - unfold mbind, res_bind, mret, res_ret. split.
    + destruct (f x) as [b|] eqn:E; [|done].
      destruct (map_res f l) as [bs'|] eqn:E2; [|done].
      intros [= <-]. constructor; [done|]. by apply IH.
    + inversion 1 as [|? b ? bs' Hb Hbs]; subst. rewrite Hb.
      apply IH in Hbs. by rewrite Hbs.
Qed.

Lemma res_bind_Ok {A B} (m : res A) (f : A → res B) b :
  m ≫= f = Ok b ↔ ∃ a, m = Ok a ∧ f a = Ok b.
Proof. destruct m; split; naive_solver. Qed.

Lemma is_ok_bind {A B} (m : res A) (f : A → res B) :
  is_ok (m ≫= f) = match m with Ok a => is_ok (f a) | Raise _ => false end.
Proof. by destruct m. Qed.

(** ** Outward actions *)

Inductive metric_value :=
  | MInt (z : Z)
  | MSeconds (micros : Z)
  | MNow.                        (** [time.time()] at the moment of the write *)

Notation labels := (list (string * string)).

Inductive action :=
  (* Kubernetes API *)
  | KubeGetStatus (namespace name : string)
  | KubePatchStatus (namespace name : string) (body : pv)
  | KubeListCrs (namespace : string)
  | KubeReadSecret (name namespace : string)
  | KubeListPods (namespace : string) (selector : option string)
  | KubeDeletePod (name namespace : string) (grace_period_seconds : option Z)
  | KubeReadDeployment (name namespace : string)
  | KubePatchDeployment (name namespace : string) (body : pv)
  | KubeReadJob (name namespace : string)
  | KubeCreateJob (namespace : string) (body : pv)
  | KubeDeleteJob (name namespace propagation_policy : string)
  | KubeCreateEvent (namespace : string) (body : pv)
  | LoadKubeConfig
  | KopfEvent (obj : pv) (type reason message : string)
  (* OpenStudio REST API and Redis *)
  | HttpRequest (method url : string) (params data : list (string * string))
  | RedisCommand (command : string) (args : list string)
  (* the process itself *)
  | Sleep (seconds : Q)
  | MetricInc (family : string) (ls : labels) (n : Z)
  | MetricSet (family : string) (ls : labels) (v : metric_value)
  | MetricObserve (family : string) (ls : labels).

#[export] Instance Q_eq_dec : EqDecision Q.
Proof. solve_decision. Defined.
#[export] Instance metric_value_eq_dec : EqDecision metric_value.
Proof. solve_decision. Defined.
#[export] Instance action_eq_dec : EqDecision action.
Proof. solve_decision. Defined.

(** ** State *)

(** Module globals of [status_store.py]: [_PROTECTED_ANCHOR_KEYS], and the
    [_cache] slot of the store in use (written, never read by the package). *)
Record store_mem := StoreMem {
  protected_anchor_keys : gmap (string * string * string) (gset string);
  status_cache : option (gmap string pv);
}.

Record st (W P : Type) := St {
  world : W;
  mem : P;
  shared : store_mem;
  log : list action;
}.
Arguments St {W P} world mem shared log.
Arguments world {W P} s.
Arguments mem {W P} s.
Arguments shared {W P} s.
Arguments log {W P} s.

Definition M (W P A : Type) : Type := st W P → res A * st W P.

#[export] Instance M_ret {W P} : MRet (M W P) := λ A a s, (Ok a, s).
#[export] Instance M_bind {W P} : MBind (M W P) := λ A B f m s,
  match m s with
  | (Ok a, s') => f a s'
  | (Raise e, s') => (Raise e, s')
  end.

Section ops.
Context {W P : Type}.
Implicit Types s : st W P.

Definition raise {A} (e : exn) : M W P A := λ s, (Raise e, s).

(** [try: m except e: h(e)] where [h e = None] re-raises. *)
Definition try_except {A} (m : M W P A) (h : exn → option (M W P A)) : M W P A := λ s,
  match m s with
  | (Raise e, s') => match h e with Some k => k s' | None => (Raise e, s') end
  | r => r
  end.

(** [try: m finally: f] for an [f] that does not raise. *)
Definition finally {A} (m : M W P A) (f : M W P unit) : M W P A := λ s,
  let '(r, s') := m s in (r, (f s').2).

(** [finally] whose block can tell whether the body returned. *)
Definition finally_with {A} (m : M W P A) (f : bool → M W P unit) : M W P A := λ s,
  let '(r, s') := m s in (r, (f (is_ok r) s').2).

Definition of_res {A} (r : res A) : M W P A := λ s, (r, s).

Definition get_mem : M W P P := λ s, (Ok (mem s), s).
Definition set_mem (p : P) : M W P unit := λ s,
  (Ok tt, St (world s) p (shared s) (log s)).
Definition modify_mem (f : P → P) : M W P unit := p ← get_mem; set_mem (f p).

Definition get_shared : M W P store_mem := λ s, (Ok (shared s), s).
Definition set_shared (g : store_mem) : M W P unit := λ s,
  (Ok tt, St (world s) (mem s) g (log s)).

(** An action the process performs by itself. *)
Definition act (a : action) : M W P unit := λ s,
  (Ok tt, St (world s) (mem s) (shared s) (log s ++ [a])).

(** The pause before a retry ([_retry.py]): an action, as a test seam. *)
Definition _sleep (seconds : Q) : M W P unit := act (Sleep seconds).

(** A call that leaves the process: it is logged and the world answers. *)
Definition ext {A} (a : action) (f : W → res A * W) : M W P A := λ s,
  let '(r, w) := f (world s) in (r, St w (mem s) (shared s) (log s ++ [a])).

(** A query of the world that is no call (random numbers, the clock). *)
Definition ask {A} (f : W → A) : M W P A := λ s, (Ok (f (world s)), s).

(** [for x in l: f(x)] *)
Fixpoint foreach {A} (l : list A) (f : A → M W P unit) : M W P unit :=
  match l with
  | [] => mret tt
  | x :: l => f x;; foreach l f
  end.

(** [for x in l: acc = f(acc, x)] *)
Fixpoint fold_m {A B} (f : B → A → M W P B) (b : B) (l : list A) : M W P B :=
  match l with
  | [] => mret b
  | x :: l => b' ← f b x; fold_m f b' l
  end.

(** [[f(x) for x in l]] *)
Fixpoint map_m {A B} (f : A → M W P B) (l : list A) : M W P (list B) :=
  match l with
  | [] => mret []
  | x :: l => b ← f x; bs ← map_m f l; mret (b :: bs)
  end.

Definition when (b : bool) (m : M W P unit) : M W P unit := if b then m else mret tt.
End ops.

(** Metric writes. *)
Definition inc {W P} family ls : M W P unit := act (MetricInc family ls 1).
Definition gauge {W P} family ls v : M W P unit := act (MetricSet family ls v).

(** [with observe_duration(family, **labels): m] of [metrics.py]: the
    observation is recorded whether or not [m] raises. *)
Definition observe_duration {W P A} (family : string) (ls : labels) (m : M W P A) : M W P A :=
  finally m (act (MetricObserve family ls)).

(** Run a component on its part of a larger memory; the part is written back
    whether or not it raises. *)
Definition zoom {W P Q A} (get : P → Q) (put : Q → P → P) (m : M W Q A) : M W P A := λ s,
  let '(r, s') := m (St (world s) (get (mem s)) (shared s) (log s)) in
  (r, St (world s') (put (mem s') (mem s)) (shared s') (log s')).

(** A component of type [C] inside the memory [P]. *)
Class Lens (P C : Type) := {
  lget : P → C;
  lput : C → P → P;
  lget_lput c p : lget (lput c p) = c;
}.
#[export] Hint Mode Lens ! ! : typeclass_instances.

#[export] Instance lens_self {C} : Lens C C := { lget := id; lput c _ := c; lget_lput c p := eq_refl }.

Definition get_part {W P C} `{Lens P C} : M W P C := p ← get_mem; mret (lget p).
Definition put_part {W P C} `{Lens P C} (c : C) : M W P unit := modify_mem (lput c).

(** Two components of one memory that do not overlap. *)
Class LensesApart (P C D : Type) `{Lens P C} `{Lens P D} : Prop := {
  lget_apart (c : C) (p : P) : lget (C:=D) (lput c p) = lget p;
}.
