(* ===== verification/Logic.v ===== *)
(** * Reasoning about computations

    Two styles are used.  [within R m] bounds what [m] can do to the state in
    every run, successful or not, by a preorder [R]; it is compositional and
    mostly automatic ([solve_within]).  [wp m Q s] is the exact outcome of one
    run. *)
From S2P Require Import Prelude PyValue Effects.

Declare Scope oscm_scope.
Delimit Scope oscm_scope with oscm.

(** ** Exact runs *)

Definition wp {W P A} (m : M W P A) (Q : res A → st W P → Prop) (s : st W P) : Prop :=
  Q (m s).1 (m s).2.

Section wp.
Context {W P : Type}.
Implicit Types s : st W P.

Lemma wp_run {A} (m : M W P A) Q s r s' : m s = (r, s') → wp m Q s → Q r s'.
Proof. unfold wp. by intros ->. Qed.

Lemma wp_mono {A} (m : M W P A) (Q Q' : res A → st W P → Prop) s :
  wp m Q s → (∀ r s', Q r s' → Q' r s') → wp m Q' s.
Proof. unfold wp. auto. Qed.

Lemma wp_ret {A} (a : A) Q s : wp (mret a) Q s ↔ Q (Ok a) s.
Proof. done. Qed.

Lemma wp_bind {A B} (m : M W P A) (f : A → M W P B) Q s :
  wp (m ≫= f) Q s ↔
  wp m (λ r s', match r with Ok a => wp (f a) Q s' | Raise e => Q (Raise e) s' end) s.
Proof. unfold wp, mbind, M_bind. by destruct (m s) as [[a|e] s']. Qed.

Lemma bind_Ok {A B} (m : M W P A) (f : A → M W P B) s b s2 :
  (m ≫= f) s = (Ok b, s2) ↔ ∃ a s1, m s = (Ok a, s1) ∧ f a s1 = (Ok b, s2).
Proof.
  unfold mbind, M_bind. destruct (m s) as [[a|e] s1]; split.
  - intros H. by exists a, s1.
  - by intros (a' & s1' & [= <- <-] & H).
  - done.
  - by intros (? & ? & [=] & _).
Qed.

Lemma bind_run {A B} (m : M W P A) (f : A → M W P B) s a s1 :
  m s = (Ok a, s1) → (m ≫= f) s = f a s1.
Proof. unfold mbind, M_bind. by intros ->. Qed.

Lemma bind_raise {A B} (m : M W P A) (f : A → M W P B) s e s1 :
  m s = (Raise e, s1) → (m ≫= f) s = (Raise e, s1).
Proof. unfold mbind, M_bind. by intros ->. Qed.
End wp.

(** ** Bounds on every run *)

Definition within {W P A} (R : relation (st W P)) (m : M W P A) : Prop :=
  ∀ s, R s (m s).2.

Section within.
Context {W P : Type} (R : relation (st W P)) `{!PreOrder R}.

Lemma within_ret {A} (a : A) : within R (mret a).
Proof. intros s. simpl. reflexivity. Qed.

Lemma within_raise {A} e : within R (raise (A:=A) e).
Proof. intros s. simpl. reflexivity. Qed.

Lemma within_of_res {A} (r : res A) : within R (of_res r).
Proof. intros s. simpl. reflexivity. Qed.

Lemma within_get_mem : within R get_mem.
Proof. intros s. simpl. reflexivity. Qed.

Lemma within_ask {A} (f : W → A) : within R (ask f).
Proof. intros s. simpl. reflexivity. Qed.

Lemma within_get_shared : within R get_shared.
Proof. intros s. simpl. reflexivity. Qed.

Lemma within_bind {A B} (m : M W P A) (f : A → M W P B) :
  within R m → (∀ a, within R (f a)) → within R (m ≫= f).
Proof.
  intros Hm Hf s. specialize (Hm s). unfold mbind, M_bind.
  destruct (m s) as [[a|e] s1]; simpl in *; [|done].
  etransitivity; [exact Hm|apply Hf].
Qed.

(** The value of a pure step is known in the rest. *)
Lemma within_of_res_bind {A B} (r : res A) (f : A → M W P B) :
  (∀ a, r = Ok a → within R (f a)) → within R (of_res r ≫= f).
Proof.
  intros Hf s. destruct r as [a|e]; [by apply Hf|]. simpl. reflexivity.
Qed.

Lemma within_try {A} (m : M W P A) h :
  within R m → (∀ e k, h e = Some k → within R k) → within R (try_except m h).
Proof.
  intros Hm Hh s. specialize (Hm s). unfold try_except.
  destruct (m s) as [[a|e] s1]; simpl in *; [done|].
  destruct (h e) as [k|] eqn:E; simpl; [|done].
  etransitivity; [exact Hm|by eapply Hh].
Qed.

Lemma within_finally {A} (m : M W P A) f :
  within R m → within R f → within R (finally m f).
Proof.
  intros Hm Hf s. specialize (Hm s). unfold finally.
  destruct (m s) as [r s1]; simpl in *. etransitivity; [exact Hm|apply Hf].
Qed.

Lemma within_finally_with {A} (m : M W P A) f :
  within R m → (∀ b, within R (f b)) → within R (finally_with m f).
Proof.
  intros Hm Hf s. specialize (Hm s). unfold finally_with.
  destruct (m s) as [r s1]; simpl in *. etransitivity; [exact Hm|apply Hf].
Qed.

Lemma within_foreach {A} (l : list A) f :
  (∀ x, x ∈ l → within R (f x)) → within R (foreach l f).
Proof.
  induction l as [|x l IH]; intros Hf; simpl; [apply within_ret|].
  apply within_bind; [apply Hf; set_solver|]. intros _. apply IH. set_solver.
Qed.

Lemma within_fold_m {A B} (f : B → A → M W P B) b l :
  (∀ b x, x ∈ l → within R (f b x)) → within R (fold_m f b l).
Proof.
  revert b. induction l as [|x l IH]; intros b Hf; simpl; [apply within_ret|].
  apply within_bind; [apply Hf; set_solver|]. intros b'. apply IH. set_solver.
Qed.

Lemma within_map_m {A B} (f : A → M W P B) l :
  (∀ x, x ∈ l → within R (f x)) → within R (map_m f l).
Proof.
  induction l as [|x l IH]; intros Hf; simpl; [apply within_ret|].
  apply within_bind; [apply Hf; set_solver|]. intros b.
  apply within_bind; [apply IH; set_solver|]. intros bs. apply within_ret.
Qed.

Lemma within_when b m : within R m → within R (when b m).
Proof. destruct b; [done|]. intros _. apply within_ret. Qed.
End within.

(** ** What a run may emit *)

(** [emits Pa]: the log only grows, by actions that satisfy [Pa]. *)
Definition emits {W P} (Pa : action → Prop) : relation (st W P) := λ s s',
  ∃ l, log s' = log s ++ l ∧ Forall Pa l.

#[export] Instance emits_preorder {W P} Pa : PreOrder (@emits W P Pa).
Proof.
  split.
  - intros s. exists []. by rewrite app_nil_r.
  - intros s1 s2 s3 (l & H1 & Hl) (l' & H2 & Hl'). exists (l ++ l').
    rewrite H2, H1, assoc by apply _. split; [done|]. by apply Forall_app.
Qed.

(** [keeps f]: a part of the state no run changes. *)
Definition keeps {W P X} (f : st W P → X) : relation (st W P) := λ s s', f s' = f s.

#[export] Instance keeps_preorder {W P X} (f : st W P → X) : PreOrder (keeps f).
Proof. split; [by intros ?|]. intros ??? H1 H2. unfold keeps in *. congruence. Qed.

Lemma run_keeps {W P X A} (f : st W P → X) (m : M W P A) s r s' :
  within (keeps f) m → m s = (r, s') → f s' = f s.
Proof. intros Hm E. specialize (Hm s). by rewrite E in Hm. Qed.

(** Both bounds at once. *)
Definition rel_and {X} (R1 R2 : relation X) : relation X := λ x y, R1 x y ∧ R2 x y.

#[export] Instance rel_and_preorder {X} (R1 R2 : relation X) :
  PreOrder R1 → PreOrder R2 → PreOrder (rel_and R1 R2).
Proof.
  intros H1 H2. split.
  - intros x. split; reflexivity.
  - intros x y z [??] [??]. split; etransitivity; eassumption.
Qed.

Section emits.
Context {W P : Type} (Pa : action → Prop).

Lemma within_emits_act a : Pa a → within (emits Pa) (act (W:=W) (P:=P) a).
Proof. intros Ha s. exists [a]. simpl. auto. Qed.

Lemma within_emits_ext {A} a (f : W → res A * W) :
  Pa a → within (emits Pa) (ext (P:=P) a f).
Proof. intros Ha s. unfold ext. destruct (f (world s)) as [r w]. exists [a]. simpl. auto. Qed.

Lemma within_emits_set_mem p : within (emits Pa) (set_mem (W:=W) (P:=P) p).
Proof. intros s. exists []. simpl. by rewrite app_nil_r. Qed.

Lemma within_emits_set_shared g : within (emits Pa) (set_shared (W:=W) (P:=P) g).
Proof. intros s. exists []. simpl. by rewrite app_nil_r. Qed.

Lemma within_emits_weaken {A} (Qa : action → Prop) (m : M W P A) :
  (∀ a, Qa a → Pa a) → within (emits Qa) m → within (emits Pa) m.
Proof. intros H Hm s. destruct (Hm s) as (l & ? & ?). exists l. eauto using Forall_impl. Qed.

Lemma within_emits_zoom {Q A} (get : P → Q) put (m : M W Q A) :
  within (emits Pa) m → within (emits Pa) (zoom get put m).
Proof.
  intros Hm s. unfold zoom.
  specialize (Hm (St (world s) (get (mem s)) (shared s) (log s))).
  destruct (m _) as [r s']. exact Hm.
Qed.

(** The actions of a run are those already logged and new ones that satisfy [Pa]. *)
Lemma emits_in {A} (m : M W P A) s r s' a :
  within (emits Pa) m → m s = (r, s') → a ∈ log s' → a ∈ log s ∨ Pa a.
Proof.
  intros Hm E Ha. destruct (Hm s) as (l & Hl & HP). rewrite E in Hl. simpl in Hl.
  rewrite Hl in Ha. apply elem_of_app in Ha as [?|Ha]; [by left|right].
  by eapply Forall_forall in HP.
Qed.
End emits.

Ltac head_of t := match t with ?f _ => head_of f | _ => t end.

Ltac within_step :=
  match goal with
  | |- within _ (mret _) => apply within_ret; apply _
  | |- within _ (raise _) => apply within_raise; apply _
  | |- within _ (of_res _) => apply within_of_res; apply _
  | |- within _ get_mem => apply within_get_mem; apply _
  | |- within _ get_shared => apply within_get_shared; apply _
  | |- within _ (_ ≫= _) => apply within_bind; [apply _| |intros ?]
  | |- within _ (try_except _ _) =>
      apply within_try; [apply _| |let e := fresh "e" in intros e ? ?; destruct e; simplify_eq/=]
  | |- within _ (finally_with _ _) => apply within_finally_with; [apply _| |intros ?]
  | |- within _ (finally _ _) => apply within_finally; [apply _| |]
  | |- within _ (observe_duration _ _ _) => apply within_finally; [apply _| |]
  | |- within _ (foreach _ _) => apply within_foreach; [apply _|intros ? ?]
  | |- within _ (fold_m _ _ _) => apply within_fold_m; [apply _|intros ? ? ?]
  | |- within _ (map_m _ _) => apply within_map_m; [apply _|intros ? ?]
  | |- within _ (when _ _) => apply within_when; [apply _|]
  | |- within (emits _) (act _) => apply within_emits_act
  | |- within (emits _) (inc _ _) => apply within_emits_act
  | |- within (emits _) (gauge _ _ _) => apply within_emits_act
  | |- within (emits _) (ext _ _) => apply within_emits_ext
  | |- within _ (ask _) => apply within_ask; apply _
  | |- within (emits _) (set_mem _) => apply within_emits_set_mem
  | |- within (emits _) (modify_mem _) => unfold modify_mem
  | |- within (emits _) (set_shared _) => apply within_emits_set_shared
  | |- within (emits _) (zoom _ _ _) => apply within_emits_zoom
  | |- within (keeps _) (act _) => intros ?; reflexivity
  | |- within (keeps _) (set_shared _) => intros ?; reflexivity
  | |- within _ (match ?x with _ => _ end) => destruct x
  | |- within _ ?m => let h := head_of m in unfold h
  end.

Ltac solve_within :=
  repeat (first [solve [eauto 2 with within] | within_step]);
  try (simpl; done).
