(* ===== verification/Metrics.v ===== *)
(** * The metric families ([metrics.py], the declarations)

    Each family as the module declares it: its kind, its name, its help text,
    its label names and its buckets (none: the default of the client library);
    the name of a definition is the name of the variable.  An update of the
    model names that variable.  [prometheus_client] raises ValueError when the
    labels of an update are not those declared, when a counter is incremented by
    a negative amount, and has no such method for the other kinds of a family;
    [well_declared] rules these out. *)
From S2P Require Import Prelude PyValue Effects.

Inductive metric_kind := Counter | Gauge | Histogram.

Record metric := Metric {
  kind : metric_kind;
  metric_name : string;
  documentation : string;
  labelnames : list string;
  buckets : list Q;
}.

Definition _HANDLER_TICK_BUCKETS : list Q := [1 # 20; 1 # 10; 1 # 2; 1 # 1; 2 # 1; 5 # 1; 10 # 1; 30 # 1]%Q.
Definition _REST_REQUEST_BUCKETS : list Q := [1 # 20; 1 # 10; 1 # 2; 1 # 1; 2 # 1; 5 # 1]%Q.
Definition _DEPENDENCY_REQUEST_BUCKETS : list Q := [1 # 20; 1 # 10; 1 # 2; 1 # 1; 2 # 1; 5 # 1]%Q.

Definition SOFT_STOPS_TOTAL : metric := Metric Counter "openstudio_operator_soft_stops_total"
  ("Analyses soft-stopped by the SLA monitor. Labelled by ``outcome`` (issue #309) so the dashboard can " +:+
   "distinguish real soft-stops (``issued``) from dry-run-marked suppressions (``dry-run``). Incremented " +:+
   "at the soft-stop branch in ``run_sla_tick``.")
  ["outcome"] [].
Definition STOP_STOPS_TOTAL : metric := Metric Counter "openstudio_operator_stops_total"
  ("Analyses hard-stopped by the SLA escalation fallback (POST /analyses/{id}/action stop; issue #707). " +:+
   "Labelled by ``outcome`` so the dashboard can distinguish real stops (``issued``) from dry-run " +:+
   "suppressions (``dry-run``), server-confirmed completions (``completed``), and timeouts " +:+
   "(``timeout``). Incremented at the stop_analysis branch in ``_grace_and_escalate``.")
  ["outcome"] [].
Definition DATAPOINTS_REQUEUED_TOTAL : metric := Metric Counter "openstudio_operator_datapoints_requeued_total"
  ("Zombie datapoints automatically requeued")
  [] [].
Definition DATAPOINTS_REQUEUE_EXHAUSTED_TOTAL : metric := Metric Counter "openstudio_operator_datapoints_requeue_exhausted_total"
  ("Zombie datapoints abandoned after exceeding maxRequeues (incremented by the datapoint watchdog, #10)")
  [] [].
Definition WORKERS_RECYCLED_TOTAL : metric := Metric Counter "openstudio_operator_workers_recycled_total"
  ("Worker deployment recycles performed. Labelled by ``trigger`` (issue #309) so an SRE investigating a " +:+
   "recycle spike can tell whether the interval-elapsed sweep fired (``interval-elapsed``) or an " +:+
   "analysis-completed edge fired (``analysis-completed``). Incremented at the recycle site in " +:+
   "``run_recycler_tick``; the trigger string is the value returned by ``_armed_trigger``.")
  ["trigger"] [].
Definition WORKER_PODS_EVICTED_TOTAL : metric := Metric Counter "openstudio_operator_worker_pods_evicted_total"
  ("Worker pods surgically evicted by the analysis-SLA escalation (incremented by the SLA monitor, #9; " +:+
   "counts decisions — dry-run ticks increment too, matching SOFT_STOPS_TOTAL). Labelled by ``outcome`` " +:+
   "(issue #309) so the dashboard can distinguish escalation outcomes (``evicted`` | ``evicted-partial`` " +:+
   "| ``no-matching-pods`` | ``dry-run``) without log scraping. The outcome is decided once per analysis " +:+
   "at the end of the per-pod loop in ``_escalate_analysis`` and applied to the evicted count via " +:+
   "``inc(evicted_count)`` — a per-pod label would race with the post-loop ``failed_count`` aggregation.")
  ["outcome"] [].
Definition WEB_BACKGROUND_RESTARTS_TOTAL : metric := Metric Counter "openstudio_operator_web_background_restarts_total"
  ("web_background deployment restarts issued after sustained queue stalls (incremented by the " +:+
   "web_background monitor, #13)")
  [] [].
Definition WEB_BACKGROUND_RESTARTS_INEFFECTIVE_TOTAL : metric := Metric Counter "openstudio_operator_web_background_restarts_ineffective_total"
  ("web_background restarts proven ineffective — the stall condition re-sustained a full window past the " +:+
   "previous restart's cooldown (issue #649). Incremented at the restart fire site in " +:+
   "``web_background_monitor.run_stall_tick`` each time a restart fires while a predecessor anchor " +:+
   "exists; from the 3rd consecutive ineffective restart the operator emits the " +:+
   "``WebBackgroundRestartIneffective`` Warning Event and backs the restart action off (total wait 4/6/8 " +:+
   "stall windows — the natural cooldown + re-sustain cadence is already two, so the schedule starts " +:+
   "above it) while detection keeps running. Alert on " +:+
   "``increase(openstudio_operator_web_background_restarts_ineffective_total[30m]) > 0`` — once the " +:+
   "backoff engages increments are spaced >= 4 stall windows apart, so a 30m increase window (not a 5m " +:+
   "rate) keeps each one visible to Prometheus.")
  [] [].
Definition ANALYSES_ARCHIVED_TOTAL : metric := Metric Counter "openstudio_operator_analyses_archived_total"
  ("Analyses whose archival Job passed rclone verification (incremented by the storage pruner, #16; " +:+
   "counts observed Job completions, adopted completions included)")
  [] [].
Definition ARCHIVAL_JOBS_FAILED_TOTAL : metric := Metric Counter "openstudio_operator_archival_jobs_failed_total"
  ("Archival Jobs observed in Failed state by the operator or prune entrypoint (issue #782). Provides a " +:+
   "KSM-independent signal for archival failure when kube-state-metrics is absent — the " +:+
   "OpenStudioOperatorPruneJobFailed alert keys on kube_job_status_failed and cannot fire without KSM.")
  ["namespace"] [].
Definition ANALYSES_DELETED_TOTAL : metric := Metric Counter "openstudio_operator_analyses_deleted_total"
  ("Analyses deleted by the retention pipeline after verified archival (incremented by the storage " +:+
   "pruner, #16; spec.dryRun suppresses both the delete and the increment). Labelled by ``outcome`` " +:+
   "(issue #309) — the current code path only exercises ``deleted`` (the only branch that performs the " +:+
   "REST cascade), but the label is pinned so a future expansion (e.g. partial-failure splits) is a " +:+
   "one-line change.")
  ["outcome"] [].
Definition RESQUE_QUEUE_DEPTH : metric := Metric Gauge "openstudio_operator_resque_queue_depth"
  ("Resque queue depth observed by web_background_monitor (LLEN ``resque:queue:simulations`` / " +:+
   "``resque:queue:requeued``) on every sensing tick (issue #238). Labelled by queue name; cardinality " +:+
   "is bounded to the two managed queues — surfaces the operator's authoritative reading as a " +:+
   "cross-check against KEDA's external metrics view and a debuggable signal when the centralized Resque " +:+
   "key constants drift from the live v3.11.0 layout.")
  ["queue"] [].
Definition RESQUE_QUEUE_DEPTH_FRESH : metric := Metric Gauge "openstudio_operator_resque_queue_depth_fresh"
  ("Unix-epoch seconds of the most recent successful ``RESQUE_QUEUE_DEPTH`` read (issue #312). Set to " +:+
   "``time.time()`` after every successful ``ReadOnlyRedisClient.queue_depths()`` call in " +:+
   "``web_background_monitor._stall_condition_holds``. The ``RESQUE_QUEUE_DEPTH`` Gauge advances on " +:+
   "success but is NOT touched on the exception path (Redis unreachable, ApiException, etc.) — so a " +:+
   "stale value can masquerade as a live reading while the operator has in fact lost visibility. " +:+
   "Dashboards should compute staleness as ``time() - openstudio_operator_resque_queue_depth_fresh`` and " +:+
   "alert on a sustained gap, the same idiom as the rest of the Prometheus ecosystem's ``_created`` " +:+
   "series. Set on EVERY sensing tick that successfully reads Redis (the unconditional-advance pattern " +:+
   "from issue #87). Issue #647 — during the stall cooldown gate the tick stamps this gauge WITHOUT " +:+
   "reading Redis: there the stamp means ``tick alive`` (the deliberately paused cooldown), not ``queue " +:+
   "read`` — the depth gauge holds its pre-restart value by design.")
  [] [].
Definition SINGLETON_ELECTION_TOTAL : metric := Metric Counter "openstudio_operator_singleton_election_total"
  ("Singleton-guard election outcomes (issue #239). Incremented at the three branches in " +:+
   "SingletonGuard.enforce: outcome=idle when no OSCM CRs exist in the namespace; outcome=active when " +:+
   "exactly one CR exists and is served; outcome=conflict when >1 CRs exist and the oldest is served " +:+
   "(the others get ``SingletonConflict`` Warning Events). Only fires on state changes (mirrors the " +:+
   "existing log/Event noise gate) so steady state is silent. Alert on sustained nonzero rate on " +:+
   "outcome=conflict — a multi-CR namespace is a singleton-guard violation (D05).")
  ["outcome"] [].
Definition SINGLETON_LOSER_SKIPS_TOTAL : metric := Metric Counter "openstudio_operator_singleton_loser_skips_total"
  ("Per-tick singleton-guard loser suppressions (issue #403). Incremented inside the ``if not active:`` " +:+
   "branch of the ``_gated`` wrapper on EVERY suppressed tick — unlike the change-gated " +:+
   "``singleton_election_total{outcome=" +:+
   dquote +:+
   "conflict" +:+
   dquote +:+
   "}``, which fires only on state changes and is silent for a stable multi-CR namespace. Labelled by " +:+
   "``module`` (the wrapped handler's ``__name__`` — analysis_sla | datapoint_watchdog | worker_recycler " +:+
   "| web_background_monitor) + ``namespace`` + ``name`` (the LOSER CR whose tick was suppressed). " +:+
   "Cardinality is bounded by the singleton guard (D05 — one served CR per namespace). Alert on " +:+
   "``rate(openstudio_operator_singleton_loser_skips_total[5m]) > 0`` — a sustained multi-CR " +:+
   "configuration.")
  ["module"; "namespace"; "name"] [].
Definition SINGLETON_WRAPPED_HANDLERS : metric := Metric Gauge "openstudio_operator_singleton_wrapped_handlers"
  ("Number of OSCM spawning (timer/daemon) handlers the singleton guard actually wrapped at boot (issue " +:+
   "#491). Set once at the end of ``singleton.install_singleton_guard`` to the count of OSCM " +:+
   "``@kopf.timer``/``@kopf.daemon`` registry entries whose fn carries the gate marker. The gate reaches " +:+
   "into kopf's private ``registry._spawning._handlers`` (the reason kopf is pinned ``>=1.37,<1.45``); a " +:+
   "kopf upgrade that moves that internal makes the gate wrap NOTHING and return 0 — silently disabling " +:+
   "D05 enforcement while the operator appears healthy (every timer still fires, ungated). The " +:+
   "registry-coverage CI test fences the layout at build time; this gauge is the runtime fence. Alert on " +:+
   "``openstudio_operator_singleton_wrapped_handlers == 0`` sustained on a booted operator that expects " +:+
   "timers (shipped as ``OpenStudioOperatorSingletonGuardUnwrapped``) — the complement of the #469 " +:+
   "scheduler heartbeat (``handler_last_tick_timestamp``): the heartbeat proves the scheduler is " +:+
   "invoking the timers, this gauge proves those invocations are guarded. Unlabelled — one series per " +:+
   "process (the wrap count is process-wide).")
  [] [].
Definition SINGLETON_EXPECTED_HANDLERS : metric := Metric Gauge "openstudio_operator_singleton_expected_handlers"
  ("Number of OSCM spawning (timer/daemon) handlers the singleton guard EXPECTED to wrap at boot (issue " +:+
   "#570) — the denominator of ``singleton_wrapped_handlers``. Set at install time from the OSCM " +:+
   "spawning-handler population kopf actually reports (the same scan " +:+
   "``tests/test_singleton_registry_coverage.py`` performs: every ``registry._spawning._handlers`` entry " +:+
   "whose selector matches the OSCM resource and whose fn is not None, counted BEFORE wrapping). On the " +:+
   "registry-internals-mismatch branch the Python-level ``_oscm_handlers.REGISTRY`` population stands " +:+
   "in. A partial unwrap — one handler skipped for missing #250 registration, or a " +:+
   "``dataclasses.replace`` TypeError — reads ``wrapped < expected`` while the historical ``== 0`` alert " +:+
   "stayed silent; in a multi-CR namespace the ungated timer double-serves the loser CR (the exact D05 " +:+
   "violation). Alert on ``openstudio_operator_singleton_wrapped_handlers < " +:+
   "openstudio_operator_singleton_expected_handlers`` sustained " +:+
   "(``OpenStudioOperatorSingletonGuardUnwrapped``) — strict ``<`` subsumes the old ``== 0`` clause. " +:+
   "Unlabelled — one series, process-wide; D11-exempt (boot wiring, before any dry-run-gated action " +:+
   "could exist).")
  [] [].
Definition REDIS_KEY_LAYOUT_STATUS : metric := Metric Gauge "openstudio_operator_redis_key_layout_status"
  ("Redis key-layout validation status (issue #253). 1.0 when the most recent ``validate_key_layout()`` " +:+
   "call returned ``ok``; 0.0 for every other terminal status (``degraded`` | ``unreachable`` | " +:+
   "``error`` | ``skipped``). Surfaces the post-#44 failure mode — a v3.11.0 layout drift takes " +:+
   "``resque_workers_seen_max`` silent and the stall condition fires vacuously — as a Prometheus signal " +:+
   "so an SRE can alert on ``openstudio_operator_redis_key_layout_status == 0`` instead of correlating " +:+
   "logs. Set in ``handlers.redis_layout_check._check_redis_key_layout_for_cr`` for every CR on every " +:+
   "OSCM watch event (cluster-wide latest observation, not per-CR — the validator outcome is " +:+
   "process-wide). The paired ``redis_key_layout_status_reason`` gauge (issue #789) carries the " +:+
   "failure-mode label so an SRE can disambiguate ``unreachable`` from ``layout_mismatch`` without " +:+
   "examining logs.")
  [] [].
Definition REDIS_KEY_LAYOUT_STATUS_REASON : metric := Metric Gauge "openstudio_operator_redis_key_layout_status_reason"
  ("Redis key-layout validation failure reason (issue #789). Set in lockstep with " +:+
   "``REDIS_KEY_LAYOUT_STATUS`` in ``handlers.redis_layout_check._set_redis_key_layout_status`` on every " +:+
   "terminal path of ``_check_redis_key_layout_for_cr``. The ``ok`` value is 1.0; each non-ok reason " +:+
   "carries its own labelled series ``{reason=unreachable|layout_mismatch|error|skipped}``. The " +:+
   "``unreachable`` series fires when Redis connectivity fails (``RedisClientError``, ``OSError``); " +:+
   "``layout_mismatch`` fires when the Resque key constants do not match the live v3.11.0 layout " +:+
   "(``OperatorConfigError``); ``error`` fires on unexpected exceptions; ``skipped`` fires when the CR " +:+
   "carries neither ``spec.redisUrl`` nor ``spec.redisCredentials.secretRef``.")
  ["reason"] [].
Definition REDIS_KEY_LAYOUT_STATUS_FRESH : metric := Metric Gauge "openstudio_operator_redis_key_layout_status_fresh"
  ("Unix-epoch seconds of the most recent ``REDIS_KEY_LAYOUT_STATUS`` update (issue #490). Set to " +:+
   "``time.time()`` in lockstep with the status gauge at every " +:+
   "``handlers.redis_layout_check._check_redis_key_layout_for_cr`` invocation, on every terminal path " +:+
   "(``ok`` | ``degraded`` | ``unreachable`` | ``error`` | ``skipped`` — fresh means recently validated; " +:+
   "the status gauge carries the result). Without this pair the status gauge holds its boot value " +:+
   "indefinitely on a steady-state cluster (no OSCM watch events → no revalidation), so a mid-flight " +:+
   "Resque layout drift reads ``ok`` while the operator has lost its key-layout footing. Dashboards " +:+
   "should compute staleness as ``time() - openstudio_operator_redis_key_layout_status_fresh`` and alert " +:+
   "on ``> 600`` (2× the 5-minute revalidation interval — see " +:+
   "``_constants.REDIS_KEY_LAYOUT_REVALIDATION_INTERVAL``; the revalidation rides the web_background " +:+
   "stall tick).")
  [] [].
Definition STALL_WINDOW_ELAPSED_SECONDS : metric := Metric Gauge "openstudio_operator_stall_window_elapsed_seconds"
  ("Sustained-window elapsed seconds for the web_background stall (issue #254). Set in " +:+
   "``run_stall_tick`` after ``tracker.observe()`` to the elapsed seconds when the stall condition held " +:+
   "this tick, or 0 when it broke (the tracker resets). Rate > 0 means the window is accumulating toward " +:+
   "a ``web_background_restarts_total`` increment; exact value shows how close to action (the action " +:+
   "fires at ``stallWindowMinutes``). Gives SREs a heads-up display between the first sustained " +:+
   "observation and the eventual restart — without this gauge, three or more Redis/K8s-leg ticks can " +:+
   "accumulate toward a restart with nothing on the dashboard until the gate trips.")
  [] [].
Definition STALL_WINDOW_FRESH : metric := Metric Gauge "openstudio_operator_stall_window_fresh"
  ("Unix-epoch seconds of the most recent ``STALL_WINDOW_ELAPSED_SECONDS`` update (issue #312). Set to " +:+
   "``time.time()`` after every successful ``STALL_WINDOW_ELAPSED_SECONDS.set(...)`` in " +:+
   "``web_background_monitor.run_stall_tick`` (both the holding path at elapsed-seconds assignment and " +:+
   "the broken/restart-reset path). The ``STALL_WINDOW_ELAPSED_SECONDS`` Gauge advances on the " +:+
   "holding/broken paths but is NOT updated on the exception path (``RedisClientError`` | " +:+
   "``ApiException`` raised from ``_stall_condition_holds``) — so a prior tick's value can masquerade as " +:+
   "a continuing stall window while the operator has in fact lost visibility. Dashboards should compute " +:+
   "staleness as ``time() - openstudio_operator_stall_window_fresh`` and alert on a sustained gap (the " +:+
   "same idiom as the rest of the Prometheus ecosystem's ``_created`` series). Issue #647 — during the " +:+
   "stall cooldown gate the tick stamps this gauge WITHOUT sensing: there the stamp means ``tick alive`` " +:+
   "(the deliberately paused cooldown), not an elapsed-window update — the elapsed gauge holds its " +:+
   "pre-restart value by design.")
  [] [].
Definition HANDLER_LAST_TICK_TIMESTAMP : metric := Metric Gauge "openstudio_operator_handler_last_tick_timestamp"
  ("Unix-epoch seconds of the most recent completed ``run_oscm_tick`` invocation per module (issue #469) " +:+
   "— the scheduler heartbeat. Set to ``time.time()`` in a ``finally`` at the END of every invocation of " +:+
   "the single shared tick-runner ``_oscm_handlers.run_oscm_tick`` (#473), on EVERY terminal path: " +:+
   "successful tick, caught skip-tuple failure (a failing-but-scheduled tick is alive; a flat gauge is " +:+
   "not), the empty-``spec.serverUrl`` idle return, and even a propagating uncaught exception — the " +:+
   "heartbeat answers whether the scheduler is invoking this module's timer AT ALL, not whether the tick " +:+
   "is succeeding (that is HANDLER_TICK_FAILURES_TOTAL's job). NOT stamped by ``dry_run_audit`` — an " +:+
   "@kopf.on.event watch handler, event-driven with no cadence to be stale against (consciously " +:+
   "excluded, #469). Alert on the staleness gap: ``time() - " +:+
   "openstudio_operator_handler_last_tick_timestamp{module=...} > 3 * <interval>`` — per-module " +:+
   "intervals live in ``_constants.py`` (analysis_sla 30 s → 90, datapoint_watchdog 60 s → 180, " +:+
   "worker_recycler 300 s → 900, web_background_monitor 60 s → 180).")
  ["module"] [].
Definition DRY_RUN_ACTIVE : metric := Metric Gauge "openstudio_operator_dry_run_active"
  ("Whether the active CR's ``spec.dryRun`` is true (D11 gate armed — every mutating action suppressed, " +:+
   "issue #492). 1.0 = the operator is in dry-run mode; 0.0 = mutations are LIVE. Stamped per tick by " +:+
   "the shared tick-runner ``run_oscm_tick`` AND flipped immediately on spec.dryRun transitions by the " +:+
   "``dry_run_audit`` watch handler (#397) — a quiet dry-run operator is otherwise indistinguishable " +:+
   "from a quiet live one (events_dry_run_suppressed_total only increments when an action is attempted). " +:+
   "Alert on ``openstudio_operator_dry_run_active == 1`` sustained beyond a migration window on a " +:+
   "production cluster (the PrometheusRule ships ``OpenStudioOperatorDryRunActive`` with ``for: 1h``).")
  ["namespace"; "name"] [].
Definition SERVER_URL_SET : metric := Metric Gauge "openstudio_operator_server_url_set"
  ("Whether the active CR carries a non-empty ``spec.serverUrl`` after ``OperatorConfig.from_spec`` " +:+
   "parsing (issue #492). 1.0 = the single authoritative config path (#3) has a server to poll; 0.0 = " +:+
   "the idle posture — every timer tick returns early (the empty-serverUrl idle branch in " +:+
   "``run_oscm_tick``) and no analysis state is read. ``0`` on a cluster expected to be working means " +:+
   "the CR spec is incomplete.")
  ["namespace"; "name"] [].
Definition REDIS_URL_SET : metric := Metric Gauge "openstudio_operator_redis_url_set"
  ("Whether the active CR has a Redis URL resolvable at config-parse time (issue #492): 1.0 when " +:+
   "``spec.redisUrl`` is non-empty OR the #463 ``spec.redisCredentials.secretRef`` names the Secret key " +:+
   "holding the full ``redis://`` URL (the preferred production shape; the ref wins over an inline URL " +:+
   "when both are present); 0.0 = the #116 posture — the operator refuses to operate and the per-CR " +:+
   "redis-URL guard emits its Warning Event. Distinct from secret-resolution SUCCESS (the client_factory " +:+
   "lru_cache owns that); this gauge answers only " +:+
   dquote +:+
   "did the CR carry a URL source at all" +:+
   dquote +:+
   ".")
  ["namespace"; "name"] [].
Definition AUTO_SOFT_STOP_ENABLED : metric := Metric Gauge "openstudio_operator_auto_soft_stop_enabled"
  ("Whether the active CR's ``analysisPolicy.autoSoftStop`` is true (the CRD default, issue #492). 1.0 = " +:+
   "the SLA monitor is armed to soft-stop analyses past ``maxDurationMinutes``; 0.0 = the SLA monitor is " +:+
   "fully passive (a full stop — no soft-stop, no escalation, no anchors written) and the debug log line " +:+
   "was previously the only record. Alert on an unexpected ``0`` on a production cluster: someone " +:+
   "disabled the analysis SLA.")
  ["namespace"; "name"] [].
Definition EVENTS_EMIT_FAILURES_TOTAL : metric := Metric Counter "openstudio_operator_events_emit_failures_total"
  ("``kopf.event`` emission failures caught by EventEmitter.emit (issue #255). Incremented inside the " +:+
   "try/except wrapping the ``kopf.event`` call BEFORE re-raising — a sustained nonzero rate means the " +:+
   "operator cannot post Kubernetes Events to the apiserver (independent of the REST/Redis/K8s API " +:+
   "signals that surface via ``handler_tick_failures_total``). Labelled by ``namespace`` + ``name`` (CR " +:+
   "identity, issue #311) + ``reason`` (the warning-event reason the call site was attempting to post) " +:+
   "so a dashboard can tell WHICH handler path's Event emission failed AND which CR the failure happened " +:+
   "on (same ``reason`` vocabulary as ``events_emitted_total`` so the two can be rate-correlated).")
  ["namespace"; "name"; "reason"] [].
Definition WARNINGS_DEFERRED_QUEUE_DEPTH : metric := Metric Gauge "openstudio_operator_warnings_deferred_queue_depth"
  ("Depth of the in-process QueuedKopfEventSink queue (issue #310). Set after every defer_to_next_tick " +:+
   "and flush_for. Sustained nonzero values mean the apiserver watch stream is stalled and Warning " +:+
   "Events are piling up; the cap at MAX_DEFERRED_WARNING_EVENTS (1000) prevents unbounded growth, but " +:+
   "the backpressure cap is the last line — a healthy cluster reads 0 on every drain.")
  [] [].
Definition WARNINGS_DEFERRED_DROPPED_TOTAL : metric := Metric Counter "openstudio_operator_warnings_deferred_dropped_total"
  ("Deferred Warning Events dropped by QueuedKopfEventSink before appending (issue #310). Incremented " +:+
   "inside defer_to_next_tick when ``len(self._queue) >= MAX_DEFERRED_WARNING_EVENTS`` — the deferral is " +:+
   "rejected, not queued, so the user-facing Warning Event is lost. Labelled by ``reason`` (initial " +:+
   "vocabulary: ``queue_full``) so a future second drop reason can share the series without losing the " +:+
   "original semantics. The companion ``openstudio_operator_warnings_deferred_queue_depth`` Gauge hits " +:+
   "the cap when this counter increments.")
  ["reason"] [].
Definition RESQUE_WORKERS_SEEN_MAX : metric := Metric Gauge "openstudio_operator_resque_workers_seen_max"
  ("Resque workers seen in the worker set, emitted every poll regardless of queue depth (0 with a " +:+
   "reachable Redis = no workers registered); monotonic max — survives worker disappearance within " +:+
   "process lifetime")
  [] [].
Definition STATUS_CONFLICTS_TOTAL : metric := Metric Counter "openstudio_operator_status_conflicts_total"
  ("Per-attempt 409 responses from the Kubernetes API Server during status-store RMW cycles (incremented " +:+
   "inside _mutate's except branch for each 409 before the backoff sleep; #119). Labelled by " +:+
   "``namespace`` + ``name`` (issue #311) so a multi-CR operator process can attribute a conflict burst " +:+
   "to the specific CR.")
  ["namespace"; "name"] [].
Definition STATUS_MAP_CAPS_TOTAL : metric := Metric Counter "openstudio_operator_status_map_caps_total"
  ("Defensive cap evictions issued by status_store when a CR .status map hits STATUS_MAP_MAX_ENTRIES " +:+
   "(incremented once per actual cap hit, after the successful RMW — retry-stable, not per 409 attempt; " +:+
   "#171). Labelled by ``namespace`` + ``name`` (CR identity, issue #311) + ``map_name`` (softStops | " +:+
   "requeues | startedSince | archivedAnalyses).")
  ["namespace"; "name"; "map_name"] [].
Definition STATUS_MAP_ENTRIES : metric := Metric Gauge "openstudio_operator_status_map_entries"
  ("Number of entries in each CR .status map (issue #489) — set to ``len(map)`` from " +:+
   "``status_store.StatusStore._read_status`` on every read (RMW cycles and typed getters alike), so all " +:+
   "four maps (softStops | requeues | startedSince | archivedAnalyses) are stamped per read. Lead-time " +:+
   "companion to ``status_map_caps_total``: the cap counter + ``StatusMapCapped`` Warning Event fire " +:+
   "only AFTER STATUS_MAP_MAX_ENTRIES (10000) is hit and the oldest D04 idempotency anchors are already " +:+
   "being dropped. Alert on ``openstudio_operator_status_map_entries > 8000`` (0.8 × 10000) sustained " +:+
   "for 30m — the 2000-entry headroom is days of runway to prune or revisit the cap before anchor loss " +:+
   "re-arms the double-soft-stop / double-requeue paths. Labelled by ``namespace`` + ``name`` (CR " +:+
   "identity, issue #311) + ``map_name``; cardinality bounded by the singleton guard (D05), same bound " +:+
   "as the cap counter.")
  ["namespace"; "name"; "map_name"] [].
Definition STATUS_CONFLICT_RETRIES_EXHAUSTED_TOTAL : metric := Metric Counter "openstudio_operator_status_conflict_retries_exhausted_total"
  ("Status-store RMW cycles that exhausted the 409 retry budget and raised StatusStoreConflictError; the " +:+
   "tick that hit this counter was skipped (the failure surfaces as a WARNING log + no .status write). " +:+
   "Issued by status_store._mutate just before raising; #119. Labelled by ``namespace`` + ``name`` (CR " +:+
   "identity, issue #311) so a multi-CR operator process can distinguish which CR is exhausting its " +:+
   "retry budget.")
  ["namespace"; "name"] [].
Definition HANDLER_TICK_FAILURES_TOTAL : metric := Metric Counter "openstudio_operator_handler_tick_failures_total"
  ("Handler tick failures caught by the timer wrappers (issue #117). Labelled by ``namespace`` + " +:+
   "``name`` (CR identity, issue #311) + ``module`` (analysis_sla | datapoint_watchdog | worker_recycler " +:+
   "| web_background_monitor) + ``error_type`` (OpenStudioApiError | StatusStoreError | ApiException | " +:+
   "RedisClientError). Increment-by-1 per tick the wrapper suppresses; the WARNING log line in the " +:+
   "wrapper records the same event for log forwarding.")
  ["namespace"; "name"; "module"; "error_type"] [].
Definition HANDLER_CONSECUTIVE_FAILURE_STREAK_TOTAL : metric := Metric Counter "openstudio_operator_handler_consecutive_failure_streak_total"
  ("Consecutive failure streak crossings for OSCM handlers (issue #783). Labelled by ``namespace`` + " +:+
   "``name`` (CR identity, issue #311) + ``module`` (analysis_sla | datapoint_watchdog | worker_recycler " +:+
   "| web_background_monitor).")
  ["namespace"; "name"; "module"] [].
Definition HANDLER_CROSS_HANDLER_OUTAGE_TOTAL : metric := Metric Counter "openstudio_operator_handler_cross_handler_outage_total"
  ("Cross-handler composite outage events (issue #784). Incremented once when 2+ different OSCM handlers " +:+
   "fail within a 60-second window. Labelled by the set of failing module names as a hyphenated string " +:+
   "(e.g. ``analysis_sla-datapoint_watchdog``). Distinguishes a single-handler degradation from a " +:+
   "shared-dependency outage (Redis unreachable, REST API down, kube-apiserver issue). Cardinality " +:+
   "bounded: at most 15 non-empty subsets of 4 handlers.")
  ["module_set"] [].
Definition REDIS_UNREACHABLE_TOTAL : metric := Metric Counter "openstudio_operator_redis_unreachable_total"
  ("Redis unreachable events specifically (issue #785). Incremented when a Redis client call raises " +:+
   "``RedisClientError`` due to a connection failure, timeout, or cluster exception — distinct from " +:+
   "other ``RedisClientError`` causes (wrong DB, auth failure, key-layout drift). The dedicated counter " +:+
   "isolates Redis connectivity outages from the broader Redis error surface that " +:+
   "``error_type=RedisClientError`` on ``handler_tick_failures_total`` conflates. Labelled by " +:+
   "``namespace`` + ``name`` (CR identity, issue #311). Increment sites: ``run_oscm_tick`` skip-tick " +:+
   "handler and ``web_background_monitor._stall_condition_holds``.")
  ["namespace"; "name"] [].
Definition PRUNE_TICK_FAILURES_TOTAL : metric := Metric Counter "openstudio_operator_prune_tick_failures_total"
  ("Storage-prune CronJob tick failures caught by the skip-tick branches in ``prune_entrypoint.main()`` " +:+
   "(issue #306). The CronJob runs as a separate process from the operator; the two skip-tick branches " +:+
   "(CR list failure + D12 exception tuple caught around ``run_retention_tick``) log at WARNING and " +:+
   "return exit code 0, so without this counter a sustained degraded window (Redis unreachable, REST 5xx " +:+
   "storm, StatusStoreConflictError) is invisible at ``/metrics``. The exit-3 empty-``spec.redisUrl`` " +:+
   "guard (issue #392) is the third bump site — the loud Failed-pod signal, on the same counter so the " +:+
   "#306 dashboard alert covers a sustained redisUrl wedge. Labelled by ``reason`` (cr_list_failure | " +:+
   "runtime_failure | redis_url_empty) — mirror of the three branch sites, bounded cardinality (3 series " +:+
   "total). Increment-by-1 per tick the entrypoint suppresses; the WARNING log line records the same " +:+
   "event for log forwarding with the exception class name. Scraped from the CronJob pod's plaintext " +:+
   "``/metrics`` on port 9090 (gated by the parallel ``openstudio-storage-pruner-metrics-ingress`` " +:+
   "NetworkPolicy).")
  ["reason"] [].
Definition EVENTS_DRY_RUN_SUPPRESSED_TOTAL : metric := Metric Counter "openstudio_operator_events_dry_run_suppressed_total"
  ("Kubernetes Events suppressed by the dry-run gate on EventEmitter (#164). Incremented at the same " +:+
   "site as EventEmitter.suppressed_count, inside EventEmitter.emit when dry_run=True (issue #237). " +:+
   "Labelled by ``namespace`` + ``name`` (CR identity, issue #311) + ``reason`` (the same warning-event " +:+
   "reasons used by the four handler modules).")
  ["namespace"; "name"; "reason"] [].
Definition EVENTS_EMITTED_TOTAL : metric := Metric Counter "openstudio_operator_events_emitted_total"
  ("Kubernetes Events posted to the kube-apiserver via EventEmitter (#164). Companion to " +:+
   "events_dry_run_suppressed_total: emitted-vs-suppressed rate is the headline SLO for an audit-only " +:+
   "install (issue #237). Labelled by ``namespace`` + ``name`` (CR identity, issue #311) + ``reason`` " +:+
   "(the same warning-event reasons used by the four handler modules).")
  ["namespace"; "name"; "reason"] [].
Definition ANALYSIS_DATAPOINT_COUNT : metric := Metric Histogram "openstudio_operator_analysis_datapoint_count"
  ("Per-tick counts observed by the SLA / watchdog modules, separated by ``view`` (issue #472): " +:+
   "``analyses_per_tick`` — the number of analyses returned by the SLA tick's ``/analyses.json`` poll; " +:+
   "``started_datapoints_per_tick`` — the number of started datapoints seen by the watchdog tick's light " +:+
   "view. The two populations have different units and magnitudes, so dashboard queries MUST pin the " +:+
   "``view`` label — the merged percentiles the pre-#472 unlabelled family served were meaningless.")
  ["view"] [5 # 1; 10 # 1; 50 # 1; 100 # 1; 500 # 1; 1000 # 1; 5000 # 1]%Q.
Definition HANDLER_TICK_DURATION_SECONDS : metric := Metric Histogram "openstudio_operator_handler_tick_duration_seconds"
  ("Wall-clock duration of the four @kopf.timer wrappers (issue #308). Observed at the END of each " +:+
   "wrapper invocation, regardless of success or caught-exception outcome, so a sustained degradation " +:+
   "(REST 5xx storm, GC pause, kopf bus contention, NFS stall) is visible to Prometheus before it " +:+
   "crosses the failure threshold captured by ``handler_tick_failures_total``. Labelled by ``module`` " +:+
   "(analysis_sla | datapoint_watchdog | worker_recycler | web_background_monitor) — same vocabulary as " +:+
   "the failure counter, so a dashboard can correlate latency with failure rate on the same module " +:+
   "dimension.")
  ["module"] _HANDLER_TICK_BUCKETS.
Definition REST_REQUEST_DURATION_SECONDS : metric := Metric Histogram "openstudio_operator_rest_request_duration_seconds"
  ("Wall-clock duration of every ``OpenStudioClient._request`` call (issue #308), including the GET-only " +:+
   "3x retry loop. Observed at the END of ``_request`` so the time spent inside the retry envelope is " +:+
   "part of the observation. Labelled by ``method`` (GET | POST | DELETE — the verbs the operator " +:+
   "actually uses) and ``outcome`` (``" +:+
   dquote +:+
   "200" +:+
   dquote +:+
   "`` for any successful 2xx/3xx response, ``" +:+
   dquote +:+
   "exception" +:+
   dquote +:+
   "`` for any raised ``OpenStudioApiError``: 4xx immediately, 5xx retries exhausted, or non-GET 5xx per " +:+
   "issue #226). A sustained non-zero rate on ``outcome=" +:+
   dquote +:+
   "exception" +:+
   dquote +:+
   "`` is the canonical REST-degraded alert; the per-method split tells the on-call which verb is " +:+
   "responsible.")
  ["method"; "outcome"] _REST_REQUEST_BUCKETS.
Definition REST_RETRIES_TOTAL : metric := Metric Counter "openstudio_operator_rest_retries_total"
  ("REST retry attempts made inside OpenStudioClient._request's GET-only retry loop (issue #471). " +:+
   "Incremented once per RE-attempt (not once per call) before the jittered backoff sleep — a GET that " +:+
   "fails twice with 5xx and succeeds on attempt 3 records exactly 2, distinguishing a retry storm from " +:+
   "a slow success (the duration histogram observes only the terminal outcome, with the backoff sleeps " +:+
   "inflating its buckets). Labelled by ``method`` (GET | POST | DELETE — the same vocabulary as " +:+
   "rest_request_duration_seconds; no CR-identity labels — the client is CR-agnostic). Alert on " +:+
   "``rate(openstudio_operator_rest_retries_total[5m]) > 0`` as the early-degrade companion to outcome=" +:+
   dquote +:+
   "exception" +:+
   dquote +:+
   ".")
  ["method"] [].
Definition REDIS_REQUEST_DURATION_SECONDS : metric := Metric Histogram "openstudio_operator_redis_request_duration_seconds"
  ("Wall-clock duration of ReadOnlyRedisClient read methods (issue #488), observed at the END of each " +:+
   "method on BOTH success and failure paths — duration is duration; error COUNTING lives on the " +:+
   "existing tick-failure counters, so this family never double-counts errors. Labelled by ``operation`` " +:+
   "(llen | smembers | scan | exists — exists is the #688 layout-validator verdict probe; a method " +:+
   "issuing multiple commands is timed once under its dominant operation label). Makes a slowing Redis " +:+
   "(fork stalls, persistence pauses, network degrade) separable from a REST or kube-apiserver degrade — " +:+
   "the three dependency histograms share the #308 bucket set so they render on one dashboard axis.")
  ["operation"] _DEPENDENCY_REQUEST_BUCKETS.
Definition KUBE_API_REQUEST_DURATION_SECONDS : metric := Metric Histogram "openstudio_operator_kube_api_request_duration_seconds"
  ("Wall-clock duration of the operator's Kubernetes API calls (issue #488): status_store RMW GET/PATCH, " +:+
   "the rolling-restart Deployment patch, pod list/delete in the SLA escalation path, and the Deployment " +:+
   "reads behind deployment_label_selector. Observed on BOTH success and failure paths — a " +:+
   "slow-but-successful apiserver is the exact blind spot the 409 counters (#119) leave open. Labelled " +:+
   "by ``verb`` (get | patch | delete | list). Companion to rest_request_duration_seconds and " +:+
   "redis_request_duration_seconds: the three share the #308 bucket set so an inflated tick-duration " +:+
   "bucket can be attributed to Redis vs REST vs kube during an incident.")
  ["verb"] _DEPENDENCY_REQUEST_BUCKETS.
Definition METRICS_SERVER_BOUND : metric := Metric Gauge "openstudio_operator_metrics_server_bound"
  ("Outcome of the /metrics server's first bind attempt (issue #393). 1.0 when the bind succeeded and " +:+
   "/metrics is being served; 0.0 when the bind raised OSError (port already in use, unbindable address) " +:+
   "— the WARNING log still fires, but the outage is also a Prometheus signal. Labelled by ``addr`` and " +:+
   "``port`` (the configured bind target). Never re-touched after the first attempt. Alert on " +:+
   "``openstudio_operator_metrics_server_bound == 0`` — the canonical 'Prometheus scrape is down because " +:+
   "of US' signal (distinguishes an unbound metrics endpoint from a wedged operator).")
  ["addr"; "port"] [].
Definition BUILD_INFO : metric := Metric Gauge "openstudio_operator_build_info"
  ("Build/version identity of the emitting operator process (issue #504) — the fleet-identity row. " +:+
   "Constant ``1`` labelled by ``version`` (the installed ``openstudio-server-operator`` distribution " +:+
   "version resolved via importlib.metadata at metrics import time; ``unknown`` when the distribution is " +:+
   "absent, so a bare-venv import stays alive) and ``python_version`` (``sys.version.split()[0]``). Set " +:+
   "once at import time, before any handler or server bind runs. The operator is a single-replica " +:+
   "Recreate Deployment, so a rolling-window scrape after redeploy mixes series from the old and the new " +:+
   "pod with identical labels — this series makes the emitting release a scrapeable fact instead of a " +:+
   "pod-start-timestamp vs deployment-history correlation. One series, fixed cardinality; identity, not " +:+
   "health — no alert.")
  ["version"; "python_version"] [].

Definition families : list (string * metric) := [
  ("SOFT_STOPS_TOTAL", SOFT_STOPS_TOTAL);
  ("STOP_STOPS_TOTAL", STOP_STOPS_TOTAL);
  ("DATAPOINTS_REQUEUED_TOTAL", DATAPOINTS_REQUEUED_TOTAL);
  ("DATAPOINTS_REQUEUE_EXHAUSTED_TOTAL", DATAPOINTS_REQUEUE_EXHAUSTED_TOTAL);
  ("WORKERS_RECYCLED_TOTAL", WORKERS_RECYCLED_TOTAL);
  ("WORKER_PODS_EVICTED_TOTAL", WORKER_PODS_EVICTED_TOTAL);
  ("WEB_BACKGROUND_RESTARTS_TOTAL", WEB_BACKGROUND_RESTARTS_TOTAL);
  ("WEB_BACKGROUND_RESTARTS_INEFFECTIVE_TOTAL", WEB_BACKGROUND_RESTARTS_INEFFECTIVE_TOTAL);
  ("ANALYSES_ARCHIVED_TOTAL", ANALYSES_ARCHIVED_TOTAL);
  ("ARCHIVAL_JOBS_FAILED_TOTAL", ARCHIVAL_JOBS_FAILED_TOTAL);
  ("ANALYSES_DELETED_TOTAL", ANALYSES_DELETED_TOTAL);
  ("RESQUE_QUEUE_DEPTH", RESQUE_QUEUE_DEPTH);
  ("RESQUE_QUEUE_DEPTH_FRESH", RESQUE_QUEUE_DEPTH_FRESH);
  ("SINGLETON_ELECTION_TOTAL", SINGLETON_ELECTION_TOTAL);
  ("SINGLETON_LOSER_SKIPS_TOTAL", SINGLETON_LOSER_SKIPS_TOTAL);
  ("SINGLETON_WRAPPED_HANDLERS", SINGLETON_WRAPPED_HANDLERS);
  ("SINGLETON_EXPECTED_HANDLERS", SINGLETON_EXPECTED_HANDLERS);
  ("REDIS_KEY_LAYOUT_STATUS", REDIS_KEY_LAYOUT_STATUS);
  ("REDIS_KEY_LAYOUT_STATUS_REASON", REDIS_KEY_LAYOUT_STATUS_REASON);
  ("REDIS_KEY_LAYOUT_STATUS_FRESH", REDIS_KEY_LAYOUT_STATUS_FRESH);
  ("STALL_WINDOW_ELAPSED_SECONDS", STALL_WINDOW_ELAPSED_SECONDS);
  ("STALL_WINDOW_FRESH", STALL_WINDOW_FRESH);
  ("HANDLER_LAST_TICK_TIMESTAMP", HANDLER_LAST_TICK_TIMESTAMP);
  ("DRY_RUN_ACTIVE", DRY_RUN_ACTIVE);
  ("SERVER_URL_SET", SERVER_URL_SET);
  ("REDIS_URL_SET", REDIS_URL_SET);
  ("AUTO_SOFT_STOP_ENABLED", AUTO_SOFT_STOP_ENABLED);
  ("EVENTS_EMIT_FAILURES_TOTAL", EVENTS_EMIT_FAILURES_TOTAL);
  ("WARNINGS_DEFERRED_QUEUE_DEPTH", WARNINGS_DEFERRED_QUEUE_DEPTH);
  ("WARNINGS_DEFERRED_DROPPED_TOTAL", WARNINGS_DEFERRED_DROPPED_TOTAL);
  ("RESQUE_WORKERS_SEEN_MAX", RESQUE_WORKERS_SEEN_MAX);
  ("STATUS_CONFLICTS_TOTAL", STATUS_CONFLICTS_TOTAL);
  ("STATUS_MAP_CAPS_TOTAL", STATUS_MAP_CAPS_TOTAL);
  ("STATUS_MAP_ENTRIES", STATUS_MAP_ENTRIES);
  ("STATUS_CONFLICT_RETRIES_EXHAUSTED_TOTAL", STATUS_CONFLICT_RETRIES_EXHAUSTED_TOTAL);
  ("HANDLER_TICK_FAILURES_TOTAL", HANDLER_TICK_FAILURES_TOTAL);
  ("HANDLER_CONSECUTIVE_FAILURE_STREAK_TOTAL", HANDLER_CONSECUTIVE_FAILURE_STREAK_TOTAL);
  ("HANDLER_CROSS_HANDLER_OUTAGE_TOTAL", HANDLER_CROSS_HANDLER_OUTAGE_TOTAL);
  ("REDIS_UNREACHABLE_TOTAL", REDIS_UNREACHABLE_TOTAL);
  ("PRUNE_TICK_FAILURES_TOTAL", PRUNE_TICK_FAILURES_TOTAL);
  ("EVENTS_DRY_RUN_SUPPRESSED_TOTAL", EVENTS_DRY_RUN_SUPPRESSED_TOTAL);
  ("EVENTS_EMITTED_TOTAL", EVENTS_EMITTED_TOTAL);
  ("ANALYSIS_DATAPOINT_COUNT", ANALYSIS_DATAPOINT_COUNT);
  ("HANDLER_TICK_DURATION_SECONDS", HANDLER_TICK_DURATION_SECONDS);
  ("REST_REQUEST_DURATION_SECONDS", REST_REQUEST_DURATION_SECONDS);
  ("REST_RETRIES_TOTAL", REST_RETRIES_TOTAL);
  ("REDIS_REQUEST_DURATION_SECONDS", REDIS_REQUEST_DURATION_SECONDS);
  ("KUBE_API_REQUEST_DURATION_SECONDS", KUBE_API_REQUEST_DURATION_SECONDS);
  ("METRICS_SERVER_BOUND", METRICS_SERVER_BOUND);
  ("BUILD_INFO", BUILD_INFO)].

(** ** Updates *)

#[export] Instance metric_kind_eq_dec : EqDecision metric_kind.
Proof. solve_decision. Defined.

Fixpoint find_family (name : string) (fs : list (string * metric)) : option metric :=
  match fs with
  | [] => None
  | (n, f) :: fs => if String.eqb n name then Some f else find_family name fs
  end.

(** The choice of the labelled child, then a method of that kind of family. *)
Definition update_ok (k : metric_kind) (family : string) (ls : labels) (fs : list (string * metric)) : bool :=
  match find_family family fs with
  | Some f => bool_decide (kind f = k) && bool_decide (sorted_strings ls.*1 = sorted_strings (labelnames f))
  | None => false
  end.

(** The declared families that no handler ever updates: the two set when the
    process starts, and one that nothing updates. *)
Definition set_at_start : list string := ["BUILD_INFO"; "METRICS_SERVER_BOUND"].
Definition never_updated : list string := ["HANDLER_CONSECUTIVE_FAILURE_STREAK_TOTAL"].
Definition live_families : list (string * metric) :=
  filter (λ f, f.1 ∉ set_at_start ++ never_updated) families.

Definition well_declared (a : action) : bool :=
  match a with
  | MetricInc family ls n => update_ok Counter family ls live_families && (0 <=? n)
  | MetricSet family ls _ => update_ok Gauge family ls live_families
  | MetricObserve family ls => update_ok Histogram family ls live_families
  | _ => true
  end.

(** Every declared name is declared once. *)
Lemma family_names_distinct : NoDup (metric_name <$> families.*2) ∧ NoDup families.*1.
Proof. split; apply (bool_decide_unpack _); vm_compute; exact I. Qed.
