(* ===== verification/PyTime.v ===== *)
(** * Timestamps ([_time.py])

    [datetime] objects that reach the operator's state are aware UTC values;
    they are modelled as microseconds since the Unix epoch.  This file models
    the part of the standard library the code relies on (the proleptic
    Gregorian calendar, [isoformat] of a UTC datetime, [fromisoformat] and
    [timedelta] bounds) and the two functions of [_time.py].  The parser follows
    [Lib/datetime.py]; the C accelerator's tolerance of one stray character
    before a zone designator is not modelled. *)
From Stdlib Require Import Ascii.
From S2P Require Import Prelude PyValue Effects.

(** ** The calendar ([Lib/datetime.py]) *)

Module Calendar.
Definition is_leap (y : Z) : bool :=
  (y mod 4 =? 0) && (negb (y mod 100 =? 0) || (y mod 400 =? 0)).

Definition days_before_year (y : Z) : Z :=
  let y := y - 1 in y * 365 + y / 4 - y / 100 + y / 400.

Definition days_in_month (y m : Z) : Z :=
  if m =? 2 then if is_leap y then 29 else 28
  else if (m =? 4) || (m =? 6) || (m =? 9) || (m =? 11) then 30 else 31.

(** [_DAYS_BEFORE_MONTH] *)
Definition days_before_month_common (m : Z) : Z :=
  nth (Z.to_nat m) [0; 0; 31; 59; 90; 120; 151; 181; 212; 243; 273; 304; 334] 0.

Definition days_before_month (leap : bool) (m : Z) : Z :=
  days_before_month_common m + (if (2 <? m) && leap then 1 else 0).

(** [_ymd2ord]: 1 is 0001-01-01. *)
Definition ymd2ord (y m d : Z) : Z :=
  days_before_year y + days_before_month (is_leap y) m + d.

(** Month and day of the [n]-th day (from 0) of a year. *)
Definition month_day (leap : bool) (n : Z) : Z * Z :=
  let month := Z.shiftr (n + 50) 5 in
  let preceding := days_before_month leap month in
  if n <? preceding then
    let month := month - 1 in
    (month, n - days_before_month leap month + 1)
  else (month, n - preceding + 1).

(** [_ord2ymd] *)
Definition ord2ymd (n : Z) : Z * Z * Z :=
  let n := n - 1 in
  let n400 := n / 146097 in let n := n mod 146097 in
  let n100 := n / 36524 in let n := n mod 36524 in
  let n4 := n / 1461 in let n := n mod 1461 in
  let n1 := n / 365 in let n := n mod 365 in
  let year := n400 * 400 + 1 + n100 * 100 + n4 * 4 + n1 in
  if (n1 =? 4) || (n100 =? 4) then (year - 1, 12, 31)
  else
    let leap := (n1 =? 3) && (negb (n4 =? 24) || (n100 =? 3)) in
    let '(m, d) := month_day leap n in (year, m, d).

Definition max_ordinal : Z := 3652059.
Definition epoch_ordinal : Z := 719163.
End Calendar.

(** Microseconds per unit. *)
Definition us_second : Z := 1000000.
Definition us_minute : Z := 60 * us_second.
Definition us_hour : Z := 60 * us_minute.
Definition us_day : Z := 24 * us_hour.

(** The range of [datetime]: years 1 to 9999. *)
Definition datetime_ok (t : Z) : bool :=
  (1 <=? t / us_day + Calendar.epoch_ordinal) &&
  (t / us_day + Calendar.epoch_ordinal <=? Calendar.max_ordinal).

(** [timedelta(minutes=n)] and the like: at most 999999999 days. *)
Definition timedelta (us : Z) : res Z :=
  if (Z.abs (us / us_day) <=? 999999999) then Ok us
  else Raise (OverflowError "days; must have magnitude <= 999999999").

(** ** Digits *)

Definition digit (d : Z) : Ascii.ascii := Ascii.ascii_of_nat (48 + Z.to_nat d).

Definition digit_val (c : Ascii.ascii) : option Z :=
  let n := Ascii.nat_of_ascii c in
  if (Nat.leb 48 n && Nat.leb n 57)%nat then Some (Z.of_nat n - 48) else None.

Definition is_digit (c : Ascii.ascii) : bool := opt_is_some (digit_val c).

(** [f"{n:0{k}d}"] for [0 <= n < 10^k] *)
Fixpoint pad (k : nat) (n : Z) : list Ascii.ascii :=
  match k with
  | O => []
  | S k => pad k (n / 10) ++ [digit (n mod 10)]
  end.

Fixpoint digits_go (acc : Z) (l : list Ascii.ascii) : option Z :=
  match l with
  | [] => Some acc
  | c :: l => d ← digit_val c; digits_go (10 * acc + d) l
  end.

(** A non-empty run of decimal digits. *)
Definition digits (l : list Ascii.ascii) : option Z :=
  match l with [] => None | _ => digits_go 0 l end.

(** ** [isoformat] of an aware UTC datetime *)

Definition chars (s : string) : list Ascii.ascii := String.list_ascii_of_string s.
Definition string_of (l : list Ascii.ascii) : string := String.string_of_list_ascii l.

Definition isoformat_chars (t : Z) : list Ascii.ascii :=
  let '(y, m, d) := Calendar.ord2ymd (t / us_day + Calendar.epoch_ordinal) in
  let r := t mod us_day in
  let us := r mod us_second in
  pad 4 y ++ ["-"%char] ++ pad 2 m ++ ["-"%char] ++ pad 2 d ++ ["T"%char] ++
  pad 2 (r / us_hour) ++ [":"%char] ++ pad 2 (r / us_minute mod 60) ++ [":"%char] ++
  pad 2 (r / us_second mod 60) ++
  (if us =? 0 then [] else ["."%char] ++ pad 6 us) ++
  chars "+00:00".

Definition isoformat (t : Z) : string := string_of (isoformat_chars t).

(** ** [datetime.fromisoformat] *)

Module FromIso.
Local Abbreviation str := (list Ascii.ascii).

Definition char_is (c : Ascii.ascii) (o : option Ascii.ascii) : bool :=
  match o with Some c' => Ascii.eqb c c' | None => false end.

Definition nth_is (c : Ascii.ascii) (l : str) (i : nat) : bool := char_is c (l !! i).

Definition nth_digit (l : str) (i : nat) : bool :=
  match l !! i with Some c => is_digit c | None => false end.

Fixpoint digit_run (l : str) : nat :=
  match l with c :: l => if is_digit c then S (digit_run l) else O | [] => O end.

(** [_find_isoformat_datetime_separator] *)
Definition find_separator (l : str) : option nat :=
  let n := length l in
  if Nat.ltb n 7 then None
  else if Nat.eqb n 7 then Some 7%nat
  else if nth_is "-" l 4 then
    if nth_is "W" l 5 then
      if nth_is "-" l 8 then
        if Nat.eqb n 9 then None
        else if nth_digit l 10 then Some 8%nat else Some 10%nat
      else Some 8%nat
    else Some 10%nat
  else if nth_is "W" l 4 then
    let idx := (7 + digit_run (drop 7 l))%nat in
    if Nat.ltb idx 9 then Some idx
    else if Nat.even idx then Some 7%nat else Some 8%nat
  else Some 8%nat.

Definition two (l : str) (i : nat) : option Z :=
  match take 2 (drop i l) with
  | [a; b] => digits [a; b]
  | _ => None
  end.

(** [_isoweek_to_gregorian], as an ordinal *)
Definition isoweek_to_ord (year week day : Z) : option Z :=
  let first_weekday y := (Calendar.ymd2ord y 1 1 + 6) mod 7 in
  let out_of_range :=
    negb ((1 <=? week) && (week <=? 52)) &&
    negb ((week =? 53) && ((first_weekday year =? 3)
                           || ((first_weekday year =? 2) && Calendar.is_leap year))) in
  if out_of_range || negb ((1 <=? day) && (day <=? 7)) || negb ((1 <=? year) && (year <=? 9999))
  then None
  else
    let fw := first_weekday year in
    let week1 := Calendar.ymd2ord year 1 1 - fw + (if 3 <? fw then 7 else 0) in
    let o := week1 + (week - 1) * 7 + day - 1 in
    if (1 <=? o) && (o <=? Calendar.max_ordinal) then Some o else None.

Definition check_date (y m d : Z) : option Z :=
  if (1 <=? y) && (y <=? 9999) && (1 <=? m) && (m <=? 12) && (1 <=? d) &&
     (d <=? Calendar.days_in_month y m)
  then Some (Calendar.ymd2ord y m d) else None.

(** [_parse_isoformat_date], as a checked ordinal *)
Definition parse_date (l : str) : option Z :=
  year ← (match take 4 l with [a; b; c; d] => digits [a; b; c; d] | _ => None end);
  let has_sep := nth_is "-" l 4 in
  let pos := if has_sep then 5%nat else 4%nat in
  if nth_is "W" l pos then
    week ← two l (S pos);
    let pos := (pos + 3)%nat in
    if Nat.ltb pos (length l) then
      if eqb (nth_is "-" l pos) has_sep then
        match drop (if has_sep then S pos else pos) l with
        | [c] => day ← digits [c]; isoweek_to_ord year week day
        | _ => None
        end
      else None
    else isoweek_to_ord year week 1
  else
    month ← two l pos;
    let pos := (pos + 2)%nat in
    if eqb (nth_is "-" l pos) has_sep then
      let pos := if has_sep then S pos else pos in
      day ← two l pos;
      if Nat.eqb (length l) (pos + 2) then check_date year month day else None
    else None.

(** The fractional part: up to six digits count, further digits are dropped. *)
Definition parse_fraction (l : str) : option Z :=
  match l with
  | c :: f =>
      if Ascii.eqb c "." || Ascii.eqb c "," then
        let k := Nat.min 6 (length f) in
        v ← digits (take k f);
        if forallb is_digit (drop k f) then Some (v * 10 ^ (6 - Z.of_nat k)) else None
      else None
  | [] => Some 0
  end.

(** [_parse_hh_mm_ss_ff]: hour, minute, second, microsecond *)
Definition parse_hmsf (l : str) : option (Z * Z * Z * Z) :=
  hh ← two l 0;
  let l := drop 2 l in
  match l with
  | [] => Some (hh, 0, 0, 0)
  | c :: _ =>
      let has_sep := Ascii.eqb c ":" in
      let l := if has_sep then drop 1 l else l in
      mm ← two l 0;
      let l := drop 2 l in
      match l with
      | [] => Some (hh, mm, 0, 0)
      | c :: _ =>
          if has_sep && negb (Ascii.eqb c ":") then None
          else
            let l := if has_sep then drop 1 l else l in
            ss ← two l 0;
            f ← parse_fraction (drop 2 l);
            Some (hh, mm, ss, f)
      end
  end.

Fixpoint find_char (c : Ascii.ascii) (l : str) : option nat :=
  match l with
  | [] => None
  | c' :: l => if Ascii.eqb c c' then Some O else S <$> find_char c l
  end.

(** The position of the zone designator: the first [-], else [+], else [Z]. *)
Definition find_zone (l : str) : option nat :=
  match find_char "-" l with
  | Some i => Some i
  | None => match find_char "+" l with
            | Some i => Some i
            | None => find_char "Z" l
            end
  end.

Definition time_us (h m s f : Z) : Z := h * us_hour + m * us_minute + s * us_second + f.

Definition check_time (c : Z * Z * Z * Z) : option Z :=
  let '(h, m, s, f) := c in
  if (h <=? 23) && (m <=? 59) && (s <=? 59) then Some (time_us h m s f) else None.

(** A zone offset in microseconds, strictly below one day. *)
Definition parse_offset (sign : Z) (l : str) : option Z :=
  if existsb (Nat.eqb (length l)) [0; 1; 3]%nat then None
  else
    '(h, m, s, f) ← parse_hmsf l;
    let td := time_us h m s f in
    if td <? us_day then Some (sign * td) else None.

(** [_parse_isoformat_time]: time of day and zone offset ([None]: naive) *)
Definition parse_time (l : str) : option (Z * option Z) :=
  if Nat.ltb (length l) 2 then None
  else
    match find_zone l with
    | None => tod ← (parse_hmsf l ≫= check_time); Some (tod, None)
    | Some i =>
        tod ← (parse_hmsf (take i l) ≫= check_time);
        if Nat.eqb (S i) (length l) && nth_is "Z" l i then Some (tod, Some 0)
        else
          off ← parse_offset (if nth_is "-" l i then -1 else 1) (drop (S i) l);
          Some (tod, Some off)
    end.

(** Local microseconds since the epoch and zone offset. *)
Definition fromisoformat (l : str) : option (Z * option Z) :=
  sep ← find_separator l;
  ord ← parse_date (take sep l);
  '(tod, off) ← (if Nat.leb (length l) sep then Some (0, None)
                 else parse_time (drop (S sep) l));
  Some ((ord - Calendar.epoch_ordinal) * us_day + tod, off).
End FromIso.

(** ** [_time.py] *)

Definition ends_with_Z (l : list Ascii.ascii) : bool :=
  match last l with Some c => Ascii.eqb c "Z" | None => false end.

(** [value[:-1] + "+00:00" if value.endswith("Z") else value] *)
Definition normalize_zulu (l : list Ascii.ascii) : list Ascii.ascii :=
  if ends_with_Z l then removelast l ++ chars "+00:00" else l.

Definition parse_iso_str (s : string) : res Z :=
  match FromIso.fromisoformat (normalize_zulu (chars s)) with
  | None => Raise (ValueError ("unparseable timestamp " +:+ repr_str s))
  | Some (us, off) =>
      let utc := us - default 0 off in
      if datetime_ok utc then Ok utc else Raise (OverflowError "date value out of range")
  end.

(** [parse_iso_utc] *)
Definition parse_iso_utc (value : pv) : res (option Z) :=
  match value with
  | PNone => Ok None
  | PStr s => t ← parse_iso_str s; Ok (Some t)
  | v => Raise (TypeError ("expected ISO-8601 string, got " +:+ type_name v))
  end.

(** [utc_parser(error_cls)]: the closure that reports a missing or malformed
    timestamp as the caller's own error class; a value of another type escapes
    as [TypeError]. *)
Definition utc_parser (error_cls : string → exn) (value : pv) (context : string) : res Z :=
  match value with
  | PNone => Raise (error_cls (context +:+ ": expected ISO-8601 string, got NoneType"))
  | v =>
      match parse_iso_utc v with
      | Ok (Some t) => Ok t
      | Ok None => Raise (TypeError "unreachable")
      | Raise (ValueError msg) => Raise (error_cls (context +:+ ": " +:+ msg))
      | Raise e => Raise e
      end
  end.

(** ** The calendar is a bijection on its range *)

Import Calendar.

Lemma month_day_before (leap : bool) n :
  0 ≤ n ≤ (if leap then 365 else 364) →
  let '(m, d) := month_day leap n in
  1 ≤ m ≤ 12 ∧ 1 ≤ d ∧ days_before_month leap m + d = n + 1 ∧
  d ≤ (if m =? 2 then if leap then 29 else 28
       else if (m =? 4) || (m =? 6) || (m =? 9) || (m =? 11) then 30 else 31).
Proof.
  intros H.
  assert (forallb (λ k, let n := Z.of_nat k in
    let '(m, d) := month_day leap n in
    (1 <=? m) && (m <=? 12) && (1 <=? d) && (days_before_month leap m + d =? n + 1) &&
    (d <=? (if m =? 2 then if leap then 29 else 28
       else if (m =? 4) || (m =? 6) || (m =? 9) || (m =? 11) then 30 else 31)))
    (seq 0 (if leap then 366 else 365)) = true) as Hall by (destruct leap; vm_compute; reflexivity).
  rewrite forallb_forall in Hall.
  specialize (Hall (Z.to_nat n)). simpl in Hall. rewrite Z2Nat.id in Hall by lia.
  destruct (month_day leap n) as [m d].
  repeat rewrite andb_true_iff in Hall. rewrite !Z.leb_le, Z.eqb_eq in Hall.
  destruct Hall as [[[[? ?] ?] ?] ?]; [|tauto].
  apply in_seq. destruct leap; lia.
Qed.


(** The year found by [ord2ymd] and the day inside it. *)
Lemma ord2ymd_year a b c e :
  0 ≤ a → 0 ≤ b ≤ 3 → 0 ≤ c ≤ 24 → 0 ≤ e ≤ 3 →
  let y := a * 400 + 1 + b * 100 + c * 4 + e in
  days_before_year y = 146097 * a + 36524 * b + 1461 * c + 365 * e ∧
  is_leap y = (e =? 3) && (negb (c =? 24) || (b =? 3)).
Proof.
  intros Ha Hb Hc He y.
  assert (Hd : y mod 4 = (1 + e) mod 4 ∧ y mod 100 = (c * 4 + e + 1) mod 100 ∧
          y mod 400 = (b * 100 + c * 4 + e + 1) mod 400 ∧
          (y - 1) / 4 = 100 * a + 25 * b + c ∧ (y - 1) / 100 = 4 * a + b ∧ (y - 1) / 400 = a).
  { unfold y. repeat split; dlia. }
  destruct Hd as (H4 & H100 & H400 & D4 & D100 & D400).
  unfold days_before_year, is_leap. rewrite H4, H100, H400, D4, D100, D400. split; [unfold y; lia|].
  assert (e = 0 ∨ e = 1 ∨ e = 2 ∨ e = 3) as [-> | [-> | [-> | ->]]] by lia; try reflexivity.
  change ((1 + 3) mod 4 =? 0) with true. change (3 =? 3) with true. cbn [andb].
  destruct (Z.eqb_spec c 24) as [->|Hc'].
  - change ((24 * 4 + 3 + 1) mod 100 =? 0) with true. cbn [negb orb].
    assert (b = 0 ∨ b = 1 ∨ b = 2 ∨ b = 3) as [-> | [-> | [-> | ->]]] by lia; reflexivity.
  - rewrite Z.mod_small by lia. destruct (Z.eqb_spec (c * 4 + 3 + 1) 0); [lia|done].
Qed.

Lemma ord2ymd_spec n :
  1 ≤ n ≤ max_ordinal →
  let '(y, m, d) := ord2ymd n in
  1 ≤ y ≤ 9999 ∧ 1 ≤ m ≤ 12 ∧ 1 ≤ d ≤ days_in_month y m ∧ ymd2ord y m d = n.
Proof.
  unfold max_ordinal, ord2ymd. intros Hn. cbv zeta.
  remember ((n - 1) / 146097) as a eqn:Ea. remember ((n - 1) mod 146097) as r1 eqn:E1.
  remember (r1 / 36524) as b eqn:Eb. remember (r1 mod 36524) as r2 eqn:E2.
  remember (r2 / 1461) as c eqn:Ec. remember (r2 mod 1461) as r3 eqn:E3.
  remember (r3 / 365) as e eqn:Ee. remember (r3 mod 365) as r eqn:Er.
  assert (Hk : n - 1 = 146097 * a + 36524 * b + 1461 * c + 365 * e + r) by (subst; dlia).
  assert (Hr : 0 ≤ a ≤ 24 ∧ 0 ≤ b ≤ 4 ∧ 0 ≤ c ≤ 24 ∧ 0 ≤ e ≤ 4 ∧ 0 ≤ r ≤ 364).
  { subst. dlia. }
  assert (He4 : e = 4 → r = 0) by (subst; dlia).
  assert (Hb4 : b = 4 → c = 0 ∧ e = 0 ∧ r = 0) by (subst; dlia).
  assert (Hc24 : c = 24 → b < 3 → e < 4) by (subst; dlia).
  clear Ea E1 Eb E2 Ec E3 Ee Er r1 r2 r3.
  destruct ((e =? 4) || (b =? 4)) eqn:Elast.
  - (* the last day of a leap year *)
    assert (Hcase : (e = 4 ∧ b ≤ 3) ∨ (b = 4 ∧ e = 0 ∧ c = 0)) by lia.
    set (y := a * 400 + 1 + b * 100 + c * 4 + e - 1).
    assert (Hy : days_before_year y + 365 = n - 1 ∧ is_leap y = true).
    { destruct Hcase as [[-> ?]|(-> & -> & ->)].
      - pose proof (ord2ymd_year a b c 3 ltac:(lia) ltac:(lia) ltac:(lia) ltac:(lia)) as [H1 H2].
        replace y with (a * 400 + 1 + b * 100 + c * 4 + 3) by (unfold y; lia).
        rewrite H1, H2. split; [lia|]. simpl. lia.
      - pose proof (ord2ymd_year a 3 24 3 ltac:(lia) ltac:(lia) ltac:(lia) ltac:(lia)) as [H1 H2].
        replace y with (a * 400 + 1 + 3 * 100 + 24 * 4 + 3) by (unfold y; lia).
        rewrite H1, H2. split; [lia|done]. }
    destruct Hy as [Hy1 Hy2].
    unfold ymd2ord, days_in_month. rewrite Hy2. unfold y in *.
    repeat split; simpl; try lia.
    unfold days_before_month, days_before_month_common. simpl. lia.
  - pose proof (ord2ymd_year a b c e ltac:(lia) ltac:(lia) ltac:(lia) ltac:(lia)) as [Hy Hl].
    rewrite <-Hl. set (y := a * 400 + 1 + b * 100 + c * 4 + e) in *.
    pose proof (month_day_before (is_leap y) r) as Hmd.
    destruct (month_day (is_leap y) r) as [m d].
    destruct Hmd as (Hm & Hd & Hsum & Hdm); [destruct (is_leap y); lia|].
    unfold ymd2ord, days_in_month. repeat split; try lia.
Qed.

(** ** Digit strings *)

Lemma digit_val_digit d : 0 ≤ d < 10 → digit_val (digit d) = Some d.
Proof.
  intros H.
  assert (d = 0 ∨ d = 1 ∨ d = 2 ∨ d = 3 ∨ d = 4 ∨ d = 5 ∨ d = 6 ∨ d = 7 ∨ d = 8 ∨ d = 9) by lia.
  destruct_or!; by subst.
Qed.

Lemma digits_go_app acc l1 l2 :
  digits_go acc (l1 ++ l2) = (acc' ← digits_go acc l1; digits_go acc' l2).
Proof.
  revert acc. induction l1 as [|c l1 IH]; intros acc; [done|]. simpl.
  destruct (digit_val c); [|done]. simpl. apply IH.
Qed.

Lemma digits_go_pad k n : 0 ≤ n < 10 ^ Z.of_nat k → digits_go 0 (pad k n) = Some n.
Proof.
  revert n. induction k as [|k IH]; intros n Hn; simpl.
  - f_equal. change (10 ^ Z.of_nat 0) with 1 in Hn. lia.
  - rewrite Nat2Z.inj_succ, Z.pow_succ_r in Hn by lia.
    rewrite digits_go_app, IH by dlia. cbn [mbind option_bind digits_go].
    rewrite digit_val_digit by dlia. cbn. f_equal. dlia.
Qed.

Lemma length_pad k n : length (pad k n) = k.
Proof. revert n. induction k; intros n; simpl; [done|]. rewrite length_app, IHk. simpl. lia. Qed.

Lemma pad_digits k n : Forall (λ c, is_digit c = true) (pad k n).
Proof.
  revert n. induction k; intros n; simpl; [constructor|]. apply Forall_app. split; [done|]. constructor; [|constructor]. unfold is_digit. rewrite digit_val_digit by dlia. done.
Qed.

(** A padded field as named digits. *)
Lemma pad_inv k n :
  0 ≤ n < 10 ^ Z.of_nat k → (0 < k)%nat →
  length (pad k n) = k ∧ Forall (λ c, is_digit c = true) (pad k n) ∧ digits (pad k n) = Some n.
Proof.
  intros Hn Hk. split_and!; [apply length_pad|apply pad_digits|].
  pose proof (digits_go_pad k n Hn) as H. pose proof (length_pad k n) as Hl.
  unfold digits. destruct (pad k n); [simpl in Hl; lia|done].
Qed.

Lemma digit_neq x c : is_digit c = true → is_digit x = false → Ascii.eqb x c = false.
Proof. intros Hc Hx. destruct (Ascii.eqb_spec x c) as [->|]; congruence. Qed.

Lemma digit_neq' x c : is_digit c = true → is_digit x = false → Ascii.eqb c x = false.
Proof. intros Hc Hx. destruct (Ascii.eqb_spec c x) as [->|]; congruence. Qed.

(** Rewrite away every comparison of a known digit with a punctuation mark. *)
Ltac digit_facts :=
  repeat match goal with
  | H : Forall _ (_ :: _) |- _ => apply Forall_cons in H as [? H]
  | H : Forall _ [] |- _ => clear H
  end.

Ltac digit_step :=
  first
  [ rewrite digit_neq by (first [assumption | reflexivity])
  | rewrite digit_neq' by (first [assumption | reflexivity]) ].

Ltac eval_eqb :=
  match goal with
  | |- context [Ascii.eqb ?a ?b] =>
      let v := eval vm_compute in (Ascii.eqb a b) in
      lazymatch v with true => idtac | false => idtac end;
      change (Ascii.eqb a b) with v
  end.

Ltac parse_step :=
  repeat (progress (cbn -[Ascii.eqb digits FromIso.check_date FromIso.check_time us_day]
                    || eval_eqb || digit_step)).

Section roundtrip.
Import FromIso.

Lemma parse_date_iso y m d :
  1 ≤ y ≤ 9999 → 1 ≤ m ≤ 12 → 1 ≤ d ≤ days_in_month y m →
  parse_date (pad 4 y ++ ["-"%char] ++ pad 2 m ++ ["-"%char] ++ pad 2 d) = Some (ymd2ord y m d).
Proof.
  intros Hy Hm Hd.
  assert (d ≤ 31) by (unfold days_in_month in Hd; repeat case_match; lia).
  destruct (pad_inv 4 y) as (Ly & Dy & Ey); [lia..|].
  destruct (pad_inv 2 m) as (Lm & Dm & Em); [lia..|].
  destruct (pad_inv 2 d) as (Ld & Dd & Ed); [lia..|].
  destruct (pad 4 y) as [|y1 [|y2 [|y3 [|y4 [|]]]]]; try discriminate Ly.
  destruct (pad 2 m) as [|m1 [|m2 [|]]]; try discriminate Lm.
  destruct (pad 2 d) as [|d1 [|d2 [|]]]; try discriminate Ld.
  digit_facts. unfold parse_date, two. cbn [take drop app].
  rewrite Ey. unfold nth_is, char_is. parse_step.
  rewrite Em. parse_step. rewrite Ed. parse_step. unfold check_date.
  replace (_ && _ && _ && _ && _ && _) with true; [done|].
  symmetry. rewrite !andb_true_iff, !Z.leb_le. lia.
Qed.

(** The time of day and zone of an [isoformat]ted UTC datetime. *)
Lemma parse_time_iso h m sec us :
  0 ≤ h ≤ 23 → 0 ≤ m ≤ 59 → 0 ≤ sec ≤ 59 → 0 ≤ us < us_second →
  parse_time (pad 2 h ++ [":"%char] ++ pad 2 m ++ [":"%char] ++ pad 2 sec ++
    (if us =? 0 then [] else ["."%char] ++ pad 6 us) ++ chars "+00:00")
  = Some (time_us h m sec us, Some 0).
Proof.
  unfold us_second. intros Hh Hm Hs Hu.
  destruct (pad_inv 2 h) as (Lh & Dh & Eh); [lia..|].
  destruct (pad_inv 2 m) as (Lm & Dm & Em); [lia..|].
  destruct (pad_inv 2 sec) as (Ls & Ds & Es); [lia..|].
  destruct (pad_inv 6 us) as (Lu & Du & Eu); [lia..|].
  destruct (pad 2 h) as [|h1 [|h2 [|]]]; try discriminate Lh.
  destruct (pad 2 m) as [|m1 [|m2 [|]]]; try discriminate Lm.
  destruct (pad 2 sec) as [|s1 [|s2 [|]]]; try discriminate Ls.
  destruct (pad 6 us) as [|u1 [|u2 [|u3 [|u4 [|u5 [|u6 [|]]]]]]]; try discriminate Lu.
  digit_facts.
  assert (Hc : check_time (h, m, sec, us) = Some (time_us h m sec us)).
  { unfold check_time. replace (_ && _ && _) with true; [done|].
    symmetry. rewrite !andb_true_iff, !Z.leb_le. lia. }
  unfold parse_time, find_zone, parse_hmsf, two, nth_is, char_is.
  destruct (Z.eqb_spec us 0) as [->|Hne]; parse_step;
    rewrite Eh; parse_step; rewrite Em; parse_step; rewrite Es; parse_step.
  - rewrite Hc. parse_step. done.
  - rewrite Eu. parse_step. rewrite Z.mul_1_r. rewrite Hc. parse_step. done.
Qed.
End roundtrip.

Lemma isoformat_fields t :
  datetime_ok t = true →
  ∃ y m d, ord2ymd (t / us_day + epoch_ordinal) = (y, m, d) ∧
    1 ≤ y ≤ 9999 ∧ 1 ≤ m ≤ 12 ∧ 1 ≤ d ≤ days_in_month y m ∧
    ymd2ord y m d = t / us_day + epoch_ordinal.
Proof.
  unfold datetime_ok. rewrite andb_true_iff, !Z.leb_le. intros Ht.
  pose proof (ord2ymd_spec (t / us_day + epoch_ordinal) ltac:(lia)) as H.
  destruct (ord2ymd _) as [[y m] d]. exists y, m, d. tauto.
Qed.

Lemma time_fields t :
  let r := t mod us_day in
  0 ≤ r / us_hour ≤ 23 ∧ 0 ≤ r / us_minute mod 60 ≤ 59 ∧ 0 ≤ r / us_second mod 60 ≤ 59 ∧
  0 ≤ r mod us_second < us_second ∧
  FromIso.time_us (r / us_hour) (r / us_minute mod 60) (r / us_second mod 60) (r mod us_second) = r.
Proof.
  cbv zeta. pose proof (Z.mod_pos_bound t us_day ltac:(done)) as Hr.
  set (r := t mod us_day) in *. clearbody r. unfold FromIso.time_us.
  change us_day with 86400000000 in *. change us_hour with 3600000000.
  change us_minute with 60000000. change us_second with 1000000.
  repeat split; dlia.
Qed.

Lemma fromisoformat_isoformat t :
  datetime_ok t = true → FromIso.fromisoformat (isoformat_chars t) = Some (t, Some 0).
Proof.
  intros Ht. destruct (isoformat_fields t Ht) as (y & m & d & E & Hy & Hm & Hd & Hord).
  pose proof (time_fields t) as (Hh & Hmi & Hs & Hus & Hr). cbv zeta in *.
  unfold isoformat_chars. rewrite E. cbv zeta.
  set (r := t mod us_day) in *.
  pose proof (parse_date_iso y m d Hy Hm Hd) as Hdate.
  pose proof (parse_time_iso _ _ _ _ Hh Hmi Hs Hus) as Htime. rewrite Hr in Htime.
  set (tail := pad 2 (r / us_hour) ++ _) in *. 
  assert (d ≤ 31) by (unfold days_in_month in Hd; repeat case_match; lia).
  destruct (pad_inv 4 y) as (Ly & Dy & _); [lia..|].
  destruct (pad_inv 2 m) as (Lm & Dm & _); [lia..|].
  destruct (pad_inv 2 d) as (Ld & Dd & _); [lia..|].
  destruct (pad 4 y) as [|y1 [|y2 [|y3 [|y4 [|]]]]]; try discriminate Ly.
  destruct (pad 2 m) as [|m1 [|m2 [|]]]; try discriminate Lm.
  destruct (pad 2 d) as [|d1 [|d2 [|]]]; try discriminate Ld.
  digit_facts. cbn [app] in *. unfold FromIso.fromisoformat.
  replace (FromIso.find_separator _) with (Some 10%nat).
  2: { unfold FromIso.find_separator, FromIso.nth_is, FromIso.char_is. parse_step. done. }
  cbn [mbind option_bind take drop]. rewrite Hdate. cbn [mbind option_bind length Nat.leb].
  rewrite drop_0, Htime. cbn. f_equal. f_equal.
  rewrite Hord. subst r. pose proof (Z.div_mod t us_day ltac:(done)). lia.
Qed.

Lemma isoformat_not_zulu t : ends_with_Z (isoformat_chars t) = false.
Proof.
  unfold ends_with_Z, isoformat_chars. destruct (ord2ymd _) as [[y m] d].
  rewrite !app_assoc. change (chars "+00:00") with (chars "+00:0" ++ ["0"%char]).
  rewrite app_assoc, last_snoc. done.
Qed.

(** ** Round trips used by the other components *)

Lemma parse_iso_str_isoformat t : datetime_ok t = true → parse_iso_str (isoformat t) = Ok t.
Proof.
  intros Ht. unfold parse_iso_str, isoformat, chars, string_of.
  rewrite String.list_ascii_of_string_of_list_ascii.
  unfold normalize_zulu. rewrite isoformat_not_zulu, fromisoformat_isoformat by done.
  simpl. by rewrite Z.sub_0_r, Ht.
Qed.

Lemma utc_parser_isoformat err t ctx :
  datetime_ok t = true → utc_parser err (PStr (isoformat t)) ctx = Ok t.
Proof. intros Ht. unfold utc_parser, parse_iso_utc. by rewrite parse_iso_str_isoformat. Qed.

Lemma isoformat_inj t1 t2 :
  datetime_ok t1 = true → datetime_ok t2 = true → isoformat t1 = isoformat t2 → t1 = t2.
Proof.
  intros H1 H2 E. apply (f_equal parse_iso_str) in E.
  rewrite !parse_iso_str_isoformat in E by done. by injection E.
Qed.

#[export] Hint Rewrite @parse_iso_str_isoformat @utc_parser_isoformat using assumption : oscm_rw.

(** Timestamps round-trip: whatever [parse_iso_utc] accepts is an instant
    in the range of [datetime], and writing any such instant with [isoformat]
    and parsing it again gives the same instant to the microsecond. *)
Theorem parse_iso_utc_normalises value t :
  parse_iso_utc value = Ok (Some t) →
  datetime_ok t = true ∧ parse_iso_utc (PStr (isoformat t)) = Ok (Some t).
Proof.
  intros E. assert (datetime_ok t = true) as Ht.
  { destruct value; try done. simpl in E. unfold parse_iso_str in E.
    destruct (FromIso.fromisoformat _) as [[us off]|]; [|done].
    cbv zeta in E. destruct (datetime_ok _) eqn:Hok; [|done]. by injection E as <-. }
  split; [done|]. simpl. by rewrite parse_iso_str_isoformat.
Qed.

Lemma parse_iso_utc_normalises_witness :
  datetime_ok 1704067199123456 = true ∧
  parse_iso_utc (PStr (isoformat 1704067199123456)) = Ok (Some 1704067199123456).
Proof. apply (parse_iso_utc_normalises (PStr "2024-01-01T05:29:59.123456+05:30")). vm_compute; reflexivity. Defined.

(** The error class of a caller covers absent and malformed text only: any
    other value escapes as [TypeError]. *)
Lemma utc_parser_type_error err n ctx :
  utc_parser err (PInt n) ctx = Raise (TypeError "expected ISO-8601 string, got int").
Proof. done. Qed.
