(* ===== verification/Services.v ===== *)
(** * The world outside the process

    Each service the operator calls is a type class of operations on the world;
    the answers are arbitrary unless a law says otherwise.  Only [StatusServer]
    carries laws: what the Kubernetes API documents of the status subresource
    of a custom resource (a [GET] returns the stored object, a merge patch that
    succeeds or fails with 409 has the documented effect, any other failure of
    a patch may have been applied or not). *)
From S2P Require Import Prelude PyValue Effects Logic.

(** ** Operations *)

(** [CustomObjectsApi]: the status subresource and the list call. *)
Class CustomObjectsApi (W : Type) := {
  get_status_call : string → string → W → res pv * W;
  patch_status_call : string → string → pv → W → res unit * W;
  list_crs_call : string → W → res pv * W;
}.

(** The order in which the server lists the members of an object. *)
Class KeyOrder := {
  key_order : gmap string pv → list (string * pv);
  key_order_perm m : key_order m ≡ₚ map_to_list m;
}.

(** The order in which Python iterates over a set of strings. *)
Class SetOrder := {
  set_order : gset string → list string;
  set_order_perm X : set_order X ≡ₚ elements X;
}.

(** What the code reads of a pod, a Deployment and a Job. *)
Record pod := Pod {
  pod_name : option string;
  pod_phase : option string;
  pod_conditions : list (string * string);       (** (type, status) *)
}.

Record match_expression := MatchExpression {
  expr_key : option string;
  expr_operator : option string;
  expr_values : list string;
}.

Record deployment := Deployment {
  match_labels : list (string * string);
  match_expressions : list match_expression;
}.

Record job := Job { job_conditions : list (option string * option string) }.

Class CoreV1Api (W : Type) := {
  list_pods_call : string → option string → W → res (list pod) * W;
  delete_pod_call : string → string → option Z → W → res unit * W;
  read_secret_call : string → string → W → res (gmap string string) * W;
  create_event_call : string → pv → W → res unit * W;
}.

Class AppsV1Api (W : Type) := {
  read_deployment_call : string → string → W → res deployment * W;
  patch_deployment_call : string → string → pv → W → res unit * W;
}.

Class BatchV1Api (W : Type) := {
  read_job_call : string → string → W → res job * W;
  create_job_call : string → pv → W → res unit * W;
  delete_job_call : string → string → string → W → res unit * W;
}.

(** [kubernetes.config]: [load_incluster_config] and [load_kube_config]. *)
Class KubeConfigApi (W : Type) := {
  incluster_config_call : W → res unit * W;
  kube_config_call : W → res unit * W;
}.

(** [kopf.event] *)
Class KopfApi (W : Type) := {
  kopf_event_call : pv → string → string → string → W → res unit * W;
}.

Record http_response := Response {
  status_code : Z;
  text : string;
  json_body : res pv;            (** [response.json()] *)
}.

(** [requests.Session.request] *)
Class HttpApi (W : Type) := {
  http_call : string → string → list (string * string) → list (string * string) →
              W → res http_response * W;
}.

(** redis-py: one command on the connection of the given URL.  A set reply is
    the list of its members, a [SCAN] reply the list of cursor and batch. *)
Class RedisApi (W : Type) := {
  redis_call : string → list string → W → res pv * W;
}.

(** [time.time()] and [datetime.now(UTC)], in microseconds since the epoch. *)
Class Clock (W : Type) := { clock : W → Z }.

(** [random.random()]: every draw the operator makes follows a call that moved
    the world on, so a draw is a function of the world. *)
Class Entropy (W : Type) := {
  random : W → Q;
  random_range w : (0 <= random w < 1)%Q;
}.

(** ** Calls *)

Section calls.
Context {W P : Type}.

Definition get_namespaced_custom_object_status `{CustomObjectsApi W} ns name : M W P pv :=
  ext (KubeGetStatus ns name) (get_status_call ns name).
Definition patch_namespaced_custom_object_status `{CustomObjectsApi W} ns name body : M W P unit :=
  ext (KubePatchStatus ns name body) (patch_status_call ns name body).
Definition list_namespaced_custom_object `{CustomObjectsApi W} ns : M W P pv :=
  ext (KubeListCrs ns) (list_crs_call ns).
Definition list_namespaced_pod `{CoreV1Api W} ns sel : M W P (list pod) :=
  ext (KubeListPods ns sel) (list_pods_call ns sel).
Definition delete_namespaced_pod `{CoreV1Api W} name ns grace : M W P unit :=
  ext (KubeDeletePod name ns grace) (delete_pod_call name ns grace).
Definition read_namespaced_secret `{CoreV1Api W} name ns : M W P (gmap string string) :=
  ext (KubeReadSecret name ns) (read_secret_call name ns).
Definition create_namespaced_event `{CoreV1Api W} ns body : M W P unit :=
  ext (KubeCreateEvent ns body) (create_event_call ns body).
Definition read_namespaced_deployment `{AppsV1Api W} name ns : M W P deployment :=
  ext (KubeReadDeployment name ns) (read_deployment_call name ns).
Definition patch_namespaced_deployment `{AppsV1Api W} name ns body : M W P unit :=
  ext (KubePatchDeployment name ns body) (patch_deployment_call name ns body).
Definition read_namespaced_job `{BatchV1Api W} name ns : M W P job :=
  ext (KubeReadJob name ns) (read_job_call name ns).
Definition create_namespaced_job `{BatchV1Api W} ns body : M W P unit :=
  ext (KubeCreateJob ns body) (create_job_call ns body).
Definition delete_namespaced_job `{BatchV1Api W} name ns policy : M W P unit :=
  ext (KubeDeleteJob name ns policy) (delete_job_call name ns policy).
Definition load_incluster_config `{KubeConfigApi W} : M W P unit := ext LoadKubeConfig incluster_config_call.
Definition load_kube_config `{KubeConfigApi W} : M W P unit := ext LoadKubeConfig kube_config_call.
Definition kopf_event `{KopfApi W} obj type reason message : M W P unit :=
  ext (KopfEvent obj type reason message) (kopf_event_call obj type reason message).
End calls.

(** [obj.get(k)] on a value that should be a dictionary. *)
Definition py_get (v : pv) (k : string) : res pv :=
  match v with
  | PDict m => Ok (dget m k)
  | v => Raise (AttributeError (type_name v +:+ " object has no attribute get"))
  end.

(** [for x in v]: the elements of a list, the keys of a dictionary. *)
Definition py_iter `{KeyOrder} (v : pv) : res (list pv) :=
  match v with
  | PList l => Ok l
  | PDict m => Ok (PStr ∘ fst <$> key_order m)
  | PStr s => Ok ((λ c, PStr (String c EmptyString)) <$> String.list_ascii_of_string s)
  | v => Raise (TypeError (type_name v +:+ " object is not iterable"))
  end.

(** ** The status subresource *)

(** [obj.get("status") or {}] of a fetched object. *)
Definition status_of_object (obj : pv) : res (gmap string pv) :=
  v ← py_get obj "status";
  match py_or v (PDict ∅) with
  | PDict m => Ok m
  | v => Raise (AttributeError (type_name v +:+ " object has no attribute get"))
  end.

(** The effect of a patch body on the status document. *)
Definition patch_effect (status : gmap string pv) (body : pv) : gmap string pv :=
  match body with
  | PDict b => match b !! "status" with
               | Some (PDict p) => merge_dict status p
               | _ => status
               end
  | _ => status
  end.

Class StatusServer (W : Type) `{CustomObjectsApi W} := {
  status_doc : W → string → string → gmap string pv;
  get_ok ns name w obj w' :
    get_status_call ns name w = (Ok obj, w') →
    status_of_object obj = Ok (status_doc w ns name) ∧ status_doc w' = status_doc w;
  get_err ns name w e w' :
    get_status_call ns name w = (Raise e, w') → status_doc w' = status_doc w;
  patch_other ns name body w ns' name' :
    (ns', name') ≠ (ns, name) →
    status_doc (patch_status_call ns name body w).2 ns' name' = status_doc w ns' name';
  patch_ok ns name body w w' :
    patch_status_call ns name body w = (Ok tt, w') →
    status_doc w' ns name = patch_effect (status_doc w ns name) body;
  patch_conflict ns name body w reason w' :
    patch_status_call ns name body w = (Raise (ApiException 409 reason), w') →
    status_doc w' ns name = status_doc w ns name;
  patch_err ns name body w e w' :
    patch_status_call ns name body w = (Raise e, w') →
    status_doc w' ns name = status_doc w ns name ∨
    status_doc w' ns name = patch_effect (status_doc w ns name) body;
}.
