(* ===== verification/Config.v ===== *)
(** * The operator configuration ([config.py])

    [OperatorConfig.from_spec] as the code has it: the values of the spec are
    taken as they are, a default stands for an absent key, and only the Redis
    secret reference is validated.  The fields therefore hold Python values;
    [config_flag] and [config_number] are how the handlers consume them. *)
From S2P Require Import Prelude PyValue Effects Services.

Record RedisSecretRef := MkRedisSecretRef { ref_name : string; ref_key : string }.

Record AnalysisPolicy := MkAnalysisPolicy {
  max_duration_minutes : pv;
  graceful_stop_timeout_minutes : pv;
  auto_soft_stop : pv;
  force_delete_on_escalation : pv;
}.

Record DatapointPolicy := MkDatapointPolicy {
  max_datapoint_runtime_minutes : pv;
  max_auto_requeues : pv;
}.

Record WorkerPolicy := MkWorkerPolicy {
  recycle_worker_interval_hours : pv;
  recycle_after_analysis : pv;
  min_recycle_interval_minutes : pv;
}.

Record WebBackgroundPolicy := MkWebBackgroundPolicy { stall_window_minutes : pv }.

Record StoragePolicy := MkStoragePolicy {
  archive_to_s3 : pv;
  storage_backend : pv;
  storage_bucket : pv;
  storage_secret_ref : pv;
  retention_days : pv;
  purge_completed_nfs_files : pv;
}.

Record OperatorConfig := MkOperatorConfig {
  server_url : pv;
  redis_url : pv;
  redis_secret_ref : option RedisSecretRef;
  dry_run : pv;
  target_worker_deployment : pv;
  target_web_background_deployment : pv;
  analysis_policy : AnalysisPolicy;
  datapoint_policy : DatapointPolicy;
  worker_policy : WorkerPolicy;
  web_background_policy : WebBackgroundPolicy;
  storage_policy : StoragePolicy;
}.

Definition DEFAULT_REDIS_URL : string := "".

(** [isinstance(v, str) and v] *)
Definition nonempty_str (v : pv) : option string :=
  match v with
  | PStr s => if String.eqb s "" then None else Some s
  | _ => None
  end.

Definition _redis_secret_ref_from_spec (raw : pv) : res (option RedisSecretRef) :=
  match raw with
  | PNone => Ok None
  | PDict m =>
      match nonempty_str (dget m "name"), nonempty_str (dget m "key") with
      | Some name, Some key => Ok (Some (MkRedisSecretRef name key))
      | _, _ => Raise (ValueError
          ("spec.redisCredentials.secretRef requires non-empty string 'name' and 'key' (issue #463); got name="
           +:+ py_repr (dget m "name") +:+ ", key=" +:+ py_repr (dget m "key")))
      end
  | v => Raise (ValueError
      ("spec.redisCredentials.secretRef must be an object with 'name' and 'key' (issue #463); got "
       +:+ type_name v +:+ ": " +:+ py_repr v))
  end.

(** [m.get(k, d)] on a dictionary, and on any value. *)
Definition dget_or (m : gmap string pv) (k : string) (d : pv) : pv := default d (m !! k).

Definition py_get_or (v : pv) (k : string) (d : pv) : res pv :=
  match v with
  | PDict m => Ok (dget_or m k d)
  | v => Raise (AttributeError (type_name v +:+ " object has no attribute get"))
  end.

(** The membership tests of the debug log, [k in analysis] for a truthy value:
    they raise on a value that is no container. *)
Definition membership_test (v : pv) : res unit :=
  if truthy v then
    match v with
    | PDict _ | PList _ | PStr _ => Ok tt
    | v => Raise (TypeError ("argument of type " +:+ type_name v +:+ " is not iterable"))
    end
  else Ok tt.

Definition from_spec (spec : gmap string pv) : res OperatorConfig :=
  let analysis := dget_or spec "analysisPolicy" (PDict ∅) in
  let datapoint := dget_or spec "datapointPolicy" (PDict ∅) in
  let worker := dget_or spec "workerPolicy" (PDict ∅) in
  let web_background := dget_or spec "webBackgroundPolicy" (PDict ∅) in
  let storage := dget_or spec "storagePolicy" (PDict ∅) in
  let redis_credentials := py_or (dget spec "redisCredentials") (PDict ∅) in
  membership_test analysis;;
  raw_ref ← py_get redis_credentials "secretRef";
  secret_ref ← _redis_secret_ref_from_spec raw_ref;
  max_duration ← py_get_or analysis "maxDurationMinutes" (PInt 180);
  graceful ← py_get_or analysis "gracefulStopTimeoutMinutes" (PInt 15);
  auto_stop ← py_get_or analysis "autoSoftStop" (PBool true);
  force_delete ← py_get_or analysis "forceDeleteOnEscalation" (PBool false);
  max_runtime ← py_get_or datapoint "maxDatapointRuntimeMinutes" (PInt 45);
  max_requeues ← py_get_or datapoint "maxAutoRequeues" (PInt 3);
  interval ← py_get_or worker "recycleWorkerIntervalHours" (PInt 12);
  after_analysis ← py_get_or worker "recycleAfterAnalysis" (PBool true);
  min_interval ← py_get_or worker "minRecycleIntervalMinutes" (PInt 30);
  stall ← py_get_or web_background "stallWindowMinutes" (PInt 10);
  archive ← py_get_or storage "archiveToS3" (PBool false);
  backend ← py_get_or storage "backend" PNone;
  bucket ← py_get_or storage "bucket" PNone;
  storage_ref ← py_get_or storage "secretRef" PNone;
  retention ← py_get_or storage "retentionDays" (PInt 7);
  purge ← py_get_or storage "purgeCompletedNFSFiles" (PBool true);
  mret (MkOperatorConfig
    (dget_or spec "serverUrl" (PStr ""))
    (dget_or spec "redisUrl" (PStr DEFAULT_REDIS_URL))
    secret_ref
    (dget_or spec "dryRun" (PBool false))
    (dget_or spec "targetWorkerDeployment" (PStr ""))
    (dget_or spec "targetWebBackgroundDeployment" (PStr ""))
    (MkAnalysisPolicy max_duration graceful auto_stop force_delete)
    (MkDatapointPolicy max_runtime max_requeues)
    (MkWorkerPolicy interval after_analysis min_interval)
    (MkWebBackgroundPolicy stall)
    (MkStoragePolicy archive backend bucket storage_ref retention purge)).

(** ** How the handlers use a field *)

(** [if config.flag:] *)
Definition config_flag (v : pv) : bool := truthy v.

(** A number in an arithmetic position ([bool] is a subclass of [int]). *)
Definition config_number (v : pv) : res Z :=
  match v with
  | PInt z => Ok z
  | PBool b => Ok (if b then 1 else 0)
  | v => Raise (TypeError ("unsupported type: " +:+ type_name v))
  end.

(** ** Facts *)

(** The accepted specs: every policy that is present is an object, and the
    secret reference, when given, names a non-empty secret and key. *)
Definition policy_fields : list string :=
  ["analysisPolicy"; "datapointPolicy"; "workerPolicy"; "webBackgroundPolicy"; "storagePolicy"].

Definition is_object (v : pv) : bool := is_dict v.

Definition secret_ref_ok (v : pv) : bool :=
  match v with
  | PNone => true
  | PDict m => opt_is_some (nonempty_str (dget m "name")) && opt_is_some (nonempty_str (dget m "key"))
  | _ => false
  end.

Definition credentials_ok (v : pv) : bool :=
  match py_or v (PDict ∅) with
  | PDict m => secret_ref_ok (dget m "secretRef")
  | _ => false
  end.

Definition spec_ok (spec : gmap string pv) : bool :=
  forallb (λ f, is_object (dget_or spec f (PDict ∅))) policy_fields
  && credentials_ok (dget spec "redisCredentials").

Lemma secret_ref_from_spec_ok raw : is_ok (_redis_secret_ref_from_spec raw) = secret_ref_ok raw.
Proof. destruct raw as [| | | | | |m]; try done. simpl. by destruct (nonempty_str (dget m "name")), (nonempty_str (dget m "key")). Qed.

Lemma secret_ref_nonempty raw r :
  _redis_secret_ref_from_spec raw = Ok (Some r) → ref_name r ≠ "" ∧ ref_key r ≠ "".
Proof.
  destruct raw as [| | | | | |m]; try done. simpl.
  assert (Hne : ∀ v s, nonempty_str v = Some s → s ≠ "").
  { intros v s. destruct v; simpl; try done. destruct (String.eqb_spec s0 ""); naive_solver. }
  destruct (nonempty_str (dget m "name")) eqn:En, (nonempty_str (dget m "key")) eqn:Ek; try done.
  intros [= <-]. eauto.
Qed.

Lemma from_spec_is_ok spec : is_ok (from_spec spec) = spec_ok spec.
Proof.
  unfold from_spec, spec_ok, policy_fields, credentials_ok. cbn [forallb].
  generalize (dget_or spec "analysisPolicy" (PDict ∅)) as a.
  generalize (dget_or spec "datapointPolicy" (PDict ∅)) as d.
  generalize (dget_or spec "workerPolicy" (PDict ∅)) as w.
  generalize (dget_or spec "webBackgroundPolicy" (PDict ∅)) as b.
  generalize (dget_or spec "storagePolicy" (PDict ∅)) as g.
  generalize (py_or (dget spec "redisCredentials") (PDict ∅)) as c.
  intros c g b w d a. cbv zeta.
  assert (is_object a = true → membership_test a = Ok tt) as Ha.
  { destruct a; try done. unfold membership_test. by case_match. }
  destruct (is_object a) eqn:Ea.
  2: { rewrite is_ok_bind. destruct (membership_test a); [|done]. rewrite is_ok_bind.
       destruct (py_get c "secretRef"); [|done]. rewrite is_ok_bind.
       destruct (_redis_secret_ref_from_spec _); [|done]. by destruct a. }
  rewrite Ha by done. rewrite is_ok_bind. destruct a as [| | | | | |a]; try done.
  rewrite is_ok_bind. destruct c as [| | | | | |c]; try (cbn; by rewrite ?andb_false_r).
  cbn [py_get]. rewrite is_ok_bind.
  rewrite <-(secret_ref_from_spec_ok (dget c "secretRef")).
  destruct (_redis_secret_ref_from_spec _) as [r|e]; cbn [is_ok]; [|by rewrite !andb_false_r].
  destruct d as [| | | | | |d], w as [| | | | | |w], b as [| | | | | |b], g as [| | | | | |g]; done.
Qed.

Lemma from_spec_ref spec c :
  from_spec spec = Ok c → ∃ raw, _redis_secret_ref_from_spec raw = Ok (redis_secret_ref c).
Proof.
  unfold from_spec. cbv zeta. intros E.
  apply res_bind_Ok in E as (? & _ & E). apply res_bind_Ok in E as (raw & _ & E).
  apply res_bind_Ok in E as (r & Er & E). exists raw. rewrite Er.
  repeat apply res_bind_Ok in E as (? & _ & E). by injection E as <-.
Qed.

(** [from_spec] accepts exactly the specs whose policies are objects and
    whose secret reference is complete, and the reference it returns is. *)
Theorem from_spec_accepts spec :
  is_ok (from_spec spec) = spec_ok spec ∧
  ∀ c r, from_spec spec = Ok c → redis_secret_ref c = Some r → ref_name r ≠ "" ∧ ref_key r ≠ "".
Proof.
  split; [apply from_spec_is_ok|]. intros c r E Hr. apply from_spec_ref in E as [raw E].
  rewrite Hr in E. by apply secret_ref_nonempty in E.
Qed.

Definition sample_spec : gmap string pv :=
  {["serverUrl" := PStr "http://web"; "dryRun" := PBool true;
    "redisCredentials" := PDict {["secretRef" := PDict {["name" := PStr "redis"; "key" := PStr "url"]}]}]}.

Lemma from_spec_accepts_witness : "redis" ≠ "" ∧ "url" ≠ "".
Proof.
  apply (proj2 (from_spec_accepts sample_spec)
    (default (MkOperatorConfig PNone PNone None PNone PNone PNone
        (MkAnalysisPolicy PNone PNone PNone PNone) (MkDatapointPolicy PNone PNone)
        (MkWorkerPolicy PNone PNone PNone) (MkWebBackgroundPolicy PNone)
        (MkStoragePolicy PNone PNone PNone PNone PNone PNone))
      (match from_spec sample_spec with Ok c => Some c | Raise _ => None end))
    (MkRedisSecretRef "redis" "url")); vm_compute; reflexivity.
Defined.
