(* ===== verification/CrCache.v ===== *)
(** * Per-CR caches ([_cr_cache.py])

    A process-level cache keyed by the CR's namespace and name whose entries
    remember the uid of the CR they were made for.  [get]/[put] locate the
    cache in the component's memory. *)
From S2P Require Import Prelude PyValue Effects Logic.

(** [cr_uid(body)] *)
Definition cr_uid (body : pv) : option string :=
  match body with
  | PDict b =>
      match dget b "metadata" with
      | PDict metadata =>
          let uid := dget metadata "uid" in
          if truthy uid then Some (py_str uid) else None
      | _ => None
      end
  | _ => None
  end.

Definition uid_is_stale (recorded observed : option string) : bool :=
  match recorded, observed with
  | Some r, Some o => negb (String.eqb r o)
  | _, _ => false
  end.

Notation PerCRCache V := (gmap (string * string) (option string * V)).

Section cache.
Context {W P V : Type} (get : P → PerCRCache V) (put : PerCRCache V → P → P).

(** [factory] and [on_fresh] may use the whole memory, the cache included. *)
Definition get_or_create (on_fresh : string → string → M W P unit) (namespace name : string)
    (uid : option string) (factory : M W P V) : M W P V :=
  let store (v : V) (recorded : option string) : M W P unit :=
    modify_mem (λ p, put (<[(namespace, name) := (recorded, v)]> (get p)) p) in
  let fresh : M W P V :=
    on_fresh namespace name;;
    value ← factory;
    store value uid;;
    mret value in
  p ← get_mem;
  match get p !! (namespace, name) with
  | Some (recorded, value) =>
      if uid_is_stale recorded uid then fresh
      else
        match uid, recorded with
        | Some _, None => store value uid;; mret value
        | _, _ => mret value
        end
  | None => fresh
  end.

Definition reset (namespace name : option string) : M W P unit :=
  match namespace, name with
  | None, None => modify_mem (put ∅)
  | Some ns, Some n => modify_mem (λ p, put (delete (ns, n) (get p)) p)
  | _, _ => raise (ValueError "reset_per_cr_caches: pass both namespace and name, or neither")
  end.
End cache.

(** ** Facts *)

(** Lens laws of a cache inside a memory. *)
Class CacheLens {P V : Type} (get : P → PerCRCache V) (put : PerCRCache V → P → P) : Prop := {
  get_put c p : get (put c p) = c;
}.

#[export] Instance whole_memory {V} : CacheLens (P := PerCRCache V) id (λ c _, c).
Proof. done. Qed.

Section facts.
Context {W P V : Type} (get : P → PerCRCache V) (put : PerCRCache V → P → P) `{!CacheLens get put}.
Implicit Types s : st W P.

(** A cache hit never crosses CR incarnations: the value returned without
    running the factory was recorded for the observed uid, or one of the two
    uids is unknown; in every other case the value is the factory's, and the
    cache then holds the returned value under a uid the observed one accepts. *)
Theorem get_or_create_identity on_fresh ns name uid factory s v s' :
  get_or_create get put on_fresh ns name uid factory s = (Ok v, s') →
  ((∃ recorded, get (mem s) !! (ns, name) = Some (recorded, v) ∧ uid_is_stale recorded uid = false ∧
     log s' = log s ∧ world s' = world s) ∨
   (∃ s1 s2, on_fresh ns name s = (Ok tt, s1) ∧ factory s1 = (Ok v, s2) ∧
     (∀ recorded w, get (mem s) !! (ns, name) = Some (recorded, w) → uid_is_stale recorded uid = true))) ∧
  ∃ recorded, get (mem s') !! (ns, name) = Some (recorded, v) ∧
    (uid = None ∨ recorded = uid).
Proof.
  unfold get_or_create. rewrite (bind_run get_mem _ s (mem s) s) by done.
  set (fresh := on_fresh ns name ≫= _).
  assert (Hfresh : ∀ s', fresh s = (Ok v, s') →
    (∃ s1 s2, on_fresh ns name s = (Ok tt, s1) ∧ factory s1 = (Ok v, s2)) ∧
    get (mem s') !! (ns, name) = Some (uid, v)).
  { intros s0. unfold fresh. rewrite bind_Ok. intros ([] & s1 & E1 & E). revert E. rewrite bind_Ok.
    intros (v' & s2 & E2 & E). unfold modify_mem, get_mem, set_mem, mbind, M_bind, mret, M_ret in E.
    simplify_eq/=. split; [eauto|]. by rewrite get_put, lookup_insert_eq. }
  clearbody fresh.
  destruct (get (mem s) !! (ns, name)) as [[recorded w]|] eqn:Em.
  - destruct (uid_is_stale recorded uid) eqn:Es.
    + intros E%Hfresh. destruct E as [(s1 & s2 & E1 & E2) Hc]. split; [right|by eauto].
      exists s1, s2. split_and!; [done|done|]. by intros ? ? [= <- <-].
    + assert (uid = None ∨ recorded = uid ∨ recorded = None) as Hu.
      { unfold uid_is_stale in Es. destruct recorded as [r|], uid as [u|]; eauto.
        apply negb_false_iff, String.eqb_eq in Es as ->. eauto. }
      destruct uid as [u|], recorded as [r|].
      * intros [= <- <-]. split; [left; by exists (Some r)|]. exists (Some r). split; [done|]. naive_solver.
      * unfold modify_mem, get_mem, set_mem, mbind, M_bind, mret, M_ret. simpl. intros [= <- <-].
        split; [left; by exists None|]. exists (Some u). simpl. rewrite get_put, lookup_insert_eq. by eauto.
      * intros [= <- <-]. split; [left; by exists (Some r)|by eauto].
      * intros [= <- <-]. split; [left; by exists None|by eauto].
  - intros E%Hfresh. destruct E as [(s1 & s2 & E1 & E2) Hc]. split; [right|by eauto].
    by exists s1, s2.
Qed.

(** A reset with both arguments drops the entry of that CR and no other, one
    without arguments drops all, and any other leaves the cache alone. *)
Lemma reset_scoped namespace name s k :
  let '(r, s') := reset (W:=W) get put namespace name s in
  (is_ok r = true ↔ (is_Some namespace ↔ is_Some name)) ∧
  get (mem s') !! k =
    match namespace, name with
    | None, None => None
    | Some ns, Some n => if decide (k = (ns, n)) then None else get (mem s) !! k
    | _, _ => get (mem s) !! k
    end.
Proof.
  unfold reset, modify_mem, get_mem, set_mem, raise, mbind, M_bind. destruct namespace as [ns|], name as [n|]; cbn.
  - rewrite get_put. split; [done|]. case_decide as Hk; [subst; apply lookup_delete_eq|by apply lookup_delete_ne].
  - split; [|done]. split; [done|]. intros [Hs _]. by destruct (Hs (ex_intro _ ns eq_refl)).
  - split; [|done]. split; [done|]. intros [_ Hs]. by destruct (Hs (ex_intro _ n eq_refl)).
  - rewrite get_put. split; [|apply lookup_empty]. split; [|done]. intros _. split; intros [].
    all: done.
Qed.

Lemma within_get_or_create Pa on_fresh ns name uid factory :
  (∀ n k, within (emits Pa) (on_fresh n k)) → within (emits Pa) factory →
  within (emits Pa) (get_or_create (W:=W) get put on_fresh ns name uid factory).
Proof.
  intros Ho Hf. unfold get_or_create. cbv zeta. solve_within; auto.
Qed.
End facts.
#[export] Hint Resolve within_get_or_create : within.

(** A CR deleted and recreated under the same name. *)
Definition recreated : res nat * st unit (PerCRCache nat) :=
  get_or_create id (λ c _, c) (λ _ _, mret tt) "ns" "cr" (Some "uid-2") (mret 7%nat)
    (St tt {[("ns", "cr") := (Some "uid-1", 3%nat)]} (StoreMem ∅ None) []).

Lemma get_or_create_identity_witness :
  ∃ recorded, mem recreated.2 !! ("ns", "cr") = Some (recorded, 7%nat) ∧
    (Some "uid-2" = None ∨ recorded = Some "uid-2").
Proof.
  refine (proj2 (get_or_create_identity id (λ c _, c) (λ _ _, mret tt) "ns" "cr" (Some "uid-2") (mret 7%nat)
    (St tt {[("ns", "cr") := (Some "uid-1", 3%nat)]} (StoreMem ∅ None) []) 7%nat recreated.2 _)).
  reflexivity.
Defined.
