(* ===== verification/RestClient.v ===== *)
(** * The OpenStudio REST client ([openstudio_client.py])

    Requests with their retry envelope, the timestamp normalisation of the
    answers, and the operations the handlers call.  Connection pooling,
    timeouts and headers are the HTTP library's. *)
From Stdlib Require Import Lqa.
From S2P Require Import Prelude PyValue Effects Logic PyTime Services.

(** ** Text helpers *)

Definition ascii_upper (c : Ascii.ascii) : Ascii.ascii :=
  let n := Ascii.nat_of_ascii c in
  if (97 <=? n)%nat && (n <=? 122)%nat then Ascii.ascii_of_nat (n - 32) else c.

Fixpoint py_upper (s : string) : string :=
  match s with
  | EmptyString => EmptyString
  | String c s => String (ascii_upper c) (py_upper s)
  end.

(** [s.rstrip("/")] *)
Fixpoint rstrip_slash (s : string) : string :=
  match s with
  | EmptyString => EmptyString
  | String c s =>
      match rstrip_slash s with
      | EmptyString => if Nat.eqb (Ascii.nat_of_ascii c) 47 then EmptyString else String c EmptyString
      | s' => String c s'
      end
  end.

(** [s.endswith(suffix)] *)
Definition py_endswith (suffix s : string) : bool :=
  (String.length suffix <=? String.length s)%nat &&
  String.eqb (String.substring (String.length s - String.length suffix) (String.length suffix) s) suffix.

(** [s[:n]] *)
Definition py_prefix (n : nat) (s : string) : string := String.substring 0 n s.

(** ** The CA bundle *)

Definition _PEM_BEGIN_MARKER := "-----BEGIN CERTIFICATE-----".

(** [needle in haystack] *)
Definition py_contains (needle haystack : string) : bool :=
  opt_is_some (String.index 0 needle haystack).

(** [_resolve_tls_ca_bundle]: [None] stands for [True], the system trust store.
    The environment variable and the file system are parameters; [head path]
    is the first 4096 characters of the file. *)
Definition _resolve_tls_ca_bundle (env : option string) (isfile : string → bool)
    (head : string → res string) : res (option string) :=
  match env with
  | None => Ok None
  | Some ca_bundle =>
      if String.eqb ca_bundle "" then Ok None
      else if negb (isfile ca_bundle) then
        Raise (OperatorConfigError ("OPENSTUDIO_TLS_CA_BUNDLE=" +:+ repr_str ca_bundle +:+
          " does not name an existing file"))
      else
        match head ca_bundle with
        | Raise (OSError msg) =>
            Raise (OperatorConfigError ("OPENSTUDIO_TLS_CA_BUNDLE=" +:+ repr_str ca_bundle +:+
              " is not readable: " +:+ msg))
        | Raise e => Raise e
        | Ok text =>
            if py_contains _PEM_BEGIN_MARKER text then Ok (Some ca_bundle)
            else Raise (OperatorConfigError ("OPENSTUDIO_TLS_CA_BUNDLE=" +:+ repr_str ca_bundle +:+
              " does not contain a PEM marker in the first 4 KiB"))
        end
  end.

(** ** Timestamps of an answer *)

Definition is_timestamp_key (key : string) : bool :=
  py_endswith "_at" key || py_endswith "_time" key.

(** A parsed timestamp takes the place of its text. *)
Definition date_value (o : option Z) : pv := default PNone (PDate <$> o).

Section normalize.
Context `{KeyOrder}.

(** [_normalize_timestamps], with fuel for the nesting depth. *)
Fixpoint normalize_fuel (fuel : nat) (obj : pv) : res pv :=
  match fuel with
  | O => Raise (OtherError "RecursionError" "fuel")
  | S fuel =>
      match obj with
      | PDict m =>
          kvs ← map_res (λ kv,
            v ← match kv.2 with
                | PStr s => if is_timestamp_key kv.1
                            then t ← parse_iso_utc (PStr s); mret (date_value t)
                            else normalize_fuel fuel (PStr s)
                | v => normalize_fuel fuel v
                end;
            mret (kv.1, v)) (key_order m);
          mret (PDict (list_to_map kvs))
      | PList l => l' ← map_res (normalize_fuel fuel) l; mret (PList l')
      | v => Ok v
      end
  end.

Definition _normalize_timestamps (obj : pv) : res pv := normalize_fuel (pv_size obj) obj.
End normalize.

(** ** The client *)

Record OpenStudioClient := MkClient {
  _base : string;
  _max_retries : nat;
  _backoff_base_seconds : Q;
}.

(** [OpenStudioClient(base_url)] with the default retry settings *)
Definition make_client (base_url : string) : OpenStudioClient :=
  MkClient (rstrip_slash base_url) 3 1.

Definition _jittered_backoff (self : OpenStudioClient) (retry : Z) (draw : Q) : Q :=
  (((1 # 2) + draw) * _backoff_base_seconds self * inject_Z (2 ^ (retry - 1)))%Q.

(** [except _TRANSIENT_EXCEPTIONS] *)
Definition is_transient (e : exn) : bool :=
  match e with RequestsError transient _ _ => transient | _ => false end.

Section client.
Context {W P : Type} `{HttpApi W} `{Entropy W} `{KeyOrder}.
Implicit Types self : OpenStudioClient.

(** [self._session.request(...)]; [inl] is a transient failure. *)
Definition send method url params data : M W P (exn + http_response) :=
  try_except (r ← ext (HttpRequest method url params data) (http_call method url params data); mret (inr r))
    (λ e, if is_transient e then Some (mret (inl e)) else None).

(** The attempts that remain of [range(max_retries + 1)], the next one being
    number [attempt]. *)
Fixpoint _attempts self (method path : string) (params data : list (string * string))
    (remaining : nat) (attempt : Z) (last_error : string) : M W P http_response :=
  match remaining with
  | O => raise (OpenStudioApiError
           (method +:+ " " +:+ path +:+ " failed after " +:+
            str_of_Z (Z.of_nat (_max_retries self) + 1) +:+ " attempts: " +:+ last_error))
  | S remaining =>
      when (negb (attempt =? 0))
        (inc "REST_RETRIES_TOTAL" [("method", py_upper method)];;
         draw ← ask random;
         _sleep (_jittered_backoff self attempt draw));;
      answer ← send method (_base self +:+ path) params data;
      match answer with
      | inl e => _attempts self method path params data remaining (attempt + 1)
                   (exn_class e +:+ ": " +:+ exn_msg e)
      | inr response =>
          if status_code response <? 400 then mret response
          else if status_code response <? 500 then
            raise (OpenStudioApiError (method +:+ " " +:+ path +:+ " returned HTTP " +:+
              str_of_Z (status_code response) +:+ ": " +:+ py_prefix 200 (text response)))
          else if negb (String.eqb (py_upper method) "GET") then
            raise (OpenStudioApiError (method +:+ " " +:+ path +:+ " returned HTTP " +:+
              str_of_Z (status_code response) +:+
              " (no retry: non-GET verb is non-idempotent per RFC 9110, see issue #226): " +:+
              py_prefix 200 (text response)))
          else _attempts self method path params data remaining (attempt + 1)
                 ("HTTP " +:+ str_of_Z (status_code response))
      end
  end.

Definition _request self (method path : string) (params data : list (string * string))
  : M W P http_response :=
  finally_with (_attempts self method path params data (S (_max_retries self)) 0 "")
    (λ returned, act (MetricObserve "REST_REQUEST_DURATION_SECONDS"
       [("method", py_upper method); ("outcome", if returned then "200" else "exception")])).

Definition is_json_decode_error (e : exn) : bool :=
  match e with RequestsError _ cls _ => String.eqb cls "JSONDecodeError" | _ => false end.

Definition _request_json self (method path : string) (params data : list (string * string)) : M W P pv :=
  response ← _request self method path params data;
  of_res
    match body ← json_body response; _normalize_timestamps body with
    | Ok v => Ok v
    | Raise e =>
        if is_json_decode_error e
        then Raise (OpenStudioApiError (method +:+ " " +:+ path +:+ ": invalid JSON in response"))
        else if is_value_error e
        then Raise (OpenStudioApiError (method +:+ " " +:+ path +:+ ": " +:+ exn_msg e))
        else Raise e
    end.

(** *** Reads *)

Definition list_analyses self : M W P pv := _request_json self "GET" "/analyses.json" [] [].

Definition list_datapoints self : M W P pv := _request_json self "GET" "/data_points.json" [] [].

Definition get_analysis_status self (analysis_id : string) : M W P pv :=
  _request_json self "GET" ("/analyses/" +:+ analysis_id +:+ "/status.json") [] [].

Definition list_started_datapoints self : M W P pv :=
  payload ← _request_json self "GET" "/data_points/status" [("status", "1"); ("jobs", "started")] [];
  mret match payload with
       | PDict m => default (PList []) (m !! "data_points")
       | _ => PList []
       end.

(** *** Actions *)

Definition soft_stop_analysis self (analysis_id : string) : M W P unit :=
  _request self "GET" ("/analyses/" +:+ analysis_id +:+ "/soft_stop") [] [];; mret tt.

Definition stop_analysis self (analysis_id : string) : M W P unit :=
  _request self "POST" ("/analyses/" +:+ analysis_id +:+ "/action") [] [("analysis_action", "stop")];;
  mret tt.

Definition requeue_datapoint self (datapoint_id : string) : M W P unit :=
  _request self "POST" ("/data_points/" +:+ datapoint_id +:+ "/requeue") [] [];; mret tt.

Definition delete_analysis self (analysis_id : string) : M W P unit :=
  _request self "DELETE" ("/analyses/" +:+ analysis_id) [] [];; mret tt.
End client.
