(* ===== verification/StatusRecords.v ===== *)
(** * Status records ([status_store.py], the four dataclasses)

    Encoders and decoders of the entries of the CR's status maps.  Datetimes
    in the records are aware UTC values, on which [_to_utc] is the identity. *)
From S2P Require Import Prelude PyValue Effects PyTime.

(** [_parse_utc = utc_parser(StatusStoreError)] *)
Definition _parse_utc : pv → string → res Z := utc_parser StatusStoreError.

(** [_required] *)
Definition _required (raw : gmap string pv) (key context : string) : res pv :=
  match raw !! key with
  | Some v => Ok v
  | None => Raise (StatusStoreError (context +:+ ": missing required field " +:+ repr_str key))
  end.

Definition expect_mapping (raw : pv) (context : string) : res (gmap string pv) :=
  match raw with
  | PDict m => Ok m
  | v => Raise (StatusStoreError (context +:+ ": expected object, got " +:+ type_name v))
  end.

(** A nullable timestamp: [None if v is None else _parse_utc(v, context)]. *)
Definition parse_opt_utc (v : pv) (context : string) : res (option Z) :=
  match v with
  | PNone => Ok None
  | v => t ← _parse_utc v context; Ok (Some t)
  end.

(** [None if v is None else str(v)] *)
Definition opt_str (v : pv) : option string :=
  match v with PNone => None | v => Some (py_str v) end.

(** [if o is not None: encoded[key] = f(o)] *)
Definition put_opt {A} (key : string) (f : A → pv) (o : option A) (m : gmap string pv)
  : gmap string pv :=
  match o with Some a => <[key := f a]> m | None => m end.

Definition iso_pv (t : Z) : pv := PStr (isoformat t).

(** [int(v)] *)
Module PyInt.
Definition is_blank (c : Ascii.ascii) : bool :=
  let n := Ascii.nat_of_ascii c in
  Nat.eqb n 32 || (Nat.leb 9 n && Nat.leb n 13) || (Nat.leb 28 n && Nat.leb n 31).

Fixpoint lstrip (l : list Ascii.ascii) : list Ascii.ascii :=
  match l with
  | c :: l' => if is_blank c then lstrip l' else l
  | [] => []
  end.

Definition strip (l : list Ascii.ascii) : list Ascii.ascii := rev (lstrip (rev (lstrip l))).

(** Decimal digits, single underscores allowed between them. *)
Fixpoint parse_digits (acc : Z) (after_digit : bool) (l : list Ascii.ascii) : option Z :=
  match l with
  | [] => if after_digit then Some acc else None
  | c :: l =>
      match digit_val c with
      | Some d => parse_digits (10 * acc + d) true l
      | None =>
          if after_digit && Nat.eqb (Ascii.nat_of_ascii c) 95 then parse_digits acc false l
          else None
      end
  end.

Definition parse (s : string) : option Z :=
  match strip (chars s) with
  | c :: l =>
      if Nat.eqb (Ascii.nat_of_ascii c) 45 then Z.opp <$> parse_digits 0 false l
      else if Nat.eqb (Ascii.nat_of_ascii c) 43 then parse_digits 0 false l
      else parse_digits 0 false (c :: l)
  | [] => None
  end.

Definition py_int (v : pv) : res Z :=
  match v with
  | PInt z => Ok z
  | PBool b => Ok (if b then 1 else 0)
  | PStr s =>
      match parse s with
      | Some z => Ok z
      | None => Raise (ValueError ("invalid literal for int() with base 10: " +:+ repr_str s))
      end
  | v => Raise (TypeError ("int() argument must be a string, a bytes-like object or a real number, not " +:+ type_name v))
  end.
End PyInt.

(** ** [SoftStopRecord] *)

Module SoftStopRecord.
Record t := Make {
  issued_at : Z;
  outcome : string;
  escalated_at : option Z;
  escalation_outcome : option string;
}.

Definition to_dict (r : t) : gmap string pv :=
  put_opt "escalationOutcome" PStr (escalation_outcome r)
    (put_opt "escalatedAt" iso_pv (escalated_at r)
      {["issuedAt" := iso_pv (issued_at r); "outcome" := PStr (outcome r)]}).

Definition from_dict (raw : pv) (context : string) : res t :=
  m ← expect_mapping raw context;
  issued ← _required m "issuedAt" context;
  issued_at ← _parse_utc issued (context +:+ ".issuedAt");
  outcome ← _required m "outcome" context;
  escalated_at ← parse_opt_utc (dget m "escalatedAt") (context +:+ ".escalatedAt");
  mret (Make issued_at (py_str outcome) escalated_at (opt_str (dget m "escalationOutcome"))).

Definition rec_ok (r : t) : Prop :=
  datetime_ok (issued_at r) = true ∧
  match escalated_at r with Some e => datetime_ok e = true | None => True end.

#[export] Instance eq_dec : EqDecision t.
Proof. solve_decision. Defined.
End SoftStopRecord.

(** ** [RequeueRecord] *)

Module RequeueRecord.
Record t := Make { count : Z; last_requeued_at : Z }.

Definition to_dict (r : t) : gmap string pv :=
  {["count" := PInt (count r); "lastRequeuedAt" := iso_pv (last_requeued_at r)]}.

Definition from_dict (raw : pv) (context : string) : res t :=
  m ← expect_mapping raw context;
  c ← _required m "count" context;
  count ← PyInt.py_int c;
  l ← _required m "lastRequeuedAt" context;
  last ← _parse_utc l (context +:+ ".lastRequeuedAt");
  mret (Make count last).

Definition rec_ok (r : t) : Prop := datetime_ok (last_requeued_at r) = true.
End RequeueRecord.

(** ** [ArchivedAnalysisRecord] *)

Module ArchivedAnalysisRecord.
Record t := Make {
  backend : pv;                     (** the policy's value, a string on decoding *)
  bucket : pv;                      (** a string or [None]; not converted on decoding *)
  verified_at : option Z;
  job_name : option string;
  spawned_at : option Z;
}.

Definition to_dict (r : t) : gmap string pv :=
  put_opt "spawnedAt" iso_pv (spawned_at r)
    (put_opt "jobName" PStr (job_name r)
      (put_opt "verifiedAt" iso_pv (verified_at r)
        {["backend" := backend r; "bucket" := bucket r]})).

Definition from_dict (raw : pv) (context : string) : res t :=
  m ← expect_mapping raw context;
  backend ← _required m "backend" context;
  verified_at ← parse_opt_utc (dget m "verifiedAt") (context +:+ ".verifiedAt");
  spawned_at ← parse_opt_utc (dget m "spawnedAt") (context +:+ ".spawnedAt");
  mret (Make (PStr (py_str backend)) (dget m "bucket") verified_at (opt_str (dget m "jobName"))
    spawned_at).

Definition rec_ok (r : t) : Prop :=
  match backend r with PStr _ => True | _ => False end ∧
  match bucket r with PStr _ | PNone => True | _ => False end ∧
  match verified_at r with Some e => datetime_ok e = true | None => True end ∧
  match spawned_at r with Some e => datetime_ok e = true | None => True end.
End ArchivedAnalysisRecord.

(** ** [StopRecord] *)

Module StopRecord.
Record t := Make { issued_at : Z; outcome : string; stopped_at : option Z }.

Definition to_dict (r : t) : gmap string pv :=
  put_opt "stoppedAt" iso_pv (stopped_at r)
    {["issuedAt" := iso_pv (issued_at r); "outcome" := PStr (outcome r)]}.

Definition from_dict (raw : pv) (context : string) : res t :=
  m ← expect_mapping raw context;
  issued ← _required m "issuedAt" context;
  issued_at ← _parse_utc issued (context +:+ ".issuedAt");
  outcome ← _required m "outcome" context;
  stopped_at ← parse_opt_utc (dget m "stoppedAt") (context +:+ ".stoppedAt");
  mret (Make issued_at (py_str outcome) stopped_at).

Definition rec_ok (r : t) : Prop :=
  datetime_ok (issued_at r) = true ∧
  match stopped_at r with Some e => datetime_ok e = true | None => True end.
End StopRecord.

(** ** The codec interface

    What the store and the handlers need to know of an entry type: an entry
    Python's [==] takes for the encoding of a record decodes to it, and so does
    what the API server makes of the encoding merged into an older entry with
    no members beyond those of the new one. *)
Class Codec (R : Type) := {
  to_dict : R → gmap string pv;
  from_dict : pv → string → res R;
  rec_ok : R → Prop;
  from_py_eq r old ctx :
    rec_ok r → py_eq old (PDict (to_dict r)) = true → from_dict old ctx = Ok r;
  from_merge r old ctx :
    rec_ok r → (∀ k, is_Some (old !! k) → is_Some (to_dict r !! k)) →
    from_dict (PDict (merge_dict old (to_dict r))) ctx = Ok r;
}.
#[export] Hint Mode Codec ! : typeclass_instances.

(** A value [==] to a literal record: a dict with [==] members; the members
    that are strings or [None] are the same, only a bool can pass for an int. *)
Definition plain (v : pv) : Prop := match v with PStr _ | PNone => True | _ => False end.

Lemma norm_plain v w : plain w → norm v = norm w → v = w.
Proof. by destruct v, w. Qed.

Lemma py_eq_dict old (m : gmap string pv) :
  py_eq old (PDict m) = true →
  ∃ m', old = PDict m' ∧ ∀ k, norm <$> m' !! k = norm <$> m !! k.
Proof.
  intros H%bool_decide_eq_true. destruct old as [| | | | | |m']; try done.
  exists m'. split; [done|]. intros k. injection H as H. by rewrite <-!lookup_fmap, H.
Qed.

Lemma py_eq_plain old (m : gmap string pv) :
  map_Forall (λ _ v, plain v) m → py_eq old (PDict m) = true → old = PDict m.
Proof.
  intros Hm (m' & -> & Hk)%py_eq_dict. f_equal. apply map_eq. intros k.
  specialize (Hk k). destruct (m !! k) as [v|] eqn:E, (m' !! k) as [w|] eqn:E'; try done.
  f_equal. apply norm_plain; [by apply (Hm k)|]. by injection Hk.
Qed.

Lemma plain_put_opt {A} key (f : A → pv) o m :
  (∀ a, plain (f a)) → map_Forall (λ _ v, plain v) m →
  map_Forall (λ _ v, plain v) (put_opt key f o m).
Proof. intros Hf Hm. destruct o as [a|]; [|done]. by apply map_Forall_insert_2. Qed.

Lemma plain_pair k1 k2 v1 v2 :
  plain v1 → plain v2 → map_Forall (λ _ v, plain v) ({[k1 := v1; k2 := v2]} : gmap string pv).
Proof. intros H1 H2. apply map_Forall_insert_2; [done|]. by apply map_Forall_singleton. Qed.

Create HintDb plain.
#[export] Hint Resolve plain_put_opt plain_pair I : plain.
#[export] Hint Extern 1 (plain _) => exact I : plain.

Lemma parse_utc_iso t ctx : datetime_ok t = true → _parse_utc (iso_pv t) ctx = Ok t.
Proof. apply utc_parser_isoformat. Qed.

Lemma parse_opt_utc_iso o ctx :
  match o with Some e => datetime_ok e = true | None => True end →
  parse_opt_utc (default PNone (iso_pv <$> o)) ctx = Ok o.
Proof.
  destruct o as [t|]; [|done]. intros H.
  transitivity (t ← _parse_utc (iso_pv t) ctx; Ok (Some t)); [done|].
  by rewrite parse_utc_iso.
Qed.

Lemma opt_str_str o : opt_str (default PNone (PStr <$> o)) = o.
Proof. by destruct o. Qed.

(** Read a member of a literal record. *)
Ltac read_dict :=
  repeat (rewrite lookup_insert_eq || (rewrite lookup_insert_ne by discriminate)
          || rewrite lookup_singleton_eq || (rewrite lookup_singleton_ne by discriminate)
          || rewrite lookup_empty).

Ltac codec_simpl :=
  unfold _required, dget; cbn [put_opt];
  repeat (progress (read_dict;
    cbn [default from_option id mbind option_bind res_bind mret res_ret fmap option_fmap
         option_map expect_mapping py_str opt_str]));
  repeat match goal with
  | H : datetime_ok ?t = true |- context [_parse_utc (iso_pv ?t) ?c] =>
      rewrite (parse_utc_iso t c H)
  | H : datetime_ok ?t = true |- context [parse_opt_utc (iso_pv ?t) ?c] =>
      rewrite (parse_opt_utc_iso (Some t) c H : parse_opt_utc (iso_pv t) c = _)
  | |- context [parse_opt_utc PNone ?c] => change (parse_opt_utc PNone c) with (Ok (A:=option Z) None)
  end.

Ltac solve_codec := repeat (progress codec_simpl); try done.

(** A member of an entry the encoding was merged into. *)
Ltac read_merged Hold :=
  repeat match goal with
  | |- context [merge_dict ?old ?D !! ?k] =>
      rewrite (lookup_merge_dict old D k); read_dict; cbn [patcher];
      try match goal with
      | |- context [old !! k] =>
          let E := fresh "E" in
          destruct (old !! k) eqn:E;
          [exfalso; destruct (Hold k) as [? Hk]; [by rewrite E|]; revert Hk; read_dict; done|]
      end
  end.

Lemma patcher_iso t v : patcher (iso_pv t) v = Some (iso_pv t).
Proof. done. Qed.

Ltac solve_from_merge Hold :=
  unfold _required, dget; cbn [put_opt] in *; cbn [expect_mapping mbind res_bind];
  read_merged Hold; rewrite ?patcher_iso; solve_codec.

#[export, refine] Instance soft_stop_codec : Codec SoftStopRecord.t := {
  to_dict := SoftStopRecord.to_dict;
  from_dict := SoftStopRecord.from_dict;
  rec_ok := SoftStopRecord.rec_ok;
}.
Proof.
  - intros [i o e eo] old ctx [Hi He] ->%py_eq_plain; [|unfold SoftStopRecord.to_dict; eauto with plain].
    cbn in Hi, He. unfold SoftStopRecord.from_dict, SoftStopRecord.to_dict; cbn.
    destruct e, eo; solve_codec.
  - intros [i o e eo] old ctx [Hi He] Hold; cbn in Hi, He.
    unfold SoftStopRecord.from_dict, SoftStopRecord.to_dict in *; cbn in *.
    destruct e, eo; solve_from_merge Hold.
Defined.

#[export, refine] Instance requeue_codec : Codec RequeueRecord.t := {
  to_dict := RequeueRecord.to_dict;
  from_dict := RequeueRecord.from_dict;
  rec_ok := RequeueRecord.rec_ok;
}.
Proof.
  - intros [c l] old ctx Hl (m & -> & Hm)%py_eq_dict; unfold RequeueRecord.rec_ok in Hl; cbn in Hl.
    pose proof (Hm "count") as Hc. pose proof (Hm "lastRequeuedAt") as Hk. clear Hm.
    unfold RequeueRecord.from_dict, RequeueRecord.to_dict in *; cbn in *.
    revert Hc Hk. read_dict. destruct (m !! "count") as [v|] eqn:Ec; [|done].
    destruct (m !! "lastRequeuedAt") as [w|] eqn:Ek; [|done]. intros [= Hc] [= Hk].
    apply (norm_plain _ (iso_pv l)) in Hk as ->; [|done]. cbn [expect_mapping mbind res_bind]. unfold _required. rewrite Ec, Ek.
    destruct v as [|[]|z| | | |]; try done; injection Hc as <-;
      cbn [mbind res_bind PyInt.py_int]; by rewrite (parse_utc_iso l _ Hl).
  - intros [c l] old ctx Hl Hold; unfold RequeueRecord.rec_ok in Hl; cbn in Hl.
    unfold RequeueRecord.from_dict, RequeueRecord.to_dict in *; cbn in *.
    solve_from_merge Hold.
Defined.

#[export, refine] Instance archived_codec : Codec ArchivedAnalysisRecord.t := {
  to_dict := ArchivedAnalysisRecord.to_dict;
  from_dict := ArchivedAnalysisRecord.from_dict;
  rec_ok := ArchivedAnalysisRecord.rec_ok;
}.
Proof.
  - intros [b bu v j sp] old ctx (Hstr & Hb & Hv & Hs); cbn in Hstr, Hb, Hv, Hs. destruct b; try done.
    intros ->%py_eq_plain; [|destruct bu; try done; unfold ArchivedAnalysisRecord.to_dict; eauto 8 with plain].
    unfold ArchivedAnalysisRecord.from_dict, ArchivedAnalysisRecord.to_dict; cbn.
    destruct v, j, sp; solve_codec.
  - intros [b bu v j sp] old ctx (Hstr & Hb & Hv & Hs) Hold; cbn in Hstr, Hb, Hv, Hs. destruct b; try done.
    unfold ArchivedAnalysisRecord.from_dict, ArchivedAnalysisRecord.to_dict in *; cbn in *.
    destruct bu; try done; destruct v, j, sp; solve_from_merge Hold.
Defined.

#[export, refine] Instance stop_codec : Codec StopRecord.t := {
  to_dict := StopRecord.to_dict;
  from_dict := StopRecord.from_dict;
  rec_ok := StopRecord.rec_ok;
}.
Proof.
  - intros [i o e] old ctx [Hi He] ->%py_eq_plain; [|unfold StopRecord.to_dict; eauto with plain].
    cbn in Hi, He. unfold StopRecord.from_dict, StopRecord.to_dict; cbn.
    destruct e; solve_codec.
  - intros [i o e] old ctx [Hi He] Hold; cbn in Hi, He.
    unfold StopRecord.from_dict, StopRecord.to_dict in *; cbn in *.
    destruct e; solve_from_merge Hold.
Defined.

(** Decoding an encoded record gives it back. *)
Lemma from_to_dict {R} `{Codec R} (r : R) ctx :
  rec_ok r → from_dict (PDict (to_dict r)) ctx = Ok r.
Proof. intros Hr. apply from_py_eq; [done|apply py_eq_refl]. Qed.
