(* ===== verification/KubeOps.v ===== *)
(** * Kubernetes helpers ([_k8s.py])

    Label selectors of a Deployment, the rolling restart, the kubeconfig
    fallback, and the bounded request wrapper. *)
From S2P Require Import Prelude PyValue Effects Logic PyTime Services StatusRecords.

Definition RESTARTED_AT_ANNOTATION := "kubectl.kubernetes.io/restartedAt".
Definition DEFAULT_WORKER_DEPLOYMENT := "worker".
Definition MERGE_PATCH_CONTENT_TYPE := "application/merge-patch+json".

(** ** Label selectors *)

(** One term of the selector for an expression; [None] for one that is skipped
    (no key or operator), an error for an operator the grammar lacks. *)
Inductive selector_term := TermSkip | TermText (s : string) | TermUnsupported.

Definition nonempty (o : option string) : option string :=
  match o with Some s => if String.eqb s "" then None else Some s | None => None end.

Definition expression_term (e : match_expression) : selector_term :=
  match nonempty (expr_key e), nonempty (expr_operator e) with
  | Some key, Some op =>
      if String.eqb op "In" then TermText (key +:+ " in (" +:+ join "," (expr_values e) +:+ ")")
      else if String.eqb op "NotIn" then TermText (key +:+ " notin (" +:+ join "," (expr_values e) +:+ ")")
      else if String.eqb op "Exists" then TermText key
      else if String.eqb op "DoesNotExist" then TermText ("!" +:+ key)
      else TermUnsupported
  | _, _ => TermSkip
  end.

(** [sorted(match_labels.items())] rendered; labels are a dictionary. *)
Definition label_terms (labels : list (string * string)) : list string :=
  let m : gmap string string := list_to_map labels in
  (λ k, k +:+ "=" +:+ default "" (m !! k)) <$> sorted_strings labels.*1.

(** The terms of the expressions, or [None] when one is unsupported. *)
Fixpoint expression_terms (es : list match_expression) : option (list string) :=
  match es with
  | [] => Some []
  | e :: es =>
      match expression_term e with
      | TermUnsupported => None
      | TermSkip => expression_terms es
      | TermText t => ts ← expression_terms es; Some (t :: ts)
      end
  end.

(** The selector of a Deployment: an unsupported operator falls back to the
    labels alone. *)
Definition selector_of (d : deployment) : option string :=
  let labels := label_terms (match_labels d) in
  let terms := match expression_terms (match_expressions d) with
               | Some ts => labels ++ ts
               | None => labels
               end in
  match terms with [] => None | _ => Some (join "," terms) end.

Section kube.
Context {W P : Type} `{AppsV1Api W}.

Definition deployment_label_selector (deployment namespace : string) : M W P (option string) :=
  dep ← observe_duration "KUBE_API_REQUEST_DURATION_SECONDS" [("verb", "get")]
          (read_namespaced_deployment deployment namespace);
  mret (selector_of dep).

(** The body of the restart patch. *)
Definition restart_patch (annotation value : string) : pv :=
  PDict {["spec" := PDict {["template" := PDict {["metadata" := PDict
    {["annotations" := PDict {[annotation := PStr value]} ]} ]} ]} ]}.

Definition rolling_restart_deployment (deployment namespace : string) (now : Z) : M W P string :=
  let restart_value := isoformat now in
  observe_duration "KUBE_API_REQUEST_DURATION_SECONDS" [("verb", "patch")]
    (patch_namespaced_deployment deployment namespace (restart_patch RESTARTED_AT_ANNOTATION restart_value));;
  mret restart_value.
End kube.

(** [load_operator_kube_config]: the two loaders of the client library are
    parameters. *)
Definition load_operator_kube_config {W P} (load_incluster_config load_kube_config : M W P unit) : M W P unit :=
  try_except load_incluster_config
    (λ e, match e with ConfigException _ => Some load_kube_config | _ => None end).

(** [BoundedK8sRequest.__call__]: the per-call timeout wins over the default,
    and a timeout of the transport becomes an [ApiException] of status 0. *)
Definition effective_timeout (per_call : option Z) (default_timeout : Z) : Z := default default_timeout per_call.

Definition bounded_request {W P A} (original : Z → M W P A) (per_call : option Z) (default_timeout : Z)
  : M W P A :=
  let effective := effective_timeout per_call default_timeout in
  try_except (original effective)
    (λ e, match e with
          | UrllibTimeout msg => Some (raise (ApiException 0
              ("K8s API request timed out (bounded at " +:+ str_of_Z effective +:+
               "s by K8S_REQUEST_TIMEOUT_SECONDS, issue #579): TimeoutError: " +:+ msg)))
          | MaxRetryError true msg => Some (raise (ApiException 0
              ("K8s API request timed out after retries (bounded at " +:+ str_of_Z effective +:+
               "s by K8S_REQUEST_TIMEOUT_SECONDS, issue #579): TimeoutError: " +:+ msg)))
          | _ => None
          end).

(** [apply_request_timeout] wraps the transport of a client once: the flag
    says whether it is wrapped already. *)
Definition apply_request_timeout (wrapped : bool) : bool * bool :=
  if wrapped then (true, false) else (true, true).

(** ** Facts *)

(** A transport timeout never escapes as such: the caller of a bounded
    request sees an [ApiException], which the tick runner skips, while every
    other outcome passes through unchanged. *)
Theorem bounded_request_translates {W P A} (original : Z → M W P A) per_call default_timeout (s : st W P) :
  let '(r, s') := original (effective_timeout per_call default_timeout) s in
  bounded_request original per_call default_timeout s =
  (match r with
   | Raise (UrllibTimeout msg) => Raise (ApiException 0
       ("K8s API request timed out (bounded at " +:+
        str_of_Z (effective_timeout per_call default_timeout) +:+
        "s by K8S_REQUEST_TIMEOUT_SECONDS, issue #579): TimeoutError: " +:+ msg))
   | Raise (MaxRetryError true msg) => Raise (ApiException 0
       ("K8s API request timed out after retries (bounded at " +:+
        str_of_Z (effective_timeout per_call default_timeout) +:+
        "s by K8S_REQUEST_TIMEOUT_SECONDS, issue #579): TimeoutError: " +:+ msg))
   | r => r
   end, s').
Proof.
  unfold bounded_request, try_except. destruct (original _ s) as [[a|e] s']; [done|].
  destruct e as [| | | |[] msg| | | | | | | | | | | | | | | | |]; done.
Qed.

(** A restart sends one Deployment patch. *)
Lemma rolling_restart_bound {W P} `{AppsV1Api W} (Pa : action → Prop) deployment namespace now :
  Pa (KubePatchDeployment deployment namespace (restart_patch RESTARTED_AT_ANNOTATION (isoformat now))) →
  (∀ f ls, Pa (MetricObserve f ls)) →
  within (emits Pa) (rolling_restart_deployment (W:=W) (P:=P) deployment namespace now).
Proof. intros H1 H2. unfold rolling_restart_deployment, patch_namespaced_deployment. solve_within; auto. Qed.

Lemma label_selector_bound {W P} `{AppsV1Api W} (Pa : action → Prop) deployment namespace :
  Pa (KubeReadDeployment deployment namespace) → (∀ f ls, Pa (MetricObserve f ls)) →
  within (emits Pa) (deployment_label_selector (W:=W) (P:=P) deployment namespace).
Proof. intros H1 H2. unfold deployment_label_selector, read_namespaced_deployment. solve_within; auto. Qed.

Lemma label_terms_nil labels : label_terms labels = [] ↔ labels = [].
Proof.
  unfold label_terms. rewrite <-!length_zero_iff_nil, length_fmap, sorted_strings_length, length_fmap.
  done.
Qed.

(** The selector always starts with every label of the Deployment, followed
    by all of its match expressions or, when one is not expressible, by none of
    them; there is no selector exactly when nothing usable is declared. *)
Theorem selector_keeps_labels d :
  (∃ ts, selector_of d = (match label_terms (match_labels d) ++ ts with
                          | [] => None
                          | terms => Some (join "," terms) end) ∧
         (ts = [] ∨ expression_terms (match_expressions d) = Some ts)) ∧
  (selector_of d = None ↔ match_labels d = [] ∧ default [] (expression_terms (match_expressions d)) = []).
Proof.
  unfold selector_of. destruct (expression_terms (match_expressions d)) as [ts|] eqn:E; cbv zeta; cbn [default from_option id].
  - split; [exists ts; split; [by destruct (_ ++ ts)|by right]|].
    pose proof (label_terms_nil (match_labels d)) as Hl.
    rewrite <-Hl. destruct (label_terms (match_labels d)), ts; simpl; split; try done; by intros [??].
  - split; [exists []; split; [rewrite app_nil_r; by destruct (label_terms _)|by left]|].
    pose proof (label_terms_nil (match_labels d)) as Hl.
    rewrite <-Hl. destruct (label_terms (match_labels d)); simpl; split; try done; by intros [??].
Qed.
