(* ===== verification/K8sApi.v ===== *)
(** * The operator's Kubernetes clients ([singleton.py], [_cached_k8s_api])

    One process-wide client per API group, built on first use. *)
From S2P Require Import Prelude PyValue Effects Logic Services KubeOps.

(** A Kubernetes API client: whether its requests carry the timeout. *)
Record ApiClient := MkApiClient { client_bounded : bool }.

Inductive k8s_client := CustomObjects | Apps | Batch | Core.
#[export] Instance k8s_client_eq_dec : EqDecision k8s_client.
Proof. solve_decision. Defined.

Record K8sClients := MkK8sClients {
  api_custom_objects : option ApiClient;
  api_apps : option ApiClient;
  api_batch : option ApiClient;
  api_core : option ApiClient;
}.

Definition no_clients : K8sClients := MkK8sClients None None None None.

Definition operator_api (slot : k8s_client) (m : K8sClients) : option ApiClient :=
  match slot with
  | CustomObjects => api_custom_objects m
  | Apps => api_apps m
  | Batch => api_batch m
  | Core => api_core m
  end.

Definition with_api (slot : k8s_client) (c : option ApiClient) (m : K8sClients) : K8sClients :=
  let pick slot' := if decide (slot' = slot) then c else operator_api slot' m in
  MkK8sClients (pick CustomObjects) (pick Apps) (pick Batch) (pick Core).

Section clients.
Context {W P : Type} `{KubeConfigApi W} `{Lens P K8sClients}.

Definition put_api (slot : k8s_client) (c : option ApiClient) : M W P unit :=
  m ← get_part (C:=K8sClients); put_part (with_api slot c m).

(** [_cached_k8s_api]: a strict client is not built without a configuration. *)
Definition _cached_k8s_api (slot : k8s_client) (strict : bool) : M W P ApiClient :=
  m ← get_part (C:=K8sClients);
  match operator_api slot m with
  | Some cached => mret cached
  | None =>
      try_except (load_operator_kube_config load_incluster_config load_kube_config)
        (λ e, match e with
              | ConfigException _ => Some (if strict then raise e else mret tt)
              | _ => None
              end);;
      let client := MkApiClient (apply_request_timeout false).1 in
      put_api slot (Some client);;
      mret client
  end.

Definition operator_custom_objects_api : M W P ApiClient := _cached_k8s_api CustomObjects true.
Definition operator_apps_api : M W P ApiClient := _cached_k8s_api Apps false.
Definition operator_batch_api : M W P ApiClient := _cached_k8s_api Batch false.
Definition operator_core_api : M W P ApiClient := _cached_k8s_api Core false.

Definition reset_operator_k8s_client : M W P unit := put_part no_clients.
End clients.

(** ** Facts *)

(** Every cached client has bounded requests. *)
Definition clients_bounded (m : K8sClients) : Prop :=
  ∀ slot c, operator_api slot m = Some c → client_bounded c = true.

Section facts.
Context {W P : Type} `{KubeConfigApi W} `{Lens P K8sClients}.
Implicit Types s : st W P.

Lemma operator_api_with slot slot' c m :
  operator_api slot' (with_api slot c m) = if decide (slot' = slot) then c else operator_api slot' m.
Proof. by destruct slot'. Qed.

Lemma cached_api_emits (Pa : action → Prop) slot strict :
  Pa LoadKubeConfig → within (emits Pa) (_cached_k8s_api (W:=W) (P:=P) slot strict).
Proof.
  intros HP. unfold _cached_k8s_api, load_operator_kube_config, put_api, put_part. solve_within.
  all: repeat case_match; simplify_eq; solve_within; done.
Qed.

(** What the loading of the configuration may change: not the memory. *)
Lemma load_config_mem : within (keeps mem) (load_operator_kube_config (W:=W) (P:=P) load_incluster_config load_kube_config).
Proof.
  intros s. unfold load_operator_kube_config, try_except, load_incluster_config, load_kube_config, ext.
  destruct (incluster_config_call _) as [[[]|e] w]; [done|]. destruct e; try done.
  by destruct (kube_config_call _) as [? w'].
Qed.

(** Every client the operator hands out, cached or new, sends requests
    under the timeout; a failed construction caches nothing, and a client that
    may work without a cluster configuration is always handed out when the
    configuration is what is missing. *)
Theorem api_bounded slot strict s r s' :
  clients_bounded (lget (mem s)) → _cached_k8s_api slot strict s = (r, s') →
  clients_bounded (lget (mem s')) ∧
  match r with
  | Ok c => client_bounded c = true ∧ operator_api slot (lget (mem s')) = Some c
  | Raise e => mem s' = mem s ∧ (strict = false → ∀ msg, e ≠ ConfigException msg)
  end.
Proof.
  intros Hb. unfold _cached_k8s_api. rewrite (bind_run get_part _ s (lget (mem s)) s) by done.
  destruct (operator_api slot _) as [c|] eqn:Ec; [intros [= <- <-]; eauto|].
  pose proof (load_config_mem s) as Hm. unfold keeps in Hm. unfold mbind at 1, M_bind at 1, try_except.
  destruct (load_operator_kube_config _ _ s) as [r1 s1] eqn:E1. simpl in Hm.
  assert (Hput : ∀ s2, mem s2 = mem s → (put_api slot (Some (MkApiClient true));; mret (MkApiClient true)) s2 = (r, s') →
    clients_bounded (lget (mem s')) ∧
    match r with
    | Ok c => client_bounded c = true ∧ operator_api slot (lget (mem s')) = Some c
    | Raise e => mem s' = mem s ∧ (strict = false → ∀ msg, e ≠ ConfigException msg)
    end).
  { intros s2 Hs2 [= <- <-]. simpl. rewrite lget_lput, Hs2. split.
    - intros slot' c. rewrite operator_api_with. case_decide; [by intros [= <-]|apply Hb].
    - split; [done|]. by rewrite operator_api_with, decide_True. }
  destruct r1 as [[]|e]; [by apply Hput|].
  destruct e; try (intros [= <- <-]; rewrite Hm; by split_and!).
  destruct strict; [intros [= <- <-]; rewrite Hm; by split_and!|by apply Hput].
Qed.

(** A component that does not overlap the clients is not touched. *)
Lemma cached_api_apart {D} `{Lens P D} `{!LensesApart P K8sClients D} slot strict :
  within (keeps (λ s, lget (C:=D) (mem s))) (_cached_k8s_api (W:=W) (P:=P) slot strict).
Proof.
  intros s. unfold _cached_k8s_api, keeps. rewrite (bind_run get_part _ s (lget (mem s)) s) by done.
  destruct (operator_api slot _) as [c|]; [done|].
  pose proof (load_config_mem s) as Hm. unfold keeps in Hm. unfold mbind at 1, M_bind at 1, try_except.
  destruct (load_operator_kube_config _ _ s) as [r1 s1]. simpl in Hm.
  assert (Hput : ∀ s2, mem s2 = mem s →
    lget (C:=D) (mem ((put_api slot (Some (MkApiClient true));; mret (MkApiClient true)) s2).2) = lget (mem s)).
  { intros s2 Hs2. simpl. by rewrite lget_apart, Hs2. }
  destruct r1 as [[]|e]; [by apply Hput|]. destruct e; try (simpl; by rewrite Hm).
  destruct strict; [simpl; by rewrite Hm|by apply Hput].
Qed.
End facts.
#[export] Hint Resolve cached_api_emits : within.

(** The first client of a fresh process. *)
#[local] Instance no_config : KubeConfigApi unit := {
  incluster_config_call w := (Raise (ConfigException "no cluster"), w);
  kube_config_call w := (Raise (ConfigException "no kubeconfig"), w);
}.

Lemma api_bounded_witness :
  let s : st unit K8sClients := St tt no_clients (StoreMem ∅ None) [] in
  client_bounded (MkApiClient true) = true ∧
  operator_api Core (lget (mem (_cached_k8s_api Core false s).2)) = Some (MkApiClient true).
Proof.
  cbv zeta. refine (proj2 (api_bounded Core false (St tt no_clients (StoreMem ∅ None) []) (Ok (MkApiClient true)) _ _ eq_refl)).
  by intros [].
Defined.
