(* ===== verification/Json.v ===== *)
(** * JSON ([json.loads])

    The decoder of the standard library, as a pushdown automaton: a character
    transducer produces tokens and a stack machine consumes them, both by
    structural recursion on the input.  Text is UTF-8 bytes; the value of a
    number is kept as its text, no path of the operator computes with one.
    The recursion limit of the interpreter is not modelled. *)
From S2P Require Import Prelude.

Inductive json :=
  | JNull
  | JBool (b : bool)
  | JNum (text : string)
  | JStr (s : string)
  | JArr (l : list json)
  | JObj (members : list (string * json)).      (** in document order *)

Notation byte_of := Ascii.ascii_of_nat.

(** ** Characters *)

Definition is_ws (c : Ascii.ascii) : bool :=
  is_char 32 c || is_char 9 c || is_char 10 c || is_char 13 c.

Definition is_dec (c : Ascii.ascii) : bool := Nat.leb 48 (code c) && Nat.leb (code c) 57.

(** The characters literals and numbers are made of. *)
Definition is_word (c : Ascii.ascii) : bool :=
  is_dec c || (Nat.leb 65 (code c) && Nat.leb (code c) 90) || (Nat.leb 97 (code c) && Nat.leb (code c) 122)
  || is_char 43 c || is_char 45 c || is_char 46 c.

Definition hex_value (c : Ascii.ascii) : option nat :=
  let n := code c in
  if Nat.leb 48 n && Nat.leb n 57 then Some (n - 48)%nat
  else if Nat.leb 97 n && Nat.leb n 102 then Some (n - 87)%nat
  else if Nat.leb 65 n && Nat.leb n 70 then Some (n - 55)%nat
  else None.

(** The character a one-letter escape stands for. *)
Definition simple_escape (c : Ascii.ascii) : option Ascii.ascii :=
  let n := code c in
  if Nat.eqb n 34 || Nat.eqb n 92 || Nat.eqb n 47 then Some c
  else if Nat.eqb n 98 then Some (byte_of 8)
  else if Nat.eqb n 102 then Some (byte_of 12)
  else if Nat.eqb n 110 then Some (byte_of 10)
  else if Nat.eqb n 114 then Some (byte_of 13)
  else if Nat.eqb n 116 then Some (byte_of 9)
  else None.

(** UTF-8 of a code point (of a lone surrogate too, which Python keeps). *)
Definition utf8 (n : N) : list Ascii.ascii :=
  (Ascii.ascii_of_N <$>
  if n <? 128 then [n]
  else if n <? 2048 then [192 + n / 64; 128 + n mod 64]
  else if n <? 65536 then [224 + n / 4096; 128 + (n / 64) mod 64; 128 + n mod 64]
  else [240 + n / 262144; 128 + (n / 4096) mod 64; 128 + (n / 64) mod 64; 128 + n mod 64])%N.

(** ** String bodies *)

Inductive piece := Raw (c : Ascii.ascii) | Esc (unit : N).

Definition is_high (n : N) : bool := (55296 <=? n)%N && (n <=? 56319)%N.
Definition is_low (n : N) : bool := (56320 <=? n)%N && (n <=? 57343)%N.

(** Escaped surrogate pairs are joined, everything else stands for itself. *)
Fixpoint decode_pieces (l : list piece) : list Ascii.ascii :=
  match l with
  | [] => []
  | Raw c :: l => c :: decode_pieces l
  | Esc hi :: l' =>
      match l' with
      | Esc lo :: l'' =>
          if is_high hi && is_low lo
          then utf8 (65536 + (hi - 55296) * 1024 + (lo - 56320))%N ++ decode_pieces l''
          else utf8 hi ++ decode_pieces l'
      | _ => utf8 hi ++ decode_pieces l'
      end
  end.

Definition string_body (acc : list piece) : string :=
  String.string_of_list_ascii (decode_pieces (reverse acc)).

(** ** Tokens *)

Inductive token :=
  | TLBrace | TRBrace | TLBrack | TRBrack | TColon | TComma
  | TStr (s : string)
  | TWord (w : list Ascii.ascii).

Inductive lex_mode :=
  | Idle
  | InWord (acc : list Ascii.ascii)
  | InStr (acc : list piece)
  | InEsc (acc : list piece)
  | InHex (acc : list piece) (missing : nat) (value : N).

Definition idle_step (c : Ascii.ascii) : option (lex_mode * list token) :=
  if is_ws c then Some (Idle, [])
  else if is_char 123 c then Some (Idle, [TLBrace])
  else if is_char 125 c then Some (Idle, [TRBrace])
  else if is_char 91 c then Some (Idle, [TLBrack])
  else if is_char 93 c then Some (Idle, [TRBrack])
  else if is_char 58 c then Some (Idle, [TColon])
  else if is_char 44 c then Some (Idle, [TComma])
  else if is_char 34 c then Some (InStr [], [])
  else if is_word c then Some (InWord [c], [])
  else None.

Definition lex_step (mode : lex_mode) (c : Ascii.ascii) : option (lex_mode * list token) :=
  match mode with
  | Idle => idle_step c
  | InWord acc =>
      if is_word c then Some (InWord (c :: acc), [])
      else '(m, ts) ← idle_step c; Some (m, TWord (reverse acc) :: ts)
  | InStr acc =>
      if is_char 34 c then Some (Idle, [TStr (string_body acc)])
      else if is_char 92 c then Some (InEsc acc, [])
      else if Nat.ltb (code c) 32 then None
      else Some (InStr (Raw c :: acc), [])
  | InEsc acc =>
      if is_char 117 c then Some (InHex acc 4 0, [])
      else d ← simple_escape c; Some (InStr (Raw d :: acc), [])
  | InHex acc missing value =>
      h ← hex_value c;
      let value := (value * 16 + N.of_nat h)%N in
      match missing with
      | S (S n) => Some (InHex acc (S n) value, [])
      | _ => Some (InStr (Esc value :: acc), [])
      end
  end.

Fixpoint lex (mode : lex_mode) (l : list Ascii.ascii) : option (list token) :=
  match l with
  | [] => match mode with
          | Idle => Some []
          | InWord acc => Some [TWord (reverse acc)]
          | _ => None
          end
  | c :: l => '(m, ts) ← lex_step mode c; rest ← lex m l; Some (ts ++ rest)
  end.

(** ** Literals and numbers *)

Fixpoint skip_digits (l : list Ascii.ascii) : list Ascii.ascii :=
  match l with
  | c :: l' => if is_dec c then skip_digits l' else l
  | [] => []
  end.

(** One digit or more. *)
Definition some_digits (l : list Ascii.ascii) : option (list Ascii.ascii) :=
  match l with
  | c :: l' => if is_dec c then Some (skip_digits l') else None
  | [] => None
  end.

(** An optional sign, an integer without superfluous zeros, an optional
    fraction, an optional exponent. *)
Definition is_number (l : list Ascii.ascii) : bool :=
  let l := match l with c :: l' => if is_char 45 c then l' else l | [] => [] end in
  let int := match l with
             | c :: l' => if is_char 48 c then Some l' else some_digits l
             | [] => None
             end in
  match int with
  | None => false
  | Some l =>
      let frac := match l with
                  | c :: l' => if is_char 46 c then some_digits l' else Some l
                  | [] => Some []
                  end in
      match frac with
      | None => false
      | Some [] => true
      | Some (c :: l) =>
          (is_char 101 c || is_char 69 c) &&
          let l := match l with c :: l' => if is_char 43 c || is_char 45 c then l' else l | [] => [] end in
          match some_digits l with Some [] => true | _ => false end
      end
  end.

Definition word_value (w : list Ascii.ascii) : option json :=
  let s := String.string_of_list_ascii w in
  if String.eqb s "null" then Some JNull
  else if String.eqb s "true" then Some (JBool true)
  else if String.eqb s "false" then Some (JBool false)
  else if String.eqb s "NaN" || String.eqb s "Infinity" || String.eqb s "-Infinity" || is_number w
  then Some (JNum s)
  else None.

(** ** The stack machine *)

Inductive frame :=
  | FArr (items : list json)                                   (** latest first *)
  | FObj (members : list (string * json)) (key : string).

Inductive parse_state :=
  | WantValue (fs : list frame)
  | WantValueOrEnd (fs : list frame)
  | WantKey (members : list (string * json)) (fs : list frame)
  | WantKeyOrEnd (fs : list frame)
  | WantColon (members : list (string * json)) (key : string) (fs : list frame)
  | AfterValue (v : json) (fs : list frame).

Definition value_step (fs : list frame) (t : token) : option parse_state :=
  match t with
  | TStr s => Some (AfterValue (JStr s) fs)
  | TWord w => v ← word_value w; Some (AfterValue v fs)
  | TLBrack => Some (WantValueOrEnd fs)
  | TLBrace => Some (WantKeyOrEnd fs)
  | _ => None
  end.

Definition parse_step (state : parse_state) (t : token) : option parse_state :=
  match state, t with
  | WantValueOrEnd fs, TRBrack => Some (AfterValue (JArr []) fs)
  | WantValueOrEnd fs, _ => value_step (FArr [] :: fs) t
  | WantValue fs, _ => value_step fs t
  | WantKeyOrEnd fs, TRBrace => Some (AfterValue (JObj []) fs)
  | WantKeyOrEnd fs, TStr k => Some (WantColon [] k fs)
  | WantKey ms fs, TStr k => Some (WantColon ms k fs)
  | WantColon ms k fs, TColon => Some (WantValue (FObj ms k :: fs))
  | AfterValue v (FArr items :: fs), TComma => Some (WantValue (FArr (v :: items) :: fs))
  | AfterValue v (FArr items :: fs), TRBrack => Some (AfterValue (JArr (reverse (v :: items))) fs)
  | AfterValue v (FObj ms k :: fs), TComma => Some (WantKey ((k, v) :: ms) fs)
  | AfterValue v (FObj ms k :: fs), TRBrace => Some (AfterValue (JObj (reverse ((k, v) :: ms))) fs)
  | _, _ => None
  end.

Fixpoint parse_tokens (state : parse_state) (ts : list token) : option json :=
  match ts with
  | [] => match state with AfterValue v [] => Some v | _ => None end
  | t :: ts => s ← parse_step state t; parse_tokens s ts
  end.

(** [json.loads(s)]; [None] is a [JSONDecodeError]. *)
Definition json_loads (s : string) : option json :=
  ts ← lex Idle (String.list_ascii_of_string s); parse_tokens (WantValue []) ts.

(** ** Reading a decoded value *)

(** [v.get(k)] of an object: a repeated key keeps its last value. *)
Definition jget (members : list (string * json)) (k : string) : option json :=
  snd <$> last (filter (λ m, m.1 = k) members).

(** [s in l] for a string [s] *)
Definition jmem (s : string) (l : list json) : bool :=
  existsb (λ v, match v with JStr t => String.eqb t s | _ => false end) l.

Lemma jmem_spec s l : jmem s l = true ↔ JStr s ∈ l.
Proof.
  unfold jmem. rewrite existsb_exists. split.
  - intros (v & Hin & Hv). destruct v; try done. apply String.eqb_eq in Hv as ->. by apply list_elem_of_In.
  - intros Hin. exists (JStr s). split; [by apply list_elem_of_In|apply String.eqb_refl].
Qed.

(** ** The stack machine inverts the printing of tokens *)

(** The tokens of a value, and of the rest of an array or object. *)
Definition array_tokens (f : json → list token) : bool → list json → list token :=
  fix go first l :=
    match l with
    | [] => [TRBrack]
    | v :: l => (if first then [] else [TComma]) ++ f v ++ go false l
    end.

Definition object_tokens (f : json → list token) : bool → list (string * json) → list token :=
  fix go first l :=
    match l with
    | [] => [TRBrace]
    | (k, v) :: l => (if first then [] else [TComma]) ++ TStr k :: TColon :: f v ++ go false l
    end.

Fixpoint tokens (v : json) : list token :=
  match v with
  | JNull => [TWord (String.list_ascii_of_string "null")]
  | JBool b => [TWord (String.list_ascii_of_string (if b then "true" else "false"))]
  | JNum text => [TWord (String.list_ascii_of_string text)]
  | JStr s => [TStr s]
  | JArr l => TLBrack :: array_tokens tokens true l
  | JObj ms => TLBrace :: object_tokens tokens true ms
  end.

(** Every number is spelt as one. *)
Fixpoint well_formed (v : json) : Prop :=
  match v with
  | JNum text => word_value (String.list_ascii_of_string text) = Some (JNum text)
  | JArr l => Forall id (well_formed <$> l)
  | JObj ms => Forall id ((well_formed ∘ snd) <$> ms)
  | _ => True
  end.

Definition runs (v : json) : Prop :=
  ∀ fs rest, parse_tokens (WantValue fs) (tokens v ++ rest) = parse_tokens (AfterValue v fs) rest.

Lemma run_array l : Forall runs l → ∀ v items fs rest,
  parse_tokens (AfterValue v (FArr items :: fs)) (array_tokens tokens false l ++ rest) =
  parse_tokens (AfterValue (JArr (reverse (v :: items) ++ l)) fs) rest.
Proof.
  induction 1 as [|x l Hx Hl IH]; intros v items fs rest; [by rewrite app_nil_r|].
  simpl. rewrite <-app_assoc, Hx, IH. by rewrite !reverse_cons, <-!app_assoc.
Qed.

Lemma run_object ms : Forall (runs ∘ snd) ms → ∀ v acc k fs rest,
  parse_tokens (AfterValue v (FObj acc k :: fs)) (object_tokens tokens false ms ++ rest) =
  parse_tokens (AfterValue (JObj (reverse ((k, v) :: acc) ++ ms)) fs) rest.
Proof.
  induction 1 as [|[k' x] l Hx Hl IH]; intros v acc k fs rest; [by rewrite app_nil_r|].
  simpl in *. rewrite <-app_assoc, Hx, IH. by rewrite !reverse_cons, <-!app_assoc.
Qed.

(** A value starts with a token that neither closes nor separates. *)
Lemma value_after_bracket v fs rest :
  parse_tokens (WantValueOrEnd fs) (tokens v ++ rest) = parse_tokens (WantValue (FArr [] :: fs)) (tokens v ++ rest).
Proof. by destruct v. Qed.

Lemma run_tokens v : well_formed v → runs v.
Proof.
  revert v. fix IH 1. intros [|b|text|s|l|ms] Hwf fs rest; simpl in *.
  - done.
  - by destruct b.
  - by rewrite Hwf.
  - done.
  - assert (Forall runs l) as Hl.
    { induction l as [|x l IHl]; [constructor|]. simpl in Hwf. apply Forall_cons_1 in Hwf as [H1 H2].
      constructor; [by apply IH|by apply IHl]. }
    destruct Hl as [|x l Hx Hl]; [done|]. simpl.
    rewrite <-app_assoc, value_after_bracket, Hx, run_array by done. done.
  - assert (Forall (runs ∘ snd) ms) as Hl.
    { induction ms as [|[k x] ms IHl]; [constructor|]. simpl in Hwf. apply Forall_cons_1 in Hwf as [H1 H2].
      constructor; [by apply IH|by apply IHl]. }
    destruct Hl as [|[k x] ms Hx Hl]; [done|]. simpl in *.
    rewrite <-app_assoc, Hx, run_object by done. done.
Qed.

(** Any text that lexes to the tokens of a value decodes to that value. *)
Lemma json_loads_tokens s v :
  well_formed v → lex Idle (String.list_ascii_of_string s) = Some (tokens v) → json_loads s = Some v.
Proof.
  intros Hwf Hlex. unfold json_loads. rewrite Hlex. simpl.
  pose proof (run_tokens v Hwf [] []) as Hr. rewrite app_nil_r in Hr. by rewrite Hr.
Qed.
