(* ===== verification/Url.v ===== *)
(** * URLs and patterns

    [urllib.parse.urlparse] of the standard library and the language of a
    regular expression, for the Redis URLs of [redis_client.py].  Text is a
    list of bytes.  Two checks that need tables outside this model are
    parameters ([UrlTables]): the address inside brackets and the NFKC check of
    a non-ASCII network location. *)
From S2P Require Import Prelude PyValue Effects PyTime.

Notation text_chars := (list Ascii.ascii).

Class UrlTables := {
  bracketed_host_ok : text_chars → bool;   (** [ipaddress.ip_address] accepts it *)
  netloc_nfkc_ok : text_chars → bool;      (** normalisation adds no delimiter *)
}.

(** ** Characters and splitting *)

Definition is_lower (c : Ascii.ascii) : bool := Nat.leb 97 (code c) && Nat.leb (code c) 122.
Definition is_upper (c : Ascii.ascii) : bool := Nat.leb 65 (code c) && Nat.leb (code c) 90.
Definition is_ascii (c : Ascii.ascii) : bool := Nat.ltb (code c) 128.
Definition lower (c : Ascii.ascii) : Ascii.ascii := if is_upper c then Ascii.ascii_of_nat (code c + 32) else c.
Definition upper (c : Ascii.ascii) : Ascii.ascii := if is_lower c then Ascii.ascii_of_nat (code c - 32) else c.

(** The longest prefix without a character of [p], and the rest. *)
Fixpoint break (p : Ascii.ascii → bool) (l : text_chars) : text_chars * text_chars :=
  match l with
  | [] => ([], [])
  | c :: l' => if p c then ([], l) else let '(a, b) := break p l' in (c :: a, b)
  end.

(** [l.partition(c)]: before, whether found, after. *)
Definition partition (n : nat) (l : text_chars) : text_chars * bool * text_chars :=
  match break (is_char n) l with
  | (a, _ :: b) => (a, true, b)
  | (a, []) => (a, false, [])
  end.

(** [l.rpartition(c)[2]]: what follows the last [c], all of it without one. *)
Definition after_last (n : nat) (l : text_chars) : text_chars :=
  fold_left (λ acc c, if is_char n c then [] else acc ++ [c]) l [].

Definition contains (n : nat) (l : text_chars) : bool := existsb (is_char n) l.

(** ** [urlsplit] *)

Record parsed_url := ParsedUrl { url_scheme : text_chars; url_netloc : text_chars; url_path : text_chars }.

Definition is_scheme_char (c : Ascii.ascii) : bool :=
  is_lower c || is_upper c || is_digit c || is_char 43 c || is_char 45 c || is_char 46 c.

Definition drop_leading (p : Ascii.ascii → bool) : text_chars → text_chars :=
  fix go l := match l with c :: l' => if p c then go l' else l | [] => [] end.

(** Leading control characters and spaces go, tabs and line breaks everywhere. *)
Definition clean_url (l : text_chars) : text_chars :=
  filter (λ c, is_char 9 c || is_char 10 c || is_char 13 c = false) (drop_leading (λ c, Nat.leb (code c) 32) l).

Definition split_scheme (l : text_chars) : text_chars * text_chars :=
  match partition 58 l with
  | (c :: s, true, rest) =>
      if (is_lower c || is_upper c) && forallb is_scheme_char (c :: s) then (lower <$> (c :: s), rest) else ([], l)
  | _ => ([], l)
  end.

(** The network location ends at the first of [/?#]. *)
Definition is_delim (c : Ascii.ascii) : bool := is_char 47 c || is_char 63 c || is_char 35 c.

Definition bracketed_host (netloc : text_chars) : text_chars :=
  (partition 93 (partition 91 (after_last 64 netloc)).2).1.1.

Definition netloc_ok `{UrlTables} (netloc : text_chars) : bool :=
  let opening := contains 91 netloc in
  let closing := contains 93 netloc in
  eqb opening closing && (negb opening || bracketed_host_ok (bracketed_host netloc)) &&
  (forallb is_ascii netloc || netloc_nfkc_ok netloc).

Definition split_netloc (l : text_chars) : text_chars * text_chars :=
  match l with
  | c1 :: c2 :: rest => if is_char 47 c1 && is_char 47 c2 then break is_delim rest else ([], l)
  | _ => ([], l)
  end.

(** [urlparse] splits parameters off the path for schemes that have them. *)
Definition uses_params (scheme : text_chars) : bool :=
  bool_decide (string_of scheme ∈ [""; "ftp"; "hdl"; "prospero"; "http"; "https"; "shttp"; "rtsp"; "rtsps"; "rtspu";
    "sip"; "sips"; "mms"; "sftp"; "tel"]).

(** The path up to the first [;] of its last segment. *)
Definition split_params (path : text_chars) : text_chars :=
  let seg := after_last 47 path in
  take (length path - length seg) path ++ (partition 59 seg).1.1.

Definition urlparse `{UrlTables} (url : text_chars) : res parsed_url :=
  let '(scheme, rest) := split_scheme (clean_url url) in
  let '(netloc, rest) := split_netloc rest in
  if netloc_ok netloc then
    let path := (partition 63 (partition 35 rest).1.1).1.1 in
    Ok (ParsedUrl scheme netloc (if uses_params scheme then split_params path else path))
  else Raise (ValueError "Invalid IPv6 URL").

(** [_hostinfo]: host text and port text, after the user information. *)
Definition hostinfo (netloc : text_chars) : text_chars * text_chars :=
  let hostinfo := after_last 64 netloc in
  match partition 91 hostinfo with
  | (_, true, bracketed) =>
      let '(host, _, port) := partition 93 bracketed in (host, (partition 58 port).2)
  | _ => let '(host, _, port) := partition 58 hostinfo in (host, port)
  end.

(** [.hostname]; [None] is the empty text.  A zone identifier keeps its case. *)
Definition hostname (u : parsed_url) : text_chars :=
  let '(host, percent, zone) := partition 37 (hostinfo (url_netloc u)).1 in
  (lower <$> host) ++ (if percent : bool then chars "%" else []) ++ zone.

(** [.port] *)
Definition port (u : parsed_url) : res (option Z) :=
  match (hostinfo (url_netloc u)).2 with
  | [] => Ok None
  | p =>
      match digits p with
      | None => Raise (ValueError ("Port could not be cast to integer value as " +:+ repr_str (string_of p)))
      | Some n => if n <=? 65535 then Ok (Some n) else Raise (ValueError "Port out of range 0-65535")
      end
  end.

(** ** Regular expressions *)

Inductive re :=
  | RNone
  | REps
  | RChar (p : Ascii.ascii → bool)
  | RSeq (r1 r2 : re)
  | RAlt (r1 r2 : re)
  | RStar (r : re).

Fixpoint nullable (r : re) : bool :=
  match r with
  | RNone | RChar _ => false
  | REps | RStar _ => true
  | RSeq r1 r2 => nullable r1 && nullable r2
  | RAlt r1 r2 => nullable r1 || nullable r2
  end.

Definition seq_re (r1 r2 : re) : re :=
  match r1 with RNone => RNone | REps => r2 | _ => match r2 with RNone => RNone | _ => RSeq r1 r2 end end.
Definition alt_re (r1 r2 : re) : re :=
  match r1, r2 with RNone, r => r | r, RNone => r | _, _ => RAlt r1 r2 end.

(** What may follow a character. *)
Fixpoint derive (c : Ascii.ascii) (r : re) : re :=
  match r with
  | RNone | REps => RNone
  | RChar p => if p c then REps else RNone
  | RSeq r1 r2 =>
      if nullable r1 then alt_re (seq_re (derive c r1) r2) (derive c r2) else seq_re (derive c r1) r2
  | RAlt r1 r2 => alt_re (derive c r1) (derive c r2)
  | RStar r => seq_re (derive c r) (RStar r)
  end.

Fixpoint full_match (r : re) (l : text_chars) : bool :=
  match l with [] => nullable r | c :: l => full_match (derive c r) l end.

(** [re.match("^...$", l)]: [$] also matches before a final line feed. *)
Definition re_match (r : re) (l : text_chars) : bool :=
  full_match r l || match last l with Some c => is_char 10 c && full_match r (removelast l) | None => false end.

(** The language of an expression. *)
Inductive in_re : re → text_chars → Prop :=
  | re_eps : in_re REps []
  | re_char p c : p c = true → in_re (RChar p) [c]
  | re_seq r1 r2 l1 l2 : in_re r1 l1 → in_re r2 l2 → in_re (RSeq r1 r2) (l1 ++ l2)
  | re_alt_l r1 r2 l : in_re r1 l → in_re (RAlt r1 r2) l
  | re_alt_r r1 r2 l : in_re r2 l → in_re (RAlt r1 r2) l
  | re_star_nil r : in_re (RStar r) []
  | re_star_cons r l1 l2 : in_re r l1 → in_re (RStar r) l2 → in_re (RStar r) (l1 ++ l2).

Lemma in_re_seq r1 r2 l : in_re (seq_re r1 r2) l ↔ in_re (RSeq r1 r2) l.
Proof.
  unfold seq_re. split.
  - destruct r1; [by inversion 1|..]; [intros; apply (re_seq _ _ [] l); [constructor|done]|..];
      destruct r2; try done; by inversion 1.
  - inversion 1 as [| |? ? l1 l2 Q1 Q2| | | |]; subst.
    destruct r1; [by inversion Q1|by inversion Q1; subst|..]; (destruct r2; [by inversion Q2|..]; by constructor).
Qed.

Lemma in_re_alt r1 r2 l : in_re (alt_re r1 r2) l ↔ in_re r1 l ∨ in_re r2 l.
Proof.
  assert (Hn : ¬ in_re RNone l) by (by inversion 1).
  assert (Ha : ∀ r1 r2, in_re (RAlt r1 r2) l ↔ in_re r1 l ∨ in_re r2 l).
  { intros. split; [inversion 1; auto|intros [?|?]; [by apply re_alt_l|by apply re_alt_r]]. }
  unfold alt_re. destruct r1; destruct r2; rewrite ?Ha; tauto.
Qed.

Lemma nullable_spec r : nullable r = true ↔ in_re r [].
Proof.
  induction r; simpl.
  - split; [done|by inversion 1].
  - split; [constructor|done].
  - split; [done|by inversion 1].
  - rewrite andb_true_iff, IHr1, IHr2. split.
    + intros [??]. by apply (re_seq _ _ [] []).
    + inversion 1 as [| |? ? l1 l2 Q1 Q2 E1 E2| | | |]; subst. apply app_nil in E2 as [-> ->]. done.
  - rewrite orb_true_iff, IHr1, IHr2. split; [intros [?|?]; [by apply re_alt_l|by apply re_alt_r]|inversion 1; auto].
  - split; [constructor|done].
Qed.

Lemma star_cons r c l : in_re (RStar r) (c :: l) → ∃ l1 l2, l = l1 ++ l2 ∧ in_re r (c :: l1) ∧ in_re (RStar r) l2.
Proof.
  intros Hs. remember (RStar r) as s eqn:Es. remember (c :: l) as l0 eqn:El. revert c l El.
  induction Hs as [| | | | | |r' l1 l2 H1 _ H2 IH]; intros; simplify_eq.
  destruct l1 as [|c' l1]; [by apply IH|]. simpl in El. simplify_eq. by exists l1, l2.
Qed.

Lemma derive_spec c r l : in_re (derive c r) l ↔ in_re r (c :: l).
Proof.
  revert l. induction r; intros l; simpl.
  - split; by inversion 1.
  - split; by inversion 1.
  - destruct (p c) eqn:E; split; inversion 1; subst; try congruence; constructor; done.
  - assert (Hs : in_re (RSeq (derive c r1) r2) l ↔ ∃ l1 l2, l = l1 ++ l2 ∧ in_re r1 (c :: l1) ∧ in_re r2 l2).
    { split; [inversion 1 as [| |? ? l1 l2 Q1 Q2| | | |]; subst; exists l1, l2; by rewrite <-IHr1|].
      intros (l1 & l2 & -> & ? & ?). constructor; [by apply IHr1|done]. }
    assert (Hc : in_re (RSeq r1 r2) (c :: l) ↔
      (∃ l1 l2, l = l1 ++ l2 ∧ in_re r1 (c :: l1) ∧ in_re r2 l2) ∨ (in_re r1 [] ∧ in_re r2 (c :: l))).
    { split.
      - inversion 1 as [| |? ? l1 l2 Q1 Q2 E1 E2| | | |]; subst. destruct l1 as [|c' l1]; simplify_eq/=; [by right|].
        left. by exists l1, l2.
      - intros [(l1 & l2 & -> & ? & ?)|[??]]; [by apply (re_seq _ _ (c :: l1) l2)|by apply (re_seq _ _ [] (c :: l))]. }
    rewrite Hc, <-nullable_spec. destruct (nullable r1); rewrite ?in_re_alt, in_re_seq, Hs, ?IHr2; naive_solver.
  - rewrite in_re_alt, IHr1, IHr2. split; [intros [?|?]; [by apply re_alt_l|by apply re_alt_r]|inversion 1; auto].
  - rewrite in_re_seq. split.
    + inversion 1 as [| |? ? l1 l2 Q1 Q2| | | |]; subst. apply (re_star_cons _ (c :: l1) l2); [by apply IHr|done].
    + intros (l1 & l2 & -> & ? & ?)%star_cons. constructor; [by apply IHr|done].
Qed.

Lemma full_match_spec r l : full_match r l = true ↔ in_re r l.
Proof. revert r. induction l as [|c l IH]; intros r; simpl; [apply nullable_spec|]. by rewrite IH, derive_spec. Qed.
