(* ===== verification/PyText.v ===== *)
(** * Texts

    The methods of [str] and the matching of small patterns that the scripts
    and the metrics endpoint use, on lists of characters below 256 (letters,
    digits and word characters are the ASCII ones), and what they guarantee. *)
From S2P Require Import Prelude PyValue Effects PyTime Url.

(** ** Characters *)

(** [str.isspace] below 256, which is also [\s] *)
Definition is_space (c : Ascii.ascii) : bool :=
  let n := code c in
  (Nat.leb 9 n && Nat.leb n 13) || (Nat.leb 28 n && Nat.leb n 32) || Nat.eqb n 133 || Nat.eqb n 160.

(** The separators of [str.splitlines]. *)
Definition is_line_break (c : Ascii.ascii) : bool :=
  let n := code c in (Nat.leb 10 n && Nat.leb n 13) || (Nat.leb 28 n && Nat.leb n 30) || Nat.eqb n 133.

Definition is_letter (c : Ascii.ascii) : bool := is_lower c || is_upper c.
Definition is_word (c : Ascii.ascii) : bool := is_letter c || is_digit c || is_char 95 c.

(** ** Methods of [str] *)

Definition strip_text (l : text_chars) : text_chars :=
  reverse (drop_leading is_space (reverse (drop_leading is_space l))).

(** The longest prefix of characters of [p]. *)
Definition take_leading (p : Ascii.ascii → bool) (l : text_chars) : text_chars := (break (λ c, negb (p c)) l).1.

(** [l.startswith(p)] *)
Fixpoint starts_with (p l : text_chars) : bool :=
  match p, l with
  | [], _ => true
  | x :: p, y :: l => bool_decide (x = y) && starts_with p l
  | _ :: _, [] => false
  end.

(** [l.removeprefix(p)], [l.removesuffix(p)] *)
Definition removeprefix (p l : text_chars) : text_chars := if starts_with p l then drop (length p) l else l.
Definition removesuffix (p l : text_chars) : text_chars := reverse (removeprefix (reverse p) (reverse l)).

(** [p in l] *)
Fixpoint occurs (p l : text_chars) : bool :=
  starts_with p l || match l with [] => false | _ :: l => occurs p l end.

(** [l.replace(old, new)] of a non-empty [old]: [skip] characters of an
    occurrence are still to be passed over. *)
Fixpoint replace_from (old new : text_chars) (skip : nat) (l : text_chars) : text_chars :=
  match l with
  | [] => []
  | c :: l' =>
      match skip with
      | S skip => replace_from old new skip l'
      | O =>
          if starts_with old l then new ++ replace_from old new (length old - 1) l'
          else c :: replace_from old new 0 l'
      end
  end.
Definition replace (old new l : text_chars) : text_chars := replace_from old new 0 l.

(** [l.isdigit()] *)
Definition isdigit (l : text_chars) : bool := negb (bool_decide (l = [])) && forallb is_digit l.

(** [int(l)] of a text of digits *)
Definition int_of (l : text_chars) : Z := foldl (λ n c, 10 * n + (Z.of_nat (code c) - 48)) 0 l.

(** The maximal runs of characters outside [p], the empty ones included:
    [split_on] keeps the run in progress, reversed. *)
Fixpoint split_on (p : Ascii.ascii → bool) (run : text_chars) (l : text_chars) : list text_chars :=
  match l with
  | [] => [reverse run]
  | c :: l => if p c then reverse run :: split_on p [] l else split_on p (c :: run) l
  end.

(** [l.split()] *)
Definition split_words (l : text_chars) : list text_chars :=
  filter (λ w, w ≠ []) (split_on is_space [] l).

(** [l.splitlines()]: a carriage return and line feed are one separator, and a
    separator at the end ends the last line. *)
Fixpoint lines_from (run : text_chars) (l : text_chars) : list text_chars :=
  match l with
  | [] => if bool_decide (run = []) then [] else [reverse run]
  | c :: l' =>
      if is_line_break c then
        reverse run ::
        match l' with
        | d :: l'' => if is_char 13 c && is_char 10 d then lines_from [] l'' else lines_from [] l'
        | [] => []
        end
      else lines_from (c :: run) l'
  end.
Definition splitlines (l : text_chars) : list text_chars := lines_from [] l.

(** ** Searching

    A pattern at a position sees the character before it and the text from it
    on; [\b] compares the two. *)
Definition word_at (l : text_chars) : bool := match l with c :: _ => is_word c | [] => false end.
Definition word_before (prev : option Ascii.ascii) : bool := match prev with Some c => is_word c | None => false end.

Fixpoint search (m : option Ascii.ascii → text_chars → bool) (prev : option Ascii.ascii) (l : text_chars) : bool :=
  m prev l || match l with [] => false | c :: l => search m (Some c) l end.

(** ** What they guarantee *)

Lemma starts_with_spec p l : starts_with p l = true ↔ ∃ b, l = p ++ b.
Proof.
  revert l. induction p as [|x p IH]; intros l; simpl; [split; [by exists l|done]|].
  destruct l as [|y l]; [split; [done|by intros [b [=]]]|].
  rewrite andb_true_iff, bool_decide_eq_true, IH. split.
  - intros [-> [b ->]]. by exists b.
  - intros [b [= -> ->]]. split; [done|by exists b].
Qed.

Lemma occurs_spec p l : occurs p l = true ↔ ∃ a b, l = a ++ p ++ b.
Proof.
  induction l as [|c l IH]; simpl; rewrite orb_true_iff, starts_with_spec.
  - split; [intros [[b Hb]|[=]]; by exists [], b|]. intros (a & b & Hl). left.
    symmetry in Hl. apply app_eq_nil in Hl as [-> Hl]. by exists b.
  - rewrite IH. split.
    + intros [[b Hb]|(a & b & ->)]; [by exists [], b|by exists (c :: a), b].
    + intros ([|d a] & b & Hl); [left; by exists b|right]. injection Hl as -> ->. by exists a, b.
Qed.

(** Whether an occurrence straddles or lies in the parts of a concatenation,
    for a pattern of two characters. *)
Lemma occurs_pair_cons x y c l :
  occurs [x; y] (c :: l) = (bool_decide (x = c) && starts_with [y] l) || occurs [x; y] l.
Proof. done. Qed.

Lemma occurs_pair_app x y l1 l2 :
  occurs [x; y] (l1 ++ l2) =
    occurs [x; y] l1 || occurs [x; y] l2 || (bool_decide (last l1 = Some x) && starts_with [y] l2).
Proof.
  induction l1 as [|c l1 IH]; [simpl; by rewrite orb_false_r|].
  rewrite <-app_comm_cons, !occurs_pair_cons, IH. destruct l1 as [|d l1].
  - replace (bool_decide (last [c] = Some x)) with (bool_decide (x = c)) by (apply bool_decide_ext; split; [by intros ->|by intros [= ->]]).
    simpl. generalize (match l2 with [] => false | d :: _ => bool_decide (y = d) && true end), (bool_decide (x = c)), (occurs [x; y] l2). by intros [] [] [].
  - cbn [last app]. cbn [starts_with]. by rewrite <-!orb_assoc.
Qed.

(** Replacing a pair by a text that neither contains it, nor could complete it
    at either end, leaves no occurrence. *)
Section replace_pair.
Context (x y : Ascii.ascii) (new : text_chars).
Context (Hnew : new ≠ []) (Hin : occurs [x; y] new = false) (Hlast : last new ≠ Some x).
Context (Hhead : starts_with [y] new = false).

Lemma replace_pair_cons c l :
  replace [x; y] new (c :: l) =
    if bool_decide (x = c) && starts_with [y] l then new ++ replace [x; y] new (tail l) else c :: replace [x; y] new l.
Proof.
  unfold replace. cbn [replace_from]. cbn [starts_with]. destruct (bool_decide (x = c)); [|done]. cbn [andb].
  destruct l as [|d l]; [done|]. destruct (bool_decide (y = d)); done.
Qed.

Lemma replace_pair_head l : starts_with [y] (replace [x; y] new l) = true → starts_with [y] l = true.
Proof.
  destruct l as [|c l]; [done|]. rewrite replace_pair_cons. destruct (_ && _).
  - intros Hs. exfalso. destruct new as [|d n]; [done|]. simpl in *. by rewrite Hs in Hhead.
  - done.
Qed.

Lemma replace_pair_gone l : occurs [x; y] (replace [x; y] new l) = false.
Proof.
  enough (Hall : ∀ n l, (length l ≤ n)%nat → occurs [x; y] (replace [x; y] new l) = false) by by eapply Hall.
  clear l. induction n as [|n IH]; intros [|c l] Hl; simpl in Hl; try done; [lia|]. rewrite replace_pair_cons.
  destruct (bool_decide (x = c)) eqn:Ec; cbn [andb].
  - destruct (starts_with [y] l) eqn:Es.
    + rewrite occurs_pair_app, Hin, (bool_decide_false _ Hlast), orb_false_r. apply IH. destruct l; simpl in *; lia.
    + rewrite occurs_pair_cons, IH, orb_false_r by lia. destruct (starts_with [y] (replace _ _ _)) eqn:E; [|apply andb_false_r].
      apply replace_pair_head in E. congruence.
  - by rewrite occurs_pair_cons, Ec, IH by lia.
Qed.
End replace_pair.

(** The character before a position. *)
Definition char_before (prev : option Ascii.ascii) (a : text_chars) : option Ascii.ascii :=
  match last a with Some c => Some c | None => prev end.

Lemma char_before_cons prev c a : char_before prev (c :: a) = char_before (Some c) a.
Proof. unfold char_before. rewrite last_cons. by destruct (last a). Qed.

Lemma search_spec m prev l : search m prev l = true ↔ ∃ a b, l = a ++ b ∧ m (char_before prev a) b = true.
Proof.
  revert prev. induction l as [|c l IH]; intros prev; simpl; rewrite orb_true_iff.
  - split; [intros [?|[=]]; by exists [], []|]. intros (a & b & Hl & Hm). left.
    symmetry in Hl. by apply app_eq_nil in Hl as [-> ->].
  - rewrite IH. split.
    + intros [?|(a & b & -> & Hm)]; [by exists [], (c :: l)|]. exists (c :: a), b. by rewrite char_before_cons.
    + intros ([|d a] & b & Hl & Hm); [left; by rewrite Hl|right]. injection Hl as -> ->. exists a, b. by rewrite <-(char_before_cons prev).
Qed.
