(* ===== verification/OrchestratorSnippet.v ===== *)
(** * Orchestrator snippets ([scripts/render_orchestrator_snippet.py])

    The templates of the wave orchestrator rendered to runnable bash: every
    documented placeholder substituted, and a loud failure when one is left. *)
From S2P Require Import Prelude PyValue Effects PyTime Url PyText.

Definition ISSUE_PLACEHOLDER : text_chars := chars "#M".
Definition NA : text_chars := chars "n/a".
Definition _SLUG_WORDS : nat := 3.

(** ** Residual placeholders

    A brace not after a dollar sign, a name, and the closing brace. *)
Definition is_name_start (c : Ascii.ascii) : bool := is_letter c || is_char 95 c.

Definition token_at (prev : option Ascii.ascii) (l : text_chars) : option text_chars :=
  match l with
  | c :: d :: l =>
      if is_char 123 c && negb (match prev with Some p => is_char 36 p | None => false end) && is_name_start d then
        let '(name, rest) := break (λ c, negb (is_word c)) l in
        match rest with
        | e :: _ => if is_char 125 e then Some (c :: d :: name ++ [e]) else None
        | [] => None
        end
      else None
  | _ => None
  end.

(** [_RESIDUAL_TOKEN_RE.findall]: [skip] characters of a match are still to be
    passed over. *)
Fixpoint residual_from (skip : nat) (prev : option Ascii.ascii) (l : text_chars) : list text_chars :=
  match l with
  | [] => []
  | c :: l' =>
      match skip with
      | S skip => residual_from skip (Some c) l'
      | O =>
          match token_at prev l with
          | Some t => t :: residual_from (length t - 1) (Some c) l'
          | None => residual_from 0 (Some c) l'
          end
      end
  end.
Definition residual_tokens (l : text_chars) : list text_chars := residual_from 0 None l.

(** ** Values *)

Definition is_slug_char (c : Ascii.ascii) : bool := is_lower c || is_digit c || is_char 45 c.

(** [re.sub(r"[^a-z0-9-]", "", word.lower())] *)
Definition clean_word (word : text_chars) : text_chars := filter (λ c, is_slug_char c = true) (lower <$> word).

(** The loop of [derive_slug]. *)
Fixpoint slug_words (words : list text_chars) (title_words : list text_chars) : list text_chars :=
  match title_words with
  | [] => words
  | word :: title_words =>
      let cleaned := clean_word word in
      let words := if bool_decide (cleaned = []) then words else words ++ [cleaned] in
      if Nat.eqb (length words) _SLUG_WORDS then words else slug_words words title_words
  end.

(** ["-".join] on texts *)
Fixpoint join_dash (l : list text_chars) : text_chars :=
  match l with
  | [] => []
  | [w] => w
  | w :: l => w ++ chars "-" ++ join_dash l
  end.

Definition repr_text (l : text_chars) : string := repr_str (string_of l).

Definition derive_slug (title : text_chars) : res text_chars :=
  match slug_words [] (split_words title) with
  | [] => Raise (ValueError ("cannot derive a slug from title " +:+ repr_text title +:+ ": no words"))
  | words => Ok (join_dash words)
  end.

Definition normalize_affected_file (value : text_chars) : res text_chars :=
  let stem := removesuffix (chars ".py") (strip_text value) in
  let stem := if contains 47 stem then after_last 47 stem else stem in
  if bool_decide (stem = []) then
    Raise (ValueError ("cannot normalize affected file " +:+ repr_text value +:+ ": empty stem"))
  else Ok stem.

Definition _issue_number (value : text_chars) (what : string) : res text_chars :=
  let number := removeprefix (chars "#") (strip_text value) in
  if negb (isdigit number) || (int_of number <=? 0) then
    Raise (ValueError (what +:+ " must be a positive issue number, got " +:+ repr_text value))
  else Ok number.

(** ** Rendering *)

Definition unresolved (tokens : list text_chars) : exn :=
  ValueError ("unresolved placeholders remain after substitution: " +:+
    join ", " (sorted_strings (remove_dups (string_of <$> tokens))) +:+
    " — supply the matching --pr-number / --affected-file / value or fix the template (issue #382)").

Definition survived : exn :=
  ValueError ("the #M placeholder survived substitution — this is a render_orchestrator_snippet bug; " +:+
    "#M must always render to '#<real-issue>' or 'n/a' (issue #382)").

Definition with_pr_number (pr_number rendered : text_chars) : res text_chars :=
  if bool_decide (pr_number = []) then Ok rendered
  else n ← _issue_number pr_number "pr_number"; Ok (replace (chars "{PR_NUMBER}") n rendered).

Definition with_affected_file (affected_file rendered : text_chars) : res text_chars :=
  if bool_decide (affected_file = []) then Ok rendered
  else
    stem ← normalize_affected_file affected_file;
    let full_path := chars "tests/" ++ stem ++ chars ".py" in
    let rendered := replace (chars "tests/test_{affected_file}.py") full_path rendered in
    Ok (replace (chars "{affected_file}") full_path rendered).

Definition follow_up_of (next_issue : text_chars) : res text_chars :=
  if negb (bool_decide (strip_text next_issue = [])) && negb (bool_decide (lower <$> strip_text next_issue = NA))
  then n ← _issue_number next_issue "next_issue"; Ok (chars "#" ++ n)
  else Ok NA.

Definition render_snippet (template issue_number slug pr_number affected_file next_issue : text_chars) : res text_chars :=
  number ← _issue_number issue_number "issue_number";
  let rendered := replace (chars "{slug}") slug (replace (chars "{N}") number template) in
  rendered ← with_pr_number pr_number rendered;
  rendered ← with_affected_file affected_file rendered;
  follow_up ← follow_up_of next_issue;
  let rendered := replace ISSUE_PLACEHOLDER follow_up rendered in
  match residual_tokens rendered with
  | [] => if occurs ISSUE_PLACEHOLDER rendered then Raise survived else Ok rendered
  | tokens => Raise (unresolved tokens)
  end.

(** ** The command

    The parsed arguments, the template when it can be read, and what the
    command prints: exit code, output and error output. *)
Record arguments := MkArguments {
  arg_issue_number : text_chars;
  arg_slug : option text_chars;
  arg_title : option text_chars;
  arg_pr_number : text_chars;
  arg_affected_file : text_chars;
  arg_next_issue : text_chars;
}.

Definition present (o : option text_chars) : bool := match o with Some (_ :: _) => true | _ => false end.

(** [None]: the parser rejects the arguments and exits. *)
Definition render_main (args : arguments) (template : text_chars) : option (Z * text_chars * string) :=
  if Bool.eqb (present (arg_slug args)) (present (arg_title args)) then None
  else
    let rendered :=
      slug ← (if present (arg_slug args) then Ok (default [] (arg_slug args)) else derive_slug (default [] (arg_title args)));
      render_snippet template (arg_issue_number args) slug (arg_pr_number args) (arg_affected_file args) (arg_next_issue args)
    in
    match rendered with
    | Ok out =>
        Some (0, if bool_decide (last out = Some (Ascii.ascii_of_nat 10)) then out else out ++ [Ascii.ascii_of_nat 10], "")
    | Raise e => Some (1, [], "render_orchestrator_snippet: error: " +:+ exn_msg e)
    end.

(** ** What rendering guarantees *)

(** The scan finds a placeholder wherever there is one. *)
Lemma residual_nil prev l :
  residual_from 0 prev l = [] ↔ search (λ p l, opt_is_some (token_at p l)) prev l = false.
Proof.
  revert prev. induction l as [|c l IH]; intros prev; simpl; [done|].
  destruct (token_at prev (c :: l)) eqn:E; simpl in E |- *; rewrite ?E; simpl; [done|apply IH].
Qed.

(** No documented placeholder is left: [#M] nowhere, and no token at any position. *)
Definition clean (out : text_chars) : Prop :=
  occurs ISSUE_PLACEHOLDER out = false ∧ ∀ a b, out = a ++ b → token_at (char_before None a) b = None.

Lemma residual_clean out : occurs ISSUE_PLACEHOLDER out = false → residual_tokens out = [] → clean out.
Proof.
  intros Ho Hr. split; [done|]. intros a b ->. destruct (token_at _ b) as [t|] eqn:E; [|done]. exfalso.
  apply residual_nil, not_true_iff_false in Hr. apply Hr, search_spec. exists a, b. by rewrite E.
Qed.

(** A validated number is made of digits. *)
Lemma issue_number_spec value what :
  match _issue_number value what with
  | Ok n => n ≠ [] ∧ forallb is_digit n = true ∧ 0 < int_of n
  | Raise e => e = ValueError (what +:+ " must be a positive issue number, got " +:+ repr_text value)
  end.
Proof.
  unfold _issue_number, isdigit. cbv zeta. set (n := removeprefix _ _). case_bool_decide as En; [done|]. simpl.
  destruct (forallb is_digit n) eqn:Ed; [|done]. simpl. destruct (Z.leb_spec (int_of n) 0); [done|]. done.
Qed.

(** What replaces [#M] cannot bring it back. *)
Lemma follow_up_inert next_issue u :
  follow_up_of next_issue = Ok u → ∀ l, occurs ISSUE_PLACEHOLDER (replace ISSUE_PLACEHOLDER u l) = false.
Proof.
  unfold follow_up_of. intros Hu l. set (hash := Ascii.ascii_of_nat 35). set (m := Ascii.ascii_of_nat 77).
  assert (Hd : ∀ n, forallb is_digit n = true → occurs [hash; m] n = false ∧ starts_with [m] n = false ∧ last n ≠ Some hash).
  { induction n as [|c n IH]; [done|]. cbn [forallb]. intros [Hc Hn]%andb_true_iff. apply IH in Hn as (H1 & H2 & H3).
    assert (c ≠ hash ∧ c ≠ m) as [? ?] by (split; intros ->; done).
    rewrite occurs_pair_cons, last_cons, H1, H2, andb_false_r. cbn [starts_with].
    rewrite bool_decide_false by congruence. split_and!; [done..|]. destruct (last n); congruence. }
  assert (Hgo : u ≠ [] → occurs [hash; m] u = false → last u ≠ Some hash → starts_with [m] u = false →
    occurs ISSUE_PLACEHOLDER (replace ISSUE_PLACEHOLDER u l) = false) by (intros; by apply replace_pair_gone).
  destruct (_ && _); [|injection Hu as <-; by apply Hgo].
  pose proof (issue_number_spec next_issue "next_issue") as Hn. destruct (_issue_number _ _) as [n|]; [|done].
  injection Hu as <-. destruct Hn as (Hne & Hdig & _). apply Hd in Hdig as (H1 & H2 & H3).
  apply Hgo; [done| | |done].
  - change (chars "#" ++ n) with (hash :: n). rewrite occurs_pair_cons, H2, H1. by rewrite andb_false_r.
  - change (chars "#" ++ n) with (hash :: n). destruct n; [done|]. done.
Qed.

(** The failures of a rendering: a number, a file name, tokens left. *)
Definition render_failure (e : exn) : Prop :=
  (∃ what value, what ∈ ["issue_number"; "pr_number"; "next_issue"] ∧
     e = ValueError (what +:+ " must be a positive issue number, got " +:+ repr_text value)) ∨
  (∃ value, e = ValueError ("cannot normalize affected file " +:+ repr_text value +:+ ": empty stem")) ∨
  (∃ tokens, tokens ≠ [] ∧ e = unresolved tokens).

Lemma survived_no_failure : ¬ render_failure survived.
Proof.
  intros [(w & v & Hw & [= E])|[(v & [= E])|(t & _ & [= E])]]; try done.
  rewrite !elem_of_cons in Hw. destruct Hw as [->|[->|[->|Hw]]]; [done..|by apply not_elem_of_nil in Hw].
Qed.

Lemma number_failure value what e :
  what ∈ ["issue_number"; "pr_number"; "next_issue"] → _issue_number value what = Raise e → render_failure e.
Proof. intros Hw E. pose proof (issue_number_spec value what) as H. rewrite E in H. left. eauto. Qed.

Lemma with_pr_number_failure n l e : with_pr_number n l = Raise e → render_failure e.
Proof.
  unfold with_pr_number. case_bool_decide; [done|]. destruct (_issue_number _ _) eqn:E; [done|].
  intros [= <-]. eapply number_failure, E. set_solver.
Qed.

Lemma with_affected_file_failure f l e : with_affected_file f l = Raise e → render_failure e.
Proof.
  unfold with_affected_file, normalize_affected_file. cbv zeta. case_bool_decide; [done|].
  case_bool_decide; [|done]. intros [= <-]. right. left. eauto.
Qed.

Lemma follow_up_failure n e : follow_up_of n = Raise e → render_failure e.
Proof.
  unfold follow_up_of. destruct (_ && _); [|done]. destruct (_issue_number _ _) eqn:E; [done|].
  intros [= <-]. eapply number_failure, E. set_solver.
Qed.

(** A rendering is clean or fails for a stated reason: the text a template
    renders to has no [#M] and no placeholder token at any position, whatever
    the substituted values contain; otherwise the failure is a ValueError about
    a number, a file name or the tokens left, and never the last check of the
    code, which cannot fire. *)
Theorem render_clean template issue_number slug pr_number affected_file next_issue :
  match render_snippet template issue_number slug pr_number affected_file next_issue with
  | Ok out => clean out
  | Raise e => render_failure e ∧ e ≠ survived
  end.
Proof.
  assert (Hf : ∀ e, render_failure e → render_failure e ∧ e ≠ survived).
  { intros e He. split; [done|]. intros ->. by apply survived_no_failure. }
  unfold render_snippet.
  destruct (_issue_number issue_number "issue_number") as [n|e] eqn:E1; cbn [mbind res_bind].
  2: { apply Hf. eapply number_failure, E1. set_solver. }
  cbv zeta. destruct (with_pr_number _ _) as [r1|e] eqn:E2; cbn [mbind res_bind]; [|eapply Hf, with_pr_number_failure, E2].
  destruct (with_affected_file _ _) as [r2|e] eqn:E3; cbn [mbind res_bind]; [|eapply Hf, with_affected_file_failure, E3].
  destruct (follow_up_of _) as [u|e] eqn:E4; cbn [mbind res_bind]; [|eapply Hf, follow_up_failure, E4].
  destruct (residual_tokens _) as [|t ts] eqn:E5; [|apply Hf; right; right; by exists (t :: ts)].
  rewrite (follow_up_inert _ _ E4). apply residual_clean; [|done]. by eapply follow_up_inert.
Qed.

(** ** Slugs *)

Definition slug_word (w : text_chars) : Prop := w ≠ [] ∧ Forall (λ c, is_slug_char c = true) w.

Definition cleaned_words (words : list text_chars) : list text_chars := filter (λ w, w ≠ []) (clean_word <$> words).

Lemma slug_words_spec words title :
  Forall slug_word words → (length words < _SLUG_WORDS)%nat →
  let out := slug_words words title in
  Forall slug_word out ∧ (length out ≤ _SLUG_WORDS)%nat ∧
  out = take _SLUG_WORDS (words ++ cleaned_words title).
Proof.
  cbv zeta. revert words. induction title as [|w title IH]; intros words Hw Hl.
  { simpl. rewrite app_nil_r, take_ge by lia. split_and!; [done|lia|done]. }
  cbn [slug_words]. cbv zeta. unfold cleaned_words. rewrite fmap_cons. set (c := clean_word w).
  assert (Hc : Forall (λ c, is_slug_char c = true) c) by (apply Forall_forall; intros x Hx; by apply list_elem_of_filter in Hx as [? _]).
  case_bool_decide as Ec.
  - rewrite filter_cons_False by auto. destruct (Nat.eqb_spec (length words) _SLUG_WORDS); [lia|]. by apply IH.
  - rewrite filter_cons_True by done. fold (cleaned_words title). rewrite (app_assoc words [c] (cleaned_words title) : words ++ c :: _ = _).
    assert (Hw' : Forall slug_word (words ++ [c])) by (apply Forall_app; split; [done|by repeat constructor]).
    assert (Hl' : length (words ++ [c]) = S (length words)) by (rewrite length_app; simpl; lia).
    destruct (Nat.eqb_spec (length (words ++ [c])) _SLUG_WORDS) as [El|El]; [|apply IH; [done|lia]].
    rewrite take_app_length' by done. split_and!; [done|by rewrite El|done].
Qed.

(** A slug is one to three nonempty words of lowercase letters, digits and
    dashes joined by dashes, the first ones of the title once cleaned; only a
    title without any such character has none. *)
Theorem derive_slug_spec title :
  let cleaned := cleaned_words (split_words title) in
  match derive_slug title with
  | Ok slug => slug = join_dash (take _SLUG_WORDS cleaned) ∧ Forall (λ c, is_slug_char c = true) slug ∧ slug ≠ []
  | Raise e => cleaned = [] ∧ e = ValueError ("cannot derive a slug from title " +:+ repr_text title +:+ ": no words")
  end.
Proof.
  intros cleaned. unfold derive_slug.
  destruct (slug_words_spec [] (split_words title)) as (Hw & Hl & E); [done|unfold _SLUG_WORDS; simpl; lia|].
  rewrite E in Hw |- *. cbn [app] in Hw |- *. fold cleaned in Hw |- *.
  destruct cleaned as [|w ws]; [done|]. cbn [take _SLUG_WORDS] in Hw |- *. split; [done|].
  set (l := take 2 ws) in *. clearbody l. apply Forall_cons in Hw as [[Hne Hw] Hws]. split.
  - clear Hne E Hl. revert w Hw Hws. induction l as [|v l IH]; intros w Hw Hws; [done|].
    apply Forall_cons in Hws as [[_ Hv] Hws]. change (Forall (λ c, is_slug_char c = true) (w ++ chars "-" ++ join_dash (v :: l))).
    apply Forall_app. split; [done|]. apply Forall_app. split; [by repeat constructor|]. by apply IH.
  - destruct w as [|c w]; [done|]. by destruct l.
Qed.

(** ** A documented example *)

Example render_example :
  string_of <$> (match render_snippet
      (chars "cd ../worktrees/issue-{N}-{slug} && .venv/bin/pytest tests/test_{affected_file}.py -q # next: #M ${BODY}")
      (chars "#370") (chars "pre-report-back-git-status") [] (chars "tests/test_events_emit_failures.py") []
    with Ok out => Some out | Raise _ => None end) =
  Some "cd ../worktrees/issue-370-pre-report-back-git-status && .venv/bin/pytest tests/test_events_emit_failures.py -q # next: n/a ${BODY}".
Proof. vm_compute. reflexivity. Qed.

Example slug_example :
  match derive_slug (chars "Pre-report back: git status, again") with Ok s => string_of s | Raise _ => "" end = "pre-report-back-git".
Proof. vm_compute. reflexivity. Qed.
