(* ===== verification/AutoClose.v ===== *)
(** * Closing the issues of a merged pull request ([scripts/auto_close_issues.py])

    The references on the lines with a closing keyword, and the loop that closes
    those still open with the [gh] command line. *)
From S2P Require Import Prelude PyValue Effects PyTime Url PyText.

(** ** References *)

Definition keywords : list text_chars := [chars "closes"; chars "fixes"; chars "resolves"].

(** [CLOSING_KEYWORD] at a position. *)
Definition keyword_at (prev : option Ascii.ascii) (l : text_chars) : bool :=
  negb (word_before prev) && existsb (λ k, starts_with k (lower <$> l) && negb (word_at (drop (length k) l))) keywords.

Definition has_keyword (line : text_chars) : bool := search keyword_at None line.

(** [ISSUE_REF] at a position: the digits are maximal, for [\b] fails between
    two of them. *)
Definition ref_at (l : text_chars) : option Z :=
  match l with
  | c :: l =>
      let digits := take_leading is_digit l in
      if is_char 35 c && negb (bool_decide (digits = [])) && negb (word_at (drop (length digits) l))
      then Some (int_of digits) else None
  | [] => None
  end.

(** [ISSUE_REF.finditer]: a match has its only [#] in front, so no two overlap. *)
Fixpoint issue_refs (l : text_chars) : list Z :=
  match l with
  | [] => []
  | _ :: l' => match ref_at l with Some n => n :: issue_refs l' | None => issue_refs l' end
  end.

(** One reference of the inner loop: [refs] and [seen]. *)
Definition add_ref (acc : list Z * gset Z) (number : Z) : list Z * gset Z :=
  let '(refs, seen) := acc in
  if bool_decide (number ∈ seen) then acc else (refs ++ [number], {[number]} ∪ seen).

Definition add_line (acc : list Z * gset Z) (line : text_chars) : list Z * gset Z :=
  if negb (has_keyword line) then acc else foldl add_ref acc (issue_refs line).

Definition parse_closing_refs (body : text_chars) : list Z := (foldl add_line ([], ∅) (splitlines body)).1.

(** ** The commands

    [gh] with its arguments: the output, or [CalledProcessError]. *)
Class GhApi (W : Type) := { gh_call : list string → W → res text_chars * W }.

(** A run: the world and the commands so far. *)
Definition Gh (W A : Type) : Type := W * list (list string) → res A * (W * list (list string)).
#[export] Instance gh_ret {W} : MRet (Gh W) := λ A a s, (Ok a, s).
#[export] Instance gh_bind {W} : MBind (Gh W) := λ A B f m s,
  match m s with (Ok a, s) => f a s | (Raise e, s) => (Raise e, s) end.

Definition DEFAULT_REPO : string := "anchapin/openstudio-server-operator".

Section commands.
Context {W : Type} `{GhApi W}.

Definition _run_gh (args : list string) : Gh W text_chars :=
  λ s, let '(r, w) := gh_call args s.1 in (r, (w, s.2 ++ [args])).

Definition pr_view (pr_number : Z) (repo : string) : list string :=
  ["pr"; "view"; str_of_Z pr_number; "--repo"; repo; "--json"; "body"; "--jq"; ".body"].
Definition issue_view (issue_number : Z) (repo : string) : list string :=
  ["issue"; "view"; str_of_Z issue_number; "--repo"; repo; "--json"; "state"; "--jq"; ".state"].
Definition issue_close (issue_number pr_number : Z) (repo : string) : list string :=
  ["issue"; "close"; str_of_Z issue_number; "--repo"; repo; "-c"; "Closed via PR #" +:+ str_of_Z pr_number].

Definition _pr_body (pr_number : Z) (repo : string) : Gh W text_chars := _run_gh (pr_view pr_number repo).

Definition _issue_state (issue_number : Z) (repo : string) : Gh W text_chars :=
  out ← _run_gh (issue_view issue_number repo);
  mret (upper <$> strip_text out).

Definition _close_issue (issue_number pr_number : Z) (repo : string) : Gh W unit :=
  _run_gh (issue_close issue_number pr_number repo);; mret tt.

(** The loop of [auto_close_issues_from_pr_body]. *)
Fixpoint close_open (pr_number : Z) (repo : string) (closed refs : list Z) : Gh W (list Z) :=
  match refs with
  | [] => mret closed
  | issue_number :: refs =>
      state ← _issue_state issue_number repo;
      if bool_decide (state = chars "OPEN") then
        _close_issue issue_number pr_number repo;;
        close_open pr_number repo (closed ++ [issue_number]) refs
      else close_open pr_number repo closed refs
  end.

Definition auto_close_issues_from_pr_body (pr_number : Z) (repo : string) : Gh W (list Z) :=
  body ← _pr_body pr_number repo;
  close_open pr_number repo [] (parse_closing_refs body).
End commands.

(** ** What is parsed *)

(** A reference: a hash, digits to their end, and no word character after. *)
Definition refers (line : text_chars) (n : Z) : Prop :=
  ∃ a ds b, line = a ++ chars "#" ++ ds ++ b ∧ ds ≠ [] ∧ forallb is_digit ds = true ∧ word_at b = false ∧ n = int_of ds.

Lemma take_leading_spec p l :
  ∃ b, l = take_leading p l ++ b ∧ forallb p (take_leading p l) = true ∧ match b with c :: _ => p c = false | [] => True end.
Proof.
  unfold take_leading. induction l as [|c l (b & E & Hp & Hb)]; simpl; [by exists []|].
  destruct (p c) eqn:Ec; simpl; [|by exists (c :: l)].
  destruct (break _ l) as [x y]. simpl in *. exists b. rewrite Ec, Hp. by rewrite E at 1.
Qed.

Lemma take_leading_app p ds b :
  forallb p ds = true → match b with c :: _ => p c = false | [] => True end → take_leading p (ds ++ b) = ds.
Proof.
  unfold take_leading. intros Hd Hb. induction ds as [|c ds IH]; simpl in *.
  - destruct b as [|c b]; [done|]. simpl. by rewrite Hb.
  - apply andb_true_iff in Hd as [Hc Hd]. rewrite Hc. simpl. specialize (IH Hd). destruct (break _ _). simpl in *. by subst.
Qed.

Lemma digit_is_word c : is_digit c = true → is_word c = true.
Proof. unfold is_word. intros ->. by rewrite orb_true_r. Qed.

Lemma ref_at_spec l n :
  ref_at l = Some n ↔ ∃ ds b, l = chars "#" ++ ds ++ b ∧ ds ≠ [] ∧ forallb is_digit ds = true ∧ word_at b = false ∧ n = int_of ds.
Proof.
  destruct l as [|c l]; [split; [done|by intros (? & ? & [=] & _)]|]. cbn [ref_at]. cbv zeta.
  destruct (take_leading_spec is_digit l) as (b & El & Hd & Hb). set (ds := take_leading is_digit l) in *. clearbody ds.
  rewrite El. rewrite drop_app_length. split.
  - destruct (is_char 35 c) eqn:Ec; [|done]. case_bool_decide as Eds; [done|]. destruct (word_at b) eqn:Ew; [done|].
    intros [= <-]. exists ds, b. split; [|done]. apply Nat.eqb_eq in Ec. unfold chars. simpl. f_equal.
    by rewrite <-(Ascii.ascii_nat_embedding c), Ec.
  - intros (ds' & b' & [= -> E] & Hne & Hd' & Hw & ->). cbn.
    assert (ds = ds') as ->.
    { rewrite <-(take_leading_app is_digit ds b Hd Hb), E. apply take_leading_app; [done|].
      destruct b' as [|d b']; [done|]. destruct (is_digit d) eqn:Edg; [|done]. apply digit_is_word in Edg. simpl in Hw. congruence. }
    apply app_inv_head in E as ->. rewrite bool_decide_false by done. by rewrite Hw.
Qed.

Lemma issue_refs_spec l n : n ∈ issue_refs l ↔ refers l n.
Proof.
  assert (Hstep : ∀ l, refers l n ↔ ref_at l = Some n ∨ ∃ c l', l = c :: l' ∧ refers l' n).
  { clear l. intros l. rewrite ref_at_spec. unfold refers. split.
    - intros ([|c a] & ds & b & -> & Hr); [left; eauto|right]. eexists c, _. split; [done|]. by exists a, ds, b.
    - intros [(ds & b & -> & Hr)|(c & l' & -> & a & ds & b & -> & Hr)]; [by exists [], ds, b|by exists (c :: a), ds, b]. }
  induction l as [|c l IH]; rewrite Hstep; cbn [issue_refs].
  - split; [by intros ?%elem_of_nil|by intros [|(? & ? & ? & _)]].
  - destruct (ref_at (c :: l)) as [m|]; rewrite ?elem_of_cons, IH; naive_solver.
Qed.

Lemma add_refs_spec acc l :
  (∀ n, n ∈ acc.2 ↔ n ∈ acc.1) → NoDup acc.1 →
  let out := foldl add_ref acc l in
  (∀ n, n ∈ out.2 ↔ n ∈ out.1) ∧ NoDup out.1 ∧ ∀ n, n ∈ out.1 ↔ n ∈ acc.1 ∨ n ∈ l.
Proof.
  revert acc. induction l as [|m l IH]; intros [refs seen] Hs Hn; simpl in *; [by split_and!; [| |set_solver]|].
  case_bool_decide as Em.
  - destruct (IH (refs, seen)) as (H1 & H2 & H3); [done..|]. split_and!; [done..|]. intros n. rewrite H3, elem_of_cons. naive_solver.
  - destruct (IH (refs ++ [m], {[m]} ∪ seen)) as (H1 & H2 & H3).
    + intros n. simpl. rewrite elem_of_union, elem_of_singleton, Hs, elem_of_app, list_elem_of_singleton. naive_solver.
    + apply NoDup_app. split_and!; [done| |by apply NoDup_singleton]. intros x Hx Hxm%list_elem_of_singleton. naive_solver.
    + split_and!; [done..|]. intros n. rewrite H3. simpl. rewrite elem_of_app, list_elem_of_singleton, elem_of_cons. naive_solver.
Qed.

(** The loop over the lines. *)
Lemma add_lines_spec ls acc :
  (∀ n, n ∈ acc.2 ↔ n ∈ acc.1) → NoDup acc.1 →
  let out := foldl add_line acc ls in
  (∀ n, n ∈ out.2 ↔ n ∈ out.1) ∧ NoDup out.1 ∧
  ∀ n, n ∈ out.1 ↔ n ∈ acc.1 ∨ ∃ line, line ∈ ls ∧ has_keyword line = true ∧ refers line n.
Proof.
  revert acc. induction ls as [|line ls IH]; intros acc Hs Hn; simpl; [by split_and!; [| |set_solver]|].
  assert (Hl : let o := add_line acc line in (∀ n, n ∈ o.2 ↔ n ∈ o.1) ∧ NoDup o.1 ∧
    ∀ n, n ∈ o.1 ↔ n ∈ acc.1 ∨ (has_keyword line = true ∧ refers line n)).
  { unfold add_line. destruct (has_keyword line); simpl; [|split_and!; [done..|naive_solver]].
    destruct (add_refs_spec acc (issue_refs line) Hs Hn) as (H1 & H2 & H3). split_and!; [done..|].
    intros n. rewrite H3, issue_refs_spec. naive_solver. }
  destruct Hl as (H1 & H2 & H3). destruct (IH _ H1 H2) as (H4 & H5 & H6). split_and!; [done..|].
  intros n. rewrite H6, H3. setoid_rewrite elem_of_cons. naive_solver.
Qed.

Lemma parse_refs_NoDup body : NoDup (parse_closing_refs body).
Proof. apply (add_lines_spec (splitlines body) ([], ∅)); [set_solver|by constructor]. Qed.

(** A line with a closing keyword, in any case, as a word of its own. *)
Definition closing_line (line : text_chars) : Prop :=
  ∃ a k b, line = a ++ k ++ b ∧ lower <$> k ∈ keywords ∧ word_before (char_before None a) = false ∧ word_at b = false.

(** The same-line rule: the number is referred to on a line with a keyword. *)
Definition on_closing_line (body : text_chars) (n : Z) : Prop :=
  ∃ line, line ∈ splitlines body ∧ closing_line line ∧ refers line n.

(** The documented form: a keyword followed by a list of references separated
    by commas, [Closes #243, #244, #245], with the number among them. *)
Fixpoint reference_list (numbers : list text_chars) : text_chars :=
  match numbers with
  | [] => []
  | [ds] => chars "#" ++ ds
  | ds :: numbers => chars "#" ++ ds ++ chars ", " ++ reference_list numbers
  end.

Definition listed (body : text_chars) (n : Z) : Prop :=
  ∃ line a k numbers b, line ∈ splitlines body ∧ line = a ++ k ++ chars " " ++ reference_list numbers ++ b ∧
    lower <$> k ∈ keywords ∧ word_before (char_before None a) = false ∧ word_at b = false ∧
    Forall (λ ds, ds ≠ [] ∧ forallb is_digit ds = true) numbers ∧ n ∈ int_of <$> numbers.

Lemma refers_app a line n : refers line n → refers (a ++ line) n.
Proof. intros (a' & ds & b & -> & Hr). exists (a ++ a'), ds, b. by rewrite <-app_assoc. Qed.

Lemma refers_reference_list numbers b n :
  word_at b = false → Forall (λ ds, ds ≠ [] ∧ forallb is_digit ds = true) numbers →
  n ∈ int_of <$> numbers → refers (reference_list numbers ++ b) n.
Proof.
  intros Hb. induction numbers as [|ds numbers IH]; [by intros _ ?%elem_of_nil|].
  intros [[Hne Hd] Hf]%Forall_cons [->|Hn]%elem_of_cons.
  - destruct numbers as [|ds' numbers]; cbn [reference_list].
    + exists [], ds, b. by rewrite <-!app_assoc.
    + exists [], ds, (chars ", " ++ reference_list (ds' :: numbers) ++ b). by rewrite <-!app_assoc.
  - specialize (IH Hf Hn). destruct numbers as [|ds' numbers]; [by apply elem_of_nil in Hn|].
    cbn [reference_list]. rewrite <-!app_assoc. by do 3 apply refers_app.
Qed.

Lemma listed_on_closing_line body n : listed body n → on_closing_line body n.
Proof.
  intros (line & a & k & numbers & b & Hl & -> & Hk & Hw & Hb & Hf & Hn). eexists. split; [exact Hl|]. split.
  - by exists a, k, (chars " " ++ reference_list numbers ++ b).
  - do 3 apply refers_app. by apply refers_reference_list.
Qed.

(** The parsed references are exactly those the same-line rule asks for, each
    once. *)
Theorem parse_closing_refs_spec body :
  NoDup (parse_closing_refs body) ∧ ∀ n, n ∈ parse_closing_refs body ↔ on_closing_line body n.
Proof.
  assert (Hkey : ∀ line, has_keyword line = true ↔ closing_line line).
  { intros line. unfold has_keyword. rewrite search_spec. unfold keyword_at. split.
    - intros (a & b & -> & [Hw%negb_true_iff (k & Hk & [Hs Ha%negb_true_iff]%andb_true_iff)%existsb_exists]%andb_true_iff).
      apply starts_with_spec in Hs as [l Hs]. exists a, (take (length k) b), (drop (length k) b).
      rewrite take_drop. split_and!; [done| |done..].
      rewrite fmap_take, Hs, take_app_length. by apply list_elem_of_In.
    - intros (a & k & b & -> & Hk & Hw & Ha). exists a, (k ++ b). split; [done|]. rewrite Hw. cbn [negb andb].
      apply existsb_exists. exists (lower <$> k). rewrite <-list_elem_of_In. split; [done|]. apply andb_true_iff.
      rewrite fmap_app, starts_with_spec, length_fmap, drop_app_length, Ha. split; [by eexists|done]. }
  destruct (add_lines_spec (splitlines body) ([], ∅)) as (_ & Hn & Hm); [set_solver|by constructor|].
  split; [done|]. intros n. unfold parse_closing_refs. rewrite Hm. split.
  - intros [[]%elem_of_nil|(line & ? & Hk & ?)]. exists line. by rewrite <-Hkey.
  - intros (line & ? & Hk%Hkey & ?). right. eauto.
Qed.

(** ** What is closed *)

(** What [gh] documents of the three commands; a close that fails may have
    closed the issue or not. *)
Class GitHub (W : Type) `{GhApi W} := {
  pr_body : W → string → Z → text_chars;
  issue_open : W → string → Z → bool;
  unchanged w w' := pr_body w' = pr_body w ∧ ∀ r n, issue_open w' r n = issue_open w r n;
  view_pr pr repo w r w' : gh_call (pr_view pr repo) w = (r, w') →
    unchanged w w' ∧ ∀ out, r = Ok out → out = pr_body w repo pr;
  view_issue n repo w r w' : gh_call (issue_view n repo) w = (r, w') →
    unchanged w w' ∧
    ∀ out, r = Ok out → (upper <$> strip_text out = chars "OPEN" ↔ issue_open w repo n = true);
  close_issue n pr repo w r w' : gh_call (issue_close n pr repo) w = (r, w') →
    pr_body w' = pr_body w ∧ (∀ r' m, (r', m) ≠ (repo, n) → issue_open w' r' m = issue_open w r' m) ∧
    (issue_open w' repo n = issue_open w repo n ∨ issue_open w' repo n = false) ∧
    ∀ out, r = Ok out → issue_open w' repo n = false;
}.

Lemma filter_ext_in {A} (P Q : A → Prop) `{∀ x, Decision (P x), ∀ x, Decision (Q x)} (l : list A) :
  (∀ x, x ∈ l → P x ↔ Q x) → filter P l = filter Q l.
Proof.
  induction l as [|x l IH]; intros Hl; [done|]. rewrite !filter_cons, IH by (intros; apply Hl; by right).
  specialize (Hl x (list_elem_of_here _ _)). repeat case_decide; naive_solver.
Qed.

Section closing.
Context {W : Type} `{GitHub W}.
Implicit Types s : W * list (list string).

(** Open before and after: only issues of [l] that were open are closed. *)
Definition closes_among (repo : string) (l : list Z) (w w' : W) : Prop :=
  pr_body w' = pr_body w ∧
  ∀ r n, issue_open w' r n = issue_open w r n ∨ (r = repo ∧ n ∈ l ∧ issue_open w r n = true ∧ issue_open w' r n = false).

Lemma closes_trans repo l1 l2 l w1 w2 w3 :
  l1 ⊆ l → l2 ⊆ l → closes_among repo l1 w1 w2 → closes_among repo l2 w2 w3 → closes_among repo l w1 w3.
Proof.
  intros S1 S2 [B1 H1] [B2 H2]. split; [congruence|]. intros r n. destruct (H1 r n) as [E1|(? & N1 & O1 & C1)], (H2 r n) as [E2|(? & N2 & O2 & C2)].
  - left. congruence.
  - right. rewrite <-E1. auto.
  - right. rewrite E2. auto.
  - congruence.
Qed.

Lemma same_closes repo l w w' : unchanged w w' → closes_among repo l w w'.
Proof. intros [B E]. split; [done|]. intros r n. by left. Qed.

Lemma closes_mono repo l1 l2 w w' : l1 ⊆ l2 → closes_among repo l1 w w' → closes_among repo l2 w w'.
Proof. intros S [B C]. split; [done|]. intros r n. destruct (C r n) as [?|(? & ? & ?)]; [by left|right]. auto. Qed.

(** The commands for one open reference. *)
Lemma closes_one repo n w w1 w2 :
  unchanged w w1 → issue_open w repo n = true → pr_body w2 = pr_body w1 →
  (∀ r m, (r, m) ≠ (repo, n) → issue_open w2 r m = issue_open w1 r m) →
  issue_open w2 repo n = issue_open w1 repo n ∨ issue_open w2 repo n = false →
  closes_among repo [n] w w2.
Proof.
  intros [B1 K1] O B2 K2 M2. split; [congruence|]. intros r m. destruct (decide ((r, m) = (repo, n))) as [[= -> ->]|Hne]; [|left; by rewrite K2, K1].
  destruct M2 as [M2|M2]; rewrite M2, ?K1; [by left|right]. split_and!; [done|by left|done..].
Qed.

Lemma close_open_run pr repo closed refs s r s' :
  NoDup refs → close_open pr repo closed refs s = (r, s') →
  closes_among repo refs s.1 s'.1 ∧
  ∀ out, r = Ok out → out = closed ++ filter (λ n, issue_open s.1 repo n = true) refs ∧
    ∀ n, n ∈ refs → issue_open s'.1 repo n = false.
Proof.
  revert closed s. induction refs as [|n refs IH]; intros closed s Hn; cbn [close_open].
  { intros [= <- <-]. split; [by apply same_closes|]. intros out [= <-]. rewrite app_nil_r. split; [done|]. by intros n ?%elem_of_nil. }
  apply NoDup_cons in Hn as [Hnin Hn]. unfold _issue_state, _close_issue, _run_gh, mbind, gh_bind, mret, gh_ret.
  destruct (gh_call (issue_view n repo) s.1) as [[out|e] w1] eqn:E1; simpl; apply view_issue in E1 as [K1 O1].
  2: { intros [= <- <-]. split; [by apply same_closes|done]. }
  specialize (O1 out eq_refl). case_bool_decide as Eo.
  - apply O1 in Eo. cbn [fst]. destruct (gh_call (issue_close n pr repo) w1) as [[out'|e] w2] eqn:E2; simpl; apply close_issue in E2 as (B2 & K2 & M2 & O2).
    all: pose proof (closes_one repo n s.1 w1 w2 K1 Eo B2 K2 M2) as Hc.
    2: { intros [= <- <-]. split; [|done]. eapply closes_mono; [|exact Hc]. by intros ? ->%list_elem_of_singleton; left. }
    intros Er. pose proof (IH (closed ++ [n]) (w2, (s.2 ++ [_]) ++ [_]) Hn Er) as [Hc2 Hr]. cbn [fst] in Hc2, Hr. split.
    { eapply closes_trans; [| |exact Hc|exact Hc2]; [by intros ? ->%list_elem_of_singleton; left|by intros ?; right]. }
    intros o Ho. destruct (Hr o Ho) as [-> Hend]. split.
    + rewrite filter_cons_True by done. rewrite <-app_assoc. cbn [app]. do 2 f_equal.
      apply filter_ext_in. intros m Hm. rewrite K2, (proj2 K1) by (intros [= ->]; done). done.
    + intros m [->|Hm]%elem_of_cons; [|by apply Hend]. destruct (proj2 Hc2 repo n) as [->|(_ & _ & _ & ?)]; [by apply (O2 out')|done].
  - intros Er. pose proof (IH closed (w1, s.2 ++ [_]) Hn Er) as [Hc2 Hr]. cbn [fst] in Hc2, Hr.
    assert (Hno : issue_open s.1 repo n = false) by (apply not_true_iff_false; by intros ?%O1). split.
    { eapply closes_trans; [| |by apply (same_closes repo [] s.1 w1)|exact Hc2]; [apply list_subseteq_nil|by intros ?; right]. }
    intros o Ho. destruct (Hr o Ho) as [-> Hend]. split.
    + rewrite filter_cons_False by (by rewrite Hno). f_equal. apply list_filter_iff. intros m. by rewrite (proj2 K1).
    + intros m [->|Hm]%elem_of_cons; [|by apply Hend]. destruct (proj2 Hc2 repo n) as [->|(_ & _ & _ & ?)]; [by rewrite (proj2 K1)|done].
Qed.

Lemma auto_close_run pr repo s r s' :
  auto_close_issues_from_pr_body pr repo s = (r, s') →
  let refs := parse_closing_refs (pr_body s.1 repo pr) in
  closes_among repo refs s.1 s'.1 ∧
  ∀ out, r = Ok out → out = filter (λ n, issue_open s.1 repo n = true) refs ∧
    ∀ n, n ∈ refs → issue_open s'.1 repo n = false.
Proof.
  unfold auto_close_issues_from_pr_body, _pr_body, _run_gh, mbind, gh_bind.
  destruct (gh_call (pr_view pr repo) s.1) as [[body|e] w] eqn:E; apply view_pr in E as [U Eb].
  2: { intros [= <- <-]. split; [by apply same_closes|done]. }
  specialize (Eb body eq_refl) as ->. intros Er. apply close_open_run in Er as [Hc Hr]; [|apply parse_refs_NoDup].
  cbn [fst] in Hc, Hr. split.
  - eapply (closes_trans repo []); [apply list_subseteq_nil|by intros ?|by apply same_closes|exact Hc].
  - intros out Ho. destruct (Hr out Ho) as [-> Hend]. split; [|done]. cbn [app]. apply list_filter_iff. intros n. by rewrite (proj2 U).
Qed.

(** C31: what is closed. Whatever commands fail, no issue is opened, no other
    repository is touched, the body is as it was, and an issue is closed only
    if it was open and its number stands behind a hash on a line of the pull
    request's body that has a closing keyword as a word of its own. When the
    call returns, the list it returns names, once each, the issues that were
    open and are closed now; every issue of a list in the documented form
    ([Closes #243, #244, #245]) is closed; and a further call that returns
    closes nothing. *)
Theorem auto_close_exact pr repo s r s' :
  auto_close_issues_from_pr_body pr repo s = (r, s') →
  let body := pr_body s.1 repo pr in
  pr_body s'.1 = pr_body s.1 ∧
  (∀ rp n, issue_open s'.1 rp n = issue_open s.1 rp n ∨
     (rp = repo ∧ on_closing_line body n ∧ issue_open s.1 rp n = true ∧ issue_open s'.1 rp n = false)) ∧
  ∀ closed, r = Ok closed →
    NoDup closed ∧
    (∀ n, n ∈ closed ↔ issue_open s.1 repo n = true ∧ issue_open s'.1 repo n = false) ∧
    (∀ n, listed body n → issue_open s'.1 repo n = false) ∧
    ∀ again s'', auto_close_issues_from_pr_body pr repo s' = (Ok again, s'') → again = [].
Proof.
  intros E body. apply auto_close_run in E as [[Hb Hc] Hr]. fold body in Hc, Hr.
  destruct (parse_closing_refs_spec body) as [Hnd Hin]. split; [done|]. split.
  { intros rp n. rewrite <-Hin. destruct (Hc rp n) as [?|?]; [by left|by right]. }
  intros closed Ho. destruct (Hr closed Ho) as [-> Hend]. split; [by apply NoDup_filter|]. split_and!.
  - intros n. rewrite list_elem_of_filter. split; [naive_solver|]. intros [Hopen Hcl]. split; [done|].
    destruct (Hc repo n) as [Hs|(_ & ? & _)]; [congruence|done].
  - intros n Hl. by apply Hend, Hin, listed_on_closing_line.
  - intros again s'' E2. apply auto_close_run in E2 as [_ H2]. destruct (H2 again eq_refl) as [-> _]. rewrite Hb. fold body.
    destruct (filter (λ n, issue_open s'.1 repo n = true) (parse_closing_refs body)) as [|n l] eqn:Ef; [reflexivity|exfalso].
    assert (Hn : n ∈ filter (λ n, issue_open s'.1 repo n = true) (parse_closing_refs body)) by (rewrite Ef; by left).
    apply list_elem_of_filter in Hn as [Ho' Hn]. apply Hend in Hn. congruence.
Qed.
End closing.

(** ** A concrete repository host *)

Record hub := Hub { hub_body : text_chars; hub_open : gset (string * string) }.

Definition hub_call (args : list string) (w : hub) : res text_chars * hub :=
  match args with
  | "pr" :: "view" :: _ => (Ok (hub_body w), w)
  | "issue" :: "view" :: n :: _ :: repo :: _ =>
      (Ok (chars (if bool_decide ((repo, n) ∈ hub_open w) then "OPEN" +:+ newline else "CLOSED" +:+ newline)), w)
  | "issue" :: "close" :: n :: _ :: repo :: _ => (Ok [], Hub (hub_body w) (hub_open w ∖ {[(repo, n)]}))
  | _ => (Raise (OtherError "CalledProcessError" "unknown command"), w)
  end.

#[export] Instance hub_gh : GhApi hub := { gh_call := hub_call }.

#[export, refine] Instance hub_github : GitHub hub := {
  pr_body w _ _ := hub_body w;
  issue_open w repo n := bool_decide ((repo, str_of_Z n) ∈ hub_open w);
}.
Proof.
  - intros pr repo w r w' [= <- <-]. split; [done|]. by intros out [= <-].
  - intros n repo w r w' [= <- <-]. split; [done|]. intros out [= <-]. by case_bool_decide; vm_compute.
  - intros n pr repo w r w' [= <- <-]. cbn. split_and!; [done| |right|intros _ _].
    + intros r' m Hne. apply bool_decide_ext. rewrite elem_of_difference, elem_of_singleton. split; [by intros []|].
      intros Hin. split; [done|]. intros [= -> E%(inj pretty)]. by subst.
    + apply bool_decide_eq_false. set_solver.
    + apply bool_decide_eq_false. set_solver.
Defined.

Definition merged_body : text_chars :=
  chars ("Refactor." +:+ newline +:+ "Closes #243, #244, #243" +:+ newline +:+ "see #7" +:+ newline +:+ "fixes #9x and #12").
Definition hub_start : hub * list (list string) :=
  (Hub merged_body {[("o/r", "243"); ("o/r", "12"); ("o/r", "7"); ("o/x", "12")]}, []).

Definition hub_run := auto_close_issues_from_pr_body 287 "o/r" hub_start.

Lemma merged_listed n : n ∈ [243; 244] → listed merged_body n.
Proof.
  intros Hn. exists (chars "Closes #243, #244, #243"), [], (chars "Closes"), [chars "243"; chars "244"; chars "243"], [].
  split_and!; [apply (bool_decide_unpack _); vm_compute; reflexivity|reflexivity|by left|done|done|by repeat constructor|].
  replace (int_of <$> _) with [243; 244; 243] by (vm_compute; reflexivity).
  rewrite !elem_of_cons in *. tauto.
Qed.

(** [#12] is closed, as its line has a keyword; [#244], listed, was not open. *)
Lemma auto_close_exact_witness :
  hub_run.1 = Ok [243; 12] ∧ length hub_run.2.2 = 6%nat ∧
  issue_open hub_run.2.1 "o/r" 243 = false ∧ issue_open hub_run.2.1 "o/r" 244 = false.
Proof.
  split; [vm_compute; reflexivity|]. split; [vm_compute; reflexivity|].
  destruct (auto_close_exact 287 "o/r" hub_start hub_run.1 hub_run.2 (surjective_pairing _)) as (_ & _ & Hr).
  destruct (Hr [243; 12] ltac:(vm_compute; reflexivity)) as (_ & _ & Hl & _).
  change (pr_body hub_start.1 "o/r" 287) with merged_body in Hl.
  split; [exact (Hl 243 (merged_listed 243 (list_elem_of_here _ _)))|].
  exact (Hl 244 (merged_listed 244 (list_elem_of_further _ _ _ (list_elem_of_here _ _)))).
Defined.

(** The comment on the pattern says that the hash keeps it from picking up
    "steps: #1 #2 #3" after a keyword; it does pick them up. *)
Example prose_refs_picked_up : parse_closing_refs (chars "Closes the steps: #1 #2 #3") = [1; 2; 3].
Proof. vm_compute. reflexivity. Qed.

(** A reference into another repository is read as one of this repository. *)
Example other_repo_ref_misread : parse_closing_refs (chars "Fixes upstream/project#12") = [12].
Proof. vm_compute. reflexivity. Qed.
