(* ===== verification/WorkflowInjections.v ===== *)
(** * Expressions in the run blocks of workflows ([scripts/check_workflow_run_injections.py])

    The scan of parsed workflows for interpolations of the [github] context in
    the [run] text of a step, and the exit code of the gate.  The YAML parser
    and the file system are arguments. *)
From S2P Require Import Prelude PyValue Effects PyTime Url PyText.

(** What [yaml.safe_load] makes of a document: mappings keep their order, and a
    key that is not a text is known by its [str]. *)
Inductive yaml_key := KeyText (t : text_chars) | KeyOther (shown : string).
Inductive yaml :=
  | YText (t : text_chars)
  | YList (l : list yaml)
  | YMap (entries : list (yaml_key * yaml))
  | YOther.

#[export] Instance yaml_key_eq_dec : EqDecision yaml_key.
Proof. solve_decision. Defined.

Definition key_str (k : yaml_key) : string := match k with KeyText t => string_of t | KeyOther s => s end.

(** [m.get(key)] *)
Fixpoint yget (key : string) (m : list (yaml_key * yaml)) : option yaml :=
  match m with
  | [] => None
  | (k, v) :: m => if bool_decide (k = KeyText (chars key)) then Some v else yget key m
  end.

Definition get_text (key : string) (m : list (yaml_key * yaml)) : option text_chars :=
  match yget key m with Some (YText t) => Some t | _ => None end.

(** ** The pattern *)

(** [GITHUB_EXPR] at a position. *)
Definition expr_at (l : text_chars) : bool :=
  starts_with (chars "${{") l && starts_with (chars "github.") (drop_leading is_space (drop 3 l)).

Definition interpolates (l : text_chars) : bool := search (λ _, expr_at) None l.

(** ** The scan *)

Definition first_line (run : text_chars) : option text_chars :=
  head (filter (λ t, t ≠ []) (strip_text <$> splitlines run)).

Definition step_label (step : list (yaml_key * yaml)) : text_chars :=
  match get_text "name" step with
  | Some name =>
      if bool_decide (strip_text name = []) then
        default (chars "<unnamed step>") (get_text "run" step ≫= first_line)
      else name
  | None => default (chars "<unnamed step>") (get_text "run" step ≫= first_line)
  end.

Definition offending_line (run : text_chars) : text_chars :=
  default (strip_text run) (head (strip_text <$> filter (λ line, interpolates line = true) (splitlines run))).

Definition violation (path : string) (job_id : yaml_key) (step : list (yaml_key * yaml)) (run : text_chars) : string :=
  path +:+ ": job '" +:+ key_str job_id +:+ "', step '" +:+ string_of (step_label step) +:+
  "' interpolates a github.* expression directly into a run: block (offending line: " +:+
  repr_str (string_of (offending_line run)) +:+ ") — pass it via env: and read " +:+ dquote +:+ "$VAR" +:+ dquote +:+
  " instead (issue #574)".

(** One step, one job, the document. *)
Definition step_violations (path : string) (job_id : yaml_key) (step : yaml) : list string :=
  match step with
  | YMap step =>
      match get_text "run" step with
      | Some run => if interpolates run then [violation path job_id step run] else []
      | None => []
      end
  | _ => []
  end.

Definition job_violations (path : string) (entry : yaml_key * yaml) : list string :=
  match entry.2 with
  | YMap job =>
      match yget "steps" job with
      | Some (YList steps) => concat (step_violations path entry.1 <$> steps)
      | _ => []
      end
  | _ => []
  end.

Definition workflow_run_violations (path : string) (doc : yaml) : list string :=
  match doc with
  | YMap doc =>
      match yget "jobs" doc with
      | Some (YMap jobs) => concat (job_violations path <$> jobs)
      | _ => []
      end
  | _ => []
  end.

(** ** The gate *)

Definition DEFAULT_DIR : string := ".github/workflows".

Section gate.
(** [root.is_dir()], [root.glob(pattern)], [path.read_text()] and
    [yaml.safe_load], which raises [YAMLError]. *)
Context (is_dir : string → bool) (glob : string → string → list string).
Context (read_text : string → res text_chars) (safe_load : text_chars → res yaml).

(** One file: what it adds. *)
Definition file_violations (path : string) : res (list string) :=
  text ← read_text path;
  match safe_load text with
  | Ok doc => Ok (workflow_run_violations path doc)
  | Raise (OtherError "YAMLError" msg) => Ok [path +:+ ": not parseable YAML: " +:+ msg]
  | Raise e => Raise e
  end.

Definition scan_dir (root : string) : res (list string) :=
  ls ← map_res file_violations (sorted_strings (glob root "*.yml") ++ sorted_strings (glob root "*.yaml"));
  Ok (concat ls).

(** The exit code and the lines printed. *)
Definition gate_main (argv : list string) : res (Z * list string) :=
  let root := default DEFAULT_DIR (head argv) in
  if negb (is_dir root) then Ok (1, ["::error::workflow directory not found: " +:+ root])
  else
    violations ← scan_dir root;
    match violations with
    | [] => Ok (0, ["workflow run-block injection guard: clean (" +:+ root +:+ ", issue #574)"])
    | _ =>
        Ok (1, ((λ v, "::error::" +:+ v) <$> violations) ++
          ["Workflows must pass github.* values through env: indirection, never direct run: interpolation (issue #574; the #301 PR-body guard in ci.yml shows the pattern)."])
    end.
End gate.

(** ** What the scan finds *)

(** The text of [jobs.<id>.steps[].run]. *)
Definition run_block (doc : yaml) (job_id : yaml_key) (step : list (yaml_key * yaml)) (run : text_chars) : Prop :=
  ∃ d jobs job steps, doc = YMap d ∧ yget "jobs" d = Some (YMap jobs) ∧ (job_id, YMap job) ∈ jobs ∧
    yget "steps" job = Some (YList steps) ∧ YMap step ∈ steps ∧ get_text "run" step = Some run.

(** An interpolation: the opening of an expression, spaces, and the context. *)
Definition has_github_expr (run : text_chars) : Prop :=
  ∃ a sp b, run = a ++ chars "${{" ++ sp ++ chars "github." ++ b ∧ forallb is_space sp = true.

Lemma drop_leading_split p l : ∃ a, l = a ++ drop_leading p l ∧ forallb p a = true.
Proof.
  induction l as [|c l (a & E & Ha)]; [by exists []|]. simpl. destruct (p c) eqn:Ec; [|by exists []].
  exists (c :: a). simpl. rewrite Ec, Ha. by rewrite E at 1.
Qed.

Lemma drop_leading_past p a c l : forallb p a = true → p c = false → drop_leading p (a ++ c :: l) = c :: l.
Proof. intros Ha Hc. induction a as [|d a IH]; simpl in *; [by rewrite Hc|]. apply andb_true_iff in Ha as [-> Ha]. auto. Qed.

Lemma interpolates_spec run : interpolates run = true ↔ has_github_expr run.
Proof.
  unfold interpolates, has_github_expr. rewrite search_spec. unfold expr_at. split.
  - intros (a & l & -> & [(r & ->)%starts_with_spec Hg]%andb_true_iff).
    change (drop 3 (chars "${{" ++ r)) with r in Hg. apply starts_with_spec in Hg as (b & Hb).
    destruct (drop_leading_split is_space r) as (sp & E & Hsp). rewrite Hb in E. exists a, sp, b. by rewrite E.
  - intros (a & sp & b & -> & Hsp). eexists a, _. split; [done|]. apply andb_true_iff. split; [apply starts_with_spec; eauto|].
    change (drop 3 (chars "${{" ++ sp ++ chars "github." ++ b)) with (sp ++ chars "github." ++ b).
    apply starts_with_spec. exists b. by apply (drop_leading_past is_space sp _ (chars "ithub." ++ b)).
Qed.

Lemma elem_of_concat_fmap {A B} (f : A → list B) l y : y ∈ concat (f <$> l) ↔ ∃ x, x ∈ l ∧ y ∈ f x.
Proof.
  induction l as [|x l IH]; simpl; [by split; [intros ?%elem_of_nil|intros (? & ?%elem_of_nil & _)]|].
  rewrite elem_of_app, IH. setoid_rewrite elem_of_cons. naive_solver.
Qed.

(** A message per offending run block, and no other. *)
Lemma violations_in path doc v :
  v ∈ workflow_run_violations path doc ↔
  ∃ job_id step run, run_block doc job_id step run ∧ has_github_expr run ∧ v = violation path job_id step run.
Proof.
  unfold run_block. setoid_rewrite <-interpolates_spec. split.
  - unfold workflow_run_violations. destruct doc as [| |d|]; try by intros ?%elem_of_nil.
    destruct (yget "jobs" d) as [[| |jobs|]|] eqn:Ej; try by intros ?%elem_of_nil.
    intros ([job_id job] & Hin & Hv)%elem_of_concat_fmap. unfold job_violations in Hv. cbn [fst snd] in Hv.
    destruct job as [| |job|]; try by apply elem_of_nil in Hv.
    destruct (yget "steps" job) as [[|steps| |]|] eqn:Es; try by apply elem_of_nil in Hv.
    apply elem_of_concat_fmap in Hv as (step & Hstep & Hv). unfold step_violations in Hv.
    destruct step as [| |step|]; try by apply elem_of_nil in Hv.
    destruct (get_text "run" step) as [run|] eqn:Er; [|by apply elem_of_nil in Hv].
    destruct (interpolates run) eqn:Ei; [|by apply elem_of_nil in Hv]. apply list_elem_of_singleton in Hv as ->.
    exists job_id, step, run. split_and!; [|done..]. exists d, jobs, job, steps. done.
  - intros (job_id & step & run & (d & jobs & job & steps & -> & Ej & Hin & Es & Hstep & Er) & Hi & ->).
    unfold workflow_run_violations. rewrite Ej. apply elem_of_concat_fmap. exists (job_id, YMap job). split; [done|].
    unfold job_violations. cbn [fst snd]. rewrite Es. apply elem_of_concat_fmap. exists (YMap step). split; [done|].
    unfold step_violations. rewrite Er, Hi. by left.
Qed.

(** The scan reports exactly the run blocks that interpolate the context: a
    message is among the violations of a document when, and only when, it is
    the message of a step of a job whose run text contains an opening of an
    expression, spaces and the github context; whatever else the document
    holds, in [env], [with], [if] or [name], is never reported. *)
Theorem violations_exact path doc v :
  v ∈ workflow_run_violations path doc ↔
  ∃ job_id step run, run_block doc job_id step run ∧ has_github_expr run ∧ v = violation path job_id step run.
Proof. apply violations_in. Qed.

(** The line quoted shows the expression when it lies on one line. *)
Lemma offending_line_spec run line :
  line ∈ splitlines run → has_github_expr line →
  ∃ line', line' ∈ splitlines run ∧ has_github_expr line' ∧ offending_line run = strip_text line'.
Proof.
  intros Hl Hi%interpolates_spec. unfold offending_line.
  destruct (filter (λ line, interpolates line = true) (splitlines run)) as [|l' ls] eqn:Ef.
  - assert (Hin : line ∈ filter (λ line, interpolates line = true) (splitlines run)) by (by apply list_elem_of_filter).
    rewrite Ef in Hin. by apply elem_of_nil in Hin.
  - assert (Hin : l' ∈ filter (λ line, interpolates line = true) (splitlines run)) by (rewrite Ef; by left).
    apply list_elem_of_filter in Hin as [Hi' Hin]. exists l'. by rewrite <-interpolates_spec.
Qed.

(** The gate passes only a directory it has read in full: exit code 0 means
    that the directory exists, that every workflow file was read and parsed, and
    that no run block of any of them interpolates the context. *)
Theorem gate_pass_sound is_dir glob read_text safe_load argv lines path :
  gate_main is_dir glob read_text safe_load argv = Ok (0, lines) →
  let root := default DEFAULT_DIR (head argv) in
  is_dir root = true ∧
  (path ∈ glob root "*.yml" ++ glob root "*.yaml" →
   ∃ text doc, read_text path = Ok text ∧ safe_load text = Ok doc ∧
     ∀ job_id step run, run_block doc job_id step run → ¬ has_github_expr run).
Proof.
  intros E root. unfold gate_main in E. cbv zeta in E. fold root in E. destruct (is_dir root); [|done]. split; [done|]. cbn [negb] in E.
  unfold scan_dir in E. destruct (map_res _ _) as [ls|e] eqn:Em; [|done]. cbn [mbind res_bind] in E.
  destruct (concat ls) as [|v vs] eqn:Ec; [|done]. clear E. intros Hp.
  rewrite <-(sorted_strings_perm (glob root "*.yml")), <-(sorted_strings_perm (glob root "*.yaml")) in Hp. apply list_elem_of_lookup_1 in Hp as [i Hi].
  apply map_res_Ok in Em. destruct (Forall2_lookup_l _ _ _ _ _ Em Hi) as (vs & Hvs & Ef).
  assert (vs = []) as ->.
  { destruct vs as [|v vs]; [done|]. exfalso. apply (elem_of_nil v). rewrite <-Ec.
    apply list_elem_of_In, in_concat. exists (v :: vs). rewrite <-!list_elem_of_In.
    split; [by eapply list_elem_of_lookup_2|by left]. }
  unfold file_violations in Ef. destruct (read_text path) as [text|e]; [|done]. cbn [mbind res_bind] in Ef.
  exists text. destruct (safe_load text) as [doc|[]] eqn:El; try done; [|by repeat case_match].
  exists doc. split_and!; [done..|]. intros job_id step run Hr Hg. injection Ef as Ef.
  apply (elem_of_nil (violation path job_id step run)). rewrite <-Ef. apply violations_in. eauto 6.
Qed.

(** ** A concrete workflow *)

Definition key (s : string) : yaml_key := KeyText (chars s).
Definition one_step (run : string) : yaml :=
  YMap [(key "name", YText (chars "CI"));
        (KeyOther "True", YList []);
        (key "jobs", YMap [(key "build", YMap [(key "steps",
          YList [YMap [(key "env", YMap [(key "REF", YText (chars "${{ github.head_ref }}"))]); (key "run", YText (chars run))]])])])].

Definition safe_gate (run : string) : res (Z * list string) :=
  gate_main (λ _, true) (λ _ p, if String.eqb p "*.yml" then ["ci.yml"] else []) (λ _, Ok (chars run))
    (λ text, Ok (one_step (string_of text))) [].

Lemma gate_pass_sound_witness :
  let run := "echo $REF" in
  let out := gate_main (λ _, true) (λ _ p, if String.eqb p "*.yml" then ["ci.yml"] else []) (λ _, Ok (chars run))
    (λ text, Ok (one_step (string_of text))) [] in
  out = Ok (0, ["workflow run-block injection guard: clean (.github/workflows, issue #574)"]) ∧
  ∃ text doc, Ok (chars run) = Ok text ∧ Ok (one_step (string_of text)) = Ok doc ∧
    ∀ job_id step run, run_block doc job_id step run → ¬ has_github_expr run.
Proof.
  split; [vm_compute; reflexivity|].
  refine (proj2 (gate_pass_sound (λ _, true) (λ _ p, if String.eqb p "*.yml" then ["ci.yml"] else [])
    (λ _, Ok (chars "echo $REF")) (λ text, Ok (one_step (string_of text))) [] _ "ci.yml" _) _); [vm_compute; reflexivity|].
  apply list_elem_of_here.
Defined.

Example direct_run_fails :
  safe_gate "git checkout ${{  github.head_ref }}" =
  Ok (1, ["::error::" +:+ violation "ci.yml" (key "build")
            [(key "env", YMap [(key "REF", YText (chars "${{ github.head_ref }}"))]); (key "run", YText (chars "git checkout ${{  github.head_ref }}"))]
            (chars "git checkout ${{  github.head_ref }}");
          "Workflows must pass github.* values through env: indirection, never direct run: interpolation (issue #574; the #301 PR-body guard in ci.yml shows the pattern)."]).
Proof. vm_compute. reflexivity. Qed.

(** The same value inside a function call of an expression passes the gate. *)
Example wrapped_expr_passes : is_ok (safe_gate "git checkout ${{ format('{0}', github.head_ref) }}") = true ∧
  workflow_run_violations "ci.yml" (one_step "git checkout ${{ format('{0}', github.head_ref) }}") = [].
Proof. split; vm_compute; reflexivity. Qed.
