(* ===== verification/FixtureDrift.v ===== *)
(** * Fixture drift ([scripts/check_fixture_drift.py])

    Captured responses of the REST API checked against the contract of each
    endpoint.  An entry of the contract is the record of the members the script
    reads, as [json.load] of a well-formed contract file gives them (absent
    lists are empty); the captured body is any JSON value. *)
From S2P Require Import Prelude PyValue Effects PyTime RestClient.

(** ** Contracts and verdicts *)

(** A member of [nested], or the keys for the items of a list. *)
Record key_spec := KeySpec {
  item_required_keys : list string;
  item_forbidden_keys : list string;
  item_expected_keys : list string;
  required_keys : list string;
}.

Record response_spec := ResponseSpec {
  http_status : list Z;
  body_type : option string;
  expect_location : bool;
  resp_keys : key_spec;
  any_of_top_keys : list (list string);
  status_view_keys : option (list string);
  nested : list (string * key_spec);
}.

Record endpoint_spec := EndpointSpec {
  ep_response : response_spec;
  error_statuses : list Z;
  null_key : option string;
}.

Record Verdict := MkVerdict {
  outcome : string;
  problems : list string;
  warnings : list string;
  infos : list string;
}.

Definition problem (m : string) (v : Verdict) : Verdict := MkVerdict (outcome v) (problems v ++ [m]) (warnings v) (infos v).
Definition warning (m : string) (v : Verdict) : Verdict := MkVerdict (outcome v) (problems v) (warnings v ++ [m]) (infos v).
Definition info (m : string) (v : Verdict) : Verdict := MkVerdict (outcome v) (problems v) (warnings v) (infos v ++ [m]).

(** [f"{l}"] of a list of printed items. *)
Definition list_str (l : list string) : string := "[" +:+ join ", " l +:+ "]".

(** ** Keys *)

Definition has_key (k : string) (obj : gmap string pv) : bool := opt_is_some (obj !! k).

(** One loop over the keys: a message for each key that [bad] holds of. *)
Definition report (bad : string → bool) (say : string → Verdict → Verdict) (keys : list string) (v : Verdict) : Verdict :=
  foldl (λ v k, if bad k then say k v else v) v keys.

Definition _check_keys (label : string) (obj : gmap string pv) (required forbidden expected : list string) (v : Verdict) : Verdict :=
  let v := report (λ k, negb (has_key k obj)) (λ k, problem (label +:+ ": missing required key '" +:+ k +:+ "'")) required v in
  let v := report (λ k, has_key k obj) (λ k, problem (label +:+ ": forbidden key '" +:+ k +:+ "' present")) forbidden v in
  let v := report (λ k, negb (has_key k obj))
             (λ k, warning (label +:+ ": conditional key '" +:+ k +:+ "' absent (OK pre-start)")) expected v in
  let extras := sorted_strings (filter (λ k, k ∉ required ++ forbidden ++ expected) (map_to_list obj).*1) in
  match extras with
  | [] => v
  | _ => info (label +:+ ": extra keys beyond contract (normal for raw docs): " +:+ list_str (repr_str <$> extras)) v
  end.

(** One item of a list. *)
Definition check_item (label : string) (spec : key_spec) (v : Verdict) (entry : nat * pv) : Verdict :=
  let label := label +:+ "[" +:+ str_of_Z (Z.of_nat entry.1) +:+ "]" in
  match entry.2 with
  | PDict item => _check_keys label item (item_required_keys spec) (item_forbidden_keys spec) (item_expected_keys spec) v
  | item => problem (label +:+ ": expected object, got " +:+ type_name item) v
  end.

Definition _check_nested (label : string) (value : pv) (spec : key_spec) (v : Verdict) : Verdict :=
  match value with
  | PList [] => info (label +:+ ": empty list — item keys unverifiable") v
  | PList items => foldl (check_item label spec) v (imap pair items)
  | PDict obj => _check_keys label obj (required_keys spec) (item_forbidden_keys spec) (item_expected_keys spec) v
  | value => problem (label +:+ ": expected object or array, got " +:+ type_name value) v
  end.

(** ** Endpoints *)

Definition SLUG_SUFFIX_ALIASES : list string := ["_notfound"; "_stop"; "_start"].

Definition shapes : Type := gmap string endpoint_spec.

(** The loop over the suffixes. *)
Fixpoint resolve_alias (slug : string) (sh : shapes) (suffixes : list string) : option (string * endpoint_spec) :=
  match suffixes with
  | [] => None
  | suffix :: suffixes =>
      if py_endswith suffix slug then
        let base := py_prefix (String.length slug - String.length suffix) slug in
        match sh !! base with
        | Some spec => Some (base, spec)
        | None => resolve_alias slug sh suffixes
        end
      else resolve_alias slug sh suffixes
  end.

Definition resolve_spec (slug : string) (sh : shapes) : option (string * endpoint_spec) :=
  match sh !! slug with
  | Some spec => Some (slug, spec)
  | None => resolve_alias slug sh SLUG_SUFFIX_ALIASES
  end.

(** ** Envelopes *)

(** [status in statuses] *)
Definition status_in (status : pv) (statuses : list Z) : bool := existsb (λ z, py_eq status (PInt z)) statuses.

Definition check_location (resp : response_spec) (envelope : gmap string pv) (m : string) (v : Verdict) : Verdict :=
  if expect_location resp && negb (truthy (dget envelope "location")) then problem m v else v.

(** The documented not-found shape: the null key alone, with null. *)
Definition is_null_shape (spec : endpoint_spec) (body : pv) : bool :=
  match null_key spec, body with
  | Some k, PDict b => negb (String.eqb k "") && bool_decide (b = {[k := PNone]})
  | _, _ => false
  end.

Definition as_error (m : string) (v : Verdict) : Verdict := info m (MkVerdict "ERROR" (problems v) (warnings v) (infos v)).

Definition check_alternatives (resp : response_spec) (body : gmap string pv) (v : Verdict) : res Verdict :=
  match filter (λ keys, forallb (λ k, has_key k body) keys = true) (any_of_top_keys resp) with
  | [] => Ok (problem ("none of the alternative key-sets " +:+
             list_str ((λ keys, list_str (repr_str <$> keys)) <$> any_of_top_keys resp) +:+ " present") v)
  | [] :: _ => Raise (OtherError "IndexError" "list index out of range")
  | (top_key :: _) :: _ =>
      match status_view_keys resp with
      | None => Ok v
      | Some view =>
          let label := "body." +:+ top_key in
          Ok (match dget body top_key with
              | PList items => _check_nested label (PList items) (KeySpec view [] [] []) v
              | PDict obj => _check_keys label obj view [] [] v
              | _ => problem (label +:+ ": expected object or array") v
              end)
      end
  end.

Definition check_body (resp : response_spec) (body : gmap string pv) (v : Verdict) : Verdict :=
  let v := _check_keys "body" body (required_keys (resp_keys resp)) (item_forbidden_keys (resp_keys resp)) [] v in
  foldl (λ v kv, match body !! kv.1 with None => v | Some value => _check_nested ("body." +:+ kv.1) value kv.2 v end)
    v (nested resp).

Definition check_envelope (slug : string) (envelope : gmap string pv) (spec : endpoint_spec) : res Verdict :=
  let v := MkVerdict "PASS" [] [] [] in
  let status := dget envelope "http_status" in
  let body := dget envelope "body" in
  let resp := ep_response spec in
  if negb (status_in status (http_status resp)) then
    if status_in status (error_statuses spec) then Ok (as_error ("documented error shape (HTTP " +:+ py_str status +:+ ")") v)
    else Ok (problem ("unexpected HTTP status " +:+ py_str status +:+ " (allowed: " +:+
               list_str (str_of_Z <$> http_status resp) +:+ ")") v)
  else if bool_decide (body_type resp = Some "empty") then
    let v := match body with
             | PNone | PStr "" => v
             | _ => problem ("expected empty body, got: " +:+ repr_str (py_prefix 80 (py_str body))) v
             end in
    Ok (check_location resp envelope "expected a Location header" v)
  else if bool_decide (body_type resp = Some "html-or-empty") then
    Ok (check_location resp envelope "expected a Location header on the redirect" v)
  else
    match body with
    | PList items =>
        let k := resp_keys resp in
        Ok (_check_nested "body" (PList items) (KeySpec (item_required_keys k) (item_forbidden_keys k) (item_expected_keys k) []) v)
    | PDict b =>
        if is_null_shape spec body then
          Ok (as_error ("documented not-found shape ({" +:+ default "" (null_key spec) +:+ ": null} over HTTP 200)") v)
        else match any_of_top_keys resp with
             | [] => Ok (check_body resp b v)
             | _ => check_alternatives resp b v
             end
    | _ => Ok (problem ("expected JSON object/array body, got " +:+ type_name body) v)
    end.

(** ** The run over a directory *)

Definition IGNORED_FILES : list string := ["capture_meta.json"; "README.md"].

(** [path.stem] of a file that ends in [.json]. *)
Definition stem (name : string) : string := py_prefix (String.length name - 5) name.

Record tally := Tally { fails : Z; errors : Z; passes : Z; seen : Z; printed : list string }.

(** [f"{outcome:<5}"] *)
Definition pad5 (s : string) : string := s +:+ py_prefix (5 - String.length s) "     ".

Section run.
(** The directory, its [*.json] files, and the parse of one. *)
Context (directory : string) (is_dir : bool) (names : list string) (load : string → res (gmap string pv)) (sh : shapes).

Definition iter_fixtures : list string :=
  if negb is_dir then [] else filter (.∉ IGNORED_FILES) (sorted_strings names).

Definition fixture_lines (name : string) (envelope : gmap string pv) (v : Verdict) (shown : string) : list string :=
  [pad5 shown +:+ " " +:+ name +:+ " (HTTP " +:+ py_str (dget envelope "http_status") +:+ ")"] ++
  ((λ m, "        DRIFT: " +:+ m) <$> problems v) ++
  ((λ m, "        WARN:  " +:+ m) <$> warnings v) ++
  ((λ m, "        info:  " +:+ m) <$> infos v).

(** One turn of the loop. *)
Definition run_fixture (t : tally) (name : string) : res tally :=
  envelope ← load name;
  match resolve_spec (stem name) sh with
  | None =>
      Ok (Tally (fails t + 1) (errors t) (passes t) (seen t + 1)
            (printed t ++ ["FAIL  " +:+ name +:+ ": no contract shape for endpoint '" +:+ stem name +:+ "'"]))
  | Some (_, spec) =>
      v ← check_envelope (stem name) envelope spec;
      match problems v with
      | _ :: _ =>
          Ok (Tally (fails t + 1) (errors t) (passes t) (seen t + 1) (printed t ++ fixture_lines name envelope v "FAIL"))
      | [] =>
          if String.eqb (outcome v) "ERROR" then
            Ok (Tally (fails t) (errors t + 1) (passes t) (seen t + 1)
                  (printed t ++ fixture_lines name envelope v (outcome v)))
          else
            Ok (Tally (fails t) (errors t) (passes t + 1) (seen t + 1)
                  (printed t ++ fixture_lines name envelope v (outcome v)))
      end
  end.

Fixpoint run_fixtures (t : tally) (names : list string) : res tally :=
  match names with
  | [] => Ok t
  | name :: names => t ← run_fixture t name; run_fixtures t names
  end.

(** The exit code and the lines printed. *)
Definition run_drift : res (Z * list string) :=
  t ← run_fixtures (Tally 0 0 0 0 []) iter_fixtures;
  if seen t =? 0 then Ok (0, printed t ++ ["No fixtures found in " +:+ directory])
  else Ok (if fails t =? 0 then 0 else 1,
    printed t ++ [""; directory +:+ ": " +:+ str_of_Z (seen t) +:+ " fixture(s): " +:+ str_of_Z (passes t) +:+ " pass, " +:+
      str_of_Z (errors t) +:+ " error-shape, " +:+ str_of_Z (fails t) +:+ " fail"]).
End run.

(** ** What a verdict means *)

(** An object has the keys a contract asks for. *)
Definition keys_conform (obj : gmap string pv) (required forbidden : list string) : Prop :=
  (∀ k, k ∈ required → is_Some (obj !! k)) ∧ (∀ k, k ∈ forbidden → obj !! k = None).

Definition nested_conforms (value : pv) (spec : key_spec) : Prop :=
  match value with
  | PList items => ∀ item, item ∈ items → ∃ obj, item = PDict obj ∧
      keys_conform obj (item_required_keys spec) (item_forbidden_keys spec)
  | PDict obj => keys_conform obj (required_keys spec) (item_forbidden_keys spec)
  | _ => False
  end.

(** A captured response conforms to the contract of its endpoint. *)
Definition body_conforms (resp : response_spec) (body : gmap string pv) : Prop :=
  match any_of_top_keys resp with
  | [] => keys_conform body (required_keys (resp_keys resp)) (item_forbidden_keys (resp_keys resp)) ∧
      ∀ k spec value, (k, spec) ∈ nested resp → body !! k = Some value → nested_conforms value spec
  | alternatives => ∃ top_key keys before after, alternatives = before ++ (top_key :: keys) :: after ∧
      (∀ k, k ∈ top_key :: keys → is_Some (body !! k)) ∧
      (∀ other, other ∈ before → ∃ k, k ∈ other ∧ body !! k = None) ∧
      ∀ view, status_view_keys resp = Some view → nested_conforms (dget body top_key) (KeySpec view [] [] view)
  end.

Definition success_conforms (spec : endpoint_spec) (envelope : gmap string pv) : Prop :=
  let resp := ep_response spec in
  let body := dget envelope "body" in
  let located := expect_location resp = true → truthy (dget envelope "location") = true in
  match body_type resp with
  | Some "empty" => (body = PNone ∨ body = PStr "") ∧ located
  | Some "html-or-empty" => located
  | _ =>
      match body with
      | PList items => nested_conforms (PList items) (resp_keys resp)
      | PDict b => is_null_shape spec body = true ∨ body_conforms resp b
      | _ => False
      end
  end.

Definition conforms (spec : endpoint_spec) (envelope : gmap string pv) : Prop :=
  let status := dget envelope "http_status" in
  if status_in status (http_status (ep_response spec)) then success_conforms spec envelope
  else status_in status (error_statuses spec) = true.

(** Steps that add problems unless a condition holds. *)
Lemma problem_nil m v : problems (problem m v) = [] ↔ False.
Proof. unfold problem. simpl. split; [by intros [_ [=]]%app_eq_nil|done]. Qed.

Lemma foldl_nil {A} (f : Verdict → A → Verdict) (C : A → Prop) l v :
  (∀ v x, problems (f v x) = [] ↔ problems v = [] ∧ C x) →
  problems (foldl f v l) = [] ↔ problems v = [] ∧ ∀ x, x ∈ l → C x.
Proof.
  intros Hf. revert v. induction l as [|x l IH]; intros v; simpl.
  { split; [intros ?; split; [done|by intros ? ?%elem_of_nil]|by intros []]. }
  rewrite IH, Hf. setoid_rewrite elem_of_cons. naive_solver.
Qed.

Lemma report_nil bad m keys v :
  problems (report bad (λ k, problem (m k)) keys v) = [] ↔ problems v = [] ∧ ∀ k, k ∈ keys → bad k = false.
Proof.
  apply foldl_nil. intros w k. destruct (bad k); [rewrite problem_nil; naive_solver|naive_solver].
Qed.

Lemma report_warnings bad m keys v : problems (report bad (λ k, warning (m k)) keys v) = problems v.
Proof. unfold report. revert v. induction keys as [|k keys IH]; intros v; simpl; [done|]. rewrite IH. by destruct (bad k). Qed.

Lemma check_keys_nil label obj required forbidden expected v :
  problems (_check_keys label obj required forbidden expected v) = [] ↔
  problems v = [] ∧ keys_conform obj required forbidden.
Proof.
  unfold _check_keys, keys_conform, has_key. cbv zeta. set (v1 := report _ _ required v). set (v2 := report _ _ forbidden v1).
  assert (Hm : ∀ (l : list string) w m, problems (match l with [] => w | _ => info m w end) = problems w) by (by intros []).
  rewrite Hm. clear Hm.
  rewrite report_warnings. unfold v2, v1. rewrite !report_nil.
  assert (Hr : ∀ k, negb (opt_is_some (obj !! k)) = false ↔ is_Some (obj !! k)) by (intros k; destruct (obj !! k); naive_solver).
  assert (Hf : ∀ k, opt_is_some (obj !! k) = false ↔ obj !! k = None) by (intros k; destruct (obj !! k); naive_solver).
  setoid_rewrite Hr. setoid_rewrite Hf. tauto.
Qed.

Lemma check_nested_nil label value spec v :
  problems (_check_nested label value spec v) = [] ↔ problems v = [] ∧ nested_conforms value spec.
Proof.
  destruct value as [| | | | |items|obj]; try (cbn [_check_nested nested_conforms]; rewrite problem_nil; tauto); [|apply check_keys_nil].
  assert (Hn : problems (foldl (check_item label spec) v (imap pair items)) = [] ↔ problems v = [] ∧ nested_conforms (PList items) spec).
  { rewrite (foldl_nil _ (λ e, ∃ obj, e.2 = PDict obj ∧ keys_conform obj (item_required_keys spec) (item_forbidden_keys spec))).
    - f_equiv. simpl. split.
      + intros He item Hin. apply list_elem_of_lookup in Hin as [i Hi]. apply (He (i, item)).
        apply list_elem_of_lookup. exists i. by rewrite list_lookup_imap, Hi.
      + intros He [i item] Hin. apply list_elem_of_lookup in Hin as [j Hj]. rewrite list_lookup_imap in Hj.
        destruct (items !! j) as [x|] eqn:Ej; [|done]. injection Hj as <- <-. apply (He x). by eapply list_elem_of_lookup_2.
    - intros w [i item]. unfold check_item. cbv zeta. cbn [fst snd].
      destruct item as [| | | | | |obj]; try (rewrite problem_nil; naive_solver). rewrite check_keys_nil. naive_solver. }
  destruct items as [|item items]; [|exact Hn]. simpl. set_solver.
Qed.

Lemma check_location_nil resp envelope m v :
  problems (check_location resp envelope m v) = [] ↔
  problems v = [] ∧ (expect_location resp = true → truthy (dget envelope "location") = true).
Proof.
  unfold check_location. destruct (expect_location resp), (truthy _); cbn [andb negb]; rewrite ?problem_nil; naive_solver.
Qed.

Lemma check_body_nil resp b v :
  problems (check_body resp b v) = [] ↔
  problems v = [] ∧ keys_conform b (required_keys (resp_keys resp)) (item_forbidden_keys (resp_keys resp)) ∧
  ∀ k spec value, (k, spec) ∈ nested resp → b !! k = Some value → nested_conforms value spec.
Proof.
  unfold check_body. rewrite (foldl_nil _ (λ kv, ∀ value, b !! kv.1 = Some value → nested_conforms value kv.2)).
  - rewrite check_keys_nil. split; [intros [[? ?] Hn]; split_and!; [done..|]|intros (? & ? & Hn); split; [done|]].
    + intros k spec value Hin. by apply (Hn (k, spec)).
    + intros [k spec] Hin value. by apply (Hn k spec).
  - intros w [k spec]. cbn [fst snd]. destruct (b !! k) as [value|]; [rewrite check_nested_nil|]; naive_solver.
Qed.

Lemma filter_first {A} (P : A → Prop) `{∀ x, Decision (P x)} l x m :
  filter P l = x :: m → ∃ before after, l = before ++ x :: after ∧ P x ∧ ∀ y, y ∈ before → ¬ P y.
Proof.
  induction l as [|y l IH]; [done|]. rewrite filter_cons. case_decide as Hy.
  - intros [= -> _]. exists [], l. split_and!; [done..|]. by intros ? ?%elem_of_nil.
  - intros (before & after & -> & Hx & Hb)%IH. exists (y :: before), after. split_and!; [done..|].
    intros z [->|Hz]%elem_of_cons; auto.
Qed.

Lemma filter_none {A} (P : A → Prop) `{∀ x, Decision (P x)} l : (∀ y, y ∈ l → ¬ P y) → filter P l = [].
Proof.
  induction l as [|y l IH]; [done|]. intros Hl. rewrite filter_cons_False by (apply Hl; by left).
  apply IH. intros z Hz. apply Hl. by right.
Qed.

(** The first alternative whose keys are all present. *)
Lemma check_alternatives_nil resp b v r :
  any_of_top_keys resp ≠ [] → check_alternatives resp b v = Ok r →
  problems r = [] ↔ problems v = [] ∧ body_conforms resp b.
Proof.
  intros Hne. unfold check_alternatives, body_conforms. set (ok := λ keys, forallb (λ k, has_key k b) keys = true).
  assert (Hok : ∀ keys, ok keys ↔ ∀ k, k ∈ keys → is_Some (b !! k)).
  { intros keys. unfold ok, has_key. rewrite forallb_forall. setoid_rewrite list_elem_of_In.
    split; intros Hk k Hin; specialize (Hk k Hin); destruct (b !! k); naive_solver. }
  assert (Hbad : ∀ keys, ¬ ok keys → ∃ k, k ∈ keys ∧ b !! k = None).
  { intros keys Hn. destruct (decide (Exists (λ k, b !! k = None) keys)) as [(k & ? & ?)%Exists_exists|Hx]; [eauto|].
    exfalso. apply Hn, Hok. intros k Hk. apply not_eq_None_Some. intros E. apply Hx, Exists_exists. eauto. }
  destruct (filter ok (any_of_top_keys resp)) as [|chosen matched] eqn:Ef.
  - intros [= <-]. rewrite problem_nil. split; [done|]. intros [_ Hc].
    destruct (any_of_top_keys resp) as [|a1 al] eqn:Ea; [done|].
    destruct Hc as (t & ks & before & after & E & Hall & _). rewrite E in Ef.
    assert (Hin : (t :: ks) ∈ filter ok (before ++ (t :: ks) :: after)).
    { apply list_elem_of_filter. split; [by apply Hok|]. apply elem_of_app. right. by left. }
    rewrite Ef in Hin. by apply elem_of_nil in Hin.
  - pose proof (filter_first _ _ _ _ Ef) as (before & after & E & Hp & Hb). destruct chosen as [|t ks]; [done|].
    assert (Hr : ∀ w, problems w = [] ↔ problems v = [] ∧ (∀ view, status_view_keys resp = Some view →
        nested_conforms (dget b t) (KeySpec view [] [] view)) → problems w = [] ↔ problems v = [] ∧ body_conforms resp b).
    { intros w ->. apply and_iff_compat_l. unfold body_conforms. rewrite E.
      destruct (before ++ (t :: ks) :: after) as [|a1 al] eqn:Ea; [by destruct before|]. rewrite <-Ea. split.
      - intros Hv. exists t, ks, before, after. split_and!; [done|by apply Hok|intros other Ho; by apply Hbad, Hb|done].
      - intros (t' & ks' & before' & after' & E' & Hall & Hb' & Hv).
        assert (Hf : filter ok (any_of_top_keys resp) = (t' :: ks') :: filter ok after').
        { rewrite E, <-Ea, E', filter_app, filter_none, filter_cons_True; [done|by apply Hok|].
          intros y Hy Hy'. destruct (Hb' y Hy) as (k & Hk & Hn). destruct (proj1 (Hok y) Hy' k Hk). congruence. }
        rewrite Ef in Hf. injection Hf as -> -> _. done. }
    intros Er. apply Hr. clear Hr. destruct (status_view_keys resp) as [view|]; injection Er as <-; [|naive_solver].
    assert (Hv : ∀ (Q : list string → Prop), (∀ w, Some view = Some w → Q w) ↔ Q view) by naive_solver.
    rewrite (Hv (λ view, nested_conforms (dget b t) (KeySpec view [] [] view))).
    destruct (dget b t) as [| | | | |items|obj]; try (rewrite problem_nil; cbn [nested_conforms]; tauto).
    + exact (check_nested_nil ("body." +:+ t) (PList items) (KeySpec view [] [] []) v).
    + exact (check_keys_nil ("body." +:+ t) obj view [] [] v).
Qed.

(** Problems and conformance. *)
Lemma check_envelope_nil slug envelope spec v :
  check_envelope slug envelope spec = Ok v → (problems v = [] ↔ conforms spec envelope).
Proof.
  unfold check_envelope, conforms, success_conforms. cbv zeta. set (v0 := MkVerdict "PASS" [] [] []).
  assert (H0 : problems v0 = []) by done. clearbody v0.
  destruct (status_in _ (http_status (ep_response spec))); cbn [negb].
  2: { destruct (status_in _ (error_statuses spec)); intros [= <-]; [|by rewrite problem_nil].
       unfold as_error, info. simpl. by rewrite H0. }
  set (resp := ep_response spec). set (body := dget envelope "body").
  case_bool_decide as Ee; [|case_bool_decide as Eh].
  - intros [= <-]. rewrite Ee, check_location_nil. f_equiv.
    destruct body as [| | |[|]| | |]; rewrite ?problem_nil, ?H0; naive_solver.
  - intros [= <-]. rewrite Eh, check_location_nil. naive_solver.
  - assert (Hc : ∀ A (x y z : A), match body_type resp with Some "empty" => x | Some "html-or-empty" => y | _ => z end = z).
    { intros A x y z. clear -Ee Eh. repeat (case_match; try done; subst). }
    rewrite Hc. destruct body as [| | | | |items|b]; try (intros [= <-]; rewrite problem_nil; done).
    + intros [= <-]. etransitivity; [apply (check_nested_nil "body" (PList items))|]. cbn [nested_conforms item_required_keys item_forbidden_keys]. naive_solver.
    + destruct (is_null_shape spec (PDict b)).
      { intros [= <-]. unfold as_error, info. simpl. rewrite H0. naive_solver. }
      destruct (any_of_top_keys resp) as [|a al] eqn:Ea.
      * intros [= <-]. rewrite check_body_nil. unfold body_conforms. rewrite Ea. naive_solver.
      * intros Er. apply check_alternatives_nil in Er; [|congruence]. rewrite Er. naive_solver.
Qed.

(** A verdict without problems is conformance: when the check of a captured
    response returns, it lists no problem exactly when the response is of the
    shape the contract documents for its endpoint: an allowed status with a
    conforming body, or a documented error status. *)
Theorem verdict_exact slug envelope spec v :
  check_envelope slug envelope spec = Ok v → (problems v = [] ↔ conforms spec envelope).
Proof. apply check_envelope_nil. Qed.

(** One turn of the run: what it adds to the tally. *)
Lemma run_fixture_spec sh load t name t' :
  run_fixture load sh t name = Ok t' →
  ∃ envelope, load name = Ok envelope ∧ seen t' = seen t + 1 ∧
    ((∃ slug spec v, resolve_spec (stem name) sh = Some (slug, spec) ∧ check_envelope (stem name) envelope spec = Ok v ∧
        problems v = [] ∧ fails t' = fails t ∧ passes t' + errors t' = passes t + errors t + 1) ∨
     ((resolve_spec (stem name) sh = None ∨
       ∃ slug spec v, resolve_spec (stem name) sh = Some (slug, spec) ∧ check_envelope (stem name) envelope spec = Ok v ∧ problems v ≠ []) ∧
      fails t' = fails t + 1 ∧ passes t' = passes t ∧ errors t' = errors t)).
Proof.
  unfold run_fixture. destruct (load name) as [envelope|]; [|done]. cbn [mbind res_bind]. intros E. exists envelope. split; [done|].
  destruct (resolve_spec (stem name) sh) as [[slug spec]|]; [|injection E as <-; simpl; split; [done|right; auto]].
  destruct (check_envelope _ _ _) as [v|] eqn:Ev; [|done]. cbn [mbind res_bind] in E.
  destruct (problems v) as [|p ps] eqn:Ep.
  - destruct (String.eqb _ _); injection E as <-; simpl; (split; [done|left; exists slug, spec, v; split_and!; [done..|lia]]).
  - injection E as <-. simpl. split; [done|right]. split; [right; exists slug, spec, v; split_and!; [done..|by rewrite Ep]|done].
Qed.

(** A fixture the contract covers and that conforms to it. *)
Definition fixture_ok (load : string → res (gmap string pv)) (sh : shapes) (name : string) : Prop :=
  ∃ envelope slug spec, load name = Ok envelope ∧ resolve_spec (stem name) sh = Some (slug, spec) ∧ conforms spec envelope.

Lemma run_fixtures_spec sh load names t t' :
  run_fixtures load sh t names = Ok t' →
  seen t' = seen t + Z.of_nat (length names) ∧
  fails t' + passes t' + errors t' - seen t' = fails t + passes t + errors t - seen t ∧
  fails t ≤ fails t' ∧ (fails t' = fails t ↔ ∀ name, name ∈ names → fixture_ok load sh name).
Proof.
  revert t. induction names as [|name names IH]; intros t; cbn [run_fixtures].
  { intros [= <-]. simpl. split_and!; [lia..|]. split; [by intros _ ? ?%elem_of_nil|done]. }
  destruct (run_fixture load sh t name) as [t1|] eqn:E1; [|done]. cbn [mbind res_bind].
  intros (S2 & C2 & L2 & F2)%IH. apply run_fixture_spec in E1 as (envelope & El & S1 & Hcase). cbn [length].
  setoid_rewrite elem_of_cons. destruct Hcase as [(slug & spec & v & Er & Ec & Ep & Ef & Et)|(Hbad & Ef & Epa & Eer)].
  - split_and!; [lia..|]. assert (Hok : fixture_ok load sh name).
    { exists envelope, slug, spec. split_and!; [done..|]. by apply (check_envelope_nil _ _ _ _ Ec). }
    rewrite <-Ef, F2. naive_solver.
  - split_and!; [lia..|]. split; [lia|]. intros Hall. exfalso.
    destruct (Hall name (or_introl eq_refl)) as (envelope' & slug' & spec' & El' & Er' & Hc).
    rewrite El in El'. injection El' as <-. destruct Hbad as [Hn|(slug & spec & v & Er & Ec & Ep)]; [congruence|].
    rewrite Er in Er'. injection Er' as <- <-. by apply Ep, (check_envelope_nil _ _ _ _ Ec).
Qed.

(** The exit code is the conformance of the directory: when the run returns,
    it exits 0 exactly when every fixture it looks at is covered by the contract
    and conforms to it; the printed counts account for every fixture once. *)
Theorem drift_exit_exact directory is_dir names load sh c lines :
  run_drift directory is_dir names load sh = Ok (c, lines) →
  (c = 0 ∨ c = 1) ∧
  (c = 0 ↔ ∀ name, name ∈ iter_fixtures is_dir names → fixture_ok load sh name) ∧
  ∃ t, run_fixtures load sh (Tally 0 0 0 0 []) (iter_fixtures is_dir names) = Ok t ∧
    seen t = Z.of_nat (length (iter_fixtures is_dir names)) ∧ passes t + errors t + fails t = seen t.
Proof.
  unfold run_drift. set (l := iter_fixtures is_dir names).
  destruct (run_fixtures _ _ _ l) as [t|] eqn:E; [|done]. cbn [mbind res_bind].
  apply run_fixtures_spec in E as (S & C & L & F). cbn [seen fails passes errors] in *. intros Er.
  assert (Hc : c = if fails t =? 0 then 0 else 1).
  { destruct (Z.eqb_spec (seen t) 0) as [Hs|]; injection Er as <- _; [|done].
    assert (l = []) as -> by (apply length_zero_iff_nil; lia). destruct (Z.eqb_spec (fails t) 0) as [|Hn]; [done|].
    exfalso. apply Hn, F. by intros ? ?%elem_of_nil. }
  split; [rewrite Hc; destruct (fails t =? 0); auto|]. split.
  - rewrite <-F, Hc. destruct (Z.eqb_spec (fails t) 0); naive_solver.
  - exists t. split; [done|]. lia.
Qed.

(** ** A concrete contract and captures *)

Definition no_keys : key_spec := KeySpec [] [] [] [].

Definition status_shape : endpoint_spec :=
  EndpointSpec (ResponseSpec [200] None false no_keys [["analysis"]; ["analyses"]] (Some ["_id"; "status"]) []) [404; 422; 500] None.
Definition requeue_shape : endpoint_spec :=
  EndpointSpec (ResponseSpec [204] (Some "empty") false no_keys [] None []) [404; 500] None.
Definition sample_shapes : shapes := {["get_analysis_status" := status_shape; "post_datapoint_requeue" := requeue_shape]}.

Definition capture (status : Z) (body : pv) : gmap string pv := {["http_status" := PInt status; "body" := body]}.
Definition analysis_body : pv := PDict {["analysis" := PDict {["_id" := PStr "a1"; "status" := PStr "started"]}]}.
Definition captures (name : string) : res (gmap string pv) :=
  if String.eqb name "get_analysis_status_notfound.json" then Ok (capture 404 PNone)
  else if String.eqb name "get_analysis_status.json" then Ok (capture 200 analysis_body)
  else Ok (capture 200 (PDict ∅)).

Lemma verdict_exact_witness :
  ∃ v, check_envelope "get_analysis_status" (capture 200 analysis_body) status_shape = Ok v ∧
    (problems v = [] ↔ conforms status_shape (capture 200 analysis_body)).
Proof.
  eexists. split; [vm_compute; reflexivity|]. apply (verdict_exact "get_analysis_status"). vm_compute. reflexivity.
Defined.

Lemma drift_exit_exact_witness :
  let names := ["get_analysis_status.json"; "get_analysis_status_notfound.json"; "post_datapoint_requeue.json"] in
  ∃ lines, run_drift "live" true names captures sample_shapes = Ok (1, lines) ∧
    (1 = 0 ↔ ∀ name, name ∈ iter_fixtures true names → fixture_ok captures sample_shapes name).
Proof.
  intros names. eexists. split; [vm_compute; reflexivity|].
  eapply (drift_exit_exact "live" true names captures sample_shapes 1). vm_compute. reflexivity.
Defined.
