(* ===== verification/Base64.v ===== *)
(** * Base64 and UTF-8 ([base64.b64decode], [bytes.decode])

    The lenient decoder of [binascii] (characters outside the alphabet are
    skipped, a complete padding ends the input) and the UTF-8 check, with a
    reference encoder the decoder inverts. *)
From S2P Require Import Prelude Effects.

Notation byte := Ascii.ascii.

(** ** The alphabet *)

Definition sextet (c : byte) : option N :=
  let n := Ascii.N_of_ascii c in
  (if (65 <=? n) && (n <=? 90) then Some (n - 65)
  else if (97 <=? n) && (n <=? 122) then Some (n - 71)
  else if (48 <=? n) && (n <=? 57) then Some (n + 4)
  else if n =? 43 then Some 62
  else if n =? 47 then Some 63
  else None)%N.

Definition sextet_char (n : N) : byte :=
  Ascii.ascii_of_N
  (if n <? 26 then n + 65 else if n <? 52 then n + 71 else if n <? 62 then n - 4
   else if n =? 62 then 43 else 47)%N.

(** ** Decoding *)

(** [quad]: position in the group of four; [left]: the bits carried over;
    [pads]: the padding characters just seen.  [None] is [binascii.Error]. *)
Fixpoint a2b (quad : nat) (left : N) (pads : nat) (l : list byte) : option (list byte) :=
  match l with
  | [] => if Nat.eqb quad 0 then Some [] else None
  | c :: l =>
      if is_char 61 c then
        if Nat.leb 2 quad && Nat.leb 4 (quad + S pads) then Some []
        else a2b quad left (if Nat.leb 2 quad then S pads else pads) l
      else
        match sextet c with
        | None => a2b quad left pads l
        | Some v =>
            match quad with
            | 0%nat => a2b 1 v 0 l
            | 1%nat => cons (Ascii.ascii_of_N (left * 4 + v / 16)) <$> a2b 2 (v mod 16) 0 l
            | 2%nat => cons (Ascii.ascii_of_N (left * 16 + v / 4)) <$> a2b 3 (v mod 4) 0 l
            | _ => cons (Ascii.ascii_of_N (left * 64 + v)) <$> a2b 0 0 0 l
            end
        end
  end.

(** [b64decode(s)]: the text must be ASCII. *)
Definition b64decode (l : list byte) : res (list byte) :=
  if forallb (λ c, Nat.ltb (code c) 128) l then
    match a2b 0 0 0 l with
    | Some b => Ok b
    | None => Raise (OtherError "binascii.Error" "Incorrect padding")
    end
  else Raise (ValueError "string argument should contain only ASCII characters").

(** ** UTF-8 *)

Definition in_range (lo hi : nat) (c : byte) : bool := Nat.leb lo (code c) && Nat.leb (code c) hi.
Definition is_cont : byte → bool := in_range 128 191.

(** The state is the list of ranges the next bytes must be in. *)
Fixpoint utf8_ok (pending : list (nat * nat)) (l : list byte) : bool :=
  match l with
  | [] => match pending with [] => true | _ => false end
  | c :: l =>
      match pending with
      | (lo, hi) :: pending => in_range lo hi c && utf8_ok pending l
      | [] =>
          if in_range 0 127 c then utf8_ok [] l
          else if in_range 194 223 c then utf8_ok [(128, 191)%nat] l
          else if in_range 224 224 c then utf8_ok [(160, 191); (128, 191)]%nat l
          else if in_range 237 237 c then utf8_ok [(128, 159); (128, 191)]%nat l
          else if in_range 225 239 c then utf8_ok [(128, 191); (128, 191)]%nat l
          else if in_range 240 240 c then utf8_ok [(144, 191); (128, 191); (128, 191)]%nat l
          else if in_range 241 243 c then utf8_ok [(128, 191); (128, 191); (128, 191)]%nat l
          else if in_range 244 244 c then utf8_ok [(128, 143); (128, 191); (128, 191)]%nat l
          else false
      end
  end.

(** [b.decode("utf-8")]: text is kept as its bytes. *)
Definition utf8_decode (l : list byte) : res string :=
  if utf8_ok [] l then Ok (String.string_of_list_ascii l)
  else Raise (OtherError "UnicodeDecodeError" "'utf-8' codec can't decode").

(** ** The decoder inverts the encoder *)

Definition num (c : byte) : N := Ascii.N_of_ascii c.

Definition pad_char : byte := Ascii.ascii_of_nat 61.

Fixpoint b64encode (l : list byte) : list byte :=
  match l with
  | [] => []
  | [a] => [sextet_char (num a / 4); sextet_char (num a mod 4 * 16); pad_char; pad_char]
  | [a; b] => [sextet_char (num a / 4); sextet_char (num a mod 4 * 16 + num b / 16);
               sextet_char (num b mod 16 * 4); pad_char]
  | a :: b :: c :: l =>
      sextet_char (num a / 4) :: sextet_char (num a mod 4 * 16 + num b / 16) ::
      sextet_char (num b mod 16 * 4 + num c / 64) :: sextet_char (num c mod 64) :: b64encode l
  end%N.

Lemma sextet_char_spec n : (n < 64)%N →
  sextet (sextet_char n) = Some n ∧ is_char 61 (sextet_char n) = false ∧ Nat.ltb (code (sextet_char n)) 128 = true.
Proof.
  intros Hn.
  assert (forallb (λ k, bool_decide (sextet (sextet_char (N.of_nat k)) = Some (N.of_nat k)) &&
    negb (is_char 61 (sextet_char (N.of_nat k))) && Nat.ltb (code (sextet_char (N.of_nat k))) 128) (seq 0 64) = true)
    as Hall by (vm_compute; reflexivity).
  rewrite forallb_forall in Hall. specialize (Hall (N.to_nat n)). rewrite N2Nat.id in Hall.
  rewrite !andb_true_iff, bool_decide_eq_true, negb_true_iff in Hall.
  destruct Hall as [[??]?]; [|done]. apply in_seq. lia.
Qed.

Lemma num_bound c : (num c < 256)%N.
Proof. apply Ascii.N_ascii_bounded. Qed.

Lemma byte_num c n : n = num c → Ascii.ascii_of_N n = c.
Proof. intros ->. apply Ascii.ascii_N_embedding. Qed.

Ltac ndlia := zify; Z.to_euclidean_division_equations; lia.

(** One step of the decoder on a character of the encoder. *)
Lemma a2b_sextet quad left pads n l : (n < 64)%N →
  a2b quad left pads (sextet_char n :: l) =
  match quad with
  | 0%nat => a2b 1 n 0 l
  | 1%nat => cons (Ascii.ascii_of_N (left * 4 + n / 16)) <$> a2b 2 (n mod 16) 0 l
  | 2%nat => cons (Ascii.ascii_of_N (left * 16 + n / 4)) <$> a2b 3 (n mod 4) 0 l
  | _ => cons (Ascii.ascii_of_N (left * 64 + n)) <$> a2b 0 0 0 l
  end.
Proof. intros Hn. destruct (sextet_char_spec n Hn) as (H1 & H2 & _). cbn [a2b]. by rewrite H2, H1. Qed.

Lemma a2b_encode l : a2b 0 0 0 (b64encode l) = Some l.
Proof.
  induction l as [l IH] using (induction_ltof1 _ (@length byte)). unfold ltof in IH.
  assert (Hp : is_char 61 pad_char = true) by done.
  destruct l as [|a [|b [|c l]]]; [done|..]; cbn [b64encode]; pose proof (num_bound a).
  - rewrite !a2b_sextet by ndlia. cbn. rewrite Hp. cbn. do 2 f_equal. apply byte_num. ndlia.
  - pose proof (num_bound b). rewrite !a2b_sextet by ndlia. cbn. rewrite Hp. cbn.
    f_equal. f_equal; [apply byte_num; ndlia|]. f_equal. apply byte_num. ndlia.
  - pose proof (num_bound b). pose proof (num_bound c). rewrite !a2b_sextet by ndlia.
    rewrite IH by (simpl; lia). cbn.
    f_equal. f_equal; [apply byte_num; ndlia|]. f_equal; [apply byte_num; ndlia|]. f_equal. apply byte_num. ndlia.
Qed.

Lemma b64encode_ascii l : forallb (λ c, Nat.ltb (code c) 128) (b64encode l) = true.
Proof.
  induction l as [l IH] using (induction_ltof1 _ (@length byte)). unfold ltof in IH.
  assert (Hs : ∀ n, (n < 64)%N → Nat.ltb (code (sextet_char n)) 128 = true) by (intros; by apply sextet_char_spec).
  destruct l as [|a [|b [|c l]]]; [done|..]; cbn [b64encode forallb]; pose proof (num_bound a);
    try (pose proof (num_bound b)); try (pose proof (num_bound c)); rewrite !Hs by ndlia; try done.
  apply IH. simpl. lia.
Qed.

Lemma b64decode_encode l : b64decode (b64encode l) = Ok l.
Proof. unfold b64decode. by rewrite b64encode_ascii, a2b_encode. Qed.
