(* ===== verification/Sha256.v ===== *)
(** * SHA-256

    [hashlib.sha256] of Python's standard library, as FIPS 180-4 specifies it,
    on bytes as integers; [archival.py] puts a prefix of the digest into the
    names of its Jobs. *)
From S2P Require Import Prelude PyValue.

(** ** Words of 32 bits *)

Definition word_mask : Z := 0xffffffff.
Definition add32 (a b : Z) : Z := Z.land (a + b) word_mask.
Definition rotr (n x : Z) : Z := Z.lor (Z.shiftr x n) (Z.land (Z.shiftl x (32 - n)) word_mask).
Definition not32 (x : Z) : Z := Z.lxor x word_mask.

Definition ch (x y z : Z) : Z := Z.lxor (Z.land x y) (Z.land (not32 x) z).
Definition maj (x y z : Z) : Z := Z.lxor (Z.lxor (Z.land x y) (Z.land x z)) (Z.land y z).
Definition big_sigma0 (x : Z) : Z := Z.lxor (Z.lxor (rotr 2 x) (rotr 13 x)) (rotr 22 x).
Definition big_sigma1 (x : Z) : Z := Z.lxor (Z.lxor (rotr 6 x) (rotr 11 x)) (rotr 25 x).
Definition small_sigma0 (x : Z) : Z := Z.lxor (Z.lxor (rotr 7 x) (rotr 18 x)) (Z.shiftr x 3).
Definition small_sigma1 (x : Z) : Z := Z.lxor (Z.lxor (rotr 17 x) (rotr 19 x)) (Z.shiftr x 10).

(** The constants are the first 32 bits of the fractional parts of the cube
    roots, and of the square roots, of the first primes. *)
Definition divides_any (n : Z) (l : list Z) : bool := existsb (λ p, n mod p =? 0) l.

Fixpoint primes_from (fuel : nat) (found : list Z) (n : Z) : list Z :=
  match fuel with
  | O => rev found
  | S fuel => primes_from fuel (if divides_any n found then found else n :: found) (n + 1)
  end.

(** The primes below 312, of which there are 64. *)
Definition first_primes : list Z := primes_from 310 [] 2.

(** [root + bit] as long as its cube is at most [n], from the bit [k] down. *)
Fixpoint cube_root (k : nat) (n root : Z) : Z :=
  match k with
  | O => root
  | S k =>
      let next := root + 2 ^ Z.of_nat k in
      cube_root k n (if next ^ 3 <=? n then next else root)
  end.

Definition round_constants : list Z :=
  Eval vm_compute in (λ p, Z.land (cube_root 36 (p * 2 ^ 96) 0) word_mask) <$> first_primes.

Definition initial_state : list Z :=
  Eval vm_compute in (λ p, Z.land (Z.sqrt (p * 2 ^ 64)) word_mask) <$> take 8 first_primes.

(** ** Padding and blocks *)

(** The [k] low bytes of [n], most significant first. *)
Fixpoint bytes_be (k : nat) (n : Z) : list Z :=
  match k with
  | O => []
  | S k => bytes_be k (n / 256) ++ [n mod 256]
  end.

Definition padded (message : list Z) : list Z :=
  let n := Z.of_nat (length message) in
  message ++ [0x80] ++ replicate (Z.to_nat ((55 - n) mod 64)) 0 ++ bytes_be 8 (8 * n).

Fixpoint words (l : list Z) : list Z :=
  match l with
  | a :: b :: c :: d :: l => (((a * 256 + b) * 256 + c) * 256 + d) :: words l
  | _ => []
  end.

(** The message schedule, most recent word first. *)
Fixpoint extend (k : nat) (w : list Z) : list Z :=
  match k with
  | O => w
  | S k =>
      let at_ i := nth i w 0 in
      extend k (add32 (add32 (small_sigma1 (at_ 1%nat)) (at_ 6%nat))
                      (add32 (small_sigma0 (at_ 14%nat)) (at_ 15%nat)) :: w)
  end.

Definition schedule (block : list Z) : list Z := rev (extend 48 (rev block)).

(** ** Compression *)

Definition round (st : list Z) (kw : Z * Z) : list Z :=
  match st with
  | [a; b; c; d; e; f; g; h] =>
      let t1 := add32 (add32 (add32 h (big_sigma1 e)) (add32 (ch e f g) kw.1)) kw.2 in
      let t2 := add32 (big_sigma0 a) (maj a b c) in
      [add32 t1 t2; a; b; c; add32 d t1; e; f; g]
  | st => st
  end.

Definition compress (st block : list Z) : list Z :=
  zip_with add32 st (fold_left round (zip round_constants (schedule block)) st).

Fixpoint blocks (fuel : nat) (w st : list Z) : list Z :=
  match fuel, w with
  | S fuel, _ :: _ => blocks fuel (drop 16 w) (compress st (take 16 w))
  | _, _ => st
  end.

Definition sha256 (message : list Z) : list Z :=
  let w := words (padded message) in blocks (length w) w initial_state.

Definition hex_word (x : Z) : string :=
  foldr (λ b acc, hex_digit (Z.to_nat (b / 16)) +:+ hex_digit (Z.to_nat (b mod 16)) +:+ acc) EmptyString (bytes_be 4 x).

Definition string_bytes (s : string) : list Z :=
  (λ c, Z.of_nat (Ascii.nat_of_ascii c)) <$> String.list_ascii_of_string s.

(** [hashlib.sha256(s.encode("utf-8")).hexdigest()] *)
Definition sha256_hex (s : string) : string :=
  foldr (λ w acc, hex_word w +:+ acc) EmptyString (sha256 (string_bytes s)).

(** ** Test vectors of the standard *)

Lemma sha256_empty : sha256_hex EmptyString = "e3b0c44298fc1c149afbf4c8996fb92427ae41e4649b934ca495991b7852b855".
Proof. vm_compute; reflexivity. Qed.

Lemma sha256_abc : sha256_hex "abc" = "ba7816bf8f01cfea414140de5dae2223b00361a396177a9cb410ff61f20015ad".
Proof. vm_compute; reflexivity. Qed.

Lemma sha256_two_blocks :
  sha256_hex "abcdbcdecdefdefgefghfghighijhijkijkljklmklmnlmnomnopnopq" =
  "248d6a61d20638b8e5c026930c3e6039a33ce45964ff2167f6ecedd419db06c1".
Proof. vm_compute; reflexivity. Qed.

(** ** The shape of a digest *)

Lemma list_ascii_app s1 s2 :
  String.list_ascii_of_string (s1 +:+ s2) = String.list_ascii_of_string s1 ++ String.list_ascii_of_string s2.
Proof. induction s1 as [|c s1 IH]; [done|]. simpl. by f_equal. Qed.

Definition is_hex (c : Ascii.ascii) : bool :=
  (Nat.leb 48 (code c) && Nat.leb (code c) 57) || (Nat.leb 97 (code c) && Nat.leb (code c) 102).

Notation hex_text k l := (length l = k ∧ Forall (λ c, is_hex c = true) l).

Lemma hex_text_app k1 k2 l1 l2 : hex_text k1 l1 → hex_text k2 l2 → hex_text (k1 + k2)%nat (l1 ++ l2).
Proof. intros [<- H1] [<- H2]. by rewrite length_app, Forall_app. Qed.

Lemma hex_digit_shape n : (n < 16)%nat → hex_text 1%nat (String.list_ascii_of_string (hex_digit n)).
Proof. intros Hn. do 16 (destruct n as [|n]; [by repeat constructor|]). lia. Qed.

Lemma length_bytes_be k n : length (bytes_be k n) = k.
Proof. revert n. induction k as [|k IH]; intros n; simpl; [done|]. rewrite length_app, IH. simpl. lia. Qed.

Lemma bytes_be_range k n : Forall (λ b, 0 ≤ b < 256) (bytes_be k n).
Proof.
  revert n. induction k as [|k IH]; intros n; simpl; [constructor|]. apply Forall_app. split; [apply IH|].
  repeat constructor; apply Z.mod_pos_bound; lia.
Qed.

Lemma hex_word_shape x : hex_text 8%nat (String.list_ascii_of_string (hex_word x)).
Proof.
  unfold hex_word. pose proof (bytes_be_range 4 x) as Hr. pose proof (length_bytes_be 4 x) as Hl.
  assert (Hgen : ∀ l, Forall (λ b, 0 ≤ b < 256) l → hex_text (2 * length l)%nat (String.list_ascii_of_string
    (foldr (λ b acc, hex_digit (Z.to_nat (b / 16)) +:+ hex_digit (Z.to_nat (b mod 16)) +:+ acc) EmptyString l))).
  { induction l as [|b l IH]; [by repeat constructor|]. intros [Hb Hl']%Forall_cons. cbn [foldr length].
    rewrite !list_ascii_app. replace (2 * S (length l))%nat with (1 + (1 + 2 * length l))%nat by lia.
    apply hex_text_app; [|apply hex_text_app; [|by apply IH]]; apply hex_digit_shape; dlia. }
  specialize (Hgen _ Hr). by rewrite Hl in Hgen.
Qed.

Lemma length_round st kw : length (round st kw) = length st.
Proof. by do 9 (destruct st as [|? st]; [done|]). Qed.

Lemma length_compress st block : length (compress st block) = length st.
Proof.
  unfold compress. rewrite length_zip_with.
  enough (length (fold_left round (zip round_constants (schedule block)) st) = length st) by lia.
  generalize (zip round_constants (schedule block)). intros l. revert st.
  induction l as [|kw l IH]; intros st; simpl; [done|]. by rewrite IH, length_round.
Qed.

Lemma length_sha256 message : length (sha256 message) = 8%nat.
Proof.
  unfold sha256. cbv zeta. change 8%nat with (length initial_state). generalize (words (padded message)), initial_state.
  intros w. generalize (length w). intros fuel. revert w.
  induction fuel as [|fuel IH]; intros w st; simpl; [done|]. destruct w; [done|]. by rewrite IH, length_compress.
Qed.

(** A digest prints as 64 hexadecimal digits. *)
Lemma sha256_hex_shape s : hex_text 64%nat (String.list_ascii_of_string (sha256_hex s)).
Proof.
  unfold sha256_hex. pose proof (length_sha256 (string_bytes s)) as Hl.
  assert (Hgen : ∀ l, hex_text (8 * length l)%nat
    (String.list_ascii_of_string (foldr (λ w acc, hex_word w +:+ acc) EmptyString l))).
  { induction l as [|w l IH]; [by repeat constructor|]. cbn [foldr length]. rewrite list_ascii_app.
    replace (8 * S (length l))%nat with (8 + 8 * length l)%nat by lia. apply hex_text_app; [apply hex_word_shape|done]. }
  specialize (Hgen (sha256 (string_bytes s))). by rewrite Hl in Hgen.
Qed.
