(* ===== verification/Archival.v ===== *)
(** * The archival Job ([archival.py])

    The deterministic name of the Job of an analysis, the shell script that
    copies and verifies its asset trees, and the manifest. *)
From S2P Require Import Prelude PyValue Effects Logic PyTime Config Url Sha256.

Definition NFS_PVC_NAME := "nfs-pvc".
Definition NFS_MOUNT_PATH := "/mnt/openstudio".
Definition ASSET_ROOT := "server/assets".
Definition RCLONE_IMAGE :=
  "rclone/rclone:1.75.0@sha256:b06aed988cf5967de7c25be5925240983981c757f4ed1ac9d2fa659d51d60548".
Definition RCLONE_REMOTE_NAME := "archive".
Definition RESTART_POLICY := "Never".
Definition ARCHIVAL_BACKOFF_LIMIT : Z := 3.
Definition ARCHIVAL_JOB_ACTIVE_DEADLINE_SECONDS : Z := 6 * 5200.
Definition TTL_SECONDS_AFTER_FINISHED : Z := 24 * 3600.

Definition _RCLONE_BACKEND_TYPES : gmap string string := {["s3" := "s3"; "gcs" := "gcs"; "azure" := "azureblob"]}.

Definition _NAME_PREFIX := "oscm-archive-".
Definition _MAX_NAME_LEN : nat := 63.
Definition _DIGEST_LEN : nat := 8.

(** ** The name *)

Notation text_chars := (list Ascii.ascii).
Definition dash : Ascii.ascii := Ascii.ascii_of_nat 45.
Definition is_dash (c : Ascii.ascii) : bool := is_char 45 c.
Definition name_char (c : Ascii.ascii) : bool := is_lower c || is_digit c || is_dash c.

(** [re.sub(r"[^a-z0-9-]+", "-", s)]; [in_run] inside a run being replaced. *)
Fixpoint dash_runs (in_run : bool) (l : text_chars) : text_chars :=
  match l with
  | [] => []
  | c :: l =>
      if name_char c then c :: dash_runs false l
      else if in_run then dash_runs true l else dash :: dash_runs true l
  end.

(** [lstrip("-")], [rstrip("-")] and [strip("-")] *)
Fixpoint lstrip_dash (l : text_chars) : text_chars :=
  match l with
  | [] => []
  | c :: l' => if is_dash c then lstrip_dash l' else l
  end.
Definition rstrip_dash (l : text_chars) : text_chars := rev (lstrip_dash (rev l)).
Definition strip_dash (l : text_chars) : text_chars := rstrip_dash (lstrip_dash l).

Definition name_digest (analysis_id : string) : text_chars := take _DIGEST_LEN (chars (sha256_hex analysis_id)).

Definition job_name_chars (analysis_id : string) : text_chars :=
  let digest := name_digest analysis_id in
  let sanitized := strip_dash (dash_runs false (lower <$> chars analysis_id)) in
  match sanitized with
  | [] => chars _NAME_PREFIX ++ digest
  | _ =>
      let budget := (_MAX_NAME_LEN - String.length _NAME_PREFIX - _DIGEST_LEN - 1)%nat in
      chars _NAME_PREFIX ++ rstrip_dash (take budget sanitized) ++ [dash] ++ digest
  end.

Definition archival_job_name (analysis_id : string) : string := string_of (job_name_chars analysis_id).

(** ** [shlex.quote] *)

(** The characters [\w@%+=:,./-] in ASCII. *)
Definition shell_safe (c : Ascii.ascii) : bool :=
  is_lower c || is_upper c || is_digit c ||
  existsb (λ n, is_char n c) [95; 64; 37; 43; 61; 58; 44; 46; 47; 45]%nat.

Definition squote : Ascii.ascii := Ascii.ascii_of_nat 39.
Definition dquote_char : Ascii.ascii := Ascii.ascii_of_nat 34.

(** A single quote becomes: close, a quoted quote, open. *)
Definition escape_quotes (l : text_chars) : text_chars :=
  concat ((λ c, if Ascii.eqb c squote then [squote; dquote_char; squote; dquote_char; squote] else [c]) <$> l).

Definition quote_chars (l : text_chars) : text_chars :=
  match l with
  | [] => [squote; squote]
  | _ => if forallb shell_safe l then l else [squote] ++ escape_quotes l ++ [squote]
  end.

Definition quote (s : string) : string := string_of (quote_chars (chars s)).

(** ** The script *)

Definition dq (s : string) : string := dquote +:+ s +:+ dquote.

(** Source and destination of each tree. *)
Definition archive_sources (analysis_id : string) (datapoint_ids : list string) : list (string * string) :=
  (NFS_MOUNT_PATH +:+ "/" +:+ ASSET_ROOT +:+ "/analyses/" +:+ analysis_id, "analyses/" +:+ analysis_id) ::
  ((λ dp, (NFS_MOUNT_PATH +:+ "/" +:+ ASSET_ROOT +:+ "/data_points/" +:+ dp, "data_points/" +:+ dp)) <$> datapoint_ids).

Definition destination (bucket : pv) (analysis_id : string) : string :=
  RCLONE_REMOTE_NAME +:+ ":" +:+ py_str bucket +:+ "/" +:+ analysis_id.

Definition copy_line (source : string * string) : string :=
  "copy_check " +:+ quote source.1 +:+ " " +:+ quote source.2.

Definition script_head (dest : string) : list string :=
  ["set -eu"; "";
   "# Generated by openstudio-server-operator (issue #15, D09) — do not edit.";
   "# Copies one analysis's NFS asset trees with rclone, then verifies each";
   "# with `rclone check` (size + hash). ANY mismatch exits nonzero: a";
   "# Completed Job is the verified-upload gate.";
   "dest=" +:+ quote dest; "";
   "copy_check() {";
   "    src=" +:+ dq "$1";
   "    rel=" +:+ dq "$2";
   "    if [ ! -d " +:+ dq "$src" +:+ " ]; then";
   "        echo " +:+ dq "archival: ERROR: source directory missing on NFS: $src" +:+ " >&2";
   "        return 1";
   "    fi";
   "    echo " +:+ dq "archival: copy $src -> $dest/$rel";
   "    rclone copy " +:+ dq "$src" +:+ " " +:+ dq "$dest/$rel";
   "    echo " +:+ dq "archival: verify (size+hash) $src <=> $dest/$rel";
   "    rclone check " +:+ dq "$src" +:+ " " +:+ dq "$dest/$rel";
   "}"; ""].

Definition script_tail : list string :=
  [""; "echo " +:+ dq "archival: all asset trees copied and verified (size+hash)"; ""].

Definition script_lines (analysis_id : string) (bucket : pv) (datapoint_ids : list string) : list string :=
  script_head (destination bucket analysis_id) ++
  (copy_line <$> archive_sources analysis_id datapoint_ids) ++ script_tail.

Definition _archive_script (analysis_id : string) (bucket : pv) (datapoint_ids : list string) : string :=
  join newline (script_lines analysis_id bucket datapoint_ids).

(** ** The manifest *)

Definition job_labels (backend : string) : pv :=
  PDict {["app.kubernetes.io/managed-by" := PStr "openstudio-operator";
          "app.kubernetes.io/component" := PStr "archival";
          "energy.nrel.gov/archive-backend" := PStr backend]}.

Definition pod_security : pv :=
  PDict {["runAsNonRoot" := PBool true; "runAsUser" := PInt 1000;
          "seccompProfile" := PDict {["type" := PStr "RuntimeDefault"]}; "fsGroup" := PInt 1000]}.

Definition container_security : pv :=
  PDict {["allowPrivilegeEscalation" := PBool false; "readOnlyRootFilesystem" := PBool true;
          "capabilities" := PDict {["drop" := PList [PStr "ALL"]]};
          "runAsNonRoot" := PBool true; "runAsUser" := PInt 1000;
          "seccompProfile" := PDict {["type" := PStr "RuntimeDefault"]}]}.

Definition rclone_container (script remote_type : string) (secret_ref : pv) : pv :=
  PDict {["name" := PStr "rclone"; "image" := PStr RCLONE_IMAGE;
          "command" := PList [PStr "/bin/sh"; PStr "-c"; PStr script];
          "securityContext" := container_security;
          "env" := PList [PDict {["name" := PStr "RCLONE_CONFIG_ARCHIVE_TYPE"; "value" := PStr remote_type]}];
          "envFrom" := PList [PDict {["secretRef" := PDict {["name" := secret_ref]}]}];
          "volumeMounts" := PList [PDict {["name" := PStr "nfs-assets"; "mountPath" := PStr NFS_MOUNT_PATH;
                                          "readOnly" := PBool true]}]]}.

Definition pod_spec (container : pv) : pv :=
  PDict {["restartPolicy" := PStr RESTART_POLICY; "automountServiceAccountToken" := PBool false;
          "securityContext" := pod_security; "containers" := PList [container];
          "volumes" := PList [PDict {["name" := PStr "nfs-assets";
            "persistentVolumeClaim" := PDict {["claimName" := PStr NFS_PVC_NAME; "readOnly" := PBool true]}]}]]}.

Definition job_manifest (analysis_id namespace backend remote_type script : string) (policy : StoragePolicy) : pv :=
  PDict {["apiVersion" := PStr "batch/v1"; "kind" := PStr "Job";
          "metadata" := PDict {["name" := PStr (archival_job_name analysis_id); "namespace" := PStr namespace;
            "labels" := job_labels backend;
            "annotations" := PDict {["energy.nrel.gov/analysis-id" := PStr analysis_id;
              "energy.nrel.gov/archive-destination" := PStr (destination (storage_bucket policy) analysis_id)]}]};
          "spec" := PDict {["backoffLimit" := PInt ARCHIVAL_BACKOFF_LIMIT;
            "activeDeadlineSeconds" := PInt ARCHIVAL_JOB_ACTIVE_DEADLINE_SECONDS;
            "ttlSecondsAfterFinished" := PInt TTL_SECONDS_AFTER_FINISHED;
            "template" := PDict {["metadata" := PDict {["labels" := job_labels backend]};
              "spec" := pod_spec (rclone_container script remote_type (storage_secret_ref policy))]}]}]}.

(** [_RCLONE_BACKEND_TYPES[backend]]; a container is not hashable. *)
Definition remote_type_of (backend : pv) : res (string * string) :=
  match backend with
  | PStr b =>
      match _RCLONE_BACKEND_TYPES !! b with
      | Some t => Ok (b, t)
      | None => Raise (ValueError
          ("storagePolicy.backend must be one of ['azure', 'gcs', 's3'], got " +:+ repr_str b))
      end
  | PList _ | PDict _ => Raise (TypeError ("unhashable type: " +:+ type_name backend))
  | v => Raise (ValueError ("storagePolicy.backend must be one of ['azure', 'gcs', 's3'], got " +:+ py_repr v))
  end.

Definition build_archival_job (analysis_id : string) (policy : StoragePolicy) (namespace : string)
    (datapoint_ids : list string) : res pv :=
  if String.eqb analysis_id "" then Raise (ValueError "analysis_id must be non-empty")
  else
    '(backend, remote_type) ← remote_type_of (storage_backend policy);
    if negb (truthy (storage_bucket policy)) then
      Raise (ValueError "storagePolicy.bucket is required to generate an archival Job")
    else if negb (truthy (storage_secret_ref policy)) then
      Raise (ValueError "storagePolicy.secretRef is required to generate an archival Job")
    else
      mret (job_manifest analysis_id namespace backend remote_type
        (_archive_script analysis_id (storage_bucket policy) datapoint_ids) policy).
