(* ===== verification/ArchivalSpec.v ===== *)
(** * Correctness of the archival Job

    The Job name is a DNS label whatever the analysis id, and the ids that end
    up in the shell script are read back by the shell as one literal word. *)
From S2P Require Import Prelude PyValue Effects Logic PyTime Config Url Sha256 Archival.

(** ** Names *)

Definition label_end (c : Ascii.ascii) : bool := is_lower c || is_digit c.

Lemma label_end_char c : label_end c = true → name_char c = true.
Proof. unfold label_end, name_char. by intros ->. Qed.

(** Facts about single characters, by going through all of them. *)
Ltac by_char c := let b := fresh in revert c; intros [[] [] [] [] [] [] [] []]; vm_compute; try done.

Lemma hex_label_end c : is_hex c = true → label_end c = true.
Proof. by_char c. Qed.

Lemma dash_name_char c : is_dash c = true → name_char c = true.
Proof. by_char c. Qed.

Lemma prefix_label : Forall (λ c, name_char c = true) (chars _NAME_PREFIX).
Proof. apply Forall_forall. intros c Hc. repeat (apply elem_of_cons in Hc as [->|Hc]; [done|]). by apply not_elem_of_nil in Hc. Qed.

Lemma dash_runs_chars b l : Forall (λ c, name_char c = true) (dash_runs b l).
Proof.
  revert b. induction l as [|c l IH]; intros b; simpl; [constructor|].
  destruct (name_char c) eqn:E; [by constructor|]. destruct b; [done|]. by constructor.
Qed.

Lemma lstrip_dash_suffix l : ∃ k, l = k ++ lstrip_dash l.
Proof.
  induction l as [|c l [k IH]]; [by exists []|]. simpl. destruct (is_dash c); [|by exists []].
  exists (c :: k). simpl. by f_equal.
Qed.

Lemma rstrip_dash_prefix l : ∃ k, l = rstrip_dash l ++ k.
Proof.
  destruct (lstrip_dash_suffix (rev l)) as [k Hk]. exists (rev k). unfold rstrip_dash.
  by rewrite <-rev_app_distr, <-Hk, rev_involutive.
Qed.

Lemma rstrip_dash_Forall (Q : Ascii.ascii → Prop) l : Forall Q l → Forall Q (rstrip_dash l).
Proof. destruct (rstrip_dash_prefix l) as [k Hk]. rewrite Hk at 1. by intros [? _]%Forall_app. Qed.

Lemma lstrip_dash_Forall (Q : Ascii.ascii → Prop) l : Forall Q l → Forall Q (lstrip_dash l).
Proof. destruct (lstrip_dash_suffix l) as [k Hk]. rewrite Hk at 1. by intros [_ ?]%Forall_app. Qed.

Lemma rstrip_dash_length l : (length (rstrip_dash l) ≤ length l)%nat.
Proof. destruct (rstrip_dash_prefix l) as [k Hk]. rewrite Hk at 2. rewrite length_app. lia. Qed.

Lemma name_digest_shape id : hex_text 8%nat (name_digest id).
Proof.
  destruct (sha256_hex_shape id) as [Hl Hf]. unfold name_digest, chars, _DIGEST_LEN. split.
  - rewrite length_take. lia.
  - by apply Forall_take.
Qed.

(** C36: the name of an archival Job is a DNS label whatever the analysis id:
    at most 63 lower-case letters, digits and dashes, starting with a letter
    and ending in a letter or digit; it ends in the first eight digits of the
    SHA-256 of the id, so ids that share a name share those digits. *)
Theorem job_name_valid id :
  let name := job_name_chars id in
  (length name ≤ _MAX_NAME_LEN)%nat ∧ Forall (λ c, name_char c = true) name ∧
  (∃ c rest, name = c :: rest ∧ is_lower c = true) ∧ (∃ front c, name = front ++ [c] ∧ label_end c = true) ∧
  ∃ front, name = front ++ name_digest id.
Proof.
  cbv zeta. destruct (name_digest_shape id) as [Hl Hf].
  assert (Hd : Forall (λ c, name_char c = true) (name_digest id))
    by (eapply Forall_impl; [exact Hf|]; intros; by apply label_end_char, hex_label_end).
  assert (Hend : ∃ front c, name_digest id = front ++ [c] ∧ label_end c = true).
  { destruct (name_digest id) as [|c0 l] using rev_ind; [done|]. exists l, c0. split; [done|].
    apply Forall_app in Hf as [_ Hf]. apply hex_label_end. by apply Forall_cons in Hf as [? _]. }
  destruct Hend as (dfront & dc & Hdc & Hlast).
  unfold job_name_chars. destruct (strip_dash _) as [|c l] eqn:Es.
  - split_and!; [rewrite length_app, Hl; by vm_compute; lia|apply Forall_app; split; [apply prefix_label|done]
      |by eexists _, _|exists (chars _NAME_PREFIX ++ dfront), dc; by rewrite Hdc, <-app_assoc|by eexists].
  - set (body := rstrip_dash _).
    assert (Hb : (length body ≤ 41)%nat).
    { unfold body. etransitivity; [apply rstrip_dash_length|]. rewrite length_take. vm_compute (_ - _)%nat. lia. }
    assert (Hn : Forall (λ c, name_char c = true) body).
    { unfold body. apply rstrip_dash_Forall, Forall_take. rewrite <-Es. apply rstrip_dash_Forall, lstrip_dash_Forall, dash_runs_chars. }
    split_and!.
    + rewrite !length_app, Hl. change (length (chars _NAME_PREFIX)) with 13%nat. cbn [length]. unfold _MAX_NAME_LEN. lia.
    + repeat (apply Forall_app; split); [apply prefix_label|done|by repeat constructor|done].
    + by eexists _, _.
    + exists (chars _NAME_PREFIX ++ body ++ [dash] ++ dfront), dc. rewrite Hdc. by rewrite <-!app_assoc.
    + exists (chars _NAME_PREFIX ++ body ++ [dash]). by rewrite <-!app_assoc.
Qed.

(** ** Quoting

    How the POSIX shell splits a simple command into words: blanks separate
    unquoted words, single quotes keep everything, double quotes keep all but
    expansions.  Whatever could be an expansion, an operator or a newline makes
    the text not a list of literal words ([None]). *)
Module Shell.
Inductive quoting := Plain | Single | Double.

Definition special_in_double (c : Ascii.ascii) : bool :=
  existsb (λ n, is_char n c) [36; 96; 92; 34]%nat.

(** [word] is the word being read, [None] between words. *)
Fixpoint fields (mode : quoting) (word : option text_chars) (l : text_chars) : option (list text_chars) :=
  match l with
  | [] => match mode with
          | Plain => Some (match word with Some w => [w] | None => [] end)
          | _ => None
          end
  | c :: l =>
      let read mode' := fields mode' (Some (default [] word)) l in
      let literal mode' := fields mode' (Some (default [] word ++ [c])) l in
      match mode with
      | Plain =>
          if Ascii.eqb c squote then read Single
          else if Ascii.eqb c dquote_char then read Double
          else if is_char 32 c then
            ws ← fields Plain None l; Some (match word with Some w => w :: ws | None => ws end)
          else if shell_safe c then literal Plain
          else None
      | Single => if Ascii.eqb c squote then read Plain else literal Single
      | Double =>
          if Ascii.eqb c dquote_char then read Plain
          else if special_in_double c then None
          else literal Double
      end
  end.

(** The rest of the text once a literal stretch has been read. *)
Lemma fields_single_run w l rest :
  Forall (λ c, Ascii.eqb c squote = false) l →
  fields Single (Some w) (l ++ rest) = fields Single (Some (w ++ l)) rest.
Proof.
  revert w. induction l as [|c l IH]; intros w; [by rewrite app_nil_r|]. intros [Hc Hl]%Forall_cons.
  simpl. rewrite Hc, IH by done. by rewrite <-app_assoc.
Qed.

Lemma fields_escaped w l rest :
  fields Single (Some w) (escape_quotes l ++ rest) = fields Single (Some (w ++ l)) rest.
Proof.
  revert w. induction l as [|c l IH]; intros w; [by rewrite app_nil_r|].
  unfold escape_quotes in *. cbn [fmap list_fmap concat]. rewrite <-app_assoc.
  destruct (Ascii.eqb_spec c squote) as [->|Hc].
  - change (fields Single (Some w) ([squote; dquote_char; squote; dquote_char; squote] ++ ?x))
      with (fields Single (Some (w ++ [squote])) x). rewrite IH. by rewrite <-app_assoc.
  - rewrite fields_single_run; [|constructor; [by apply Ascii.eqb_neq|constructor]]. rewrite IH. by rewrite <-app_assoc.
Qed.

Lemma safe_not_special c :
  shell_safe c = true → Ascii.eqb c squote = false ∧ Ascii.eqb c dquote_char = false ∧ is_char 32 c = false.
Proof. by_char c. Qed.

Lemma fields_safe w l rest :
  forallb shell_safe l = true → fields Plain (Some w) (l ++ rest) = fields Plain (Some (w ++ l)) rest.
Proof.
  revert w. induction l as [|c l IH]; intros w; [by rewrite app_nil_r|].
  simpl. rewrite andb_true_iff. intros [Hc Hl]. destruct (safe_not_special c Hc) as (-> & -> & ->). rewrite Hc, IH by done.
  by rewrite <-app_assoc.
Qed.

(** A quoted text contributes exactly its characters to the current word. *)
Lemma fields_quoted word l rest :
  fields Plain word (quote_chars l ++ rest) = fields Plain (Some (default [] word ++ l)) rest.
Proof.
  unfold quote_chars. destruct l as [|c l]; [by rewrite app_nil_r|]. destruct (forallb _ _) eqn:Es.
  - destruct word as [w|]; [by apply fields_safe|]. cbn [forallb] in Es. apply andb_true_iff in Es as [Hc Hl].
    simpl. destruct (safe_not_special c Hc) as (-> & -> & ->). rewrite Hc. by apply fields_safe.
  - rewrite <-!app_assoc. cbn [app].
    change (fields Plain word (squote :: ?x)) with (fields Single (Some (default [] word)) x).
    rewrite fields_escaped. done.
Qed.

Lemma fields_blank w l :
  fields Plain (Some w) (chars " " ++ l) = (ws ← fields Plain None l; Some (w :: ws)).
Proof. done. Qed.
End Shell.
Import Shell.

Definition shell_words (command : string) : option (list text_chars) := fields Plain None (chars command).

Lemma copy_line_words source rel :
  shell_words (copy_line (source, rel)) = Some [chars "copy_check"; chars source; chars rel].
Proof.
  unfold shell_words, copy_line, chars. cbn [fst snd]. rewrite !list_ascii_app. unfold quote, string_of, chars.
  rewrite !String.list_ascii_of_string_of_list_ascii.
  change (String.list_ascii_of_string "copy_check ") with (chars "copy_check" ++ chars " ").
  rewrite <-app_assoc. change (chars "copy_check") with (quote_chars (chars "copy_check")) at 1.
  rewrite fields_quoted. cbn [default from_option app].
  change (String.list_ascii_of_string " ") with (chars " "). rewrite fields_blank, fields_quoted, fields_blank.
  by rewrite <-(app_nil_r (quote_chars (String.list_ascii_of_string rel))), fields_quoted.
Qed.

(** C40: [shlex.quote] makes any text, an analysis id with quotes, blanks or
    newlines included, one literal word of a shell command, with the text as its
    value; the copy line of a tree is the call of [copy_check] with exactly the
    source and the destination as its arguments. *)
Theorem quoting_literal text source rel :
  fields Plain None (quote_chars text) = Some [text] ∧
  shell_words (copy_line (source, rel)) = Some [chars "copy_check"; chars source; chars rel].
Proof.
  split; [|apply copy_line_words]. rewrite <-(app_nil_r (quote_chars text)). by rewrite fields_quoted.
Qed.

(** ** The manifest *)

Lemma backend_known b : is_ok (remote_type_of b) = true ↔ b ∈ [PStr "s3"; PStr "gcs"; PStr "azure"].
Proof.
  rewrite !elem_of_cons, elem_of_nil. destruct b as [| | |b| | |]; simpl; try naive_solver.
  destruct (decide (b = "s3")) as [->|H1]; [naive_solver|].
  destruct (decide (b = "gcs")) as [->|H2]; [naive_solver|].
  destruct (decide (b = "azure")) as [->|H3]; [naive_solver|].
  unfold _RCLONE_BACKEND_TYPES. rewrite !lookup_insert_ne, lookup_singleton_ne by done. naive_solver.
Qed.

Lemma backend_unknown b e : remote_type_of b = Raise e → (∃ msg, e = ValueError msg) ∨ (∃ msg, e = TypeError msg).
Proof. unfold remote_type_of. destruct b; try case_match; naive_solver. Qed.

(** A manifest is built exactly for a non-empty id and a policy with one of
    the three backends, a bucket and a secret, and every failure is a
    [ValueError] unless the backend is a container; its script is
    [_archive_script], which copies and verifies the tree of the analysis and
    of each datapoint given, each by a call of [copy_check] with its paths. *)
Theorem manifest_built id policy namespace datapoints :
  (is_ok (build_archival_job id policy namespace datapoints) = true ↔
     id ≠ "" ∧ storage_backend policy ∈ [PStr "s3"; PStr "gcs"; PStr "azure"] ∧
     truthy (storage_bucket policy) = true ∧ truthy (storage_secret_ref policy) = true) ∧
  (∀ e, build_archival_job id policy namespace datapoints = Raise e →
     (∃ msg, e = ValueError msg) ∨ (∃ msg, e = TypeError msg)) ∧
  ∀ source rel, (source, rel) ∈ archive_sources id datapoints →
    ∃ line, line ∈ script_lines id (storage_bucket policy) datapoints ∧
      shell_words line = Some [chars "copy_check"; chars source; chars rel].
Proof.
  unfold build_archival_job. split; [|split].
  - rewrite <-(backend_known (storage_backend policy)).
    destruct (String.eqb_spec id "") as [->|Hid]; [by split; [|intros [? _]]|].
    destruct (remote_type_of _) as [[b t]|e]; simpl; [|naive_solver].
    destruct (truthy (storage_bucket policy)), (truthy (storage_secret_ref policy)); simpl; naive_solver.
  - intros e. destruct (String.eqb id ""); [intros [= <-]; eauto|].
    destruct (remote_type_of _) as [[b t]|e'] eqn:E; simpl; [|intros [= <-]; by eapply backend_unknown].
    repeat case_match; intros [=]; subst; eauto.
  - intros source rel Hin. exists (copy_line (source, rel)). split; [|apply copy_line_words].
    unfold script_lines. rewrite !elem_of_app. right. left. by apply list_elem_of_fmap_2.
Qed.
