(* ===== verification/RedisClient.v ===== *)
(** * The read-only Redis client ([redis_client.py])

    The environment checks of the constructor, the validation of a URL read
    from a Secret, the command allowlist and the queries on the Resque keys.
    Times are microseconds. *)
From S2P Require Import Prelude PyValue Effects Logic PyTime Services StatusRecords Json Url.

(** ** Constants *)

Definition READ_ONLY_COMMANDS : list string := ["LLEN"; "SMEMBERS"; "HGETALL"; "GET"; "SCAN"; "EXISTS"].
Definition SIMULATIONS_QUEUE := "resque:queue:simulations".
Definition REQUEUED_QUEUE := "resque:queue:requeued".
Definition WORKER_REGISTRY_KEY := "resque:workers".
Definition WORKER_HEARTBEAT_HASH_KEY := "resque:workers:heartbeat".
Definition VALIDATE_SCAN_KEY_BUDGET : nat := 1000.
Definition REDIS_TCP_KEEPIDLE_SECONDS : Z := 60.

(** ** Strings of the standard library *)

(** [s.split(c)] *)
Fixpoint split_on (n : nat) (l : text_chars) : list text_chars :=
  match l with
  | [] => [[]]
  | c :: l =>
      if is_char n c then [] :: split_on n l
      else match split_on n l with
           | w :: ws => (c :: w) :: ws
           | [] => [[c]]
           end
  end.

(** [repr] of a list of strings *)
Definition repr_list (l : list string) : string := "[" +:+ join ", " (repr_str <$> l) +:+ "]".

Definition py_upper (s : string) : string := string_of (upper <$> chars s).

(** The members of a reply that is a set or list of strings. *)
Definition reply_strings (v : pv) : res (list string) :=
  match v with
  | PList l => map_res (λ x, match x with
                             | PStr s => Ok s
                             | x => Raise (TypeError ("expected str, got " +:+ type_name x))
                             end) l
  | v => Raise (TypeError (type_name v +:+ " object is not iterable"))
  end.

(** ** The URL *)

Definition _redis_target_for_diagnostics `{UrlTables} (redis_url : string) : res string :=
  parsed ← urlparse (chars redis_url);
  let host := match hostname parsed with [] => "<unknown>" | h => string_of h end in
  number ← port parsed;
  let netloc := match number with None => host | Some n => host +:+ ":" +:+ str_of_Z n end in
  mret (string_of (url_scheme parsed) +:+ "://" +:+ netloc +:+ string_of (url_path parsed)).

(** [SECRET_REDIS_URL_PATTERN], piece by piece. *)
Module SecretPattern.
Definition lit (s : string) : re := foldr (λ c r, RSeq (RChar (Ascii.eqb c)) r) REps (chars s).
Definition opt (r : re) : re := RAlt r REps.
Definition plus (r : re) : re := RSeq r (RStar r).
Definition alnum (c : Ascii.ascii) : bool := is_lower c || is_digit c.
Definition alnum_dash (c : Ascii.ascii) : bool := alnum c || is_char 45 c.

Definition scheme : re := RSeq (lit "redis") (RSeq (opt (lit "s")) (lit "://")).
Definition userinfo : re := RSeq (plus (RChar (λ c, negb (is_char 64 c)))) (lit "@").
Definition label : re := RSeq (RChar alnum) (opt (RSeq (RStar (RChar alnum_dash)) (RChar alnum))).
Definition svc : re := RSeq (lit ".svc") (opt (lit ".cluster.local")).
Definition host : re := RSeq label (opt (RAlt svc (RSeq (lit ".") (RSeq label svc)))).
Definition digit1 : re := RChar is_digit.
Definition port : re :=
  RSeq (lit ":") (RSeq digit1 (RSeq (opt digit1) (RSeq (opt digit1) (RSeq (opt digit1) (opt digit1))))).
Definition db : re := RSeq (lit "/") (plus digit1).
Definition url : re := RSeq scheme (RSeq (opt userinfo) (RSeq host (RSeq (opt port) (opt db)))).
End SecretPattern.

Definition redis_url_from_secret_value `{UrlTables} (value secret_name secret_key : string) : res string :=
  if negb (String.eqb value "") && re_match SecretPattern.url (chars value) then Ok value
  else
    target ← (if String.eqb value "" then Ok "<empty>" else _redis_target_for_diagnostics value);
    Raise (RedisCredentialResolutionError
      ("Secret " +:+ repr_str secret_name +:+ " key " +:+ repr_str secret_key +:+ " does not hold a valid " +:+
       "in-cluster redis:// or rediss:// URL (issue #463): got " +:+ target +:+ ". " +:+
       "The key must carry the FULL URL " +:+
       "(redis://[:password@]<service>[:port][/db], or the rediss:// " +:+
       "TLS twin — issue #476); off-cluster hosts and non-Redis schemes " +:+
       "are rejected (issue #390 fence preserved on the Secret path).") None).

(** ** The environment of the constructor *)

(** Environment variables and file system; [from_url] is [redis.Redis.from_url],
    which validates the URL. *)
Record RedisEnv := MkRedisEnv {
  env_keepidle : option string;
  env_ca_bundle : option string;
  isfile : string → bool;
  head_4k : string → res string;
  from_url : string → res unit;
}.

Definition _resolve_redis_tcp_keepidle_seconds (env : RedisEnv) : res Z :=
  match env_keepidle env with
  | None => Ok REDIS_TCP_KEEPIDLE_SECONDS
  | Some raw =>
      if String.eqb raw "" then Ok REDIS_TCP_KEEPIDLE_SECONDS
      else
        match PyInt.parse raw with
        | None => Raise (OperatorConfigError ("REDIS_TCP_KEEPIDLE_SECONDS=" +:+ repr_str raw +:+
            " is not a valid integer seconds value (issue #723); refusing to build the Redis client " +:+
            "with an unparseable TCP keepalive cadence."))
        | Some parsed =>
            if parsed <=? 0 then Raise (OperatorConfigError ("REDIS_TCP_KEEPIDLE_SECONDS=" +:+ repr_str raw +:+
              " must be a positive integer (issue #723); refusing to build the Redis client with " +:+
              "a non-positive TCP keepalive idle window."))
            else Ok parsed
        end
  end.

Definition _PEM_BEGIN_MARKER := "-----BEGIN CERTIFICATE-----".

Definition _resolve_redis_tls_ca_bundle (env : RedisEnv) : res (option string) :=
  match env_ca_bundle env with
  | None => Ok None
  | Some ca_bundle =>
      let name := "REDIS_TLS_CA_BUNDLE=" +:+ repr_str ca_bundle in
      if String.eqb ca_bundle "" then Ok None
      else if negb (isfile env ca_bundle) then Raise (OperatorConfigError (name +:+
        " does not name an existing file; refusing to build the TLS Redis client with an unverifiable " +:+
        "CA bundle (issue #476). Mount the PEM bundle as a Secret volume " +:+
        "and set the env var to its in-pod path."))
      else
        match head_4k env ca_bundle with
        | Raise (OSError msg) => Raise (OperatorConfigError (name +:+ " is not readable: " +:+ msg +:+
            "; refusing to build the TLS Redis client (issue #476)."))
        | Raise e => Raise e
        | Ok head =>
            if opt_is_some (String.index 0 _PEM_BEGIN_MARKER head) then Ok (Some ca_bundle)
            else Raise (OperatorConfigError (name +:+ " does not contain a " +:+ repr_str _PEM_BEGIN_MARKER +:+
              " PEM marker in the first 4 KiB; refusing to treat it as a CA bundle (issue #476)."))
        end
  end.

(** ** The client *)

Record ReadOnlyRedisClient := MkReadOnlyRedisClient {
  client_url : string;
  client_target : string;
  client_ca_certs : option string;
  client_keepidle : Z;
}.

Definition make_redis_client `{UrlTables} (env : RedisEnv) (redis_url : string) : res ReadOnlyRedisClient :=
  target ← _redis_target_for_diagnostics redis_url;
  parsed ← urlparse (chars redis_url);
  ca_bundle ← (if String.eqb (string_of (url_scheme parsed)) "rediss" then _resolve_redis_tls_ca_bundle env
               else Ok None);
  keep_idle ← _resolve_redis_tcp_keepidle_seconds env;
  from_url env redis_url;;
  mret (MkReadOnlyRedisClient redis_url target ca_bundle keep_idle).

Section client.
Context {W P : Type} `{RedisApi W} `{Clock W}.
Context (self : ReadOnlyRedisClient).

Definition observe_redis {A} (operation : string) (m : M W P A) : M W P A :=
  observe_duration "REDIS_REQUEST_DURATION_SECONDS" [("operation", operation)] m.

Definition _execute (command : string) (args : list string) : M W P pv :=
  if negb (bool_decide (py_upper command ∈ READ_ONLY_COMMANDS)) then
    raise (WriteCommandForbidden (repr_str command +:+ " is not in the read-only allowlist " +:+
      repr_list (sorted_strings READ_ONLY_COMMANDS)))
  else
    try_except
      (ext (RedisCommand (py_upper command) args) (redis_call (client_url self) (py_upper command :: args)))
      (λ e, match e with
            | RedisError msg => Some (raise (RedisClientError (py_upper command +:+ " failed: " +:+ msg)))
            | _ => None
            end).

(** *** [validate_key_layout] *)

Definition KEY_PATTERN := "resque:*".

(** One [SCAN] call: the next cursor and the keys of the batch. *)
Definition scan (cursor : Z) : M W P (Z * list string) :=
  reply ← _execute "scan" [str_of_Z cursor; "MATCH"; KEY_PATTERN; "COUNT"; "100"];
  of_res match reply with
         | PList [next; batch] => n ← PyInt.py_int next; keys ← reply_strings batch; mret (n, keys)
         | v => Raise (TypeError ("cannot unpack " +:+ type_name v))
         end.

(** The cursor loop: [None] when the fuel runs out, else the keys seen and
    whether the iteration completed. *)
Fixpoint scan_loop (fuel : nat) (cursor : Z) (seen : gset string) : M W P (option (gset string * bool)) :=
  match fuel with
  | O => mret None
  | S fuel =>
      '(cursor, batch) ← scan cursor;
      let seen := seen ∪ list_to_set batch in
      if cursor =? 0 then mret (Some (seen, true))
      else if Nat.leb VALIDATE_SCAN_KEY_BUDGET (size seen) then mret (Some (seen, false))
      else scan_loop fuel cursor seen
  end.

Definition no_keys_message : string :=
  "No Resque keys found at " +:+ client_target self +:+ " matching " +:+
  "prefix '" +:+ KEY_PATTERN +:+ "'. " +:+
  "The operator's redis_url may select a different logical DB than " +:+
  "the server writes to, or the live v3.11.0 Resque uses a different " +:+
  "prefix. Verify against the live Redis with " +:+
  "`redis-cli -u <redis_url> KEYS 'resque:*'` and update " +:+
  "WORKER_REGISTRY_KEY in src/openstudio_operator/redis_client.py.".

Definition missing_keys_message (missing : list string) (seen : gset string) (completed : bool) : string :=
  "Expected Resque key(s) " +:+ repr_list missing +:+ " not found at " +:+ client_target self +:+
  "; observed prefix keys: " +:+ repr_list (take 5 (sorted_strings (elements seen))) +:+
  (if Nat.ltb 5 (size seen) then "..." else "") +:+ "." +:+
  (if completed then ""
   else " NOTE: the observed-keys sample is PARTIAL — the SCAN budget (1000 keys) exhausted before " +:+
        "the cursor loop completed, so more 'resque:*' keys exist " +:+
        "than listed (issue #688); the missing-key verdict above is " +:+
        "anchored on direct EXISTS probes, not on this sample.") +:+
  " The centralized constants in src/openstudio_operator/redis_client.py " +:+
  "(WORKER_REGISTRY_KEY / WORKER_HEARTBEAT_HASH_KEY) do not match " +:+
  "the live layout — see the live-capture procedure in docs/kind-validation.md (#44/#66).".

(** The required keys that do not exist. *)
Definition missing_keys (required : list string) : M W P (list string) :=
  fold_m (λ acc key,
    reply ← _execute "exists" [key];
    mret (if truthy reply then acc else acc ++ [key])) [] required.

(** [None] when the cursor loop needs more rounds than the fuel. *)
Definition validate_key_layout (fuel : nat) : M W P (option unit) :=
  missing ← observe_redis "exists" (missing_keys [WORKER_REGISTRY_KEY; WORKER_HEARTBEAT_HASH_KEY]);
  match missing with
  | [] => mret (Some tt)
  | _ =>
      outcome ← observe_redis "scan" (try_except (scan_loop fuel 0 ∅)
        (λ e, match e with RedisError msg => Some (raise (RedisClientError ("SCAN failed: " +:+ msg))) | _ => None end));
      match outcome with
      | None => mret None
      | Some (seen, completed) =>
          if bool_decide (seen = ∅) then raise (OperatorConfigError no_keys_message)
          else raise (OperatorConfigError (missing_keys_message missing seen completed))
      end
  end.

(** *** Queue depth *)

Definition queue_depth (queue : string) : M W P Z :=
  observe_redis "llen" (reply ← _execute "llen" [queue]; of_res (PyInt.py_int reply)).

Definition queue_depths : M W P (list (string * Z)) :=
  simulations ← queue_depth SIMULATIONS_QUEUE;
  requeued ← queue_depth REQUEUED_QUEUE;
  mret [(SIMULATIONS_QUEUE, simulations); (REQUEUED_QUEUE, requeued)].

(** *** Workers *)

Definition _parse_heartbeat (raw : pv) (worker_id : string) : res Z :=
  utc_parser RedisClientError raw ("unparseable heartbeat for worker " +:+ repr_str worker_id).

Definition heartbeat_of (beats : pv) (worker_id : string) : res (string * option Z) :=
  raw ← py_get beats worker_id;
  match raw with
  | PNone => mret (worker_id, None)
  | raw => t ← _parse_heartbeat raw worker_id; mret (worker_id, Some t)
  end.

Definition worker_heartbeats : M W P (gmap string (option Z)) :=
  observe_redis "smembers"
    (reply ← _execute "smembers" [WORKER_REGISTRY_KEY];
     if negb (truthy reply) then mret ∅
     else
       beats ← _execute "hgetall" [WORKER_HEARTBEAT_HASH_KEY];
       of_res (worker_ids ← reply_strings reply;
               pairs ← map_res (heartbeat_of beats) (sorted_strings worker_ids);
               mret (list_to_map pairs))).

(** A worker without a heartbeat, or with one older than the threshold. *)
Definition is_stale (now threshold : Z) (heartbeat : option Z) : bool :=
  match heartbeat with None => true | Some t => threshold <? now - t end.

Definition stale_workers (threshold : Z) : M W P (gset string) :=
  now ← ask clock;
  heartbeats ← worker_heartbeats;
  mret (dom (filter (λ kv, is_stale now threshold kv.2 = true) heartbeats)).

(** *** The workers of an analysis *)

(** The job record of a worker names the analysis among its arguments. *)
Definition record_mentions (analysis_id : string) (record : json) : bool :=
  match record with
  | JObj ms =>
      match jget ms "payload" with
      | Some (JObj payload) =>
          match jget payload "args" with
          | Some (JArr args) => jmem analysis_id args
          | _ => false
          end
      | _ => false
      end
  | _ => false
  end.

Definition worker_key (worker_id : string) : string := "resque:worker:" +:+ worker_id.

(** Whether one worker runs the analysis; a record that is no JSON is an error. *)
Definition worker_runs (analysis_id worker_id : string) (raw : pv) : res bool :=
  match raw with
  | PNone => Ok false
  | PStr s =>
      match json_loads s with
      | None => Raise (RedisClientError ("unparseable worker record for " +:+ repr_str worker_id +:+ ": " +:+ repr_str s))
      | Some record => Ok (record_mentions analysis_id record)
      end
  | v => Raise (TypeError ("the JSON object must be str, not " +:+ type_name v))
  end.

Definition workers_for_analysis (analysis_id : string) : M W P (list string) :=
  observe_redis "smembers"
    (reply ← _execute "smembers" [WORKER_REGISTRY_KEY];
     worker_ids ← of_res (reply_strings reply);
     fold_m (λ matches worker_id,
       raw ← _execute "get" [worker_key worker_id];
       runs ← of_res (worker_runs analysis_id worker_id raw);
       mret (if (runs : bool) then matches ++ [worker_id] else matches)) [] worker_ids).
End client.

Definition pod_name_for_worker (worker_id : string) : option string :=
  match split_on 58 (chars worker_id) with
  | (_ :: _) as first :: _ :: _ :: _ => Some (string_of first)
  | _ => None
  end.
