(* ===== verification/StatusStore.v ===== *)
(** * The status store ([status_store.py])

    Durable operator state: five maps, three timestamps, one counter and the
    deferred events, all in the CR's [.status], written by read-modify-merge-
    patch cycles that retry on a 409.  The first half of the file is the code;
    [StatusStoreFacts] holds the lemmas and theorems. *)
From S2P Require Import Prelude PyValue Effects Logic PyTime Services StatusRecords.

(** ** Constants *)

Definition SOFT_STOPS := "softStops".
Definition REQUEUES := "requeues".
Definition STARTED_SINCE := "startedSince".
Definition ARCHIVED_ANALYSES := "archivedAnalyses".
Definition STOPPED_ANALYSES := "stoppedAnalyses".
Definition LAST_RECYCLE_AT := "lastRecycleAt".
Definition LAST_WEB_BACKGROUND_RESTART_AT := "lastWebBackgroundRestart".
Definition STALL_WINDOW_STARTED_AT := "stallWindowStartedAt".
Definition WEB_BACKGROUND_INEFFECTIVE_RESTARTS := "webBackgroundIneffectiveRestarts".
Definition DEFERRED_EVENTS := "deferredEvents".

Definition MAX_CONFLICT_RETRIES : nat := 5.
Definition JITTER_CEILING_SECONDS : Q := 30.
Definition STATUS_MAP_MAX_ENTRIES : Z := 10000.
Definition STATUS_ENTRY_MAX_AGE_DAYS : Z := 30.
Definition STATUS_MAP_CAPPED_EVENT := "StatusMapCapped".

Definition _STATUS_MAP_FIELDS : list string :=
  [SOFT_STOPS; REQUEUES; STARTED_SINCE; ARCHIVED_ANALYSES; STOPPED_ANALYSES].

(** A [StatusStore] instance: the CR it serves. *)
Record Store := MkStore { store_namespace : string; store_name : string }.

(** The module-level sink [_emit_status_map_event] ([set_event_sink]). *)
Class StatusEventSink (W P : Type) :=
  _emit_status_map_event : string → string → string → string → M W P unit.

(** [_conflict_backoff] for the given draw of [random.random()] *)
Definition _conflict_backoff (attempt : Z) (draw : Q) : Q :=
  let b := (inject_Z (2 ^ (attempt - 1)) * ((1 # 2) + draw))%Q in
  if Qle_bool b JITTER_CEILING_SECONDS then b else JITTER_CEILING_SECONDS.

(** What a cap eviction removes: the [n] first keys in code-point order, those
    the watchdog last saw alive only when no other key is left. *)
Definition evicted_for (protected : gset string) (current : gmap string pv) (n : nat) : list string :=
  let keys := sorted_strings (map_to_list current).*1 in
  take n (filter (.∉ protected) keys ++ filter (.∈ protected) keys).

(** [{k: None for k in evicted} ∪ {k: v | k not evicted}], then [key] *)
Definition cap_patch (current : gmap string pv) (evicted : list string) (key : string) (encoded : pv)
  : gmap string pv :=
  <[key := encoded]>
    (gset_to_gmap PNone (list_to_set evicted) ∪ filter (λ kv, kv.1 ∉ evicted) current).

Section StatusStore.
Context {W P : Type} `{CustomObjectsApi W} `{Entropy W} `{StatusEventSink W P} `{KeyOrder}.
Implicit Types self : Store.

Definition self_labels self : labels :=
  [("namespace", store_namespace self); ("name", store_name self)].

Definition set_cache (c : option (gmap string pv)) : M W P unit :=
  g ← get_shared; set_shared (StoreMem (protected_anchor_keys g) c).

(** ** Core I/O *)

(** One size gauge per status map that is a mapping or absent. *)
Definition stamp_map_entries self (status : gmap string pv) : M W P unit :=
  foreach _STATUS_MAP_FIELDS (λ field,
    let ls := self_labels self ++ [("map_name", field)] in
    match dget status field with
    | PDict m => gauge "STATUS_MAP_ENTRIES" ls (MInt (Z.of_nat (size m)))
    | PNone => gauge "STATUS_MAP_ENTRIES" ls (MInt 0)
    | _ => mret tt
    end).

Definition _read_status self : M W P (gmap string pv) :=
  obj ← observe_duration "KUBE_API_REQUEST_DURATION_SECONDS" [("verb", "get")]
          (get_namespaced_custom_object_status (store_namespace self) (store_name self));
  status ← of_res (status_of_object obj);
  stamp_map_entries self status;;
  set_cache (Some status);;
  mret status.

(** One [try: patch except ApiException]: [true] when applied, [false] on a 409. *)
Definition try_patch self (patch : pv) : M W P bool :=
  try_except
    (observe_duration "KUBE_API_REQUEST_DURATION_SECONDS" [("verb", "patch")]
       (patch_namespaced_custom_object_status (store_namespace self) (store_name self) patch);;
     mret true)
    (λ e, match e with
          | ApiException 409 _ => Some (inc "STATUS_CONFLICTS_TOTAL" (self_labels self);; mret false)
          | _ => None
          end).

(** [_mutate]: [attempts] read-build-patch cycles are left, the next one is
    number [attempt].  [x] is the state of the closure [build_patch] keeps
    across attempts ([nonlocal]). *)
Fixpoint _mutate_loop {X} self (build_patch : gmap string pv → X → res (option pv * X))
    (attempts : nat) (attempt : Z) (x : X) : M W P X :=
  match attempts with
  | O =>
      inc "STATUS_CONFLICT_RETRIES_EXHAUSTED_TOTAL" (self_labels self);;
      raise (StatusStoreConflictError
        ("status patch for " +:+ store_namespace self +:+ "/" +:+ store_name self +:+
         " conflicted (409) " +:+ str_of_Z (Z.of_nat MAX_CONFLICT_RETRIES) +:+ " times"))
  | S attempts =>
      status ← _read_status self;
      '(patch, x) ← of_res (build_patch status x);
      match patch with
      | None => mret x
      | Some patch =>
          applied ← try_patch self patch;
          if (applied : bool) then set_cache None;; mret x
          else
            when (attempt <? Z.of_nat MAX_CONFLICT_RETRIES)
              (draw ← ask random; _sleep (_conflict_backoff attempt draw));;
            _mutate_loop self build_patch attempts (attempt + 1) x
      end
  end.

Definition _mutate {X} self (build_patch : gmap string pv → X → res (option pv * X)) (x : X)
  : M W P X :=
  _mutate_loop self build_patch MAX_CONFLICT_RETRIES 1 x.

(** A [build_patch] without closure state. *)
Definition pure_patch (f : gmap string pv → option pv) (status : gmap string pv) (x : unit)
  : res (option pv * unit) := Ok (f status, x).

(** [{"status": {field: v}}] *)
Definition status_patch (m : gmap string pv) : pv := PDict {["status" := PDict m]}.

Definition _read_map self (field : string) : M W P (gmap string pv) :=
  status ← _read_status self;
  of_res match py_or (dget status field) (PDict ∅) with
         | PDict m => Ok m
         | v => Raise (StatusStoreError
                  ("status." +:+ field +:+ ": expected object, got " +:+ type_name v))
         end.

(** The closure of [_set_map_entry]; its state is [evicted_keys]. *)
Definition set_map_entry_patch (protected : gset string) (field key : string) (encoded : pv)
    (status : gmap string pv) (evicted_keys : list string) : res (option pv * list string) :=
  let current_field := dget status field in
  let current := match current_field with PDict m => dget m key | _ => PNone end in
  match current_field with
  | PDict m =>
      if negb (bool_decide (encoded = PNone))
         && (STATUS_MAP_MAX_ENTRIES <=? Z.of_nat (size m))
         && negb (py_eq current encoded)
      then
        let num_to_drop := Z.to_nat (Z.of_nat (size m) - STATUS_MAP_MAX_ENTRIES + 1) in
        let evicted := evicted_for protected m num_to_drop in
        Ok (Some (status_patch {[field := PDict (cap_patch m evicted key encoded)]}), evicted)
      else if py_eq current encoded then Ok (None, evicted_keys)
      else Ok (Some (status_patch {[field := PDict {[key := encoded]}]}), evicted_keys)
  | _ =>
      if py_eq current encoded then Ok (None, evicted_keys)
      else Ok (Some (status_patch {[field := PDict {[key := encoded]}]}), evicted_keys)
  end.

Definition protected_keys self (field : string) (g : store_mem) : gset string :=
  default ∅ (protected_anchor_keys g !! (store_namespace self, store_name self, field)).

Definition cap_message (protected : gset string) (field key : string) (evicted : list string) : string :=
  let n := Z.of_nat (length evicted) in
  let preview := join ", " (repr_str <$> take 5 evicted) in
  let preview :=
    if 5 <? n then preview +:+ " (+" +:+ str_of_Z (n - 5) +:+ " more)" else preview in
  let dropped := Z.of_nat (length (filter (.∈ protected) evicted)) in
  "status." +:+ field +:+ " size capped at " +:+ str_of_Z STATUS_MAP_MAX_ENTRIES +:+
  ": dropped " +:+ str_of_Z n +:+ " entries (" +:+ preview +:+ ") to make room for key " +:+
  repr_str key +:+ ". Defensive cap (issue #171); the underlying status map is the operator's " +:+
  "only durable state, and an unbounded map would amplify RMW cost on every tick." +:+
  (if dropped =? 0 then "" else
     " WARNING: " +:+ str_of_Z dropped +:+ " evicted entry(ies) were live-anchor-protected " +:+
     "(no unprotected candidate remained — the hard cap dominates; issue #648).").

Definition _set_map_entry self (field key : string) (encoded : pv) : M W P unit :=
  g ← get_shared;
  let protected := protected_keys self field g in
  evicted_keys ← _mutate self (set_map_entry_patch protected field key encoded) [];
  match evicted_keys with
  | [] => mret tt
  | _ =>
      inc "STATUS_MAP_CAPS_TOTAL" (self_labels self ++ [("map_name", field)]);;
      _emit_status_map_event (store_namespace self) (store_name self) STATUS_MAP_CAPPED_EVENT
        (cap_message protected field key evicted_keys)
  end.

Definition _get_scalar self (field : string) : M W P (option Z) :=
  status ← _read_status self;
  of_res (parse_opt_utc (dget status field) ("status." +:+ field)).

Definition _set_scalar self (field : string) (when_ : option Z) : M W P unit :=
  let encoded := default PNone (iso_pv <$> when_) in
  _mutate self (pure_patch (λ status,
    if py_eq (dget status field) encoded then None
    else Some (status_patch {[field := encoded]}))) tt.

Definition _get_int self (field : string) : M W P Z :=
  status ← _read_status self;
  of_res match dget status field with
         | PNone => Ok 0
         | PInt z => Ok z
         | v => Raise (StatusStoreError
                  ("status." +:+ field +:+ ": expected integer, got " +:+ type_name v))
         end.

Definition _set_int self (field : string) (value : Z) : M W P unit :=
  _mutate self (pure_patch (λ status,
    if py_eq (dget status field) (PInt value) then None
    else Some (status_patch {[field := PInt value]}))) tt.
End StatusStore.

(** ** [_prune_stale_entries]

    As written, [utc_parser(ts)] builds a parser for the error class [ts]
    instead of parsing [ts]; comparing that function with [cutoff] raises
    [TypeError], which the [except] clause answers by removing the entry.  The
    method has no caller. *)
Definition entry_timestamp (e : gmap string pv) : pv :=
  py_or (dget e "verifiedAt") (py_or (dget e "spawnedAt") (py_or (dget e "issuedAt")
    (py_or (dget e "queuedAt") (dget e "startedAt")))).

Definition stale_entry_removed (entry : pv) : bool :=
  match entry with
  | PDict e => negb (bool_decide (entry_timestamp e = PNone))
  | _ => false
  end.

Definition _prune_stale_entries (status : gmap string pv) : gmap string pv :=
  foldl (λ status field,
    match dget status field with
    | PDict raw => <[field := PDict (filter (λ kv, stale_entry_removed kv.2 = false) raw)]> status
    | _ => status
    end) status _STATUS_MAP_FIELDS.

Section StatusStoreApi.
Context {W P : Type} `{CustomObjectsApi W} `{Entropy W} `{StatusEventSink W P} `{KeyOrder}.
Implicit Types self : Store.

(** [f"status.{field}[{key!r}]"] *)
Definition entry_context (field key : string) : string :=
  "status." +:+ field +:+ "[" +:+ repr_str key +:+ "]".

(** All entries of a map, decoded in the order the server lists them. *)
Definition get_records {R} `{Codec R} self (field : string) : M W P (list (string * R)) :=
  raw ← _read_map self field;
  of_res (map_res (λ kv, r ← from_dict kv.2 (entry_context field kv.1); Ok (kv.1, r)) (key_order raw)).

Definition get_record {R} `{Codec R} self (field key : string) : M W P (option R) :=
  raw ← _read_map self field;
  of_res match dget raw key with
         | PNone => Ok None
         | v => r ← from_dict v (entry_context field key); Ok (Some r)
         end.

Definition set_record {R} `{Codec R} self (field key : string) (r : R) : M W P unit :=
  _set_map_entry self field key (PDict (to_dict r)).

(** ** softStops *)
Definition get_soft_stops self : M W P (list (string * SoftStopRecord.t)) := get_records self SOFT_STOPS.
Definition get_soft_stop self (analysis_id : string) : M W P (option SoftStopRecord.t) :=
  get_record self SOFT_STOPS analysis_id.
Definition set_soft_stop self (analysis_id : string) (r : SoftStopRecord.t) : M W P unit :=
  set_record self SOFT_STOPS analysis_id r.

Definition mark_escalated_patch (analysis_id : string) (when_ : Z) (outcome : string)
    (status : gmap string pv) (x : unit) : res (option pv * unit) :=
  let current := match dget status SOFT_STOPS with PDict m => dget m analysis_id | _ => PNone end in
  match current with
  | PDict cur =>
      let encoded := <["escalationOutcome" := PStr outcome]> (<["escalatedAt" := iso_pv when_]> cur) in
      if py_eq (PDict encoded) (PDict cur) then Ok (None, x)
      else Ok (Some (status_patch {[SOFT_STOPS := PDict {[analysis_id := PDict encoded]}]}), x)
  | _ => Raise (StatusStoreError
           (entry_context SOFT_STOPS analysis_id +:+ ": anchor vanished before escalation marker"))
  end.

Definition mark_soft_stop_escalated self (analysis_id : string) (when_ : Z) (outcome : string)
  : M W P unit :=
  _mutate self (mark_escalated_patch analysis_id when_ outcome) tt.

Definition clear_soft_stop self (analysis_id : string) : M W P unit :=
  _set_map_entry self SOFT_STOPS analysis_id PNone.

(** ** requeues *)
Definition get_requeues self : M W P (list (string * RequeueRecord.t)) := get_records self REQUEUES.
Definition get_requeue self (datapoint_id : string) : M W P (option RequeueRecord.t) :=
  get_record self REQUEUES datapoint_id.
Definition set_requeue self (datapoint_id : string) (r : RequeueRecord.t) : M W P unit :=
  set_record self REQUEUES datapoint_id r.

(** ** startedSince *)
Definition get_started_since_map self : M W P (list (string * Z)) :=
  raw ← _read_map self STARTED_SINCE;
  of_res (map_res (λ kv, t ← _parse_utc kv.2 (entry_context STARTED_SINCE kv.1); Ok (kv.1, t))
            (key_order raw)).
Definition get_started_since self (datapoint_id : string) : M W P (option Z) :=
  raw ← _read_map self STARTED_SINCE;
  of_res (parse_opt_utc (dget raw datapoint_id) (entry_context STARTED_SINCE datapoint_id)).
Definition set_started_since self (datapoint_id : string) (when_ : Z) : M W P unit :=
  _set_map_entry self STARTED_SINCE datapoint_id (iso_pv when_).
Definition clear_started_since self (datapoint_id : string) : M W P unit :=
  _set_map_entry self STARTED_SINCE datapoint_id PNone.

(** ** archivedAnalyses and stoppedAnalyses *)
Definition get_archived_analyses self : M W P (list (string * ArchivedAnalysisRecord.t)) :=
  get_records self ARCHIVED_ANALYSES.
Definition get_archived_analysis self (analysis_id : string) : M W P (option ArchivedAnalysisRecord.t) :=
  get_record self ARCHIVED_ANALYSES analysis_id.
Definition set_archived_analysis self (analysis_id : string) (r : ArchivedAnalysisRecord.t) : M W P unit :=
  set_record self ARCHIVED_ANALYSES analysis_id r.
Definition clear_archived_analysis self (analysis_id : string) : M W P unit :=
  _set_map_entry self ARCHIVED_ANALYSES analysis_id PNone.
Definition get_stop_record self (analysis_id : string) : M W P (option StopRecord.t) :=
  get_record self STOPPED_ANALYSES analysis_id.
Definition set_stop_record self (analysis_id : string) (r : StopRecord.t) : M W P unit :=
  set_record self STOPPED_ANALYSES analysis_id r.
Definition prune_stop_record self (analysis_id : string) : M W P unit :=
  _set_map_entry self STOPPED_ANALYSES analysis_id PNone.

(** ** deferredEvents *)

(** [{str(k): str(v) for k, v in entry.items()}] *)
Definition str_values (e : gmap string pv) : gmap string string := py_str <$> e.

Fixpoint decode_deferred (i : Z) (raw : list pv) : res (list (gmap string string)) :=
  match raw with
  | [] => Ok []
  | PDict e :: raw => rest ← decode_deferred (i + 1) raw; Ok (str_values e :: rest)
  | v :: _ => Raise (StatusStoreError
      ("status." +:+ DEFERRED_EVENTS +:+ "[" +:+ str_of_Z i +:+ "]: expected object, got " +:+ type_name v))
  end.

Definition get_deferred_events self : M W P (list (gmap string string)) :=
  status ← _read_status self;
  of_res match py_or (dget status DEFERRED_EVENTS) (PList []) with
         | PList raw => decode_deferred 0 raw
         | v => Raise (StatusStoreError
                  ("status." +:+ DEFERRED_EVENTS +:+ ": expected array, got " +:+ type_name v))
         end.

Definition append_deferred_event self (entry : gmap string string) (max_entries : option Z)
  : M W P unit :=
  let encoded := PDict (PStr <$> entry) in
  _mutate self (pure_patch (λ status,
    let current := match dget status DEFERRED_EVENTS with PList l => l | _ => [] end in
    match max_entries with
    | Some n => if n <=? Z.of_nat (length current) then None
                else Some (status_patch {[DEFERRED_EVENTS := PList (current ++ [encoded])]})
    | None => Some (status_patch {[DEFERRED_EVENTS := PList (current ++ [encoded])]})
    end)) tt.

Definition clear_deferred_events self : M W P unit :=
  _mutate self (pure_patch (λ status,
    if truthy (dget status DEFERRED_EVENTS)
    then Some (status_patch {[DEFERRED_EVENTS := PNone]}) else None)) tt.

(** ** scalars *)
Definition get_last_recycle_at self : M W P (option Z) := _get_scalar self LAST_RECYCLE_AT.
Definition set_last_recycle_at self (t : option Z) : M W P unit := _set_scalar self LAST_RECYCLE_AT t.
Definition get_last_web_background_restart_at self : M W P (option Z) := _get_scalar self LAST_WEB_BACKGROUND_RESTART_AT.
Definition set_last_web_background_restart_at self (t : option Z) : M W P unit :=
  _set_scalar self LAST_WEB_BACKGROUND_RESTART_AT t.
Definition get_stall_window_started_at self : M W P (option Z) := _get_scalar self STALL_WINDOW_STARTED_AT.
Definition set_stall_window_started_at self (t : option Z) : M W P unit := _set_scalar self STALL_WINDOW_STARTED_AT t.
Definition get_web_background_ineffective_restarts self : M W P Z :=
  _get_int self WEB_BACKGROUND_INEFFECTIVE_RESTARTS.
Definition set_web_background_ineffective_restarts self (n : Z) : M W P unit :=
  _set_int self WEB_BACKGROUND_INEFFECTIVE_RESTARTS n.

(** ** anchor protection and pruning *)

Definition protect_anchor_keys self (field : string) (keys : gset string) : M W P unit :=
  if bool_decide (field ∈ _STATUS_MAP_FIELDS) then
    g ← get_shared;
    set_shared (StoreMem
      (<[(store_namespace self, store_name self, field) := keys]> (protected_anchor_keys g))
      (status_cache g))
  else raise (StatusStoreError
    ("protect_anchor_keys: unknown status map field " +:+ repr_str field)).

Definition prune_scopes (analysis_live datapoint_live : option (gset string))
  : list (string * option (gset string)) :=
  [(SOFT_STOPS, analysis_live); (ARCHIVED_ANALYSES, analysis_live);
   (STOPPED_ANALYSES, analysis_live); (REQUEUES, datapoint_live);
   (STARTED_SINCE, datapoint_live)].

(** The ids of one map that are not live, sorted. *)
Definition dead_keys (status : gmap string pv) (field : string) (live : option (gset string))
  : list string :=
  match live, dget status field with
  | Some live, PDict entries => sorted_strings (filter (.∉ live) (map_to_list entries).*1)
  | _, _ => []
  end.

Definition prune_applied (scopes : list (string * option (gset string))) (status : gmap string pv)
  : list (string * list string) :=
  filter (λ fd, fd.2 ≠ []) ((λ sc, (sc.1, dead_keys status sc.1 sc.2)) <$> scopes).

Definition prune_patch (scopes : list (string * option (gset string))) (status : gmap string pv)
    (_ : list (string * list string)) : res (option pv * list (string * list string)) :=
  let applied := prune_applied scopes status in
  match applied with
  | [] => Ok (None, [])
  | _ => Ok (Some (status_patch (list_to_map
           ((λ fd, (fd.1, PDict (gset_to_gmap PNone (list_to_set fd.2)))) <$> applied))), applied)
  end.

Definition prune self (live_analysis_ids live_datapoint_ids : option (gset string))
  : M W P (list (string * list string)) :=
  _mutate self (prune_patch (prune_scopes live_analysis_ids live_datapoint_ids)) [].
End StatusStoreApi.
