(* ===== verification/StatusStoreFacts.v ===== *)
(** * Facts about the status store

    First what any store operation may emit, then the refinement of the
    read-modify-write cycle to a change of the status document, then the
    theorems on the individual operations. *)
From Stdlib Require Import Lqa.
From S2P Require Import Prelude PyValue Effects Logic PyTime Services StatusRecords StatusStore.

(** ** What the store emits *)

(** Reads and patches of its own CR's status, sleeps and metrics. *)
Definition store_action (self : Store) (a : action) : Prop :=
  match a with
  | KubeGetStatus ns n | KubePatchStatus ns n _ => ns = store_namespace self ∧ n = store_name self
  | Sleep _ | MetricInc _ _ _ | MetricSet _ _ _ | MetricObserve _ _ => True
  | _ => False
  end.

(** A class of actions that holds whatever the store and its event sink do. *)
Class StoreQuiet {W P} `{StatusEventSink W P} (self : Store) (Pa : action → Prop) : Prop := {
  quiet_store a : store_action self a → Pa a;
  quiet_sink ns n r m : within (emits Pa) (_emit_status_map_event ns n r m);
}.

Section quiet.
Context {W P : Type} `{CustomObjectsApi W} `{Entropy W} `{StatusEventSink W P} `{KeyOrder}.
Context (self : Store) (Pa : action → Prop) `{!StoreQuiet self Pa}.

Local Ltac store_side :=
  first [apply (quiet_store (self:=self)); simpl; solve [auto] | done].

Lemma read_status_quiet : within (emits Pa) (_read_status (W:=W) (P:=P) self).
Proof. unfold _read_status, stamp_map_entries, set_cache. solve_within; store_side. Qed.
Hint Resolve read_status_quiet : within.

Lemma mutate_quiet {X} build (x : X) : within (emits Pa) (_mutate (W:=W) (P:=P) self build x).
Proof.
  unfold _mutate. generalize MAX_CONFLICT_RETRIES, 1. intros n. revert x.
  induction n as [|n IH]; intros x a; simpl; [solve_within; store_side|].
  unfold try_patch, set_cache. solve_within; try store_side.
  all: repeat (case_match; simplify_eq/=; solve_within; try store_side).
Qed.
Hint Resolve mutate_quiet : within.

Lemma set_map_entry_quiet field key v :
  within (emits Pa) (_set_map_entry (W:=W) (P:=P) self field key v).
Proof.
  unfold _set_map_entry. solve_within; try store_side. apply quiet_sink.
Qed.

Lemma read_map_quiet field : within (emits Pa) (_read_map (W:=W) (P:=P) self field).
Proof. unfold _read_map. solve_within. Qed.

Lemma get_scalar_quiet field : within (emits Pa) (_get_scalar (W:=W) (P:=P) self field).
Proof. unfold _get_scalar. solve_within. Qed.

Lemma set_scalar_quiet field t : within (emits Pa) (_set_scalar (W:=W) (P:=P) self field t).
Proof. unfold _set_scalar. solve_within. Qed.

Lemma get_int_quiet field : within (emits Pa) (_get_int (W:=W) (P:=P) self field).
Proof. unfold _get_int. solve_within. Qed.

Lemma set_int_quiet field n : within (emits Pa) (_set_int (W:=W) (P:=P) self field n).
Proof. unfold _set_int. solve_within. Qed.
End quiet.
#[export] Hint Resolve read_status_quiet mutate_quiet set_map_entry_quiet read_map_quiet
  get_scalar_quiet set_scalar_quiet get_int_quiet set_int_quiet : within.

Section quiet_api.
Context {W P : Type} `{CustomObjectsApi W} `{Entropy W} `{StatusEventSink W P} `{KeyOrder}.
Context (self : Store) (Pa : action → Prop) `{!StoreQuiet self Pa}.

Lemma get_records_quiet {R} `{Codec R} f : within (emits Pa) (get_records (W:=W) (P:=P) (R:=R) self f).
Proof. unfold get_records. solve_within. Qed.
Lemma get_record_quiet {R} `{Codec R} f k : within (emits Pa) (get_record (W:=W) (P:=P) (R:=R) self f k).
Proof. unfold get_record. solve_within. Qed.
Lemma set_record_quiet {R} `{Codec R} f k (r : R) : within (emits Pa) (set_record (W:=W) (P:=P) self f k r).
Proof. unfold set_record. solve_within. Qed.
Lemma mark_escalated_quiet a t o : within (emits Pa) (mark_soft_stop_escalated (W:=W) (P:=P) self a t o).
Proof. unfold mark_soft_stop_escalated. solve_within. Qed.
Lemma get_started_since_map_quiet : within (emits Pa) (get_started_since_map (W:=W) (P:=P) self).
Proof. unfold get_started_since_map. solve_within. Qed.
Lemma get_deferred_quiet : within (emits Pa) (get_deferred_events (W:=W) (P:=P) self).
Proof. unfold get_deferred_events. solve_within. Qed.
Lemma append_deferred_quiet e n : within (emits Pa) (append_deferred_event (W:=W) (P:=P) self e n).
Proof. unfold append_deferred_event. solve_within. Qed.
Lemma clear_deferred_quiet : within (emits Pa) (clear_deferred_events (W:=W) (P:=P) self).
Proof. unfold clear_deferred_events. solve_within. Qed.
Lemma protect_quiet f ks : within (emits Pa) (protect_anchor_keys (W:=W) (P:=P) self f ks).
Proof. unfold protect_anchor_keys. solve_within. Qed.
Lemma prune_quiet a d : within (emits Pa) (prune (W:=W) (P:=P) self a d).
Proof. unfold prune. solve_within. Qed.
End quiet_api.
#[export] Hint Resolve get_records_quiet get_record_quiet set_record_quiet mark_escalated_quiet
  get_started_since_map_quiet get_deferred_quiet append_deferred_quiet clear_deferred_quiet
  protect_quiet prune_quiet : within.
Create HintDb store_api.
#[export] Hint Unfold get_soft_stops get_soft_stop set_soft_stop clear_soft_stop get_requeues get_requeue
  set_requeue set_started_since clear_started_since get_archived_analyses get_archived_analysis
  set_archived_analysis clear_archived_analysis get_stop_record set_stop_record prune_stop_record
  get_last_recycle_at set_last_recycle_at get_last_web_background_restart_at
  set_last_web_background_restart_at get_stall_window_started_at set_stall_window_started_at
  get_web_background_ineffective_restarts set_web_background_ineffective_restarts : store_api.

(** ** The read-modify-write cycle

    Under the laws of [StatusServer] a store operation is a transformation of
    the status document. *)
Section mutate.
Context {W P : Type} `{StatusServer W} `{Entropy W} `{StatusEventSink W P} `{KeyOrder}.
Context (self : Store).
Implicit Types s : st W P.

Definition doc s : gmap string pv :=
  status_doc (world s) (store_namespace self) (store_name self).

(** What no store operation touches: the component's memory, the protection
    registry and the status of other CRs. *)
Definition frame s s' : Prop :=
  mem s' = mem s ∧ protected_anchor_keys (shared s') = protected_anchor_keys (shared s) ∧
  ∀ ns n, (ns, n) ≠ (store_namespace self, store_name self) →
    status_doc (world s') ns n = status_doc (world s) ns n.

#[export] Instance frame_preorder : PreOrder frame.
Proof.
  split; [by intros s|]. intros s1 s2 s3 (M1 & P1 & O1) (M2 & P2 & O2).
  split_and!; [congruence..|]. intros ns n Hne. by rewrite O2, O1.
Qed.

(** Bookkeeping: neither the world nor the protection registry moves. *)
Definition core s : W * P * gmap (string * string * string) (gset string) :=
  (world s, mem s, protected_anchor_keys (shared s)).

Lemma core_frame s s' : core s' = core s → frame s s' ∧ doc s' = doc s.
Proof. intros [= E1 E2 E3]. unfold frame, doc. by rewrite E1, E2, E3. Qed.

Lemma stamp_core st : within (keeps core) (stamp_map_entries (W:=W) (P:=P) self st).
Proof. unfold stamp_map_entries. solve_within. Qed.

Lemma set_cache_core c : within (keeps core) (set_cache (W:=W) (P:=P) c).
Proof. by intros s. Qed.

(** Any run bounded by [core] leaves the documents alone. *)
Lemma core_run {A} (m : M W P A) s r s' :
  within (keeps core) m → m s = (r, s') → frame s s' ∧ doc s' = doc s.
Proof. intros Hm E. apply core_frame. specialize (Hm s). by rewrite E in Hm. Qed.

Lemma get_status_run s r s' :
  observe_duration "KUBE_API_REQUEST_DURATION_SECONDS" [("verb", "get")]
    (get_namespaced_custom_object_status (store_namespace self) (store_name self)) s = (r, s') →
  frame s s' ∧ doc s' = doc s ∧ ∀ obj, r = Ok obj → status_of_object obj = Ok (doc s).
Proof.
  unfold observe_duration, finally, get_namespaced_custom_object_status, ext.
  destruct (get_status_call _ _ _) as [[obj|e] w] eqn:E; simpl; intros [= <- <-].
  - apply get_ok in E as [Eobj Edoc]. unfold frame, doc; simpl. rewrite Edoc.
    by split_and!; [| | | |intros ? [= <-]].
  - apply get_err in E. unfold frame, doc; simpl. rewrite E. by split_and!.
Qed.

Lemma read_status_run s r s' :
  _read_status self s = (r, s') →
  frame s s' ∧ doc s' = doc s ∧ (∀ d, r = Ok d → d = doc s).
Proof.
  unfold _read_status. unfold mbind at 1, M_bind at 1.
  destruct (observe_duration _ _ _ s) as [[obj|e] s1] eqn:E1; apply get_status_run in E1 as (F1 & D1 & O1).
  2: { by intros [= <- <-]. }
  unfold of_res. rewrite (O1 obj eq_refl). clear O1. unfold mbind at 1, M_bind at 1.
  set (rest := stamp_map_entries self (doc s) ≫= _).
  assert (Hr : within (keeps core) rest) by (unfold rest; pose proof set_cache_core; pose proof stamp_core; solve_within).
  intros E2. pose proof (core_run rest _ _ _ Hr E2) as [F2 D2].
  split_and!; [by etransitivity|congruence|].
  intros d ->. revert E2. unfold rest. rewrite bind_Ok. intros (_ & s2 & _ & E2).
  revert E2. rewrite bind_Ok. by intros (_ & s3 & _ & [= <- _]).
Qed.

Lemma try_patch_run p s r s' :
  try_patch self p s = (r, s') →
  frame s s' ∧
  match r with
  | Ok true => doc s' = patch_effect (doc s) p
  | Ok false => doc s' = doc s
  | Raise _ => doc s' = doc s ∨ doc s' = patch_effect (doc s) p
  end.
Proof.
  unfold try_patch, try_except, observe_duration, finally, patch_namespaced_custom_object_status,
    ext, mbind, M_bind, mret, M_ret.
  pose proof (λ ns' n', patch_other (store_namespace self) (store_name self) p (world s) ns' n') as Ho.
  destruct (patch_status_call _ _ _ _) as [[[]|e] w] eqn:E; simpl in *.
  - intros [= <- <-]. unfold frame, doc; simpl. split; [by split_and!|by eapply patch_ok].
  - assert (Hgen : doc (St w (mem s) (shared s) (log s)) = doc s ∨
                   doc (St w (mem s) (shared s) (log s)) = patch_effect (doc s) p)
      by (by apply (patch_err _ _ _ _ e)).
    destruct e as [code reason| | | | | | | | | | | | | | | | | | | | |];
      try (intros [= <- <-]; unfold frame, doc in *; simpl in *; split; [by split_and!|done]).
    destruct (decide (code = 409)) as [->|Hne].
    + apply patch_conflict in E. intros [= <- <-]. unfold frame, doc; simpl. by split.
    + assert (∀ {A} (x y : A), (match code with 409 => x | _ => y end) = y) as Hm.
      { intros A x y. clear -Hne. repeat (case_match; try done; subst). }
      rewrite Hm. intros [= <- <-]. unfold frame, doc in *; simpl in *; split; [by split_and!|done].
Qed.

(** The closure state after [k] rebuilds against the same document. *)
Definition rebuild {X} (build : gmap string pv → X → res (option pv * X)) (d : gmap string pv)
  (x : X) : X := match build d x with Ok (_, x') => x' | Raise _ => x end.

(** The outcome of a cycle that starts on document [d]. *)
Definition mutated {X} (build : gmap string pv → X → res (option pv * X)) (x : X)
    (d : gmap string pv) (r : res X) (d' : gmap string pv) : Prop :=
  match r with
  | Ok x' => ∃ k o, build d (Nat.iter k (rebuild build d) x) = Ok (o, x') ∧
               d' = match o with Some p => patch_effect d p | None => d end
  | Raise e => d' = d ∨ ∃ k p x', build d (Nat.iter k (rebuild build d) x) = Ok (Some p, x') ∧
                            d' = patch_effect d p
  end.

Lemma backoff_run b attempt s r s' :
  when b (draw ← ask random; _sleep (_conflict_backoff attempt draw)) s = (r, s') →
  r = Ok tt ∧ core s' = core s.
Proof. destruct b; simpl; by intros [= <- <-]. Qed.

Lemma mutate_loop_run {X} build n attempt (x : X) k s r s' :
  _mutate_loop self build n attempt (Nat.iter k (rebuild build (doc s)) x) s = (r, s') →
  frame s s' ∧ mutated build x (doc s) r (doc s').
Proof.
  revert attempt k s r s'. induction n as [|n IH]; intros attempt k s r s'; simpl.
  { unfold mbind, M_bind, inc, act, raise. intros [= <- <-]. by split; [|left]. }
  destruct (_read_status self s) as [[d|e] s1] eqn:Er.
  2: { rewrite (bind_raise _ _ _ _ _ Er). intros [= <- <-].
       apply read_status_run in Er as (Hf & Hd & _). by split; [|left]. }
  rewrite (bind_run _ _ _ _ _ Er). apply read_status_run in Er as (Hf1 & Hd1 & Hd).
  rewrite (Hd d eq_refl). clear Hd d.
  destruct (build (doc s) _) as [[[p|] x']|e] eqn:Eb.
  - rewrite (bind_run (of_res _) _ s1 (Some p, x') s1) by done. cbn beta iota.
    destruct (try_patch self p s1) as [[applied|e] s2] eqn:Ep;
      pose proof (try_patch_run _ _ _ _ Ep) as [Hf2 Hd2]; rewrite Hd1 in Hd2.
    + rewrite (bind_run _ _ _ _ _ Ep). destruct applied.
      * intros [= <- <-]. split; [by repeat (etransitivity; [done|])|].
        exists k, (Some p). done.
      * intros E. revert E. unfold mbind at 1, M_bind at 1.
        destruct (when _ _ s2) as [r3 s3] eqn:Ew. apply backoff_run in Ew as [-> Hc].
        apply core_frame in Hc as [Hf3 Hd3]. intros E.
        assert (doc s3 = doc s) as Hd' by congruence.
        assert (Nat.iter (S k) (rebuild build (doc s3)) x = x') as Hx.
        { simpl. rewrite Hd'. unfold rebuild at 1. by rewrite Eb. }
        rewrite <-Hx in E. apply IH in E as [Hf4 Hm]. rewrite Hd' in Hm.
        split; [|done]. by do 3 (etransitivity; [done|]).
    + rewrite (bind_raise _ _ _ _ _ Ep). intros [= <- <-].
      split; [by etransitivity|]. destruct Hd2 as [-> | ->]; [by left|right]. eauto.
  - intros [= <- <-]. split; [done|]. exists k, None. by rewrite Hd1.
  - intros [= <- <-]. split; [done|]. left. by rewrite Hd1.
Qed.

(** A store write is a transformation of the status document: on success the
    patch the closure built for the document found was applied once; on
    failure it was applied at most once. *)
Lemma mutate_run {X} build (x : X) s r s' :
  _mutate self build x s = (r, s') → frame s s' ∧ mutated build x (doc s) r (doc s').
Proof. apply (mutate_loop_run build _ _ x 0). Qed.

(** For a closure whose result does not depend on its state. *)
Lemma mutate_stable_run {X} build (x : X) s r s' :
  (∀ d y, build d y = build d x) →
  _mutate self build x s = (r, s') →
  frame s s' ∧
  match r with
  | Ok x' => ∃ o, build (doc s) x = Ok (o, x') ∧
               doc s' = match o with Some p => patch_effect (doc s) p | None => doc s end
  | Raise e => doc s' = doc s ∨
      ∃ p x', build (doc s) x = Ok (Some p, x') ∧ doc s' = patch_effect (doc s) p
  end.
Proof.
  intros Hs E. apply mutate_run in E as [Hf Hm]. split; [done|]. revert Hm. unfold mutated.
  destruct r as [x'|e].
  - intros (k & o & Hb & ->). rewrite Hs in Hb. eauto.
  - intros [-> | (k & p & x' & Hb & ->)]; [by left|right]. rewrite Hs in Hb. eauto.
Qed.

End mutate.

(** ** Cap eviction *)

Section eviction.
Context (protected : gset string) (m : gmap string pv).
Let keys := sorted_strings (map_to_list m).*1.

Lemma evicted_for_keys n k : k ∈ evicted_for protected m n → is_Some (m !! k).
Proof.
  intros Hk%elem_of_take. destruct Hk as (i & Hi%list_elem_of_lookup_2 & _).
  assert (k ∈ (map_to_list m).*1) as Hin.
  { apply elem_of_sorted_strings. apply elem_of_app in Hi as [Hi|Hi];
      by apply list_elem_of_filter in Hi as [_ ?]. }
  apply list_elem_of_fmap in Hin as ([k' v] & -> & Hin). apply elem_of_map_to_list in Hin. eauto.
Qed.

Lemma eviction_order_perm :
  filter (.∉ protected) keys ++ filter (.∈ protected) keys ≡ₚ (map_to_list m).*1.
Proof. rewrite (filter_split_perm (.∈ protected)). apply sorted_strings_perm. Qed.

Lemma evicted_for_NoDup n : NoDup (evicted_for protected m n).
Proof.
  apply NoDup_take. fold keys. rewrite eviction_order_perm. apply NoDup_fst_map_to_list.
Qed.

Lemma evicted_for_length n : length (evicted_for protected m n) = Nat.min n (size m).
Proof.
  unfold evicted_for. rewrite length_take. fold keys.
  by rewrite eviction_order_perm, length_fmap, length_map_to_list.
Qed.

(** A protected key goes only after every unprotected one. *)
Lemma evicted_protected_last n k u :
  k ∈ evicted_for protected m n → k ∈ protected →
  is_Some (m !! u) → u ∉ protected → u ∈ evicted_for protected m n.
Proof.
  unfold evicted_for. fold keys. intros Hk Hkp [v Hu] Hup.
  assert (u ∈ filter (.∉ protected) keys) as Hin.
  { apply list_elem_of_filter. split; [done|]. apply elem_of_sorted_strings.
    apply list_elem_of_fmap. exists (u, v). split; [done|]. by apply elem_of_map_to_list. }
  rewrite take_app in Hk |- *. apply elem_of_app in Hk as [Hk|Hk].
  - apply elem_of_take in Hk as (i & Hi%list_elem_of_lookup_2 & _).
    by apply list_elem_of_filter in Hi as [? _].
  - apply elem_of_app. left. rewrite take_ge; [done|].
    destruct (decide (length (filter (.∉ protected) keys) ≤ n)%nat); [done|].
    replace (n - length (filter (.∉ protected) keys))%nat with 0%nat in Hk by lia.
    by apply not_elem_of_nil in Hk.
Qed.
End eviction.

(** The map the API server holds after a cap patch. *)
Section cap_patch.
Context (m : gmap string pv) (ev : list string) (key : string) (v : pv).
Hypothesis Hv : v ≠ PNone.

Lemma lookup_cap_patch k :
  merge_dict m (cap_patch m ev key v) !! k =
  if decide (k = key) then patcher v (dget m key)
  else if decide (k ∈ ev) then None
  else m !! k ≫= λ x, patcher x x.
Proof.
  rewrite lookup_merge_dict. unfold cap_patch. case_decide as Hk.
  - subst. by rewrite lookup_insert_eq.
  - rewrite lookup_insert_ne, lookup_union by done. case_decide as He.
    + rewrite lookup_gset_to_gmap, option_guard_True by set_solver.
      by rewrite union_Some_l.
    + rewrite lookup_gset_to_gmap, option_guard_False by set_solver.
      destruct (m !! k) as [x|] eqn:E.
      * by rewrite (map_lookup_filter_Some_2 _ _ k x).
      * rewrite map_lookup_filter_None_2 by (left; done). done.
Qed.

Lemma dom_cap_patch : dom (merge_dict m (cap_patch m ev key v)) ⊆ {[key]} ∪ dom m ∖ list_to_set ev.
Proof.
  intros k. rewrite elem_of_dom, lookup_cap_patch. intros Hk.
  case_decide; [set_solver|]. case_decide; [by destruct Hk|].
  destruct (m !! k) eqn:E; [|by destruct Hk]. apply elem_of_dom_2 in E. set_solver.
Qed.

Lemma size_cap_patch :
  NoDup ev → (∀ k, k ∈ ev → is_Some (m !! k)) →
  (size (merge_dict m (cap_patch m ev key v)) ≤ S (size m - length ev))%nat.
Proof.
  intros Hnd Hin. rewrite <-size_dom.
  etransitivity; [apply subseteq_size, dom_cap_patch|].
  rewrite size_union_alt, size_singleton.
  assert (size (dom m ∖ list_to_set ev : gset string) = size m - length ev)%nat as Hs.
  { rewrite size_difference, size_dom, size_list_to_set; [done|done|].
    intros k. rewrite elem_of_list_to_set, elem_of_dom. apply Hin. }
  rewrite <-Hs. simpl.
  enough (size ((dom m ∖ list_to_set ev) ∖ {[key]} : gset string)
          ≤ size (dom m ∖ list_to_set ev : gset string))%nat by lia.
  apply subseteq_size. set_solver.
Qed.
End cap_patch.

(** ** One map write on the document *)

Definition map_of (d : gmap string pv) (field : string) : gmap string pv :=
  default ∅ (as_dict (dget d field)).

(** The field is a map, or not there yet. *)
Definition field_ok (d : gmap string pv) (field : string) : Prop :=
  dget d field = PNone ∨ is_Some (as_dict (dget d field)).

(** The write evicts: a new value for a map at the cap. *)
Definition evicts (key : string) (v : pv) (m : gmap string pv) : bool :=
  negb (bool_decide (v = PNone)) && (STATUS_MAP_MAX_ENTRIES <=? Z.of_nat (size m))
  && negb (py_eq (dget m key) v).

Definition evicted_keys (protected : gset string) (m : gmap string pv) : list string :=
  evicted_for protected m (Z.to_nat (Z.of_nat (size m) - STATUS_MAP_MAX_ENTRIES + 1)).

(** The specification of a map write: the abstract effect on the one map. *)
Definition entry_after (protected : gset string) (key : string) (v : pv) (m : gmap string pv)
  : gmap string pv :=
  if py_eq (dget m key) v then m
  else if evicts key v m then merge_dict m (cap_patch m (evicted_keys protected m) key v)
  else match patcher v (dget m key) with
       | Some w => <[key := w]> m
       | None => delete key m
       end.

Lemma patch_effect_field d field p :
  let d' := patch_effect d (status_patch {[field := PDict p]}) in
  d' !! field = Some (PDict (merge_dict (map_of d field) p)) ∧ ∀ f, f ≠ field → d' !! f = d !! f.
Proof.
  unfold patch_effect, status_patch. rewrite lookup_singleton_eq. cbv zeta. split.
  - by rewrite lookup_merge_dict, lookup_singleton_eq, patcher_dict.
  - intros f Hf. by rewrite lookup_merge_dict, lookup_singleton_ne.
Qed.

Lemma set_map_entry_patch_spec protected field key v d y :
  field_ok d field →
  ∃ o ev, set_map_entry_patch protected field key v d y = Ok (o, ev) ∧
    ev = (if evicts key v (map_of d field) then evicted_keys protected (map_of d field) else y) ∧
    let d' := match o with Some p => patch_effect d p | None => d end in
    field_ok d' field ∧
    map_of d' field = entry_after protected key v (map_of d field) ∧
    ∀ f, f ≠ field → d' !! f = d !! f.
Proof.
  intros Hok. unfold set_map_entry_patch.
  assert (Hcur : match dget d field with PDict m => dget m key | _ => PNone end
                 = dget (map_of d field) key).
  { unfold map_of. destruct Hok as [->|[m Hm]]; [done|]. by destruct (dget d field). }
  rewrite Hcur. unfold entry_after.
  assert (Hev : evicts key v ∅ = false).
  { unfold evicts. rewrite map_size_empty.
    replace (STATUS_MAP_MAX_ENTRIES <=? Z.of_nat 0) with false by done.
    by rewrite andb_false_r. }
  destruct Hok as [Hd|[m Hm]].
  - (* the map is not there yet *)
    unfold map_of in *. rewrite Hd in *. cbn [as_dict default] in *. rewrite Hev in *.
    destruct (py_eq (dget ∅ key) v) eqn:Epy.
    + eexists _, _. split; [done|]. split; [done|]. cbn. rewrite Hd. split_and!; [by left|done|done].
    + eexists _, _. split; [done|]. split; [done|]. cbn zeta iota.
      destruct (patch_effect_field d field {[key := v]}) as [H1 H2].
      unfold field_ok, dget at 1 2 3. rewrite H1. cbn. unfold map_of. rewrite Hd. cbn.
      rewrite merge_dict_singleton. split_and!; [right; eauto|done|done].
  - destruct (dget d field) as [| | | | | |m'] eqn:Hd; try done. injection Hm as ->.
    assert (Hmo : map_of d field = m) by (unfold map_of; by rewrite Hd).
    rewrite Hmo in *. fold (evicts key v m). cbv zeta. fold (evicted_keys protected m).
    destruct (evicts key v m) eqn:Ee.
    + assert (py_eq (dget m key) v = false) as Epy.
      { unfold evicts in Ee. rewrite andb_true_iff, negb_true_iff in Ee. tauto. }
      rewrite Epy. eexists _, _. split; [done|]. split; [done|]. cbn zeta iota.
      destruct (patch_effect_field d field (cap_patch m (evicted_keys protected m) key v)) as [H1 H2].
      unfold field_ok, map_of, dget at 1 2 3. rewrite H1. cbn. rewrite Hmo.
      split_and!; [right; eauto|done|done].
    + destruct (py_eq (dget m key) v) eqn:Epy.
      * eexists _, _. split; [done|]. split; [done|]. cbn zeta iota.
        split_and!; [right; rewrite Hd; eauto|done|done].
      * eexists _, _. split; [done|]. split; [done|]. cbn zeta iota.
        destruct (patch_effect_field d field {[key := v]}) as [H1 H2].
        unfold field_ok, map_of, dget at 1 2 3. rewrite H1. cbn. rewrite Hmo.
        rewrite merge_dict_singleton. split_and!; [right; eauto|done|done].
Qed.

(** ** The event sink

    The sink writes at most the deferred events of a status document. *)
Class SinkSpec {W P} `{StatusServer W} `{StatusEventSink W P} (self : Store) : Prop := {
  sink_protected ns n r m :
    within (keeps (λ s, protected_anchor_keys (shared s))) (_emit_status_map_event (P:=P) ns n r m);
  sink_fields ns n r m f : f ≠ DEFERRED_EVENTS →
    within (keeps (λ s, doc self s !! f)) (_emit_status_map_event (P:=P) ns n r m);
}.

Lemma map_of_ext d d' f : d !! f = d' !! f → map_of d f = map_of d' f.
Proof. unfold map_of, dget. by intros ->. Qed.

Lemma field_ok_ext d d' f : d !! f = d' !! f → field_ok d f → field_ok d' f.
Proof. unfold field_ok, dget. by intros ->. Qed.

Section map_write.
Context {W P : Type} `{StatusServer W} `{Entropy W} `{StatusEventSink W P} `{KeyOrder}.
Context (self : Store) `{!SinkSpec (P:=P) self}.
Implicit Types s : st W P.

(** Document [d'] is [d] with the entry written. *)
Definition written (protected : gset string) (field key : string) (v : pv) (d d' : gmap string pv) : Prop :=
  field_ok d' field ∧ map_of d' field = entry_after protected key v (map_of d field) ∧
  ∀ f, f ≠ field → f ≠ DEFERRED_EVENTS → d' !! f = d !! f.

(** Document [d'] is [d] up to the deferred events. *)
Definition untouched (d d' : gmap string pv) : Prop :=
  ∀ f, f ≠ DEFERRED_EVENTS → d' !! f = d !! f.

Lemma set_map_entry_mutated protected field key v x d r d' :
  field_ok d field → mutated (set_map_entry_patch protected field key v) x d r d' →
  match r with Ok _ => written protected field key v d d' | Raise _ => d' = d ∨ written protected field key v d d' end.
Proof.
  intros Hok Hm. unfold mutated in Hm. destruct r as [x'|e].
  - destruct Hm as (k & o & Hb & ->).
    destruct (set_map_entry_patch_spec protected field key v d (Nat.iter k
      (rebuild (set_map_entry_patch protected field key v) d) x) Hok) as (o' & ev & Hb' & _ & Q1 & Q2 & Q3).
    rewrite Hb in Hb'. injection Hb' as <- <-. split_and!; [done|done|intros; by apply Q3].
  - destruct Hm as [-> | (k & p & x' & Hb & ->)]; [by left|right].
    destruct (set_map_entry_patch_spec protected field key v d (Nat.iter k
      (rebuild (set_map_entry_patch protected field key v) d) x) Hok) as (o' & ev & Hb' & _ & Q1 & Q2 & Q3).
    rewrite Hb in Hb'. injection Hb' as <- <-. split_and!; [done|done|intros; by apply Q3].
Qed.

(** What may follow the write: metrics and the event. *)
Lemma written_after protected field key v d d1 d2 :
  field ≠ DEFERRED_EVENTS → written protected field key v d d1 → untouched d1 d2 →
  written protected field key v d d2.
Proof.
  intros Hf (Q1 & Q2 & Q3) Hu. split_and!.
  - eapply field_ok_ext; [|done]. by rewrite Hu.
  - rewrite <-Q2. apply map_of_ext. by rewrite Hu.
  - intros f ??. rewrite Hu by done. by apply Q3.
Qed.

Lemma sink_untouched ns n reason m s r s' :
  _emit_status_map_event ns n reason m s = (r, s') → untouched (doc self s) (doc self s').
Proof. intros E f Hf. pose proof (sink_fields (P:=P) ns n reason m f Hf s) as Hk. by rewrite E in Hk. Qed.

Lemma set_map_entry_run field key v s r s' :
  field_ok (doc self s) field → field ≠ DEFERRED_EVENTS →
  _set_map_entry self field key v s = (r, s') →
  let w := written (protected_keys self field (shared s)) field key v (doc self s) (doc self s') in
  match r with
  | Ok _ => w
  | Raise _ => untouched (doc self s) (doc self s') ∨ w
  end.
Proof.
  intros Hok Hf. unfold _set_map_entry. rewrite (bind_run get_shared _ s (shared s) s) by done.
  cbv zeta. set (protected := protected_keys self field (shared s)).
  destruct (_mutate self (set_map_entry_patch protected field key v) [] s) as [[ev|e] s1] eqn:Em;
    pose proof (mutate_run _ _ _ _ _ _ Em) as [_ Hm]; apply set_map_entry_mutated in Hm; try done.
  - rewrite (bind_run _ _ s ev s1) by exact Em. destruct ev as [|k ev]; [by intros [= <- <-]|].
    unfold mbind at 1, M_bind at 1. cbn [inc act]. intros E. pose proof (sink_untouched _ _ _ _ _ _ _ E) as Hu.
    destruct r; [|right]; by eapply written_after.
  - rewrite (bind_raise _ _ s e s1) by exact Em. intros [= <- <-].
    destruct Hm as [-> |]; [by left|by right].
Qed.
End map_write.

(** ** What a successful write leaves behind *)

Lemma norm_str v t : norm v = PStr t → v = PStr t.
Proof. by destruct v. Qed.

Lemma py_eq_dict_str (m m' : gmap string pv) k t :
  py_eq (PDict m) (PDict m') = true → m' !! k = Some (PStr t) → m !! k = Some (PStr t).
Proof.
  intros Hm%bool_decide_eq_true Hk. injection Hm as Hm.
  assert (norm <$> m !! k = Some (PStr t)) as Hn by (by rewrite <-lookup_fmap, Hm, lookup_fmap, Hk).
  destruct (m !! k); simplify_eq/=. f_equal. by apply norm_str.
Qed.

Lemma entry_after_member protected key enc m k t :
  enc !! k = Some (PStr t) →
  ∃ e, entry_after protected key (PDict enc) m !! key = Some (PDict e) ∧ e !! k = Some (PStr t).
Proof.
  intros Hk. unfold entry_after. destruct (py_eq (dget m key) (PDict enc)) eqn:Ep.
  - unfold dget in Ep. destruct (m !! key) as [v|]; [|done]. simpl in Ep.
    destruct v as [| | | | | |e]; try done. eexists. split; [done|]. by eapply py_eq_dict_str.
  - destruct (evicts key (PDict enc) m).
    + rewrite lookup_cap_patch, decide_True, patcher_dict by done. eexists. split; [done|].
      by rewrite lookup_merge_dict, Hk.
    + rewrite patcher_dict, lookup_insert_eq. eexists. split; [done|].
      by rewrite lookup_merge_dict, Hk.
Qed.

(** The same for any scalar, up to [==]. *)
Lemma entry_after_scalar protected key enc m k w :
  enc !! k = Some w → as_dict w = None → w ≠ PNone →
  ∃ e v, entry_after protected key (PDict enc) m !! key = Some (PDict e) ∧ e !! k = Some v ∧ norm v = norm w.
Proof.
  intros Hk Hd Hw. assert (Hp : ∀ t, patcher w t = Some w) by (by destruct w).
  unfold entry_after. destruct (py_eq (dget m key) (PDict enc)) eqn:Ep.
  - unfold dget in Ep. destruct (m !! key) as [v|]; [|done]. simpl in Ep.
    destruct v as [| | | | | |e]; try done.
    apply bool_decide_eq_true in Ep. injection Ep as Ep.
    assert (norm <$> e !! k = Some (norm w)) as Hn by (by rewrite <-lookup_fmap, Ep, lookup_fmap, Hk).
    destruct (e !! k) as [v|] eqn:Ee; [|done]. exists e, v. split_and!; [done|done|]. by injection Hn.
  - destruct (evicts key (PDict enc) m).
    + rewrite lookup_cap_patch, decide_True, patcher_dict by done. eexists _, w. split; [done|].
      by rewrite lookup_merge_dict, Hk, Hp.
    + rewrite patcher_dict, lookup_insert_eq. eexists _, w. split; [done|].
      by rewrite lookup_merge_dict, Hk, Hp.
Qed.

Section after_write.
Context {W P : Type} `{StatusServer W} `{Entropy W} `{StatusEventSink W P} `{KeyOrder}.
Context (self : Store).
Implicit Types s : st W P.

(** The texts of a stored record are in the entry afterwards. *)
Lemma set_record_member `{!SinkSpec (P:=P) self} {R} `{Codec R} field key (r : R) k t s s' :
  field_ok (doc self s) field → field ≠ DEFERRED_EVENTS → to_dict r !! k = Some (PStr t) →
  set_record self field key r s = (Ok tt, s') →
  ∃ e, map_of (doc self s') field !! key = Some (PDict e) ∧ e !! k = Some (PStr t).
Proof.
  intros Hok Hf Hk E. apply set_map_entry_run in E as (_ & -> & _); [|done..]. by apply entry_after_member.
Qed.

Lemma dget_map_of d field key :
  match dget d field with PDict m => dget m key | _ => PNone end = dget (map_of d field) key.
Proof. unfold map_of. by destruct (dget d field). Qed.

Lemma mark_escalated_marks id t o s s' :
  mark_soft_stop_escalated self id t o s = (Ok tt, s') →
  ∃ e, map_of (doc self s') SOFT_STOPS !! id = Some (PDict e) ∧
    e !! "escalatedAt" = Some (iso_pv t) ∧ e !! "escalationOutcome" = Some (PStr o).
Proof.
  intros E. unfold mark_soft_stop_escalated in E.
  apply mutate_stable_run in E as [_ (p & Ho & ->)]; [|by intros ? []].
  revert Ho. unfold mark_escalated_patch. rewrite dget_map_of.
  destruct (dget (map_of (doc self s) SOFT_STOPS) id) as [| | | | | |cur] eqn:Ecur; try done.
  set (enc := <["escalationOutcome" := PStr o]> _).
  assert (Hlk : map_of (doc self s) SOFT_STOPS !! id = Some (PDict cur)).
  { unfold dget in Ecur. destruct (_ !! id); naive_solver. }
  assert (Qa : enc !! "escalatedAt" = Some (PStr (isoformat t))).
  { unfold enc. by rewrite lookup_insert_ne, lookup_insert_eq by done. }
  assert (Qb : enc !! "escalationOutcome" = Some (PStr o)) by (by unfold enc; rewrite lookup_insert_eq).
  destruct (py_eq (PDict enc) (PDict cur)) eqn:Ep; intros [= <-].
  - exists cur. split; [done|].
    assert (py_eq (PDict cur) (PDict enc) = true) as Ep2.
    { apply bool_decide_eq_true. symmetry. by apply bool_decide_eq_true in Ep. }
    split; by eapply py_eq_dict_str.
  - destruct (patch_effect_field (doc self s) SOFT_STOPS {[id := PDict enc]}) as [Q1 _].
    unfold map_of at 1, dget. rewrite Q1. cbn. rewrite merge_dict_singleton, patcher_dict, lookup_insert_eq.
    eexists. split; [done|]. by rewrite !lookup_merge_dict, Qa, Qb.
Qed.
End after_write.
