(* ===== verification/StatusScalars.v ===== *)
(** * Scalars of the status

    What the typed accessors of the single-valued status fields do to the
    document, and when the other services leave it alone. *)
From S2P Require Import Prelude PyValue Effects Logic PyTime Services StatusRecords StatusStore StatusStoreFacts.

Section scalars.
Context {W P : Type} `{StatusServer W} `{Entropy W} `{StatusEventSink W P} `{KeyOrder}.
Context (store : Store).
Implicit Types s : st W P.

(** The effect of writing [v] to a field whose document is [d]. *)
Definition scalar_after (field : string) (v : pv) (d : gmap string pv) : gmap string pv :=
  if py_eq (dget d field) v then d
  else match patcher v (dget d field) with
       | Some w => <[field := w]> d
       | None => delete field d
       end.

Definition scalar_patch (field : string) (v : pv) (d : gmap string pv) : option pv :=
  if py_eq (dget d field) v then None else Some (status_patch {[field := v]}).

Lemma scalar_patch_effect field v d :
  match scalar_patch field v d with Some p => patch_effect d p | None => d end = scalar_after field v d.
Proof.
  unfold scalar_patch, scalar_after. destruct (py_eq _ _); [done|].
  unfold patch_effect, status_patch. rewrite lookup_singleton_eq. by rewrite merge_dict_singleton.
Qed.

(** A write that returns leaves the new document; one that raises leaves the
    old or the new one. *)
Lemma scalar_write_run field v s r s' :
  _mutate store (pure_patch (scalar_patch field v)) tt s = (r, s') →
  frame store s s' ∧
  match r with
  | Ok _ => doc store s' = scalar_after field v (doc store s)
  | Raise _ => doc store s' = doc store s ∨ doc store s' = scalar_after field v (doc store s)
  end.
Proof.
  intros E. apply (mutate_stable_run store) in E as [Hf Hr]; [|by intros ? []]. split; [done|].
  rewrite <-scalar_patch_effect. unfold pure_patch in Hr. destruct r as [x|e].
  - destruct Hr as (o & [= <-] & ->). done.
  - destruct Hr as [->|(p & x & [= Ep] & ->)]; [by left|right]. by rewrite Ep.
Qed.

Lemma set_scalar_run field t s r s' :
  _set_scalar store field t s = (r, s') →
  frame store s s' ∧
  match r with
  | Ok _ => doc store s' = scalar_after field (default PNone (iso_pv <$> t)) (doc store s)
  | Raise _ => doc store s' = doc store s ∨
               doc store s' = scalar_after field (default PNone (iso_pv <$> t)) (doc store s)
  end.
Proof. apply scalar_write_run. Qed.

Lemma set_int_run field n s r s' :
  _set_int store field n s = (r, s') →
  frame store s s' ∧
  match r with
  | Ok _ => doc store s' = scalar_after field (PInt n) (doc store s)
  | Raise _ => doc store s' = doc store s ∨ doc store s' = scalar_after field (PInt n) (doc store s)
  end.
Proof. apply scalar_write_run. Qed.

Lemma scalar_after_ne field v d f : f ≠ field → scalar_after field v d !! f = d !! f.
Proof. intros Hf. unfold scalar_after. destruct (py_eq _ _); [done|]. destruct (patcher _ _); by simplify_map_eq. Qed.

Lemma norm_none v : norm v = PNone → v = PNone.
Proof. by destruct v. Qed.

(** The field reads back as written. *)
Lemma scalar_after_time field t d :
  dget (scalar_after field (default PNone (iso_pv <$> t)) d) field = default PNone (iso_pv <$> t).
Proof.
  unfold scalar_after, dget. destruct (py_eq _ _) eqn:E.
  - apply bool_decide_eq_true in E. destruct t as [t|]; simpl in *; [by apply norm_str|by apply norm_none].
  - destruct t as [t|]; simpl; by simplify_map_eq.
Qed.

Lemma scalar_after_int field n d :
  py_eq (dget (scalar_after field (PInt n) d) field) (PInt n) = true.
Proof.
  unfold scalar_after. destruct (py_eq (dget d field) (PInt n)) eqn:E; [done|].
  change (patcher (PInt n) (dget d field)) with (Some (PInt n)). cbv iota. unfold dget at 1.
  rewrite lookup_insert_eq. apply py_eq_refl.
Qed.

(** Reads leave the document alone and answer what it holds. *)
Lemma get_scalar_run field s r s' :
  _get_scalar store field s = (r, s') →
  doc store s' = doc store s ∧
  ∀ t, r = Ok t → parse_opt_utc (dget (doc store s) field) ("status." +:+ field) = Ok t.
Proof.
  unfold _get_scalar. destruct (_read_status store s) as [[d|e] s1] eqn:Er;
    pose proof (read_status_run _ _ _ _ Er) as (_ & Hd & Hr).
  - rewrite (bind_run _ _ s d s1) by exact Er. rewrite (Hr d eq_refl). intros [= <- <-]. done.
  - rewrite (bind_raise _ _ s e s1) by exact Er. intros [= <- <-]. done.
Qed.

(** The integer a document holds in a field. *)
Definition int_of (v : pv) : option Z := match v with PNone => Some 0 | PInt z => Some z | _ => None end.

Lemma get_int_run field s r s' :
  _get_int store field s = (r, s') →
  doc store s' = doc store s ∧ ∀ n, r = Ok n → int_of (dget (doc store s) field) = Some n.
Proof.
  unfold _get_int. destruct (_read_status store s) as [[d|e] s1] eqn:Er;
    pose proof (read_status_run _ _ _ _ Er) as (_ & Hd & Hr).
  - rewrite (bind_run _ _ s d s1) by exact Er. rewrite (Hr d eq_refl). unfold of_res. intros [= <- <-].
    split; [done|]. intros n. destruct (dget _ _); simpl; congruence.
  - rewrite (bind_raise _ _ s e s1) by exact Er. intros [= <- <-]. done.
Qed.

Lemma get_scalar_keeps field : within (keeps (doc store)) (_get_scalar (P:=P) store field).
Proof. intros s. destruct (_get_scalar store field s) as [r s'] eqn:E. by apply get_scalar_run in E as [??]. Qed.

Lemma get_int_keeps field : within (keeps (doc store)) (_get_int (P:=P) store field).
Proof. intros s. destruct (_get_int store field s) as [r s'] eqn:E. by apply get_int_run in E as [??]. Qed.
End scalars.

(** ** Computations that leave a document alone *)

Section keeps_doc.
Context {W P : Type} `{StatusServer W} (store : Store).

Lemma ext_keeps_doc {A} a (f : W → res A * W) :
  (∀ w, status_doc (f w).2 = status_doc w) → within (keeps (doc store)) (ext (P:=P) a f).
Proof.
  intros Hf s. unfold ext, keeps, doc. specialize (Hf (world s)).
  destruct (f (world s)) as [r w]. simpl in *. by rewrite Hf.
Qed.

Lemma put_part_keeps_doc {C} `{Lens P C} (c : C) : within (keeps (doc store)) (put_part (W:=W) (P:=P) c).
Proof. by intros s. Qed.

Lemma get_part_keeps_doc {C} `{Lens P C} : within (keeps (doc store)) (get_part (W:=W) (P:=P) (C:=C)).
Proof. by intros s. Qed.

Lemma act_keeps_doc a : within (keeps (doc store)) (act (W:=W) (P:=P) a).
Proof. by intros s. Qed.
End keeps_doc.

#[export] Hint Resolve put_part_keeps_doc get_part_keeps_doc act_keeps_doc : within.
