(* ===== verification/Events.v ===== *)
(** * Events ([events.py], [events_sinks.py])

    The per-tick emitter with its dry-run gate, and the process-wide queue of
    warnings raised outside a tick, which the next tick flushes.  The queue is
    a cell of the process memory; its durable copy is the [deferredEvents] list
    of the CR status. *)
From S2P Require Import Prelude PyValue Effects Logic Services StatusRecords StatusStore.

(** [isinstance(v, Mapping)] and [metadata] of a body *)
Definition mapping (v : pv) : option (gmap string pv) := as_dict v.

Definition metadata_of (body : pv) : option (gmap string pv) :=
  m ← mapping body; mapping (dget m "metadata").

(** [str(meta.get(k) or d)] *)
Definition meta_str (meta : option (gmap string pv)) (k d : string) : string :=
  match meta with Some m => py_str (py_or (dget m k) (PStr d)) | None => d end.

(** ** [EventEmitter] *)

(** [emit_kopf_event] *)
Definition emit_kopf_event {W P} `{KopfApi W} (obj : pv) (event_type reason message : string) : M W P unit :=
  kopf_event obj event_type reason message.

Record EventEmitter := MkEventEmitter { emitter_body : pv; emitter_dry_run : pv }.

(** The count of suppressed Events the emitter object keeps. *)
Record EmitterCount := MkEmitterCount { suppressed_count : Z }.

Definition emitter_labels (e : EventEmitter) (reason : string) : labels :=
  [("namespace", meta_str (metadata_of (emitter_body e)) "namespace" "<unknown>");
   ("name", meta_str (metadata_of (emitter_body e)) "name" "<unknown>"); ("reason", reason)].

Section emitter.
Context {W P : Type} `{KopfApi W} `{Lens P EmitterCount}.

Definition emit (self : EventEmitter) (event_type reason message : string) : M W P unit :=
  if truthy (emitter_dry_run self) then
    n ← get_part (C:=EmitterCount);
    put_part (MkEmitterCount (suppressed_count n + 1));;
    inc "EVENTS_DRY_RUN_SUPPRESSED_TOTAL" (emitter_labels self reason)
  else
    try_except (kopf_event (emitter_body self) event_type reason message)
      (λ e, Some (inc "EVENTS_EMIT_FAILURES_TOTAL" (emitter_labels self reason);; raise e));;
    inc "EVENTS_EMITTED_TOTAL" (emitter_labels self reason).
End emitter.

(** ** [QueuedKopfEventSink] *)

Definition MAX_DEFERRED_WARNING_EVENTS : Z := 1000.
Definition DROP_REASON_QUEUE_FULL := "queue_full".

Record deferred := Deferred {
  def_namespace : string;
  def_name : string;
  def_reason : string;
  def_message : string;
}.

#[export] Instance deferred_eq_dec : EqDecision deferred.
Proof. solve_decision. Defined.

Record SinkQueue := MkSinkQueue { queue : list deferred }.

(** [msg[0] == namespace and msg[1] == name] *)
Definition is_for (namespace name : string) (d : deferred) : bool :=
  String.eqb (def_namespace d) namespace && String.eqb (def_name d) name.

Section sink.
Context {W P : Type}.
Context `{CustomObjectsApi W} `{Entropy W} `{KopfApi W} `{Lens P SinkQueue}.
(** [_store_factory]: [None] when none is set; the construction may raise. *)
Context (store_factory : option (string → string → M W P Store)).

Definition depth_gauge : M W P unit :=
  q ← get_part (C:=SinkQueue);
  gauge "WARNINGS_DEFERRED_QUEUE_DEPTH" [] (MInt (Z.of_nat (length (queue q)))).

Definition _store_for (namespace name : string) : M W P (option Store) :=
  match store_factory with
  | None => mret None
  | Some factory =>
      try_except (s ← factory namespace name; mret (Some s)) (λ _, Some (mret None))
  end.

Definition entry_of (d : deferred) : gmap string string :=
  {["namespace" := def_namespace d; "name" := def_name d; "reason" := def_reason d; "message" := def_message d]}.

Definition _persist (d : deferred) : M W P unit :=
  store ← _store_for (def_namespace d) (def_name d);
  match store with
  | None => mret tt
  | Some store =>
      try_except (append_deferred_event store (entry_of d) (Some MAX_DEFERRED_WARNING_EVENTS))
        (λ _, Some (mret tt))
  end.

Definition defer_to_next_tick (d : deferred) : M W P unit :=
  q ← get_part (C:=SinkQueue);
  (if MAX_DEFERRED_WARNING_EVENTS <=? Z.of_nat (length (queue q)) then
     inc "WARNINGS_DEFERRED_DROPPED_TOTAL" [("reason", DROP_REASON_QUEUE_FULL)]
   else
     put_part (MkSinkQueue (queue q ++ [d]));;
     _persist d);;
  depth_gauge.

(** The object an Event is attached to. *)
Definition cr_ref (namespace name : string) : pv :=
  PDict {["metadata" := PDict {["namespace" := PStr namespace; "name" := PStr name]} ]}.

Definition emit_deferred (namespace name : string) (reason message : string) : M W P unit :=
  emit_kopf_event (cr_ref namespace name) "Warning" reason message.

(** [str(entry.get(k) or "")] of a persisted entry *)
Definition persisted_field (entry : gmap string string) (k : string) : string := default "" (entry !! k).

Definition persisted_deferred (namespace name : string) (entry : gmap string string) : deferred :=
  Deferred namespace name (persisted_field entry "reason") (persisted_field entry "message").

(** The persisted entries, none when they cannot be read. *)
Definition read_persisted (store : option Store) : M W P (list (gmap string string)) :=
  match store with
  | None => mret []
  | Some store => try_except (get_deferred_events store) (λ _, Some (mret []))
  end.

Definition clear_persisted (store : option Store) : M W P unit :=
  match store with
  | None => mret tt
  | Some store => try_except (clear_deferred_events store) (λ _, Some (mret tt))
  end.

(** The queued entries not already emitted from their durable copy. *)
Definition fresh_entries (persisted pending : list deferred) : list deferred :=
  filter (.∉ persisted) pending.

Definition flush_for (namespace name : string) : M W P Z :=
  q ← get_part (C:=SinkQueue);
  let pending := filter (λ d, is_for namespace name d = true) (queue q) in
  store ← _store_for namespace name;
  entries ← read_persisted store;
  if bool_decide (pending = []) && bool_decide (entries = []) then depth_gauge;; mret 0
  else
    let persisted := persisted_deferred namespace name <$> entries in
    foreach persisted (λ d, emit_deferred namespace name (def_reason d) (def_message d));;
    when (negb (bool_decide (entries = []))) (clear_persisted store);;
    let fresh := fresh_entries persisted pending in
    foreach fresh (λ d, emit_deferred namespace name (def_reason d) (def_message d));;
    q ← get_part (C:=SinkQueue);
    put_part (MkSinkQueue (filter (λ d, is_for namespace name d = false) (queue q)));;
    depth_gauge;;
    mret (Z.of_nat (length persisted + length fresh)).

(** [queued] and [clear] *)
Definition queued : M W P (list deferred) := q ← get_part (C:=SinkQueue); mret (queue q).
Definition clear_queue : M W P unit := put_part (MkSinkQueue []).
End sink.
