(* ===== verification/AnalysisSla.v ===== *)
(** * The analysis SLA monitor ([handlers/analysis_sla.py])

    One tick of the monitor: anchors for the analyses first seen started, then
    per anchor soft stop, waiting stop and escalation to worker-pod eviction.
    The event emitter and the Redis client are arguments, as in the code; the
    REST client and the status store are the modelled components. *)
From S2P Require Import Prelude PyValue Effects Logic PyTime Services Config StatusRecords StatusStore RestClient.

Definition ANALYSIS_SOFT_STOPPED_EVENT := "AnalysisSoftStopped".
Definition ANALYSIS_ESCALATED_EVENT := "AnalysisEscalated".
Definition ANALYSIS_STOPPED_EVENT := "AnalysisStopped".
Definition STOP_WAIT_TIMEOUT_SECONDS : Z := 60.

Definition _STARTED := "started".
Definition _OUTCOME_WATCHING := "watching".
Definition _OUTCOME_ISSUED := "issued".
Definition _OUTCOME_DRY_RUN := "dry-run".
Definition _OUTCOME_COMPLETED := "completed".
Definition _OUTCOME_TIMEOUT := "timeout".
Definition ESCALATION_EVICTED := "evicted".
Definition ESCALATION_EVICTED_PARTIAL := "evicted-partial".
Definition ESCALATION_NO_MATCH := "no-matching-pods".
Definition ESCALATION_DRY_RUN := "dry-run".

Record SlaTickResult := MkSlaTickResult {
  soft_stopped : list string;
  escalated : list string;
  stopped : list string;
}.

(** [RedisClientLike]: what the escalation path reads of Redis. *)
Record RedisClientLike (W P : Type) := MkRedisClientLike {
  workers_for_analysis : string → M W P (list string);
  pod_name_for_worker : string → option string;
}.
Arguments MkRedisClientLike {W P}.
Arguments workers_for_analysis {W P}.
Arguments pod_name_for_worker {W P}.

(** [timedelta(minutes=v)] of a configured number *)
Definition config_minutes (v : pv) : res Z := n ← config_number v; timedelta (n * us_minute).

(** [len(v)] *)
Definition py_len (v : pv) : res Z :=
  match v with
  | PList l => Ok (Z.of_nat (length l))
  | PDict m => Ok (Z.of_nat (size m))
  | PStr s => Ok (Z.of_nat (String.length s))
  | v => Raise (TypeError ("object of type " +:+ type_name v +:+ " has no len()"))
  end.

Section sla.
Context {W P : Type}.
Context `{CustomObjectsApi W} `{Entropy W} `{StatusEventSink W P} `{KeyOrder} `{HttpApi W} `{CoreV1Api W}.
Context (client : OpenStudioClient) (store : Store) (config : OperatorConfig) (now : Z).
Context (emit : string → string → string → M W P unit) (namespace : string).
(** Whether a [pod_api] was given, and the Redis client if there is one. *)
Context (pod_api : bool) (redis_client : option (RedisClientLike W P)).

(** ** First sight *)

Definition _status_is_started (analysis_id : string) : M W P bool :=
  payload ← get_analysis_status client analysis_id;
  of_res match payload with
  | PDict m =>
      match dget m "analysis" with
      | PDict analysis => Ok (py_eq (dget analysis "status") (PStr _STARTED))
      | _ =>
          match dget m "analyses" with
          | PList (first :: _) => status ← py_get first "status"; Ok (py_eq status (PStr _STARTED))
          | _ => Ok false
          end
      end
  | _ => Ok false
  end.

(** One document of the listing: [started_ids] grows by the analyses that are
    started; one without an anchor gets its watching anchor. *)
Definition observe_analysis (soft_stops : list (string * SoftStopRecord.t)) (started_ids : gset string)
    (doc : pv) : M W P (gset string) :=
  raw_id ← of_res (py_get doc "_id");
  let analysis_id := str_or_empty raw_id in
  if String.eqb analysis_id "" then mret started_ids
  else if bool_decide (analysis_id ∈ soft_stops.*1) then
    started ← _status_is_started analysis_id;
    mret (if (started : bool) then {[analysis_id]} ∪ started_ids else started_ids)
  else
    started ← _status_is_started analysis_id;
    if (started : bool) then
      set_soft_stop store analysis_id (SoftStopRecord.Make now _OUTCOME_WATCHING None None);;
      mret ({[analysis_id]} ∪ started_ids)
    else mret started_ids.

(** ** Escalation *)

(** The workers that run the analysis and have a live pod in the namespace, in
    the order Redis lists them. *)
Definition _resque_matched_worker_pods (analysis_id : string) : M W P (list (string * string)) :=
  match redis_client with
  | None => raise (AttributeError "NoneType object has no attribute workers_for_analysis")
  | Some redis =>
      worker_ids ← workers_for_analysis redis analysis_id;
      match worker_ids with
      | [] => mret []
      | _ =>
          pods ← observe_duration "KUBE_API_REQUEST_DURATION_SECONDS" [("verb", "list")]
            (if pod_api then list_namespaced_pod namespace None else mret []);
          let candidates : gset string :=
            list_to_set (filter (λ n, n ≠ "") (omap pod_name pods)) in
          mret (omap (λ worker_id,
            pod ← pod_name_for_worker redis worker_id;
            if bool_decide (pod ∈ candidates) then Some (pod, worker_id) else None) worker_ids)
      end
  end.

(** The eviction loop: how many pods were deleted, how many deletions failed,
    and the last failure. *)
Record eviction := MkEviction { evicted_count : Z; failed_count : Z; last_failure : option exn }.

Definition evict_one (dry : bool) (grace_seconds : option Z) (e : eviction) (victim : string * string)
  : M W P eviction :=
  if dry then mret (MkEviction (evicted_count e + 1) (failed_count e) (last_failure e))
  else
    try_except
      (observe_duration "KUBE_API_REQUEST_DURATION_SECONDS" [("verb", "delete")]
         (delete_namespaced_pod victim.1 namespace grace_seconds);;
       mret (MkEviction (evicted_count e + 1) (failed_count e) (last_failure e)))
      (λ exc, if is_api_exception exc
              then Some (mret (MkEviction (evicted_count e) (failed_count e + 1) (Some exc)))
              else None).

Definition escalation_outcome (dry : bool) (e : eviction) : string :=
  if dry then ESCALATION_DRY_RUN
  else if evicted_count e =? 0 then ESCALATION_NO_MATCH
  else if 0 <? failed_count e then ESCALATION_EVICTED_PARTIAL
  else ESCALATION_EVICTED.

(** [last_failure is not None and (last_failure.status != 404 or evicted_count == 0)] *)
Definition eviction_failure (e : eviction) : option exn :=
  match last_failure e with
  | Some (ApiException status reason) =>
      if negb (status =? 404) || (evicted_count e =? 0) then Some (ApiException status reason) else None
  | _ => None
  end.

Definition escalation_message (analysis_id : string) (issued_at : Z) (victims : list (string * string))
    (force dry : bool) : string :=
  "Analysis " +:+ analysis_id +:+ " still started " +:+ str_of_Z ((now - issued_at) / us_minute) +:+
  "m after soft stop (gracefulStopTimeoutMinutes=" +:+
  py_str (graceful_stop_timeout_minutes (analysis_policy config)) +:+
  ") — escalating to worker-pod eviction (issue #83 D2: Resque worker-identity path): " +:+
  (match victims with
   | [] => "no Resque workers currently processing this analysis (worker set empty or no payload match)"
   | _ => "delete " +:+ join ", " ((λ v, v.1 +:+ " (worker " +:+ v.2 +:+ ")") <$> victims) +:+
          (if force then "; grace_period_seconds=0 (immediate kill)" else "; default grace (drain)")
   end) +:+
  (if dry then " — pod deletions suppressed (spec.dryRun)" else "").

Definition _escalate_analysis (analysis_id : string) (record : SoftStopRecord.t) : M W P string :=
  victims ← _resque_matched_worker_pods analysis_id;
  let force := config_flag (force_delete_on_escalation (analysis_policy config)) in
  let dry := config_flag (dry_run config) in
  let grace_seconds := if force then Some 0 else None in
  e ← fold_m (evict_one dry grace_seconds) (MkEviction 0 0 None) victims;
  let outcome := escalation_outcome dry e in
  when (0 <? evicted_count e)
    (act (MetricInc "WORKER_PODS_EVICTED_TOTAL" [("outcome", outcome)] (evicted_count e)));;
  match eviction_failure e with
  | Some exc => raise exc
  | None =>
      emit "Warning" ANALYSIS_ESCALATED_EVENT
        (escalation_message analysis_id (SoftStopRecord.issued_at record) victims force dry);;
      mark_soft_stop_escalated store analysis_id now outcome;;
      mret outcome
  end.

(** ** Grace and escalation *)

Definition issued_outcome : string :=
  if config_flag (dry_run config) then _OUTCOME_DRY_RUN else _OUTCOME_ISSUED.

Definition soft_stop_message (analysis_id : string) (runtime : Z) : string :=
  "Analysis " +:+ analysis_id +:+ " runtime " +:+ str_of_Z (runtime / us_minute) +:+
  "m exceeds maxDurationMinutes=" +:+ py_str (max_duration_minutes (analysis_policy config)) +:+
  " (operator-first-sight clock; issue #83 D1)" +:+
  (if config_flag (dry_run config) then " — soft stop suppressed (spec.dryRun)"
   else " — soft stop issued").

(** Runtime over the limit: soft stop once. *)
Definition issue_soft_stop (analysis_id : string) (record : SoftStopRecord.t) : M W P unit :=
  when (negb (config_flag (dry_run config))) (soft_stop_analysis client analysis_id);;
  emit "Warning" ANALYSIS_SOFT_STOPPED_EVENT
    (soft_stop_message analysis_id (now - SoftStopRecord.issued_at record));;
  inc "SOFT_STOPS_TOTAL" [("outcome", issued_outcome)];;
  set_soft_stop store analysis_id
    (SoftStopRecord.Make (SoftStopRecord.issued_at record) issued_outcome None None).

(** First tick past grace: the waiting stop, once. *)
Definition issue_stop (analysis_id : string) : M W P unit :=
  let dry := config_flag (dry_run config) in
  when (negb dry) (stop_analysis client analysis_id);;
  emit "Warning" ANALYSIS_STOPPED_EVENT
    ("Analysis " +:+ analysis_id +:+ " still started after graceful stop; issuing stop_analysis" +:+
     (if dry then " — stop suppressed (spec.dryRun)" else ""));;
  inc "STOP_STOPS_TOTAL" [("outcome", issued_outcome)];;
  set_stop_record store analysis_id (StopRecord.Make now issued_outcome None).

(** What the stop stage asks of the rest of the iteration. *)
Inductive stop_stage := StopDone (stopped : bool) | StopEscalate (stopped : bool).

Definition stop_was_recorded (r : option StopRecord.t) : bool :=
  match r with Some r => opt_is_some (StopRecord.stopped_at r) | None => false end.

(** The stage between grace and escalation for an anchor of outcome [issued]. *)
Definition stop_before_escalation (analysis_id : string) : M W P stop_stage :=
  existing ← get_stop_record store analysis_id;
  '(stop_record, just_set) ←
    match existing with
    | None =>
        issue_stop analysis_id;;
        fetched ← get_stop_record store analysis_id;
        mret (fetched, true)
    | Some r => mret (Some r, false)
    end;
  match stop_record with
  | Some (StopRecord.Make issued outcome (Some at_)) =>
      set_stop_record store analysis_id (StopRecord.Make issued _OUTCOME_COMPLETED (Some at_));;
      prune_stop_record store analysis_id;;
      mret (StopDone just_set)
  | _ =>
      if (just_set : bool) then mret (StopEscalate true)
      else
        match stop_record with
        | None => raise (AttributeError "NoneType object has no attribute issued_at")
        | Some r =>
            if STOP_WAIT_TIMEOUT_SECONDS * us_second <? now - StopRecord.issued_at r then
              set_stop_record store analysis_id
                (StopRecord.Make (StopRecord.issued_at r) _OUTCOME_TIMEOUT (Some now));;
              inc "STOP_STOPS_TOTAL" [("outcome", _OUTCOME_TIMEOUT)];;
              mret (StopEscalate false)
            else mret (StopDone false)
        end
  end.

Definition escalate_step (analysis_id : string) (record : SoftStopRecord.t) (acc : SlaTickResult)
  : M W P SlaTickResult :=
  _escalate_analysis analysis_id record;;
  mret (MkSlaTickResult (soft_stopped acc) (escalated acc ++ [analysis_id]) (stopped acc)).

Definition add_stopped (analysis_id : string) (acc : SlaTickResult) : SlaTickResult :=
  MkSlaTickResult (soft_stopped acc) (escalated acc) (stopped acc ++ [analysis_id]).

(** The body of the loop over the anchors. *)
Definition grace_step (grace max_runtime : Z) (started_ids : gset string) (acc : SlaTickResult)
    (anchor : string * SoftStopRecord.t) : M W P SlaTickResult :=
  let '(analysis_id, record) := anchor in
  if bool_decide (analysis_id ∉ started_ids) then
    clear_soft_stop store analysis_id;; mret acc
  else if opt_is_some (SoftStopRecord.escalated_at record) then mret acc
  else
    let runtime := now - SoftStopRecord.issued_at record in
    if String.eqb (SoftStopRecord.outcome record) _OUTCOME_WATCHING && (max_runtime <? runtime) then
      issue_soft_stop analysis_id record;;
      mret (MkSlaTickResult (soft_stopped acc ++ [analysis_id]) (escalated acc) (stopped acc))
    else if runtime <=? grace then mret acc
    else if String.eqb (SoftStopRecord.outcome record) _OUTCOME_ISSUED then
      stage ← stop_before_escalation analysis_id;
      match stage with
      | StopDone b => mret (if b then add_stopped analysis_id acc else acc)
      | StopEscalate b => escalate_step analysis_id record (if b then add_stopped analysis_id acc else acc)
      end
    else escalate_step analysis_id record acc.

Definition _grace_and_escalate (started_ids : gset string) : M W P SlaTickResult :=
  grace ← of_res (config_minutes (graceful_stop_timeout_minutes (analysis_policy config)));
  max_runtime ← of_res (config_minutes (max_duration_minutes (analysis_policy config)));
  anchors ← get_soft_stops store;
  fold_m (grace_step grace max_runtime started_ids) (MkSlaTickResult [] [] []) anchors.

(** ** The tick *)

Definition run_sla_tick : M W P SlaTickResult :=
  if negb (config_flag (auto_soft_stop (analysis_policy config))) then mret (MkSlaTickResult [] [] [])
  else
    soft_stops ← get_soft_stops store;
    analyses ← list_analyses client;
    n ← of_res (py_len analyses);
    act (MetricObserve "ANALYSIS_DATAPOINT_COUNT" [("view", "analyses_per_tick")]);;
    docs ← of_res (py_iter analyses);
    started_ids ← fold_m (observe_analysis soft_stops) ∅ docs;
    _grace_and_escalate started_ids.
End sla.
