(* ===== verification/DatapointWatchdog.v ===== *)
(** * The datapoint watchdog ([handlers/datapoint_watchdog.py])

    One tick: track since when each started datapoint is running, requeue the
    overdue ones within their budget, and every tenth tick prune the anchors
    whose datapoint or analysis has been absent for three checks in a row.
    The tick's exhaustion set and prune state live in the operator's memory. *)
From S2P Require Import Prelude PyValue Effects Logic PyTime Services Config StatusRecords StatusStore RestClient AnalysisSla.

Definition STATUS_ANCHOR_PRUNE_EVERY_N_TICKS : Z := 10.
Definition STATUS_ANCHOR_PRUNE_GONE_CONFIRMATIONS : Z := 3.

Definition DATAPOINT_REQUEUED_EVENT := "DatapointRequeued".
Definition DATAPOINT_REQUEUE_EXHAUSTED_EVENT := "DatapointRequeueExhausted".
Definition STATUS_ANCHORS_PRUNED_EVENT := "StatusAnchorsPruned".

Record AnchorPruneState := MkAnchorPruneState {
  ticks : Z;
  absent_datapoints : gmap string Z;
  absent_analyses : gmap string Z;
}.

(** [exhausted_seen]: the datapoints already warned about. *)
Record ExhaustedSeen := MkExhaustedSeen { seen_ids : gset string }.

(** The non-empty ids of the documents, in order, without repetition. *)
Fixpoint datapoint_ids_from (seen : gset string) (docs : list pv) : res (list string) :=
  match docs with
  | [] => Ok []
  | doc :: docs =>
      raw ← py_get doc "_id";
      let dp_id := str_or_empty raw in
      if negb (String.eqb dp_id "") && bool_decide (dp_id ∉ seen) then
        rest ← datapoint_ids_from ({[dp_id]} ∪ seen) docs; mret (dp_id :: rest)
      else datapoint_ids_from seen docs
  end.

Definition _datapoint_ids `{KeyOrder} (docs : pv) : res (list string) :=
  l ← py_iter docs; datapoint_ids_from ∅ l.

(** [_bump_absences]: in-place update of the counters, as a function. *)
Definition bump_one (live : gset string) (counters : gmap string Z) (key : string) : gmap string Z :=
  if bool_decide (key ∈ live) then delete key counters
  else <[key := default 0 (counters !! key) + 1]> counters.

Definition _bump_absences (counters : gmap string Z) (tracked live : gset string) : gmap string Z :=
  filter (λ kv, kv.1 ∈ tracked) (foldl (bump_one live) counters (elements tracked)).

(** The keys whose count reached the confirmations. *)
Definition confirmed_of (counters : gmap string Z) : gset string :=
  dom (filter (λ kv, STATUS_ANCHOR_PRUNE_GONE_CONFIRMATIONS <= kv.2) counters).

Definition keys_of {A} (l : list (string * A)) : gset string := list_to_set l.*1.

Definition pop_all (counters : gmap string Z) (keys : gset string) : gmap string Z :=
  filter (λ kv, kv.1 ∉ keys) counters.

Definition pruned_message (pruned : list (string * list string)) : string :=
  let count f := Z.of_nat (length (default [] ((list_to_map pruned : gmap string (list string)) !! f))) in
  "Status-anchor hygiene pruned " +:+ str_of_Z (Z.of_nat (length pruned)) +:+ " map(s) — " +:+
  join ", " ((λ f, f +:+ ": " +:+ str_of_Z (count f)) <$> sorted_strings pruned.*1) +:+
  "; ids absent from every live view for " +:+ str_of_Z STATUS_ANCHOR_PRUNE_GONE_CONFIRMATIONS +:+
  " consecutive heavy checks (issue #648). Live anchors and their D06 budgets are untouched.".

Section watchdog.
Context {W P : Type}.
Context `{CustomObjectsApi W} `{Entropy W} `{StatusEventSink W P} `{KeyOrder} `{SetOrder} `{HttpApi W}.
Context `{Lens P AnchorPruneState} `{Lens P ExhaustedSeen}.
Context (client : OpenStudioClient) (store : Store) (config : OperatorConfig) (now : Z).
Context (emit : string → string → string → M W P unit).

(** ** Anchor hygiene *)

Definition prune_confirmed (live_datapoints live_analyses : gset string) (state : AnchorPruneState)
    (confirmed_datapoints confirmed_analyses : gset string) : M W P unit :=
  let prune_datapoint_live := live_datapoints ∪ (dom (absent_datapoints state) ∖ confirmed_datapoints) in
  let prune_analysis_live := live_analyses ∪ (dom (absent_analyses state) ∖ confirmed_analyses) in
  pruned ← prune store (Some prune_analysis_live) (Some prune_datapoint_live);
  put_part (MkAnchorPruneState (ticks state)
    (pop_all (absent_datapoints state) confirmed_datapoints)
    (pop_all (absent_analyses state) confirmed_analyses));;
  match pruned with
  | [] => mret tt
  | _ => emit "Normal" STATUS_ANCHORS_PRUNED_EVENT (pruned_message pruned)
  end.

Definition _run_anchor_hygiene (started_ids : list string) : M W P unit :=
  requeues ← get_requeues store;
  soft_stops ← get_soft_stops store;
  archived ← get_archived_analyses store;
  let tracked_datapoints := keys_of requeues in
  let tracked_analyses := keys_of soft_stops ∪ keys_of archived in
  state ← get_part;
  if bool_decide (tracked_datapoints = ∅ ∧ tracked_analyses = ∅) then
    put_part (MkAnchorPruneState (ticks state) ∅ ∅)
  else
    datapoints ← list_datapoints client;
    datapoint_ids ← of_res (_datapoint_ids datapoints);
    analyses ← list_analyses client;
    analysis_ids ← of_res (_datapoint_ids analyses);
    let live_datapoints : gset string := list_to_set started_ids ∪ list_to_set datapoint_ids in
    let live_analyses : gset string := list_to_set analysis_ids in
    let state := MkAnchorPruneState (ticks state)
      (_bump_absences (absent_datapoints state) tracked_datapoints live_datapoints)
      (_bump_absences (absent_analyses state) tracked_analyses live_analyses) in
    put_part state;;
    let confirmed_datapoints := confirmed_of (absent_datapoints state) in
    let confirmed_analyses := confirmed_of (absent_analyses state) in
    protect_anchor_keys store REQUEUES live_datapoints;;
    protect_anchor_keys store STARTED_SINCE live_datapoints;;
    protect_anchor_keys store SOFT_STOPS live_analyses;;
    protect_anchor_keys store ARCHIVED_ANALYSES live_analyses;;
    if bool_decide (confirmed_datapoints = ∅ ∧ confirmed_analyses = ∅) then mret tt
    else prune_confirmed live_datapoints live_analyses state confirmed_datapoints confirmed_analyses.

(** ** The tick *)

(** [for departed in set(started_since) - live] *)
Definition clear_departed (live : gset string) (started_since : gmap string Z) : M W P (gmap string Z) :=
  foreach (set_order (dom started_since ∖ live)) (clear_started_since store);;
  mret (filter (λ kv, kv.1 ∈ live) started_since).

Definition anchor_started (started_since : gmap string Z) (dp_id : string) : M W P (gmap string Z) :=
  match started_since !! dp_id with
  | Some _ => mret started_since
  | None => set_started_since store dp_id now;; mret (<[dp_id := now]> started_since)
  end.

Definition exhausted_message (dp_id : string) (runtime budget max_requeues : Z) : string :=
  "Datapoint " +:+ dp_id +:+ " runtime " +:+ str_of_Z (runtime / us_minute) +:+
  "m exceeds maxDatapointRuntimeMinutes=" +:+
  py_str (max_datapoint_runtime_minutes (datapoint_policy config)) +:+
  " with requeue budget exhausted (" +:+ str_of_Z budget +:+ "/" +:+
  py_str (max_auto_requeues (datapoint_policy config)) +:+ ") — no further action (no auto-escalation)".

Definition requeue_message (dp_id : string) (runtime budget : Z) : string :=
  "Datapoint " +:+ dp_id +:+ " runtime " +:+ str_of_Z (runtime / us_minute) +:+
  "m exceeds maxDatapointRuntimeMinutes=" +:+
  py_str (max_datapoint_runtime_minutes (datapoint_policy config)) +:+
  " — requeue " +:+ str_of_Z (budget + 1) +:+ "/" +:+
  py_str (max_auto_requeues (datapoint_policy config)) +:+
  (if config_flag (dry_run config) then " suppressed (spec.dryRun)" else " issued").

(** The budget is spent: warn once. *)
Definition warn_exhausted (dp_id : string) (runtime budget max_requeues : Z) : M W P unit :=
  seen ← get_part;
  if bool_decide (dp_id ∈ seen_ids seen) then mret tt
  else
    put_part (MkExhaustedSeen ({[dp_id]} ∪ seen_ids seen));;
    emit "Warning" DATAPOINT_REQUEUE_EXHAUSTED_EVENT (exhausted_message dp_id runtime budget max_requeues);;
    inc "DATAPOINTS_REQUEUE_EXHAUSTED_TOTAL" [].

Definition requeue (dp_id : string) (runtime budget : Z) : M W P unit :=
  when (negb (config_flag (dry_run config))) (requeue_datapoint client dp_id);;
  emit "Normal" DATAPOINT_REQUEUED_EVENT (requeue_message dp_id runtime budget);;
  inc "DATAPOINTS_REQUEUED_TOTAL" [];;
  set_requeue store dp_id (RequeueRecord.Make (budget + 1) now);;
  set_started_since store dp_id now.

Definition budget_of (requeues : gmap string RequeueRecord.t) (dp_id : string) : Z :=
  match requeues !! dp_id with Some r => RequeueRecord.count r | None => 0 end.

(** The body of the loop over the started datapoints. *)
Definition zombie_step (max_runtime : Z) (requeues : gmap string RequeueRecord.t)
    (acc : gmap string Z * list string) (dp_id : string) : M W P (gmap string Z * list string) :=
  let '(started_since, requeued) := acc in
  match started_since !! dp_id with
  | None => raise (KeyError dp_id)
  | Some since =>
      let runtime := now - since in
      if runtime <=? max_runtime then mret acc
      else
        let budget := budget_of requeues dp_id in
        max_requeues ← of_res (config_number (max_auto_requeues (datapoint_policy config)));
        if max_requeues <=? budget then
          warn_exhausted dp_id runtime budget max_requeues;; mret acc
        else
          requeue dp_id runtime budget;;
          mret (<[dp_id := now]> started_since, requeued ++ [dp_id])
  end.

Definition run_watchdog_tick : M W P (list string) :=
  max_runtime ← of_res (config_minutes (max_datapoint_runtime_minutes (datapoint_policy config)));
  payload ← list_started_datapoints client;
  started_ids ← of_res (_datapoint_ids payload);
  act (MetricObserve "ANALYSIS_DATAPOINT_COUNT" [("view", "started_datapoints_per_tick")]);;
  known ← get_started_since_map store;
  started_since ← clear_departed (list_to_set started_ids) (list_to_map known);
  started_since ← fold_m anchor_started started_since started_ids;
  requeues ← get_requeues store;
  '(_, requeued) ← fold_m (zombie_step max_runtime (list_to_map requeues)) (started_since, []) started_ids;
  state ← get_part;
  put_part (MkAnchorPruneState (ticks state + 1) (absent_datapoints state) (absent_analyses state));;
  when ((ticks state + 1) mod STATUS_ANCHOR_PRUNE_EVERY_N_TICKS =? 0) (_run_anchor_hygiene started_ids);;
  mret requeued.
End watchdog.
