(* ===== verification/Retention.v ===== *)
(** * The retention tick ([retention.py])

    Archive, verify, delete: the phases of the storage pruner over the tracked
    archival records and over the completed analyses whose retention is over.
    The tick's [RetentionTickResult] is threaded through the loops. *)
From S2P Require Import Prelude PyValue Effects Logic PyTime Services Config StatusRecords StatusStore RestClient AnalysisSla Archival.

Definition ANALYSIS_ARCHIVAL_STARTED_EVENT := "AnalysisArchivalStarted".
Definition ANALYSIS_ARCHIVAL_SUCCEEDED_EVENT := "AnalysisArchivalSucceeded".
Definition ANALYSIS_ARCHIVAL_FAILED_EVENT := "AnalysisArchivalFailed".
Definition ANALYSIS_DELETED_EVENT := "AnalysisDeleted".
Definition _COMPLETED := "completed".
Definition _JOB_COMPLETE := "Complete".
Definition _JOB_FAILED := "Failed".

Record RetentionTickResult := MkRetentionTickResult {
  spawned : list string;
  verified : list string;
  deleted : list string;
}.

Definition add_spawned (id : string) (r : RetentionTickResult) : RetentionTickResult :=
  MkRetentionTickResult (spawned r ++ [id]) (verified r) (deleted r).
Definition add_verified (id : string) (r : RetentionTickResult) : RetentionTickResult :=
  MkRetentionTickResult (spawned r) (verified r ++ [id]) (deleted r).
Definition add_deleted (id : string) (b : bool) (r : RetentionTickResult) : RetentionTickResult :=
  if b then MkRetentionTickResult (spawned r) (verified r) (deleted r ++ [id]) else r.

(** ** Eligibility *)

Definition _completion_time (doc : pv) : res (option Z) :=
  updated ← py_get doc "updated_at";
  match updated with
  | PDate t => Ok (Some t)
  | _ =>
      created ← py_get doc "created_at";
      Ok (match created with PDate t => Some t | _ => None end)
  end.

Definition is_completed (doc : pv) : res bool :=
  status ← py_get doc "status"; Ok (py_eq status (PStr _COMPLETED)).

Definition _eligible (doc : pv) (now retention : Z) : res bool :=
  completed ← is_completed doc;
  if (completed : bool) then
    completed_at ← _completion_time doc;
    Ok (match completed_at with Some t => retention <=? now - t | None => false end)
  else Ok false.

(** [d[k] = v] on a dictionary in insertion order. *)
Fixpoint dict_set {A} (k : string) (v : A) (d : list (string * A)) : list (string * A) :=
  match d with
  | [] => [(k, v)]
  | (k', v') :: d => if String.eqb k' k then (k, v) :: d else (k', v') :: dict_set k v d
  end.

(** The dictionary comprehension over the listing. *)
Fixpoint completed_by_id (acc : list (string * pv)) (docs : list pv) : res (list (string * pv)) :=
  match docs with
  | [] => Ok acc
  | doc :: docs =>
      id ← py_get doc "_id";
      if truthy id then
        completed ← is_completed doc;
        completed_by_id (if (completed : bool) then dict_set (str_or_empty id) doc acc else acc) docs
      else completed_by_id acc docs
  end.

(** The comprehension that lists the due analyses. *)
Fixpoint due_of (tracked : list string) (now retention : Z) (completed : list (string * pv)) : res (list string) :=
  match completed with
  | [] => Ok []
  | (id, doc) :: completed =>
      due ← (if bool_decide (id ∈ tracked) then Ok false else _eligible doc now retention);
      rest ← due_of tracked now retention completed;
      Ok (if (due : bool) then id :: rest else rest)
  end.

Definition config_days (v : pv) : res Z := n ← config_number v; timedelta (n * us_day).

(** ** Archival Jobs *)

(** The type of the first condition (its type and its status) that is true and
    terminal. *)
Definition _job_terminal_condition (j : job) : option string :=
  head (omap (λ c : option string * option string,
    match c with
    | (Some type, Some status) =>
        if String.eqb status "True" && (String.eqb type _JOB_COMPLETE || String.eqb type _JOB_FAILED)
        then Some type else None
    | _ => None
    end) (job_conditions j)).

(** The datapoints of an analysis in a payload of the listing. *)
Fixpoint datapoint_ids (analysis_id : string) (docs : list pv) : res (list string) :=
  match docs with
  | [] => Ok []
  | doc :: docs =>
      id ← py_get doc "_id";
      keep ← (if truthy id then
                owner ← py_get doc "analysis_id"; Ok (String.eqb (str_or_empty owner) analysis_id)
              else Ok false);
      rest ← datapoint_ids analysis_id docs;
      Ok (if (keep : bool) then py_str id :: rest else rest)
  end.

Section retention.
Context {W P : Type}.
Context `{CustomObjectsApi W} `{Entropy W} `{StatusEventSink W P} `{KeyOrder} `{HttpApi W} `{BatchV1Api W}.
Context (client : OpenStudioClient) (store : Store) (config : OperatorConfig) (now : Z).
Context (emit : string → string → string → M W P unit) (namespace : string).

Notation policy := (storage_policy config).
Notation dry := (config_flag (dry_run config)).

Definition _read_job (name : string) : M W P (option job) :=
  try_except (j ← read_namespaced_job name namespace; mret (Some j))
    (λ e, match e with
          | ApiException status _ => if status =? 404 then Some (mret None) else None
          | _ => None
          end).

(** [_datapoint_ids_for(client)]: the payload is fetched by the first call and
    kept for the others. *)
Definition ids_for (payload : option pv) (analysis_id : string) : M W P (list string * pv) :=
  listing ← match payload with Some p => mret p | None => list_datapoints client end;
  docs ← of_res (py_iter listing);
  ids ← of_res (datapoint_ids analysis_id docs);
  mret (ids, listing).

(** ** Operations *)

Definition _fail_archival (analysis_id detail : string) : M W P unit :=
  emit "Warning" ANALYSIS_ARCHIVAL_FAILED_EVENT
    ("Analysis " +:+ analysis_id +:+ " archival failed — " +:+ detail +:+
     "; analysis RETAINED, retry scheduled next retention tick");;
  clear_archived_analysis store analysis_id.

Definition target (backend bucket : pv) (analysis_id : string) : string :=
  py_str backend +:+ ":" +:+ py_str bucket +:+ "/" +:+ analysis_id.

Definition deleted_message (analysis_id : string) (record : ArchivedAnalysisRecord.t) : string :=
  "Analysis " +:+ analysis_id +:+ " deleted after verified archival to " +:+
  target (ArchivedAnalysisRecord.backend record) (ArchivedAnalysisRecord.bucket record) analysis_id +:+
  " — REST cascade frees NFS assets + Mongo documents".

Definition _delete_verified (analysis_id : string) (record : ArchivedAnalysisRecord.t) (just_verified : bool)
  : M W P bool :=
  if negb (config_flag (purge_completed_nfs_files policy)) then mret false
  else
    let message := deleted_message analysis_id record in
    if dry then
      when just_verified (emit "Normal" ANALYSIS_DELETED_EVENT (message +:+ " — delete suppressed (spec.dryRun)"));;
      mret false
    else
      delete_analysis client analysis_id;;
      inc "ANALYSES_DELETED_TOTAL" [("outcome", "deleted")];;
      emit "Normal" ANALYSIS_DELETED_EVENT message;;
      clear_archived_analysis store analysis_id;;
      mret true.

(** What follows the record of a verified archival. *)
Definition announce_and_delete (analysis_id message : string) (record : ArchivedAnalysisRecord.t)
    (result : RetentionTickResult) : M W P RetentionTickResult :=
  inc "ANALYSES_ARCHIVED_TOTAL" [];;
  emit "Normal" ANALYSIS_ARCHIVAL_SUCCEEDED_EVENT message;;
  gone ← _delete_verified analysis_id record true;
  mret (add_deleted analysis_id gone (add_verified analysis_id result)).

(** Record a verified archival, announce it, and go on to the deletion. *)
Definition verify_and_delete (analysis_id message : string) (record : ArchivedAnalysisRecord.t)
    (result : RetentionTickResult) : M W P RetentionTickResult :=
  set_archived_analysis store analysis_id record;;
  announce_and_delete analysis_id message record result.

Definition verified_message (analysis_id job_name : string) (record : ArchivedAnalysisRecord.t) : string :=
  "Analysis " +:+ analysis_id +:+ " archival Job " +:+ job_name +:+ " completed verification (size+hash) → " +:+
  target (ArchivedAnalysisRecord.backend record) (ArchivedAnalysisRecord.bucket record) analysis_id.

(** [verified_at=now] on the tracked record *)
Definition mark_verified (record : ArchivedAnalysisRecord.t) : ArchivedAnalysisRecord.t :=
  ArchivedAnalysisRecord.Make (ArchivedAnalysisRecord.backend record) (ArchivedAnalysisRecord.bucket record)
    (Some now) (ArchivedAnalysisRecord.job_name record) (ArchivedAnalysisRecord.spawned_at record).

Definition _reconcile_tracked (completed : list (string * pv)) (result : RetentionTickResult)
    (entry : string * ArchivedAnalysisRecord.t) : M W P RetentionTickResult :=
  let '(analysis_id, record) := entry in
  if bool_decide (analysis_id ∉ completed.*1) then clear_archived_analysis store analysis_id;; mret result
  else if opt_is_some (ArchivedAnalysisRecord.verified_at record) then
    gone ← _delete_verified analysis_id record false; mret (add_deleted analysis_id gone result)
  else
    match ArchivedAnalysisRecord.job_name record with
    | None => if dry then mret result else clear_archived_analysis store analysis_id;; mret result
    | Some job_name =>
        found ← _read_job job_name;
        match found with
        | None =>
            _fail_archival analysis_id "archival Job not found (deleted out-of-band or expired mid-flight)";;
            mret result
        | Some j =>
            match _job_terminal_condition j with
            | None => mret result
            | Some condition =>
                if String.eqb condition _JOB_FAILED then
                  _fail_archival analysis_id "archival Job failed (see Job pod logs)";; mret result
                else
                  verify_and_delete analysis_id (verified_message analysis_id job_name record)
                    (mark_verified record) result
            end
        end
    end.

(** The record of an archival under the present policy. *)
Definition policy_record (job_name : option string) (verified_at : option Z) : ArchivedAnalysisRecord.t :=
  ArchivedAnalysisRecord.Make (storage_backend policy) (storage_bucket policy) verified_at job_name (Some now).

Definition policy_target (analysis_id : string) : string :=
  target (storage_backend policy) (storage_bucket policy) analysis_id.

Definition started_message (analysis_id : string) (ids : list string) : string :=
  "Analysis " +:+ analysis_id +:+ " completed beyond retentionDays=" +:+ py_str (retention_days policy) +:+
  " — spawning archival Job " +:+ namespace +:+ "/" +:+ archival_job_name analysis_id +:+ " → " +:+
  policy_target analysis_id +:+ " (" +:+ str_of_Z (Z.of_nat (length ids)) +:+ " datapoint trees)" +:+
  (if dry then " — Job spawn suppressed (spec.dryRun)" else "").

(** The Job, the record of it, and the notice. *)
Definition start_archival (analysis_id : string) (payload : option pv) (result : RetentionTickResult)
  : M W P (option pv * RetentionTickResult) :=
  '(ids, listing) ← ids_for payload analysis_id;
  manifest ← of_res (build_archival_job analysis_id policy namespace ids);
  when (negb dry) (create_namespaced_job namespace manifest);;
  set_archived_analysis store analysis_id
    (policy_record (if dry then None else Some (archival_job_name analysis_id)) None);;
  emit "Normal" ANALYSIS_ARCHIVAL_STARTED_EVENT (started_message analysis_id ids);;
  mret (Some listing, add_spawned analysis_id result).

Definition adopted_message (analysis_id : string) : string :=
  "Analysis " +:+ analysis_id +:+ " adopted already-completed archival Job " +:+
  archival_job_name analysis_id +:+ " as verified → " +:+ policy_target analysis_id.

Definition _spawn_archival (acc : option pv * RetentionTickResult) (analysis_id : string)
  : M W P (option pv * RetentionTickResult) :=
  let '(payload, result) := acc in
  let job_name := archival_job_name analysis_id in
  existing ← _read_job job_name;
  match existing with
  | None => start_archival analysis_id payload result
  | Some j =>
      match _job_terminal_condition j with
      | None =>
          set_archived_analysis store analysis_id (policy_record (Some job_name) None);;
          mret (payload, result)
      | Some condition =>
          if String.eqb condition _JOB_COMPLETE then
            result ← verify_and_delete analysis_id (adopted_message analysis_id)
              (policy_record (Some job_name) (Some now)) result;
            mret (payload, result)
          else
            inc "ARCHIVAL_JOBS_FAILED_TOTAL" [("namespace", namespace)];;
            when (negb dry) (delete_namespaced_job job_name namespace "Foreground");;
            start_archival analysis_id payload result
      end
  end.

(** ** The tick *)

(** [not (backend and bucket and secret_ref)] *)
Definition policy_complete : bool :=
  truthy (storage_backend policy) && truthy (storage_bucket policy) && truthy (storage_secret_ref policy).

Definition no_result : RetentionTickResult := MkRetentionTickResult [] [] [].

(** What the tick reads before it acts. *)
Definition tick_reads : M W P (list (string * pv) * list (string * ArchivedAnalysisRecord.t)) :=
  analyses ← list_analyses client;
  docs ← of_res (py_iter analyses);
  completed ← of_res (completed_by_id [] docs);
  tracked ← get_archived_analyses store;
  mret (completed, tracked).

Definition reconcile_all (completed : list (string * pv)) (tracked : list (string * ArchivedAnalysisRecord.t))
  : M W P RetentionTickResult :=
  fold_m (_reconcile_tracked completed) no_result tracked.

Definition spawn_all (due : list string) (result : RetentionTickResult) : M W P (option pv * RetentionTickResult) :=
  fold_m _spawn_archival (None, result) due.

Definition run_retention_tick : M W P RetentionTickResult :=
  if negb (config_flag (archive_to_s3 policy)) then mret no_result
  else if negb policy_complete then mret no_result
  else
    '(completed, tracked) ← tick_reads;
    result ← reconcile_all completed tracked;
    retention ← of_res (config_days (retention_days policy));
    due ← of_res (due_of tracked.*1 now retention completed);
    '(_, result) ← spawn_all due result;
    mret result.
End retention.
