(* ===== verification/SimWorld.v ===== *)
(** * A concrete world

    A small executable cluster on which the theorems' hypotheses are shown to
    hold: status documents under merge-patch semantics, a number of patches
    the operator loses to another writer before one is accepted, and tables
    for the answers of the other services. *)
From S2P Require Import Prelude PyValue Effects Logic Services StatusRecords StatusStore StatusStoreFacts.

Record sim := Sim {
  sim_status : gmap (string * string) (gmap string pv);
  sim_conflicts : nat;
  sim_crs : pv;
  sim_pods : list pod;
  sim_deployments : gmap string deployment;
  sim_jobs : gmap string job;
  sim_secrets : gmap string (gmap string string);
  sim_http : string → string → res http_response;
  sim_redis : list string → res pv;
}.

Definition not_found {A} : res A := Raise (ApiException 404 "Not Found").

Definition sim_get_status (ns name : string) (w : sim) : res pv * sim :=
  (Ok (PDict {["status" := PDict (default ∅ (sim_status w !! (ns, name)))]}), w).

Definition sim_patch_status (ns name : string) (body : pv) (w : sim) : res unit * sim :=
  match sim_conflicts w with
  | S n => (Raise (ApiException 409 "Conflict"),
            Sim (sim_status w) n (sim_crs w) (sim_pods w) (sim_deployments w) (sim_jobs w)
              (sim_secrets w) (sim_http w) (sim_redis w))
  | O => (Ok tt,
          Sim (<[(ns, name) := patch_effect (default ∅ (sim_status w !! (ns, name))) body]> (sim_status w))
              0 (sim_crs w) (sim_pods w) (sim_deployments w) (sim_jobs w) (sim_secrets w)
              (sim_http w) (sim_redis w))
  end.

#[export] Instance sim_custom_objects : CustomObjectsApi sim := {
  get_status_call := sim_get_status;
  patch_status_call := sim_patch_status;
  list_crs_call ns w := (Ok (sim_crs w), w);
}.

#[export] Instance sim_key_order : KeyOrder := {
  key_order m := map_to_list m;
  key_order_perm m := reflexivity (map_to_list m);
}.

#[export] Instance sim_set_order : SetOrder := {
  set_order X := elements X;
  set_order_perm X := reflexivity (elements X);
}.

#[export] Instance sim_core : CoreV1Api sim := {
  list_pods_call ns sel w := (Ok (sim_pods w), w);
  delete_pod_call name ns grace w := (Ok tt, w);
  read_secret_call name ns w := (default not_found (Ok <$> sim_secrets w !! name), w);
  create_event_call ns body w := (Ok tt, w);
}.

#[export] Instance sim_apps : AppsV1Api sim := {
  read_deployment_call name ns w := (default not_found (Ok <$> sim_deployments w !! name), w);
  patch_deployment_call name ns body w := (Ok tt, w);
}.

(** A Job that is created runs until the table says otherwise. *)
Definition set_jobs (jobs : gmap string job) (w : sim) : sim :=
  Sim (sim_status w) (sim_conflicts w) (sim_crs w) (sim_pods w) (sim_deployments w) jobs
    (sim_secrets w) (sim_http w) (sim_redis w).

Definition manifest_name (body : pv) : string :=
  match body with
  | PDict m => match dget m "metadata" with PDict meta => py_str (dget meta "name") | _ => "" end
  | _ => ""
  end.

#[export] Instance sim_batch : BatchV1Api sim := {
  read_job_call name ns w := (default not_found (Ok <$> sim_jobs w !! name), w);
  create_job_call ns body w := (Ok tt, set_jobs (<[manifest_name body := Job []]> (sim_jobs w)) w);
  delete_job_call name ns policy w := (Ok tt, set_jobs (delete name (sim_jobs w)) w);
}.

#[export] Instance sim_kopf : KopfApi sim := {
  kopf_event_call obj type reason message w := (Ok tt, w);
}.

#[export] Instance sim_kube_config : KubeConfigApi sim := {
  incluster_config_call w := (Ok tt, w);
  kube_config_call w := (Ok tt, w);
}.

#[export] Instance sim_http_api : HttpApi sim := {
  http_call method url params data w := (sim_http w method url, w);
}.

#[export] Instance sim_redis_api : RedisApi sim := {
  redis_call url args w := (sim_redis w args, w);
}.

#[export] Instance sim_clock : Clock sim := { clock w := 0 }.

#[export, refine] Instance sim_entropy : Entropy sim := { random w := (1 # 2)%Q }.
Proof. by intros w. Defined.

Definition sim_doc (w : sim) (ns name : string) : gmap string pv :=
  default ∅ (sim_status w !! (ns, name)).

Lemma status_of_sim_object d : status_of_object (PDict {["status" := PDict d]}) = Ok d.
Proof.
  unfold status_of_object, py_get, dget. rewrite lookup_singleton_eq.
  unfold mbind, res_bind. cbn [default from_option id]. unfold py_or, truthy.
  destruct (decide (d = ∅)) as [->|Hd].
  - by rewrite bool_decide_eq_false_2 by naive_solver.
  - by rewrite bool_decide_eq_true_2.
Qed.

#[export, refine] Instance sim_server : StatusServer sim := { status_doc := sim_doc }.
Proof.
  - intros ns name w obj w' [= <- <-]. by rewrite status_of_sim_object.
  - by intros ns name w e w' [= ? ?].
  - intros ns name body w ns' name' Hne. cbn. unfold sim_patch_status, sim_doc.
    destruct (sim_conflicts w); [|done]. cbn. by rewrite lookup_insert_ne by congruence.
  - intros ns name body w w'. cbn. unfold sim_patch_status, sim_doc.
    destruct (sim_conflicts w); [|done]. intros [= <-]. cbn. by rewrite lookup_insert_eq.
  - intros ns name body w reason w'. cbn. unfold sim_patch_status, sim_doc.
    destruct (sim_conflicts w); [done|]. by intros [= _ <-].
  - intros ns name body w e w'. cbn. unfold sim_patch_status, sim_doc.
    destruct (sim_conflicts w); [done|]. intros [= _ <-]. by left.
Defined.

(** A cluster with one status document and nothing else. *)
Definition sim_of (d : gmap string pv) (conflicts : nat) : sim :=
  Sim {[("ns", "cr") := d]} conflicts (PDict ∅) [] ∅ ∅ ∅ (λ _ _, not_found) (λ _, Raise (RedisError "down")).

Definition sim_store : Store := MkStore "ns" "cr".

Definition sim_start {P} (w : sim) (p : P) : st sim P := St w p (StoreMem ∅ None) [].

(** An event sink that only counts. *)
Definition sim_sink {P} : StatusEventSink sim P := λ ns n reason message,
  inc "STATUS_MAP_EVENTS_EMITTED_TOTAL" [("outcome", "queued")].

#[export] Instance sim_sink_spec {P} (self : Store) :
  @SinkSpec sim P _ _ sim_sink self.
Proof. by split; intros; intros s. Qed.

(** A run whose result is known, with the state it reached. *)
Lemma run_eq {A B} (p : A * B) a : p.1 = a → p = (a, p.2).
Proof. intros <-. apply surjective_pairing. Qed.

(** An emitter without dry-run gate. *)
Definition sim_emit {P} (type reason message : string) : M sim P unit := kopf_event PNone type reason message.
