(* ===== verification/ClientFactory.v ===== *)
(** * The client factory ([client_factory.py])

    [functools.lru_cache] over the two constructors, and the resolution of the
    Redis URL from a Secret on every call. *)
From S2P Require Import Prelude PyValue Effects Logic PyTime Services Config RestClient Url Base64 RedisClient StatusStore KubeOps K8sApi SimWorld.

Definition CLIENT_CACHE_MAXSIZE : nat := 8.
Definition REDIS_CLIENT_CACHE_MAXSIZE : nat := 8.

(** ** [functools.lru_cache] *)

Section lru.
Context {W P V : Type} `{Lens P (list (string * V))}.

Definition lru_find (k : string) (cache : list (string * V)) : option V :=
  snd <$> head (filter (λ e : string * V, e.1 = k) cache).

Definition lru_remove (k : string) (cache : list (string * V)) : list (string * V) :=
  filter (λ e : string * V, e.1 ≠ k) cache.

(** A hit moves the entry to the front, a miss that returns adds one there and
    drops the least recently used beyond [maxsize]; an exception adds nothing. *)
Definition lru_call (maxsize : nat) (make : string → M W P V) (k : string) : M W P V :=
  cache ← get_part;
  match lru_find k cache with
  | Some v => put_part ((k, v) :: lru_remove k cache);; mret v
  | None =>
      v ← make k;
      cache ← get_part;
      put_part (take maxsize ((k, v) :: lru_remove k cache));;
      mret v
  end.

Definition cache_clear : M W P unit := put_part ([] : list (string * V)).
End lru.

(** ** The REST client *)

Record RestEnv := MkRestEnv {
  env_tls_ca_bundle : option string;
  rest_isfile : string → bool;
  rest_head_4k : string → res string;
}.

(** [OpenStudioClient(server_url)] *)
Definition new_openstudio_client (env : RestEnv) (server_url : string) : res OpenStudioClient :=
  _resolve_tls_ca_bundle (env_tls_ca_bundle env) (rest_isfile env) (rest_head_4k env);;
  mret (make_client server_url).

Definition get_openstudio_client {W P} `{Lens P (list (string * OpenStudioClient))} (env : RestEnv)
    (server_url : string) : M W P OpenStudioClient :=
  lru_call CLIENT_CACHE_MAXSIZE (λ url, of_res (new_openstudio_client env url)) server_url.

(** ** The Redis client *)

Section redis.
Context {W P : Type} `{CoreV1Api W} `{KubeConfigApi W} `{UrlTables}.
Context `{Lens P K8sClients} `{Lens P (list (string * ReadOnlyRedisClient))}.
Context (env : RedisEnv).

Definition _redis_client_for_url (resolved_url : string) : M W P ReadOnlyRedisClient :=
  lru_call REDIS_CLIENT_CACHE_MAXSIZE (λ url, of_res (make_redis_client env url)) resolved_url.

(** The message of a Secret that cannot be read; a denial explains the grant. *)
Definition secret_error_message (namespace : string) (secret_ref : RedisSecretRef) (status : Z) (reason : string)
  : string :=
  "cannot read Secret " +:+ namespace +:+ "/" +:+ ref_name secret_ref +:+ " (key " +:+
  repr_str (ref_key secret_ref) +:+ ", spec.redisCredentials.secretRef, issue #463): " +:+
  str_of_Z status +:+ " " +:+ reason +:+
  (if status =? 403 then
     " — denied by RBAC: the operator Role's secrets:get grant is " +:+
     "exact-name-bounded (deploy/rbac.yaml resourceNames, issue #606); either add " +:+
     repr_str (ref_name secret_ref) +:+ " to the Role's resourceNames (a " +:+
     "deliberate, reviewable RBAC change) or point spec.redisCredentials.secretRef at a granted Secret " +:+
     "(default: 'openstudio-redis')"
   else "").

(** The URL the data of a Secret holds. *)
Definition url_from_secret_data (namespace : string) (secret_ref : RedisSecretRef) (data : gmap string string)
  : res string :=
  let secret := namespace +:+ "/" +:+ ref_name secret_ref in
  match data !! ref_key secret_ref with
  | None => Raise (RedisCredentialResolutionError
      ("Secret " +:+ secret +:+ " has no key " +:+ repr_str (ref_key secret_ref) +:+
       " (spec.redisCredentials.secretRef); found keys: " +:+
       (if bool_decide (data = ∅) then "<none>" else repr_list (sorted_strings (map_to_list data).*1)) +:+ ".") None)
  | Some raw =>
      match (b ← b64decode (chars raw); utf8_decode b) with
      | Ok value => redis_url_from_secret_value value secret (ref_key secret_ref)
      | Raise (OtherError _ msg) => Raise (RedisCredentialResolutionError
          ("Secret " +:+ secret +:+ " key " +:+ repr_str (ref_key secret_ref) +:+
           " is not valid base64 UTF-8 (issue #463): " +:+ msg) None)
      | Raise e => Raise e
      end
  end.

Definition _resolve_redis_url (redis_url : string) (secret_ref : option RedisSecretRef) (namespace : string)
  : M W P string :=
  match secret_ref with
  | None => mret redis_url
  | Some secret_ref =>
      if String.eqb namespace "" then
        raise (RedisCredentialResolutionError
          ("spec.redisCredentials.secretRef is set but no namespace was supplied to resolve Secret " +:+
           repr_str (ref_name secret_ref) +:+ " (issue #463); pass the CR's namespace.") None)
      else
        data ← try_except (operator_core_api;; read_namespaced_secret (ref_name secret_ref) namespace)
          (λ e, match e with
                | ApiException status reason => Some (raise (RedisCredentialResolutionError
                    (secret_error_message namespace secret_ref status reason) (Some status)))
                | _ => None
                end);
        of_res (url_from_secret_data namespace secret_ref data)
  end.

Definition get_read_only_redis_client (redis_url : string) (secret_ref : option RedisSecretRef)
    (namespace : string) : M W P ReadOnlyRedisClient :=
  match secret_ref with
  | None => _redis_client_for_url redis_url
  | Some _ => url ← _resolve_redis_url redis_url secret_ref namespace; _redis_client_for_url url
  end.
End redis.

(** ** Facts about the cache *)

Section lru_facts.
Context {W P V : Type} `{Lens P (list (string * V))}.
Implicit Types (s : st W P) (k : string) (v : V) (cache : list (string * V)).

Definition cache_of s : list (string * V) := lget (mem s).

(** Every entry satisfies [Q], keys are distinct, and there are at most [maxsize]. *)
Definition cache_ok (Q : string → V → Prop) (maxsize : nat) (cache : list (string * V)) : Prop :=
  Forall (λ e, Q e.1 e.2) cache ∧ NoDup cache.*1 ∧ (length cache ≤ maxsize)%nat.

Lemma lru_find_Some k cache v : lru_find k cache = Some v → (k, v) ∈ cache.
Proof.
  unfold lru_find. destruct (filter _ cache) as [|[k' v'] l] eqn:E; [done|]. intros [= ->].
  assert (Hin : (k', v) ∈ filter (λ e : string * V, e.1 = k) cache) by (rewrite E; by left).
  apply list_elem_of_filter in Hin as [<- Hin]. done.
Qed.

Lemma lru_find_None k cache : lru_find k cache = None → Forall (λ e : string * V, e.1 ≠ k) cache.
Proof.
  unfold lru_find. intros E. apply Forall_forall. intros e He Hk.
  assert (Hin : e ∈ filter (λ e : string * V, e.1 = k) cache) by (by apply list_elem_of_filter).
  destruct (filter _ cache); [by apply not_elem_of_nil in Hin|done].
Qed.

Lemma cache_ok_front Q maxsize k v cache n :
  Q k v → cache_ok Q maxsize cache →
  (n ≤ maxsize)%nat → (length (take n ((k, v) :: lru_remove k cache)) ≤ maxsize)%nat →
  cache_ok Q maxsize (take n ((k, v) :: lru_remove k cache)).
Proof.
  intros Hv (HQ & HN & HL) Hn Hlen. split_and!; [|  |done].
  - apply Forall_take. constructor; [done|]. unfold lru_remove. apply Forall_forall.
    intros e [_ He]%list_elem_of_filter. rewrite Forall_forall in HQ. auto.
  - rewrite fmap_take. apply NoDup_take. simpl. constructor.
    + unfold lru_remove. intros ([k' v'] & -> & Hin)%list_elem_of_fmap. by apply list_elem_of_filter in Hin as [? _].
    + unfold lru_remove. clear -HN. induction cache as [|[a b] cache IH]; [constructor|].
      simpl in HN. apply NoDup_cons in HN as [Hni HN]. rewrite filter_cons. case_decide; [|by apply IH].
      simpl. constructor; [|by apply IH]. intros ([k' v'] & -> & Hin)%list_elem_of_fmap.
      apply list_elem_of_filter in Hin as [_ Hin]. apply Hni. apply list_elem_of_fmap. by eexists.
Qed.

Lemma lru_remove_length k cache : (length (lru_remove k cache) ≤ length cache)%nat.
Proof. apply length_filter. Qed.

Lemma lru_remove_hit k v cache : (k, v) ∈ cache → (length ((k, v) :: lru_remove k cache) ≤ length cache)%nat.
Proof.
  unfold lru_remove. induction cache as [|[a b] cache IH]; intros Hin; [by apply not_elem_of_nil in Hin|].
  rewrite filter_cons. apply elem_of_cons in Hin as [[= <- <-]|Hin].
  - rewrite decide_False by naive_solver. simpl. pose proof (lru_remove_length k cache). unfold lru_remove in *. lia.
  - specialize (IH Hin). simpl in *. case_decide; simpl; lia.
Qed.

Definition with_cache cache s : st W P := St (world s) (lput cache (mem s)) (shared s) (log s).

Lemma lru_call_eq maxsize (make : string → M W P V) k s :
  lru_call maxsize make k s =
  match lru_find k (cache_of s) with
  | Some v => (Ok v, with_cache ((k, v) :: lru_remove k (cache_of s)) s)
  | None =>
      match make k s with
      | (Ok v, s1) => (Ok v, with_cache (take maxsize ((k, v) :: lru_remove k (cache_of s1))) s1)
      | (Raise e, s1) => (Raise e, s1)
      end
  end.
Proof.
  unfold lru_call, get_part, put_part, modify_mem, get_mem, set_mem, mbind, M_bind, mret, M_ret, cache_of, with_cache.
  destruct (lru_find k (lget (mem s))) as [v|]; [done|]. by destruct (make k s) as [[v|e] s1].
Qed.

Lemma cache_of_with cache s : cache_of (with_cache cache s) = cache.
Proof. unfold cache_of, with_cache. apply lget_lput. Qed.

(** A call over a constructor that leaves the cache alone. *)
Lemma lru_call_spec (Q : string → V → Prop) maxsize make k s r s' :
  (∀ s0, cache_of (make k s0).2 = cache_of s0 ∧ ∀ v, (make k s0).1 = Ok v → Q k v) →
  (0 < maxsize)%nat → cache_ok Q maxsize (cache_of s) →
  lru_call maxsize make k s = (r, s') →
  cache_ok Q maxsize (cache_of s') ∧ (∀ v, r = Ok v → Q k v) ∧
  (∀ e, r = Raise e → cache_of s' = cache_of s).
Proof.
  intros Hmake Hpos Hok. rewrite lru_call_eq. destruct (lru_find k (cache_of s)) as [v|] eqn:E.
  - intros [= <- <-]. rewrite cache_of_with. apply lru_find_Some in E.
    pose proof Hok as (HQ & HN & HL).
    assert (Hv : Q k v) by (rewrite Forall_forall in HQ; by apply (HQ (k, v))).
    split_and!; [|by intros ? [= <-]|done].
    pose proof (lru_remove_hit _ _ _ E) as Hlen.
    rewrite <-(take_ge ((k, v) :: _) maxsize) by lia.
    apply cache_ok_front; [done..|]. rewrite length_take. lia.
  - destruct (Hmake s) as [Hm Hv].
    destruct (make k s) as [[v|e] s1]; intros [= <- <-]; cbn in Hm, Hv.
    + rewrite cache_of_with, Hm. split_and!; [|by intros ? [= <-]; apply Hv|done].
      apply cache_ok_front; [by apply Hv|done|done|]. rewrite length_take. lia.
    + rewrite Hm. by split_and!.
Qed.
End lru_facts.

(** ** Facts about the clients *)

Section redis_facts.
Context {W P : Type} `{CoreV1Api W} `{KubeConfigApi W} `{UrlTables}.
Context `{Lens P K8sClients} `{Lens P (list (string * ReadOnlyRedisClient))}.
Context `{!LensesApart P K8sClients (list (string * ReadOnlyRedisClient))}.
Context (env : RedisEnv).
Implicit Types s : st W P.

(** A cached Redis client is what the constructor makes of its key. *)
Definition redis_cache_ok s : Prop :=
  cache_ok (λ url c, make_redis_client env url = Ok c) REDIS_CLIENT_CACHE_MAXSIZE (cache_of s).

Lemma make_redis_client_url url c : make_redis_client env url = Ok c → client_url c = url.
Proof.
  unfold make_redis_client. intros (t & _ & (p & _ & (ca & _ & (k & _ & (u & _ & [= <-])%res_bind_Ok)%res_bind_Ok)
    %res_bind_Ok)%res_bind_Ok)%res_bind_Ok. done.
Qed.

Lemma redis_client_for_url_spec url s r s' :
  redis_cache_ok s → _redis_client_for_url env url s = (r, s') →
  redis_cache_ok s' ∧ ∀ c, r = Ok c → make_redis_client env url = Ok c.
Proof.
  intros Hok Hr. destruct (lru_call_spec (W:=W) (P:=P) (λ url c, make_redis_client env url = Ok c)
    REDIS_CLIENT_CACHE_MAXSIZE (λ url, of_res (make_redis_client env url)) url s r s') as (Q1 & Q2 & _);
    [by intros s0|by apply Nat.lt_0_succ|exact Hok|exact Hr|by split].
Qed.

(** The part of the resolution before the cache leaves the cache alone. *)
Lemma resolve_redis_url_cache redis_url ref namespace s :
  cache_of (V:=ReadOnlyRedisClient) (_resolve_redis_url redis_url ref namespace s).2 = cache_of s.
Proof.
  unfold _resolve_redis_url, cache_of. destruct ref as [ref|]; [|done].
  destruct (String.eqb namespace ""); [done|].
  pose proof (cached_api_apart (D:=list (string * ReadOnlyRedisClient)) Core false s) as Hc.
  unfold try_except, mbind, M_bind, operator_core_api. destruct (_cached_k8s_api Core false s) as [[c|e] s1].
  - unfold read_namespaced_secret, ext. destruct (read_secret_call _ _ (world s1)) as [[d|e] w]; [exact Hc|].
    by destruct e.
  - by destruct e.
Qed.

(** C35: the client handed out is always the one of the URL in force now: with
    a Secret reference, of the URL its Secret resolves to on this very call, so
    a rotated credential never meets an old client, and the cache stays within
    its bound with one client per URL. *)
Theorem redis_client_current redis_url ref namespace s c s' :
  redis_cache_ok s →
  get_read_only_redis_client env redis_url ref namespace s = (Ok c, s') →
  redis_cache_ok s' ∧
  (_resolve_redis_url redis_url ref namespace s).1 = Ok (client_url c) ∧
  make_redis_client env (client_url c) = Ok c.
Proof.
  intros Hok. unfold get_read_only_redis_client. destruct ref as [ref|].
  - intros (url & s1 & E1 & E2)%bind_Ok.
    pose proof (resolve_redis_url_cache redis_url (Some ref) namespace s) as Hc. rewrite E1 in Hc. cbn [snd] in Hc.
    eapply redis_client_for_url_spec in E2 as [Hok' Hmk]; [|unfold redis_cache_ok; by rewrite Hc].
    specialize (Hmk c eq_refl). pose proof (make_redis_client_url _ _ Hmk) as <-. rewrite E1. by split_and!.
  - intros E. apply redis_client_for_url_spec in E as [Hok' Hmk]; [|done].
    specialize (Hmk c eq_refl). pose proof (make_redis_client_url _ _ Hmk) as <-. by split_and!.
Qed.

(** A Secret that holds the base64 of an accepted URL resolves to that URL. *)
Theorem secret_resolves redis_url ref namespace url data s s1 :
  namespace ≠ "" →
  (operator_core_api;; read_namespaced_secret (ref_name ref) namespace) s = (Ok data, s1) →
  data !! ref_key ref = Some (string_of (b64encode (chars url))) →
  utf8_ok [] (chars url) = true → re_match SecretPattern.url (chars url) = true →
  _resolve_redis_url redis_url (Some ref) namespace s = (Ok url, s1).
Proof.
  intros Hns Hread Hdata Hutf Hre. unfold _resolve_redis_url.
  rewrite (proj2 (String.eqb_neq _ _) Hns).
  assert (Ht : ∀ h, try_except (operator_core_api;; read_namespaced_secret (ref_name ref) namespace) h s = (Ok data, s1))
    by (intros h; unfold try_except; by rewrite Hread).
  rewrite (bind_run _ _ s data s1) by apply Ht. unfold of_res, url_from_secret_data. rewrite Hdata.
  unfold chars at 1, string_of at 1. rewrite String.list_ascii_of_string_of_list_ascii, b64decode_encode.
  unfold mbind at 1, res_bind at 1, utf8_decode. rewrite Hutf. unfold chars at 1.
  rewrite String.string_of_list_ascii_of_string. unfold redis_url_from_secret_value. rewrite Hre.
  destruct (String.eqb_spec url "") as [->|]; [|done]. by vm_compute in Hre.
Qed.

(** A Secret the API refuses is a credential error, which carries the
    status and, for a denial, points at the grant. *)
Theorem secret_denied redis_url ref namespace status reason s s1 :
  namespace ≠ "" →
  (operator_core_api;; read_namespaced_secret (ref_name ref) namespace) s = (Raise (ApiException status reason), s1) →
  get_read_only_redis_client env redis_url (Some ref) namespace s =
  (Raise (RedisCredentialResolutionError (secret_error_message namespace ref status reason) (Some status)), s1).
Proof.
  intros Hns Hread. unfold get_read_only_redis_client, _resolve_redis_url.
  rewrite (proj2 (String.eqb_neq _ _) Hns). unfold try_except. unfold mbind at 1 2, M_bind at 1 2. by rewrite Hread.
Qed.
End redis_facts.

(** ** A concrete cluster *)

#[local] Instance no_tables : UrlTables := { bracketed_host_ok _ := false; netloc_nfkc_ok _ := false }.

Definition demo_env : RedisEnv := MkRedisEnv None None (λ _, false) (λ _, Raise (OSError "none")) (λ _, Ok tt).

(** A Secret [openstudio-redis] whose key [url] holds the given URL. *)
Definition secret_world (url : string) : sim :=
  Sim ∅ 0 PNone [] ∅ ∅ {["openstudio-redis" := {["url" := string_of (b64encode (chars url))]} ]}
    (λ _ _, not_found) (λ _, not_found).

Definition demo_ref : RedisSecretRef := MkRedisSecretRef "openstudio-redis" "url".
Definition demo_url : string := "redis://:pw@queue:6379".

Record demo_cache := MkDemoCache { demo_apis : K8sClients; demo_clients : list (string * ReadOnlyRedisClient) }.
#[local] Instance demo_apis_lens : Lens demo_cache K8sClients := {
  lget := demo_apis; lput c p := MkDemoCache c (demo_clients p); lget_lput c p := eq_refl }.
#[local] Instance demo_clients_lens : Lens demo_cache (list (string * ReadOnlyRedisClient)) := {
  lget := demo_clients; lput c p := MkDemoCache (demo_apis p) c; lget_lput c p := eq_refl }.
#[local] Instance demo_apart : LensesApart demo_cache K8sClients (list (string * ReadOnlyRedisClient)).
Proof. done. Qed.

Definition demo_factory_start : st sim demo_cache := sim_start (secret_world demo_url) (MkDemoCache no_clients []).

Lemma redis_client_current_witness :
  let s := demo_factory_start in
  let c := MkReadOnlyRedisClient demo_url "redis://queue:6379" None 60 in
  redis_cache_ok demo_env (get_read_only_redis_client demo_env "" (Some demo_ref) "ns" s).2 ∧
  (_resolve_redis_url (P:=demo_cache) "" (Some demo_ref) "ns" s).1 = Ok demo_url ∧
  make_redis_client demo_env demo_url = Ok c.
Proof.
  cbv zeta. apply (redis_client_current demo_env "" (Some demo_ref) "ns" demo_factory_start
    (MkReadOnlyRedisClient demo_url "redis://queue:6379" None 60)).
  - split_and!; [constructor|constructor|apply Nat.le_0_l].
  - apply injective_projections; [|done]. by vm_compute.
Defined.

(** The memory and log once the core client has been built. *)
Definition core_built : K8sClients := with_api Core (Some (MkApiClient true)) no_clients.

Lemma secret_resolves_witness :
  _resolve_redis_url (P:=K8sClients) "" (Some demo_ref) "ns" (sim_start (secret_world demo_url) no_clients) =
  (Ok demo_url, St (secret_world demo_url) core_built (StoreMem ∅ None)
     [LoadKubeConfig; KubeReadSecret "openstudio-redis" "ns"]).
Proof.
  apply (secret_resolves "" demo_ref "ns" demo_url {["url" := string_of (b64encode (chars demo_url))]}).
  - done.
  - reflexivity.
  - by rewrite lookup_singleton_eq.
  - by vm_compute.
  - by vm_compute.
Defined.

Lemma secret_denied_witness :
  get_read_only_redis_client demo_env "" (Some (MkRedisSecretRef "other" "url")) "ns" demo_factory_start =
  (Raise (RedisCredentialResolutionError
     (secret_error_message "ns" (MkRedisSecretRef "other" "url") 404 "Not Found") (Some 404)),
   St (secret_world demo_url) (MkDemoCache core_built []) (StoreMem ∅ None) [LoadKubeConfig; KubeReadSecret "other" "ns"]).
Proof.
  apply (secret_denied demo_env "" (MkRedisSecretRef "other" "url") "ns" 404 "Not Found").
  - done.
  - reflexivity.
Defined.
