(* ===== verification/RestClientSpec.v ===== *)
(** * The REST client meets its contract

    The retry envelope, the shape of a normalised answer, and which requests
    each operation can send. *)
From Stdlib Require Import Ascii Lqa.
From S2P Require Import Prelude PyValue Effects Logic PyTime Services RestClient StatusStore StatusStoreFacts SimWorld.

(** ** Requests in a log *)

Definition is_http (a : action) : bool := match a with HttpRequest _ _ _ _ => true | _ => false end.
Definition http_count (l : list action) : nat := length (filter (λ a, is_http a = true) l).

Lemma http_count_app l1 l2 : http_count (l1 ++ l2) = (http_count l1 + http_count l2)%nat.
Proof. unfold http_count. by rewrite filter_app, length_app. Qed.

Lemma http_count_observe f ls : http_count [MetricObserve f ls] = 0%nat.
Proof. done. Qed.

(** The actions of one request: the request itself, pauses and metrics. *)
Definition request_action (method url : string) (params data : list (string * string)) (a : action) : Prop :=
  match a with
  | HttpRequest m u p d => m = method ∧ u = url ∧ p = params ∧ d = data
  | Sleep _ | MetricInc _ _ _ | MetricObserve _ _ => True
  | _ => False
  end.

Section request.
Context {W P : Type} `{HttpApi W} `{Entropy W} `{KeyOrder}.
Implicit Types self : OpenStudioClient.
Implicit Types s : st W P.

Lemma send_run method url params data s :
  ∃ r w, send method url params data s =
    (r, St w (mem s) (shared s) (log s ++ [HttpRequest method url params data])) ∧
    http_call method url params data (world s) =
      (match r with Ok (inr x) => Ok x | Ok (inl e) => Raise e | Raise e => Raise e end, w) ∧
    (∀ e, r = Ok (inl e) → is_transient e = true) ∧
    (∀ e, r = Raise e → is_transient e = false).
Proof.
  unfold send, try_except, ext, mbind, M_bind, mret, M_ret.
  destruct (http_call method url params data (world s)) as [[x|e] w] eqn:E.
  - eexists _, _. split; [done|]. by split_and!.
  - destruct (is_transient e) eqn:Et; eexists _, _; split_and!; try done; naive_solver.
Qed.

Definition outcome_ok (r : res http_response) : Prop :=
  match r with
  | Ok x => status_code x < 400
  | Raise e => (∃ msg, e = OpenStudioApiError msg) ∨ is_transient e = false
  end.

(** The pause and the metric before a retry. *)
Lemma retry_pause_run self method attempt s :
  ∃ l, when (W:=W) (P:=P) (negb (attempt =? 0))
      (inc "REST_RETRIES_TOTAL" [("method", py_upper method)];;
       draw ← ask random; _sleep (_jittered_backoff self attempt draw)) s =
    (Ok tt, St (world s) (mem s) (shared s) (log s ++ l)) ∧
    http_count l = 0%nat ∧ ∀ m u p d, Forall (request_action m u p d) l.
Proof.
  destruct (attempt =? 0); simpl.
  - exists []. rewrite app_nil_r. split_and!; [by destruct s|done|constructor].
  - eexists. unfold mbind, M_bind, inc, _sleep, act, ask. simpl. rewrite <-app_assoc. split_and!; [done|done|].
    intros. by repeat constructor.
Qed.

Lemma attempts_run self method path params data n attempt last s r s' :
  _attempts self method path params data n attempt last s = (r, s') →
  outcome_ok r ∧ mem s' = mem s ∧ shared s' = shared s ∧
  ∃ l, log s' = log s ++ l ∧
    Forall (request_action method (_base self +:+ path) params data) l ∧
    (http_count l ≤ n ∧ (n ≠ 0 → 1 ≤ http_count l))%nat.
Proof.
  revert attempt last s. induction n as [|n IH]; intros attempt last s; simpl.
  { intros [= <- <-]. split_and!; [by left; eexists|done|done|]. exists [].
    rewrite app_nil_r. split_and!; [done|constructor|done|done]. }
  destruct (retry_pause_run self method attempt s) as (l1 & E1 & C1 & A1).
  rewrite (bind_run _ _ s tt _ E1). set (s1 := St _ _ _ (log s ++ l1)).
  destruct (send_run method (_base self +:+ path) params data s1) as (a & w & E2 & _ & _ & Hnt).
  set (s2 := St w _ _ _) in *.
  assert (Hone : ∃ l, log s2 = log s ++ l ∧
    Forall (request_action method (_base self +:+ path) params data) l ∧ http_count l = 1%nat).
  { exists (l1 ++ [HttpRequest method (_base self +:+ path) params data]). simpl.
    rewrite app_assoc, http_count_app, C1. split_and!; [done| |done].
    apply Forall_app. split; [done|]. by repeat constructor. }
  destruct Hone as (l2 & L2 & A2 & C2).
  assert (Hdone : ∀ r, outcome_ok r → (r, s2) = (r, s2) →
    outcome_ok r ∧ mem s2 = mem s ∧ shared s2 = shared s ∧
    ∃ l, log s2 = log s ++ l ∧ Forall (request_action method (_base self +:+ path) params data) l ∧
      (http_count l ≤ S n ∧ (S n ≠ 0 → 1 ≤ http_count l))%nat).
  { intros r0 Hr _. split_and!; [done|done|done|]. exists l2. rewrite C2. split_and!; [done|done|lia|lia]. }
  assert (Hagain : ∀ last, _attempts self method path params data n (attempt + 1) last s2 = (r, s') →
    outcome_ok r ∧ mem s' = mem s ∧ shared s' = shared s ∧
    ∃ l, log s' = log s ++ l ∧ Forall (request_action method (_base self +:+ path) params data) l ∧
      (http_count l ≤ S n ∧ (S n ≠ 0 → 1 ≤ http_count l))%nat).
  { intros last' E. apply IH in E as (Ho & Hm & Hs & l & L & A & C & _).
    split_and!; [done|by rewrite Hm|by rewrite Hs|].
    exists (l2 ++ l). rewrite L, L2, app_assoc, http_count_app, C2.
    split_and!; [done|by apply Forall_app|lia|lia]. }
  destruct a as [[e|x]|e].
  - rewrite (bind_run _ _ s1 _ _ E2). apply Hagain.
  - rewrite (bind_run _ _ s1 _ _ E2). destruct (status_code x <? 400) eqn:E4.
    { intros [= <- <-]. apply Hdone; [by apply Z.ltb_lt in E4|done]. }
    destruct (status_code x <? 500).
    { intros [= <- <-]. apply Hdone; [by left; eexists|done]. }
    destruct (negb (String.eqb (py_upper method) "GET")); [|apply Hagain].
    intros [= <- <-]. apply Hdone; [by left; eexists|done].
  - rewrite (bind_raise _ _ s1 _ _ E2). intros [= <- <-]. apply Hdone; [|done].
    right. by apply Hnt.
Qed.

Lemma request_run self method path params data s r s' :
  _request self method path params data s = (r, s') →
  outcome_ok r ∧ mem s' = mem s ∧ shared s' = shared s ∧
  ∃ l, log s' = log s ++ l ∧
    Forall (request_action method (_base self +:+ path) params data) l ∧
    (1 ≤ http_count l ≤ S (_max_retries self))%nat.
Proof.
  unfold _request, finally_with. destruct (_attempts _ _ _ _ _ _ _ _ s) as [r1 s1] eqn:E.
  apply attempts_run in E as (Ho & Hm & Hs & l & L & A & C1 & C2). intros [= <- <-]. simpl.
  split_and!; [done|done|done|]. eexists (l ++ [_]). rewrite L, app_assoc, http_count_app.
  split_and!; [done|apply Forall_app; split; [done|by repeat constructor]|..].
  all: rewrite http_count_observe; lia.
Qed.

(** C17: one REST call sends between one and [max_retries + 1] requests, all of
    them the same request; it returns only answers below 400, and what it
    raises is the client's own error or an exception outside the transient ones. *)
Theorem request_bounded self method path params data s r s' :
  _request self method path params data s = (r, s') →
  (match r with
   | Ok x => status_code x < 400
   | Raise e => (∃ msg, e = OpenStudioApiError msg) ∨ is_transient e = false
   end) ∧
  ∃ l, log s' = log s ++ l ∧ (1 ≤ http_count l ≤ S (_max_retries self))%nat ∧
    Forall (request_action method (_base self +:+ path) params data) l.
Proof.
  intros E. apply request_run in E as (Ho & _ & _ & l & L & A & C). split; [done|]. eauto.
Qed.

(** A request that mutates is not repeated once the server has answered,
    whatever the status: exactly one request goes out and any answer from 400
    on is an error. *)
Theorem non_get_answered_once self method path params data s x w :
  py_upper method ≠ "GET" →
  http_call method (_base self +:+ path) params data (world s) = (Ok x, w) →
  ∃ r s', _request self method path params data s = (r, s') ∧
    (is_ok r = (status_code x <? 400)) ∧
    log s' = log s ++ [HttpRequest method (_base self +:+ path) params data;
      MetricObserve "REST_REQUEST_DURATION_SECONDS"
        [("method", py_upper method); ("outcome", if status_code x <? 400 then "200" else "exception")]].
Proof.
  intros Hm Hc. unfold _request, finally_with. cbn [_attempts]. cbn [Z.eqb negb when].
  rewrite (bind_run (mret tt) _ s tt s) by done.
  destruct (send_run method (_base self +:+ path) params data s) as (a & w' & E & Hcall & _ & _).
  rewrite Hc in Hcall. destruct a as [[e|x']|e]; simplify_eq/=.
  rewrite (bind_run _ _ s _ _ E). apply String.eqb_neq in Hm.
  destruct (status_code x' <? 400).
  { eexists _, _. split; [done|]. simpl. by rewrite <-app_assoc. }
  destruct (status_code x' <? 500).
  { eexists _, _. split; [done|]. simpl. by rewrite <-app_assoc. }
  rewrite Hm. eexists _, _. split; [done|]. simpl. by rewrite <-app_assoc.
Qed.

(** When every attempt ends in a transient connection error the request
    goes out [max_retries + 1] times, for a [POST] or [DELETE] as for a [GET]:
    the envelope does not look at the method there. *)
Theorem transient_errors_refire self method path params data s (down : W → Prop) :
  (∀ w, down w → ∃ cls msg w', down w' ∧
     http_call method (_base self +:+ path) params data w = (Raise (RequestsError true cls msg), w')) →
  down (world s) →
  ∃ msg s' l, _request self method path params data s = (Raise (OpenStudioApiError msg), s') ∧
    log s' = log s ++ l ∧ http_count l = S (_max_retries self).
Proof.
  intros Hc. unfold _request, finally_with.
  enough (∀ n attempt last s, down (world s) → ∃ msg s' l,
    _attempts self method path params data n attempt last s = (Raise (OpenStudioApiError msg), s') ∧
    log s' = log s ++ l ∧ http_count l = n) as Hn.
  { intros Hd. destruct (Hn (S (_max_retries self)) 0 "" s Hd) as (msg & s1 & l & E & L & C). rewrite E.
    eexists msg, _, (l ++ [_]). split; [done|]. simpl. rewrite L, app_assoc, http_count_app, C.
    rewrite http_count_observe. split; [done|lia]. }
  clear s. induction n as [|n IH]; intros attempt last s Hd; simpl.
  { eexists _, s, []. by rewrite app_nil_r. }
  destruct (retry_pause_run self method attempt s) as (l1 & E1 & C1 & A1).
  rewrite (bind_run _ _ s tt _ E1). set (s1 := St _ _ _ (log s ++ l1)).
  destruct (send_run method (_base self +:+ path) params data s1) as (a & w & E2 & Hcall & _ & Hnt).
  destruct (Hc (world s1) Hd) as (cls & m & w' & Hd' & He). rewrite Hcall in He.
  destruct a as [[e|x]|e]; simplify_eq/=; [|by specialize (Hnt _ eq_refl)].
  rewrite (bind_run _ _ s1 _ _ E2). cbv iota beta.
  destruct (IH (attempt + 1) (cls +:+ ": " +:+ m) (St w' (mem s) (shared s)
    ((log s ++ l1) ++ [HttpRequest method (_base self +:+ path) params data])) Hd') as (msg & s' & l & E & L & C).
  eexists msg, s', (l1 ++ [HttpRequest method (_base self +:+ path) params data] ++ l).
  split; [exact E|]. rewrite L, !http_count_app, C1, C. simpl. split; [by rewrite <-!app_assoc|done].
Qed.
End request.

(** ** Timestamp normalisation *)

Section normalize.
Context `{KeyOrder}.

Lemma map_res_ext {A B} (f g : A → res B) l :
  (∀ x, x ∈ l → f x = g x) → map_res f l = map_res g l.
Proof.
  induction l as [|x l IH]; intros Hfg; [done|]. simpl. rewrite Hfg by set_solver.
  destruct (g x); [|done]. simpl. rewrite IH by set_solver. done.
Qed.

Lemma key_order_lookup m k v : (k, v) ∈ key_order m ↔ m !! k = Some v.
Proof. rewrite key_order_perm. apply elem_of_map_to_list. Qed.

(** Fuel beyond the size of the value changes nothing. *)
Lemma normalize_fuel_enough f1 f2 v :
  (pv_size v ≤ f1)%nat → (pv_size v ≤ f2)%nat → normalize_fuel f1 v = normalize_fuel f2 v.
Proof.
  revert f1 f2. induction v as [v IH] using pv_rect_nested. intros f1 f2 H1 H2.
  destruct f1 as [|f1], f2 as [|f2]; try (destruct v; simpl in *; lia).
  destruct v as [| | | | |l|m]; try done.
  - simpl. rewrite (map_res_ext (normalize_fuel f1) (normalize_fuel f2) l); [done|].
    intros x Hx. pose proof (pv_size_list _ _ Hx). apply IH; lia.
  - cbn [normalize_fuel]. erewrite map_res_ext; [done|].
    intros [k x] Hx%key_order_lookup. pose proof (pv_size_dict _ _ _ Hx).
    assert (normalize_fuel f1 x = normalize_fuel f2 x) as E by (apply IH; lia).
    cbn [fst snd]. destruct x; by rewrite E.
Qed.

(** One member of a dictionary. *)
Definition normalize_member (k : string) (v : pv) : res pv :=
  match v with
  | PStr s => if is_timestamp_key k then t ← parse_iso_utc (PStr s); mret (date_value t) else Ok (PStr s)
  | v => _normalize_timestamps v
  end.

Lemma normalize_dict m :
  _normalize_timestamps (PDict m) =
  (kvs ← map_res (λ kv, v ← normalize_member kv.1 kv.2; mret (kv.1, v)) (key_order m);
   mret (PDict (list_to_map kvs))).
Proof.
  unfold _normalize_timestamps. destruct (pv_size (PDict m)) as [|n] eqn:En; [done|].
  cbn [normalize_fuel]. erewrite map_res_ext; [done|].
  intros [k x] Hx%key_order_lookup. pose proof (pv_size_dict _ _ _ Hx) as Hs. cbn [fst snd].
  unfold normalize_member, _normalize_timestamps.
  assert (normalize_fuel n x = normalize_fuel (pv_size x) x) as E by (apply normalize_fuel_enough; lia).
  destruct x; by rewrite E.
Qed.

Lemma map_res_fst_nodup (g : string → pv → res pv) l kvs :
  map_res (λ kv, v ← g kv.1 kv.2; mret (kv.1, v)) l = Ok kvs →
  kvs.*1 = l.*1 ∧ ∀ k v, (k, v) ∈ kvs ↔ ∃ x, (k, x) ∈ l ∧ g k x = Ok v ∧ (k, v) ∈ kvs.
Proof.
  intros HF%map_res_Ok. split.
  - induction HF as [|[k x] [k' v'] l kvs Hx HF IH]; [done|]. simpl. f_equal; [|done].
    apply res_bind_Ok in Hx as (? & _ & [= -> _]). done.
  - intros k v. split; [|by intros (x & _ & _ & ?)]. intros Hin.
    induction HF as [|[k' x] [k'' v'] l kvs Hx HF IH]; [by apply not_elem_of_nil in Hin|].
    apply res_bind_Ok in Hx as (v'' & Hx & [= <- <-]). cbn in Hx.
    apply elem_of_cons in Hin as [[= -> ->]|Hin].
    + exists x. split; [by left|]. split; [done|by left].
    + destruct (IH Hin) as (y & Hy & Hg & Hin'). exists y. split; [by right|]. split; [done|by right].
Qed.

(** An answer keeps its shape: normalising an object gives an object with
    the same members, in which a text under a timestamp key has become the
    instant it denotes and everything else is normalised recursively. *)
Theorem normalize_timestamps_members m v :
  _normalize_timestamps (PDict m) = Ok v →
  ∃ m', v = PDict m' ∧ ∀ k,
    match m !! k with
    | Some x => ∃ y, normalize_member k x = Ok y ∧ m' !! k = Some y
    | None => m' !! k = None
    end.
Proof.
  rewrite normalize_dict. intros E. apply res_bind_Ok in E as (kvs & Hk & [= <-]).
  eexists. split; [done|]. intros k.
  pose proof Hk as HF. apply map_res_Ok in HF.
  apply map_res_fst_nodup in Hk as [Hfst Hin].
  assert (NoDup kvs.*1) as Hnd.
  { rewrite Hfst. rewrite (fmap_Permutation fst _ _ (key_order_perm m)). apply NoDup_fst_map_to_list. }
  destruct (m !! k) as [x|] eqn:Em.
  - assert ((k, x) ∈ key_order m) as Hx by (by apply key_order_lookup).
    apply list_elem_of_lookup in Hx as [i Hi].
    pose proof (Forall2_lookup_l _ _ _ _ _ HF Hi) as ([k' y] & Hy & Hm).
    apply res_bind_Ok in Hm as (y' & Hm & [= <- <-]). exists y'. split; [done|].
    apply elem_of_list_to_map; [done|]. by apply list_elem_of_lookup_2 in Hy.
  - apply not_elem_of_list_to_map. rewrite Hfst. intros Hk.
    apply list_elem_of_fmap in Hk as ([k' x] & -> & Hx%key_order_lookup). cbn in Em. congruence.
Qed.

(** The fuel is always enough. *)
Lemma normalize_no_recursion_error v msg :
  _normalize_timestamps v ≠ Raise (OtherError "RecursionError" msg).
Proof.
  induction v as [v IH] using pv_rect_nested. destruct v as [| | | | |l|m]; try done.
  - unfold _normalize_timestamps. destruct (pv_size (PList l)) as [|n] eqn:En; [done|].
    simpl. intros E.
    assert (Forall (λ x, normalize_fuel n x ≠ Raise (OtherError "RecursionError" msg)) l) as Hall.
    { apply Forall_forall. intros x Hx. pose proof (pv_size_list _ _ Hx).
      rewrite (normalize_fuel_enough n (pv_size x)) by lia. by apply IH; rewrite ?En; lia. }
    clear En IH. assert (map_res (normalize_fuel n) l = Raise (OtherError "RecursionError" msg)) as E'.
    { destruct (map_res _ l); simpl in E; [done|]. by injection E as ->. }
    clear E. induction Hall as [|x l Hx Hall IHl]; [done|]. simpl in E'.
    destruct (normalize_fuel n x) as [y|e]; simpl in E'; [|apply Hx; by injection E' as ->].
    destruct (map_res _ l) eqn:El; simpl in E'; [done|]. apply IHl. by injection E' as ->.
  - rewrite normalize_dict. intros E.
    assert (Forall (λ kv, normalize_member kv.1 kv.2 ≠ Raise (OtherError "RecursionError" msg)) (key_order m)) as Hall.
    { apply Forall_forall. intros [k x] Hx%key_order_lookup. pose proof (pv_size_dict _ _ _ Hx).
      unfold normalize_member. destruct x as [| | |t| | |]; try by apply IH. cbn [fst snd].
      destruct (is_timestamp_key k); [|done]. simpl. unfold parse_iso_str.
      destruct (FromIso.fromisoformat _) as [[us off]|]; [|done]. cbv zeta. by destruct (datetime_ok _). }
    revert E. generalize (key_order m) Hall. intros l Hl. clear -Hl.
    induction Hl as [|[k x] l Hx Hl IHl]; [done|]. simpl in *.
    destruct (normalize_member k x) as [y|e]; simpl; [|intros E; apply Hx; by injection E as ->].
    destruct (map_res _ l); simpl in *; [done|]. intros E. apply IHl. by injection E as ->.
Qed.
End normalize.

(** ** Reads and mutations *)

(** The requests that change the server: every verb but [GET], and the soft
    stop, which the server offers as a [GET]. *)
Definition mutating_request (method url : string) : Prop :=
  method ≠ "GET" ∨ ∃ pre, url = pre +:+ "/soft_stop".

Definition read_action (a : action) : Prop :=
  match a with
  | HttpRequest m u _ _ => ¬ mutating_request m u
  | Sleep _ | MetricInc _ _ _ | MetricObserve _ _ => True
  | _ => False
  end.

Fixpoint last_char (s : string) : option Ascii.ascii :=
  match s with
  | EmptyString => None
  | String c s => match last_char s with Some d => Some d | None => Some c end
  end.

Lemma last_char_app s t c : last_char t = Some c → last_char (s +:+ t) = Some c.
Proof. intros Ht. induction s as [|d s IH]; simpl; [done|]. by rewrite IH. Qed.

Lemma read_url u c : last_char u = Some c → c ≠ "p"%char → ¬ mutating_request "GET" u.
Proof.
  intros Hu Hc [?|[pre ->]]; [done|]. rewrite (last_char_app pre "/soft_stop" "p"%char) in Hu by done.
  congruence.
Qed.

Section operations.
Context {W P : Type} `{HttpApi W} `{Entropy W} `{KeyOrder}.
Context (Pa : action → Prop).
Implicit Types self : OpenStudioClient.

Lemma request_quiet self method path params data :
  (∀ a, request_action method (_base self +:+ path) params data a → Pa a) →
  within (emits Pa) (_request (W:=W) (P:=P) self method path params data).
Proof.
  intros Hq s. destruct (_request self method path params data s) as [r s'] eqn:E.
  apply request_run in E as (_ & _ & _ & l & L & A & _). exists l. split; [done|].
  eapply Forall_impl; [exact A|done].
Qed.

Lemma request_json_quiet self method path params data :
  (∀ a, request_action method (_base self +:+ path) params data a → Pa a) →
  within (emits Pa) (_request_json (W:=W) (P:=P) self method path params data).
Proof.
  intros Hq. unfold _request_json. apply within_bind; [apply _|by apply request_quiet|].
  intros r. apply within_of_res, _.
Qed.

Context (Hread : ∀ a, read_action a → Pa a).

Lemma read_request_quiet self path params c :
  last_char path = Some c → c ≠ "p"%char →
  within (emits Pa) (_request_json (W:=W) (P:=P) self "GET" path params []).
Proof.
  intros Hc Hne. apply request_json_quiet. intros a Ha. apply Hread. destruct a; try done.
  destruct Ha as (-> & -> & _ & _). simpl. eapply read_url; [|done]. by apply last_char_app.
Qed.

Lemma list_analyses_quiet self : within (emits Pa) (list_analyses (W:=W) (P:=P) self).
Proof. by eapply (read_request_quiet _ _ _ "n"%char). Qed.
Lemma list_datapoints_quiet self : within (emits Pa) (list_datapoints (W:=W) (P:=P) self).
Proof. by eapply (read_request_quiet _ _ _ "n"%char). Qed.
Lemma get_analysis_status_quiet self id : within (emits Pa) (get_analysis_status (W:=W) (P:=P) self id).
Proof. apply (read_request_quiet _ _ _ "n"%char); [|done]. by do 2 apply last_char_app. Qed.
Lemma list_started_datapoints_quiet self : within (emits Pa) (list_started_datapoints (W:=W) (P:=P) self).
Proof.
  unfold list_started_datapoints. apply within_bind; [apply _|by eapply (read_request_quiet _ _ _ "s"%char)|].
  intros r. apply within_ret, _.
Qed.
End operations.
#[export] Hint Resolve list_analyses_quiet list_datapoints_quiet get_analysis_status_quiet
  list_started_datapoints_quiet : within.

(** The four reads send nothing but [GET]s, never the soft stop: polling
    does not change the server. *)
Theorem reads_do_not_mutate {W P} `{HttpApi W} `{Entropy W} `{KeyOrder} self id (s : st W P) :
  let sent {A} (m : M W P A) := drop (length (log s)) (log (m s).2) in
  Forall read_action (sent (list_analyses self)) ∧
  Forall read_action (sent (list_datapoints self)) ∧
  Forall read_action (sent (get_analysis_status self id)) ∧
  Forall read_action (sent (list_started_datapoints self)).
Proof.
  assert (Hg : ∀ {A} (m : M W P A), within (emits read_action) m →
    Forall read_action (drop (length (log s)) (log (m s).2))).
  { intros A m Hm. destruct (Hm s) as (l & L & HF). by rewrite L, drop_app_length. }
  split_and!; apply Hg; eauto with within.
Qed.

(** ** Witnesses *)

Definition down_world (http : string → string → res http_response) : sim :=
  Sim ∅ 0 (PDict ∅) [] ∅ ∅ ∅ http (λ _, Raise (RedisError "down")).

Definition sim_client : OpenStudioClient := make_client "http://web/".

Definition timeouts : st sim unit :=
  sim_start (down_world (λ _ _, Raise (RequestsError true "ReadTimeout" "read timed out"))) tt.

Definition gateway_timeout : st sim unit :=
  sim_start (down_world (λ _ _, Ok (Response 504 "upstream" (Ok PNone)))) tt.

Definition requeue_path := "/data_points/d1/requeue".

Lemma request_bounded_witness :
  ∃ l, log (_request sim_client "POST" requeue_path [] [] timeouts).2 = log timeouts ++ l ∧
    (1 ≤ http_count l ≤ 4)%nat ∧ Forall (request_action "POST" "http://web/data_points/d1/requeue" [] []) l.
Proof.
  apply (request_bounded sim_client "POST" requeue_path [] [] timeouts
    (_request sim_client "POST" requeue_path [] [] timeouts).1). apply surjective_pairing.
Defined.

Lemma non_get_answered_once_witness :
  ∃ r s', _request sim_client "POST" requeue_path [] [] gateway_timeout = (r, s') ∧ is_ok r = false ∧
    log s' = [HttpRequest "POST" "http://web/data_points/d1/requeue" [] [];
      MetricObserve "REST_REQUEST_DURATION_SECONDS" [("method", "POST"); ("outcome", "exception")]].
Proof.
  apply (non_get_answered_once sim_client "POST" requeue_path [] [] gateway_timeout
    (Response 504 "upstream" (Ok PNone)) (world gateway_timeout)); done.
Defined.

(** A requeue whose answers time out is posted four times. *)
Lemma transient_errors_refire_witness :
  ∃ msg s' l, _request sim_client "POST" requeue_path [] [] timeouts = (Raise (OpenStudioApiError msg), s') ∧
    log s' = log timeouts ++ l ∧ http_count l = 4%nat.
Proof.
  apply (transient_errors_refire sim_client "POST" requeue_path [] [] timeouts
    (λ w, sim_http w = sim_http (world timeouts))); [|done].
  intros w Hw. eexists _, _, w. split; [done|]. cbn. by rewrite Hw.
Defined.

Lemma normalize_timestamps_members_witness :
  ∃ m', PDict {["created_at" := PDate 0; "name" := PStr "a"]} = PDict m' ∧ ∀ k,
    match ({["created_at" := PStr "1970-01-01T00:00:00Z"; "name" := PStr "a"]} : gmap string pv) !! k with
    | Some x => ∃ y, normalize_member k x = Ok y ∧ m' !! k = Some y
    | None => m' !! k = None
    end.
Proof. apply normalize_timestamps_members. vm_compute; reflexivity. Defined.
