(* ===== verification/StatusStoreSpec.v ===== *)
(** * The status store meets its contract

    The properties of [status_store.py], each with its run on the concrete
    cluster of [SimWorld] where it has hypotheses. *)
From Stdlib Require Import Lqa.
From S2P Require Import Prelude PyValue Effects Logic PyTime Services StatusRecords StatusStore StatusStoreFacts SimWorld.

(** ** Shared lemmas *)

Lemma py_or_dict m : py_or (PDict m) (PDict ∅) = PDict m.
Proof.
  unfold py_or, truthy. destruct (decide (m = ∅)) as [->|Hm].
  - by rewrite bool_decide_eq_false_2 by naive_solver.
  - by rewrite bool_decide_eq_true_2.
Qed.

Section reads.
Context {W P : Type} `{StatusServer W} `{Entropy W} `{StatusEventSink W P} `{KeyOrder}.
Context (self : Store).
Implicit Types s : st W P.

Lemma read_map_run field s r s' :
  field_ok (doc self s) field → _read_map self field s = (r, s') →
  frame self s s' ∧ doc self s' = doc self s ∧ (∀ m, r = Ok m → m = map_of (doc self s) field).
Proof.
  intros Hok. unfold _read_map.
  destruct (_read_status self s) as [[d|e] s1] eqn:Er; pose proof (read_status_run _ _ _ _ Er) as (Hf & Hd & Hr).
  - rewrite (bind_run _ _ s d s1) by exact Er. rewrite (Hr d eq_refl). intros [= <- <-].
    split_and!; [done|done|]. unfold map_of.
    destruct Hok as [Hn|[m Hm]].
    + rewrite Hn. by intros m [= <-].
    + destruct (dget (doc self s) field); try done. injection Hm as ->.
      rewrite py_or_dict. by intros ? [= <-].
  - rewrite (bind_raise _ _ s e s1) by exact Er. intros [= <- <-]. done.
Qed.

Lemma get_record_answered {R} `{Codec R} field key s d s' :
  field_ok (doc self s) field → _read_status self s = (Ok d, s') →
  get_record (R:=R) self field key s =
    (match dget (map_of (doc self s) field) key with
     | PNone => Ok None
     | v => x ← from_dict v (entry_context field key); Ok (Some x)
     end, s').
Proof.
  intros Hok Er. pose proof (read_status_run _ _ _ _ Er) as (_ & _ & Hd).
  unfold get_record, _read_map.
  rewrite (bind_run _ _ s (map_of (doc self s) field) s'); [done|].
  rewrite (bind_run _ _ s d s') by exact Er. rewrite (Hd d eq_refl).
  unfold map_of. destruct Hok as [Hn|[m Hm]].
  - by rewrite Hn.
  - destruct (dget (doc self s) field); try done. by rewrite py_or_dict.
Qed.

Lemma get_record_run {R} `{Codec R} field key s (r : option R) s' :
  field_ok (doc self s) field → get_record self field key s = (Ok r, s') →
  match dget (map_of (doc self s) field) key with
  | PNone => r = None
  | v => ∃ x, from_dict v (entry_context field key) = Ok x ∧ r = Some x
  end.
Proof.
  intros Hok. unfold get_record. rewrite bind_Ok. intros (m & s1 & Hm & Hr).
  apply read_map_run in Hm as (_ & _ & Hm); [|done]. rewrite (Hm m eq_refl) in Hr. clear Hm.
  unfold of_res in Hr. destruct (dget _ key); try by injection Hr as <- <-.
  all: unfold mbind, res_bind in Hr; destruct (from_dict _ _) as [x|] eqn:Ex; try done.
  all: injection Hr as <- <-; eauto.
Qed.
End reads.

Lemma evicts_value key v m : evicts key v m = true → v ≠ PNone.
Proof. intros Ee ->. unfold evicts in Ee. by rewrite bool_decide_true in Ee. Qed.

Lemma entry_after_size protected key v m :
  (Z.of_nat (size m) ≤ STATUS_MAP_MAX_ENTRIES ∨ (v ≠ PNone ∧ py_eq (dget m key) v = false)) →
  (Z.of_nat (size (entry_after protected key v m)) ≤ STATUS_MAP_MAX_ENTRIES).
Proof.
  unfold entry_after. intros Hm. destruct (py_eq (dget m key) v) eqn:Ep.
  { destruct Hm as [?|[_ ?]]; done. }
  destruct (evicts key v m) eqn:Ee.
  - assert (Hv := evicts_value _ _ _ Ee).
    assert (Hcap : STATUS_MAP_MAX_ENTRIES <= Z.of_nat (size m)).
    { unfold evicts in Ee. rewrite !andb_true_iff, Z.leb_le in Ee. tauto. }
    pose proof (size_cap_patch m (evicted_keys protected m) key v Hv
      (evicted_for_NoDup _ _ _) (evicted_for_keys _ _ _)) as Hs.
    unfold evicted_keys in *. rewrite evicted_for_length in Hs.
    unfold STATUS_MAP_MAX_ENTRIES in *. lia.
  - assert (Hlt : v = PNone ∨ Z.of_nat (size m) < STATUS_MAP_MAX_ENTRIES).
    { unfold evicts in Ee. rewrite Ep, andb_true_r, andb_false_iff in Ee.
      destruct Ee as [Ee|Ee]; [left|right; by apply Z.leb_gt in Ee].
      rewrite negb_false_iff, bool_decide_eq_true in Ee. done. }
    assert (Hle : Z.of_nat (size m) <= STATUS_MAP_MAX_ENTRIES) by (destruct Hm as [|[? _]], Hlt; solve [lia | congruence]).
    destruct (patcher v (dget m key)) as [w|] eqn:Epat.
    + destruct Hlt as [-> |Hlt]; [done|]. rewrite map_size_insert. case_match; unfold id; lia.
    + rewrite map_size_delete. case_match; unfold id; lia.
Qed.

Lemma lookup_entry_after_ne protected key v m k :
  map_Forall (λ _ x, no_null x = true) m →
  k ≠ key → evicts key v m = false ∨ k ∉ evicted_keys protected m →
  entry_after protected key v m !! k = m !! k.
Proof.
  intros Hn Hk Hev. unfold entry_after. destruct (py_eq _ _); [done|].
  destruct (evicts key v m) eqn:Ee.
  - assert (Hv := evicts_value _ _ _ Ee).
    destruct Hev as [?|Hev]; [done|].
    rewrite lookup_cap_patch, decide_False, decide_False by done.
    destruct (m !! k) as [x|] eqn:E; [|done]. simpl. apply patcher_self. by apply (Hn k).
  - destruct (patcher _ _); by simplify_map_eq.
Qed.

Lemma lookup_entry_after_eq protected key v m :
  py_eq (dget m key) v = false → entry_after protected key v m !! key = patcher v (dget m key).
Proof.
  unfold entry_after. intros ->. destruct (evicts key v m) eqn:Ee.
  - by rewrite lookup_cap_patch, decide_True by eauto using evicts_value.
  - destruct (patcher _ _); by simplify_map_eq.
Qed.

(** ** Map writes *)

Section map_writes.
Context {W P : Type} `{StatusServer W} `{Entropy W} `{StatusEventSink W P} `{KeyOrder}.
Context (self : Store) `{!SinkSpec (P:=P) self}.
Implicit Types s : st W P.

(** C3: a map write is atomic and touches one map: a call that succeeds turns
    the map into [entry_after] (the entry set, merged or removed, with the
    cap's evictions), one that raises has done exactly that or nothing, and
    no other status field but the deferred events moves. *)
Theorem set_map_entry_atomic field key v s r s' :
  field_ok (doc self s) field → field ≠ DEFERRED_EVENTS →
  _set_map_entry self field key v s = (r, s') →
  let protected := protected_keys self field (shared s) in
  let m := map_of (doc self s) field in
  (map_of (doc self s') field = entry_after protected key v m ∨
   (r ≠ Ok tt ∧ map_of (doc self s') field = m)) ∧
  field_ok (doc self s') field ∧
  ∀ f, f ≠ field → f ≠ DEFERRED_EVENTS → doc self s' !! f = doc self s !! f.
Proof.
  intros Hok Hf E. apply set_map_entry_run in E; [|done..]. cbv zeta in *.
  destruct r as [[]|e].
  - destruct E as (E1 & E2 & E3). split_and!; [by left|done..].
  - destruct E as [Hu|(E1 & E2 & E3)]; [|split_and!; [by left|done..]].
    split_and!; [right|eapply field_ok_ext; [|done]; by rewrite Hu|intros; by apply Hu].
    split; [done|]. apply map_of_ext. by rewrite Hu.
Qed.

(** C5: after a successful write that changes a value, or from a map within
    the cap, the map holds at most [STATUS_MAP_MAX_ENTRIES] entries: the cap
    is an invariant of the writes, and a changing write restores it. *)
Theorem set_map_entry_capped field key v s s' :
  field_ok (doc self s) field → field ≠ DEFERRED_EVENTS →
  _set_map_entry self field key v s = (Ok tt, s') →
  Z.of_nat (size (map_of (doc self s) field)) ≤ STATUS_MAP_MAX_ENTRIES ∨
    (v ≠ PNone ∧ py_eq (dget (map_of (doc self s) field) key) v = false) →
  Z.of_nat (size (map_of (doc self s') field)) ≤ STATUS_MAP_MAX_ENTRIES.
Proof.
  intros Hok Hf E Hs. apply set_map_entry_run in E as (_ & -> & _); [|done..].
  by apply entry_after_size.
Qed.

(** C30: cap eviction spares the anchors the watchdog protects: as long as one
    unprotected entry beside the written one is left after a write, every
    protected entry is still there with its value. *)
Theorem cap_evicts_protected_last field key v s s' k x u :
  field_ok (doc self s) field → field ≠ DEFERRED_EVENTS →
  map_Forall (λ _ x, no_null x = true) (map_of (doc self s) field) →
  _set_map_entry self field key v s = (Ok tt, s') →
  let protected := protected_keys self field (shared s) in
  is_Some (map_of (doc self s') field !! u) → u ≠ key → u ∉ protected →
  map_of (doc self s) field !! k = Some x → k ∈ protected → k ≠ key →
  map_of (doc self s') field !! k = Some x.
Proof.
  intros Hok Hf Hn E protected [y Hu] Hune Hup Hk Hkp Hne.
  apply set_map_entry_run in E as (_ & Hm & _); [|done..]. fold protected in Hm. rewrite Hm in *.
  set (m := map_of (doc self s) field) in *.
  destruct (evicts key v m) eqn:Ee; [|by rewrite lookup_entry_after_ne by eauto].
  destruct (decide (k ∈ evicted_keys protected m)) as [Hke|]; [exfalso|by rewrite lookup_entry_after_ne by eauto].
  assert (py_eq (dget m key) v = false) as Ep.
  { unfold evicts in Ee. rewrite !andb_true_iff, !negb_true_iff in Ee. tauto. }
  destruct (decide (u ∈ evicted_keys protected m)) as [Hue|Hue].
  - revert Hu. unfold entry_after. rewrite Ee, Ep.
    by rewrite lookup_cap_patch, decide_False, decide_True by eauto using evicts_value.
  - apply Hue, (evicted_protected_last _ _ _ k); [done..| |done].
    rewrite lookup_entry_after_ne in Hu by eauto. eauto.
Qed.

(** The entry a record setter leaves at its id: an older entry [==] to the
    encoding as it was, otherwise the encoding merged into the older one. *)
Definition stored_entry {R} `{Codec R} (old : pv) (r : R) : pv :=
  if py_eq old (PDict (to_dict r)) then old
  else PDict (merge_dict (default ∅ (as_dict old)) (to_dict r)).

(** C32: round trip of a record through the server. After a record setter
    returned on a well-formed status map, the getter of the same id, once its
    read of the status is answered, decodes exactly the entry stored: the
    encoding of the record merged into the older entry, whose members the
    encoding lacks survive. If the record has representable timestamps and the
    older entry (none, for a fresh id) has no such member, the getter returns
    the record that was set: it neither raises nor finds nothing. *)
Theorem set_then_get_record {R} `{Codec R} field key (r : R) s s1 s2 d :
  let old := dget (map_of (doc self s) field) key in
  field_ok (doc self s) field → field ≠ DEFERRED_EVENTS →
  set_record self field key r s = (Ok tt, s1) →
  _read_status self s1 = (Ok d, s2) →
  get_record (R:=R) self field key s1 =
    (x ← from_dict (R:=R) (stored_entry old r) (entry_context field key); Ok (Some x), s2) ∧
  (rec_ok r →
   (∀ k, is_Some (default ∅ (as_dict old) !! k) → is_Some (to_dict r !! k)) →
   get_record (R:=R) self field key s1 = (Ok (Some r), s2)).
Proof.
  intros old Hok Hf Es Er.
  apply set_map_entry_run in Es as (Hok1 & Hm & _); [|done..].
  assert (Hkey : dget (map_of (doc self s1) field) key = stored_entry old r).
  { rewrite Hm. unfold stored_entry. destruct (py_eq old (PDict (to_dict r))) eqn:Ep.
    - unfold entry_after. fold old. by rewrite Ep.
    - unfold dget at 1. by rewrite lookup_entry_after_eq, patcher_dict by done. }
  assert (Hget : get_record (R:=R) self field key s1 =
    (x ← from_dict (R:=R) (stored_entry old r) (entry_context field key); Ok (Some x), s2)).
  { rewrite (get_record_answered (R:=R) self field key s1 d s2), Hkey by done.
    unfold stored_entry. destruct (py_eq old (PDict (to_dict r))) eqn:Ep; [|done].
    by apply py_eq_dict in Ep as (m' & -> & _). }
  split; [done|]. intros Hr Hold. rewrite Hget. unfold stored_entry.
  destruct (py_eq old (PDict (to_dict r))) eqn:Ep.
  - by rewrite (from_py_eq r).
  - by rewrite from_merge by done.
Qed.
End map_writes.

(** ** The retry loop *)

Definition is_patch (a : action) : bool :=
  match a with KubePatchStatus _ _ _ => true | _ => false end.

Definition slept (a : action) : Q := match a with Sleep q => q | _ => 0%Q end.

Definition patches (l : list action) : nat := length (filter (λ a, is_patch a = true) l).
Definition time_slept (l : list action) : Q := foldr (λ a q, (slept a + q)%Q) 0%Q l.

Lemma patches_app l1 l2 : patches (l1 ++ l2) = (patches l1 + patches l2)%nat.
Proof. unfold patches. by rewrite filter_app, length_app. Qed.

Lemma time_slept_app l1 l2 : (time_slept (l1 ++ l2) == time_slept l1 + time_slept l2)%Q.
Proof. induction l1 as [|a l1 IH]; simpl; [ring|]. rewrite IH. ring. Qed.

(** Neither a patch nor a pause. *)
Definition idle (a : action) : Prop := is_patch a = false ∧ slept a = 0%Q.

Lemma idle_list l : Forall idle l → patches l = 0%nat ∧ (time_slept l == 0)%Q.
Proof.
  induction 1 as [|a l [Ha Hb] Hl [IH1 IH2]]; [done|]. unfold patches in *.
  rewrite filter_cons_False by congruence. split; [done|]. simpl. rewrite Hb, IH2. ring.
Qed.

Lemma Qpow_half a : 0 <= a → (0 < inject_Z (2 ^ a))%Q.
Proof. intros Ha. replace 0%Q with (inject_Z 0) by done. rewrite <-Zlt_Qlt. lia. Qed.

Lemma conflict_backoff_bounds a draw :
  1 <= a → (0 <= draw < 1)%Q →
  (0 <= _conflict_backoff a draw <= (3 # 2) * inject_Z (2 ^ (a - 1)))%Q ∧
  (_conflict_backoff a draw <= JITTER_CEILING_SECONDS)%Q.
Proof.
  intros Ha [H0 H1]. unfold _conflict_backoff. cbv zeta.
  pose proof (Qpow_half (a - 1) ltac:(lia)) as Hp.
  set (e := inject_Z (2 ^ (a - 1))) in *.
  assert (Hb : (0 <= e * ((1 # 2) + draw) <= (3 # 2) * e)%Q) by (split; nra).
  destruct (Qle_bool _ _) eqn:E.
  - by apply Qle_bool_iff in E.
  - assert (¬ (e * ((1 # 2) + draw) <= JITTER_CEILING_SECONDS)%Q) as Hn.
    { intros Hq. apply Qle_bool_iff in Hq. congruence. }
    apply Qnot_le_lt in Hn. unfold JITTER_CEILING_SECONDS in *. split; [split|]; lra.
Qed.

(** The pauses [n] attempts from number [a] on can add up to. *)
Fixpoint pause_bound (n : nat) (a : Z) : Q :=
  match n with
  | O => 0
  | S n => (if a <? Z.of_nat MAX_CONFLICT_RETRIES then (3 # 2) * inject_Z (2 ^ (a - 1)) else 0)
           + pause_bound n (a + 1)
  end.

Lemma pause_bound_nonneg n a : 1 <= a → (0 <= pause_bound n a)%Q.
Proof.
  revert a. induction n as [|n IH]; intros a Ha; simpl; [lra|].
  specialize (IH (a + 1) ltac:(lia)). pose proof (Qpow_half (a - 1) ltac:(lia)).
  case_match; lra.
Qed.

Section retries.
Context {W P : Type} `{CustomObjectsApi W} `{Entropy W} `{StatusEventSink W P} `{KeyOrder}.
Context (self : Store).
Implicit Types s : st W P.

Lemma read_status_idle s r s' :
  _read_status self s = (r, s') → ∃ l, log s' = log s ++ l ∧ Forall idle l.
Proof.
  intros E. enough (within (emits idle) (_read_status (W:=W) (P:=P) self)) as Hw.
  { specialize (Hw s). by rewrite E in Hw. }
  unfold _read_status, stamp_map_entries, set_cache. solve_within; done.
Qed.

Lemma try_patch_log p s r s' :
  try_patch self p s = (r, s') →
  ∃ l, log s' = log s ++ l ∧ patches l = 1%nat ∧ (time_slept l == 0)%Q.
Proof.
  unfold try_patch, try_except, observe_duration, finally, patch_namespaced_custom_object_status,
    ext, inc, act, mbind, M_bind, mret, M_ret.
  destruct (patch_status_call _ _ _ _) as [[[]|e] w]; simpl.
  { intros [= <- <-]. eexists. simpl. rewrite <-app_assoc. by split_and!. }
  intros E. assert (∃ l, log s' = log s ++ [KubePatchStatus (store_namespace self) (store_name self) p;
    MetricObserve "KUBE_API_REQUEST_DURATION_SECONDS" [("verb", "patch")]] ++ l ∧ Forall idle l) as (l & -> & Hl).
  { repeat case_match; simplify_eq/=;
      first [exists []; by rewrite <-app_assoc |
             eexists; rewrite <-!app_assoc; split; [done|by repeat constructor]]. }
  eexists. split; [done|]. apply idle_list in Hl as [Hp Ht]. rewrite patches_app, time_slept_app, Hp, Ht.
  split; [done|]. simpl. ring.
Qed.

Lemma mutate_loop_log {X} build n a (x : X) s r s' :
  1 <= a → _mutate_loop self build n a x s = (r, s') →
  ∃ l, log s' = log s ++ l ∧ (patches l ≤ n)%nat ∧ (time_slept l <= pause_bound n a)%Q.
Proof.
  revert a x s r s'. induction n as [|n IH]; intros a x s r s' Ha; simpl.
  { intros [= <- <-]. eexists. split; [done|]. split; [done|]. simpl. lra. }
  pose proof (pause_bound_nonneg n (a + 1) ltac:(lia)) as Hnn.
  pose proof (Qpow_half (a - 1) ltac:(lia)) as Hpow.
  set (bnd := if a <? _ then _ else _). assert (0 <= bnd)%Q as Hb0 by (unfold bnd; case_match; lra).
  destruct (_read_status self s) as [[d|e] s1] eqn:Er; pose proof (read_status_idle _ _ _ Er) as (l1 & L1 & I1);
    apply idle_list in I1 as [P1 T1].
  2: { rewrite (bind_raise _ _ _ _ _ Er). intros [= <- <-]. exists l1. split; [done|].
       rewrite P1, T1. split; [lia|lra]. }
  rewrite (bind_run _ _ _ _ _ Er). destruct (build d x) as [[[p|] x']|e] eqn:Eb.
  2,3: intros [= <- <-]; exists l1; split; [done|]; rewrite P1, T1; split; [lia|lra].
  rewrite (bind_run (of_res _) _ s1 (Some p, x') s1) by done. cbn beta iota.
  destruct (try_patch self p s1) as [[[]|e] s2] eqn:Ep; pose proof (try_patch_log _ _ _ _ Ep) as (l2 & L2 & P2 & T2).
  - rewrite (bind_run _ _ _ _ _ Ep). intros [= <- <-]. exists (l1 ++ l2). simpl.
    rewrite L2, L1, <-app_assoc, patches_app, time_slept_app, P1, P2, T1, T2.
    split; [done|]. split; [lia|lra].
  - rewrite (bind_run _ _ _ _ _ Ep). unfold mbind at 1, M_bind at 1.
    destruct (when _ _ s2) as [r3 s3] eqn:Ew.
    assert (∃ l3, log s3 = log s2 ++ l3 ∧ patches l3 = 0%nat ∧ (time_slept l3 <= bnd)%Q ∧ r3 = Ok tt)
      as (l3 & L3 & P3 & T3 & ->).
    { unfold bnd. destruct (a <? _); simpl in Ew; injection Ew as <- <-.
      - eexists. split; [done|]. split; [done|]. split; [|done]. simpl.
        pose proof (random_range (world s2)) as Hr.
        pose proof (proj1 (conflict_backoff_bounds a _ Ha Hr)). lra.
      - exists []. rewrite app_nil_r. split_and!; [done|done|simpl; lra|done]. }
    intros E. apply IH in E as (l4 & L4 & P4 & T4); [|lia].
    exists (l1 ++ l2 ++ l3 ++ l4).
    rewrite L4, L3, L2, L1, !patches_app, !time_slept_app, P1, P2, P3, T1, T2.
    split; [by rewrite <-!app_assoc|]. split; [lia|]. lra.
  - rewrite (bind_raise _ _ _ _ _ Ep). intros [= <- <-]. exists (l1 ++ l2).
    rewrite L2, L1, <-app_assoc, patches_app, time_slept_app, P1, P2, T1, T2.
    split; [done|]. split; [lia|lra].
Qed.

(** C8: every status write ends after at most five patch attempts and less
    than 22.5 seconds of pauses between them, whatever the server answers. *)
Theorem mutate_bounded {X} build (x : X) s :
  ∃ l, log (_mutate self build x s).2 = log s ++ l ∧
    (patches l ≤ MAX_CONFLICT_RETRIES)%nat ∧ (time_slept l <= 45 # 2)%Q.
Proof.
  destruct (_mutate self build x s) as [r s'] eqn:E.
  apply mutate_loop_log in E as (l & ? & ? & Ht); [|done]. exists l. split_and!; [done..|].
  eapply Qle_trans; [exact Ht|]. by vm_compute.
Qed.
End retries.

(** A server on which the operator loses a number of races against another
    writer and then wins: reads succeed, the next [races] patches answer 409. *)
Class RacingServer (W : Type) `{StatusServer W} := {
  races : W → nat;
  racing_get ns name w :
    is_ok (get_status_call ns name w).1 = true ∧ races (get_status_call ns name w).2 = races w;
  racing_lost ns name body w n : races w = S n →
    ∃ reason w', patch_status_call ns name body w = (Raise (ApiException 409 reason), w') ∧ races w' = n;
  racing_won ns name body w : races w = O → ∃ w', patch_status_call ns name body w = (Ok tt, w');
}.

#[export, refine] Instance sim_racing : RacingServer sim := { races := sim_conflicts }.
Proof.
  - done.
  - intros ns name body w n Hw. cbn. unfold sim_patch_status. rewrite Hw. by eexists _, _.
  - intros ns name body w Hw. cbn. unfold sim_patch_status. rewrite Hw. by eexists.
Defined.

Section races.
Context {W P : Type} `{RacingServer W} `{Entropy W} `{StatusEventSink W P} `{KeyOrder}.
Context (self : Store).
Implicit Types s : st W P.

Lemma foreach_returns {A} (l : list A) (f : A → M W P unit) s :
  (∀ x s, ∃ s', f x s = (Ok tt, s') ∧ world s' = world s) →
  ∃ s', foreach l f s = (Ok tt, s') ∧ world s' = world s.
Proof.
  intros Hf. revert s. induction l as [|x l IH]; intros s; simpl; [by exists s|].
  destruct (Hf x s) as (s1 & E1 & W1). rewrite (bind_run _ _ _ _ _ E1).
  destruct (IH s1) as (s2 & E2 & W2). exists s2. split; [done|congruence].
Qed.

Lemma racing_read s : ∃ s1, _read_status self s = (Ok (doc self s), s1) ∧
  doc self s1 = doc self s ∧ races (world s1) = races (world s).
Proof.
  pose proof (racing_get (store_namespace self) (store_name self) (world s)) as [Hg Hr].
  destruct (get_status_call (store_namespace self) (store_name self) (world s)) as [[obj|?] w] eqn:Eg; [|done].
  pose proof (get_ok _ _ _ _ _ Eg) as [Hobj Hdoc]. simpl in Hr.
  unfold _read_status.
  rewrite (bind_run (observe_duration _ _ _) _ s obj
    (St w (mem s) (shared s) (log s ++ [KubeGetStatus (store_namespace self) (store_name self)] ++
      [MetricObserve "KUBE_API_REQUEST_DURATION_SECONDS" [("verb", "get")]]))).
  2: { unfold observe_duration, finally, get_namespaced_custom_object_status, ext. rewrite Eg.
       simpl. by rewrite <-app_assoc. }
  rewrite Hobj. set (s0 := St w _ _ _). rewrite (bind_run (of_res _) _ s0 (doc self s) s0) by done.
  destruct (foreach_returns _STATUS_MAP_FIELDS (λ field,
    match dget (doc self s) field with
    | PDict m => gauge "STATUS_MAP_ENTRIES" (self_labels self ++ [("map_name", field)]) (MInt (Z.of_nat (size m)))
    | PNone => gauge "STATUS_MAP_ENTRIES" (self_labels self ++ [("map_name", field)]) (MInt 0)
    | _ => mret tt
    end) s0) as (s1 & E1 & W1).
  { intros f s2. destruct (dget _ f); eexists; done. }
  rewrite (bind_run _ _ s0 tt s1) by exact E1. eexists. split; [done|]. unfold doc. simpl.
  rewrite W1. simpl. by rewrite Hdoc.
Qed.

Lemma racing_loop {X} build n a (x : X) s :
  (∀ y, ∃ p x', build (doc self s) y = Ok (Some p, x')) →
  if (races (world s) <? n)%nat then
    ∃ x' s', _mutate_loop self build n a x s = (Ok x', s')
  else
    ∃ msg s', _mutate_loop self build n a x s = (Raise (StatusStoreConflictError msg), s') ∧
      doc self s' = doc self s.
Proof.
  revert a x s. induction n as [|n IH]; intros a x s Hb.
  { simpl. eexists _, _. split; [done|done]. }
  destruct (racing_read s) as (s1 & E1 & D1 & R1). cbn [_mutate_loop].
  rewrite (bind_run _ _ _ _ _ E1). destruct (Hb x) as (p & x' & Ep). rewrite Ep.
  rewrite (bind_run (of_res _) _ s1 (Some p, x') s1) by done. cbn beta iota.
  destruct (races (world s)) as [|k] eqn:Ek.
  - destruct (racing_won (store_namespace self) (store_name self) p (world s1) R1) as (w & Hw).
    unfold try_patch, try_except, observe_duration, finally, patch_namespaced_custom_object_status,
      ext, mbind, M_bind, mret, M_ret. rewrite Hw. simpl. by eexists _, _.
  - destruct (racing_lost (store_namespace self) (store_name self) p (world s1) k R1) as (reason & w & Hw & Rw).
    set (s2 := St w (mem s1) (shared s1) (((log s1 ++ [KubePatchStatus (store_namespace self) (store_name self) p]) ++
      [MetricObserve "KUBE_API_REQUEST_DURATION_SECONDS" [("verb", "patch")]]) ++
      [MetricInc "STATUS_CONFLICTS_TOTAL" (self_labels self) 1])).
    rewrite (bind_run (try_patch self p) _ s1 false s2).
    2: { unfold try_patch, try_except, observe_duration, finally, patch_namespaced_custom_object_status,
           ext, mbind, M_bind, mret, M_ret. by rewrite Hw. }
    destruct (when (a <? Z.of_nat MAX_CONFLICT_RETRIES)
      (draw ← ask random; _sleep (_conflict_backoff a draw)) s2) as [r3 s3] eqn:Ew.
    pose proof Ew as Ew2. apply (backoff_run _ a) in Ew2 as [-> Hc]. injection Hc as W3 _ _.
    rewrite (bind_run (when (a <? Z.of_nat MAX_CONFLICT_RETRIES) _) _ s2 tt s3) by exact Ew.
    assert (doc self s3 = doc self s) as D3.
    { unfold doc in *. rewrite W3. simpl. rewrite <-D1. eapply patch_conflict; exact Hw. }
    rewrite <-D3 in Hb. specialize (IH (a + 1) x' s3 Hb). rewrite W3, D3 in IH.
    change (world s2) with w in IH. rewrite Rw in IH.
    change ((S k <? S n)%nat) with ((k <? n)%nat). exact IH.
Qed.

(** C34: progress under contention: a write that loses fewer than five races
    returns (with the patch applied), and one that loses five raises the
    conflict error with the document as it was. *)
Theorem mutate_survives_conflicts {X} build (x : X) s :
  (∀ y, ∃ p x', build (doc self s) y = Ok (Some p, x')) →
  ((races (world s) < MAX_CONFLICT_RETRIES)%nat →
    ∃ p x' y s', _mutate self build x s = (Ok x', s') ∧
      build (doc self s) y = Ok (Some p, x') ∧ doc self s' = patch_effect (doc self s) p) ∧
  ((MAX_CONFLICT_RETRIES ≤ races (world s))%nat →
    ∃ msg s', _mutate self build x s = (Raise (StatusStoreConflictError msg), s') ∧
      doc self s' = doc self s).
Proof.
  intros Hb. pose proof (racing_loop build MAX_CONFLICT_RETRIES 1 x s Hb) as Hl. split; intros Hr.
  - rewrite (proj2 (Nat.ltb_lt _ _) Hr) in Hl. destruct Hl as (x' & s' & E).
    pose proof (mutate_run _ _ _ _ _ _ E) as [_ (k & o & Ho & Hd)].
    destruct (Hb (Nat.iter k (rebuild build (doc self s)) x)) as (p & x2 & Hb2).
    rewrite Hb2 in Ho. injection Ho as <- <-. by eexists p, _, _, s'.
  - by rewrite (proj2 (Nat.ltb_ge _ _) Hr) in Hl.
Qed.
End races.

(** ** Escalation markers, pruning, deferred events *)

Lemma merge_dict_onto (cur new : gmap string pv) :
  (∀ k v, cur !! k = Some v → is_Some (new !! k)) →
  (∀ k v, new !! k = Some v → patcher v (dget cur k) = Some v) →
  merge_dict cur new = new.
Proof.
  intros Hsub Hp. apply map_eq. intros k. rewrite lookup_merge_dict.
  destruct (new !! k) as [v|] eqn:E; [by apply Hp|].
  destruct (cur !! k) eqn:E2; [|done]. apply Hsub in E2. rewrite E in E2. by destruct E2.
Qed.

(** The escalation marker on an entry. *)
Definition escalated (when_ : Z) (outcome : string) (cur : gmap string pv) : gmap string pv :=
  <["escalationOutcome" := PStr outcome]> (<["escalatedAt" := iso_pv when_]> cur).

Lemma merge_escalated t o cur : no_null (PDict cur) = true →
  merge_dict cur (escalated t o cur) = escalated t o cur.
Proof.
  intros Hn. apply merge_dict_onto.
  - intros k v Hk. unfold escalated. rewrite !lookup_insert_is_Some. destruct (decide (k = "escalationOutcome")), (decide (k = "escalatedAt")); naive_solver.
  - intros k v. unfold escalated. destruct (decide (k = "escalationOutcome")) as [->|].
    { rewrite lookup_insert_eq. by intros [= <-]. }
    rewrite lookup_insert_ne by done. destruct (decide (k = "escalatedAt")) as [->|].
    { rewrite lookup_insert_eq. by intros [= <-]. }
    rewrite lookup_insert_ne by done. intros Hk. unfold dget. rewrite Hk.
    apply patcher_self. rewrite no_null_dict in Hn. by apply (Hn k).
Qed.

Lemma py_eq_escalated t o cur :
  py_eq (PDict (escalated t o cur)) (PDict cur) = true → escalated t o cur = cur.
Proof.
  intros H%bool_decide_eq_true. injection H as H. apply map_eq. intros k.
  assert (norm <$> escalated t o cur !! k = norm <$> cur !! k) as Hk by (by rewrite <-!lookup_fmap, H).
  revert Hk. unfold escalated. destruct (decide (k = "escalationOutcome")) as [->|].
  { rewrite lookup_insert_eq. destruct (cur !! _) eqn:E; [|done]. intros [= Hk]. f_equal. symmetry in Hk. by apply norm_str in Hk. }
  rewrite lookup_insert_ne by done. destruct (decide (k = "escalatedAt")) as [->|].
  { rewrite lookup_insert_eq. destruct (cur !! _) eqn:E; [|done]. intros [= Hk]. f_equal. symmetry in Hk. by apply norm_str in Hk. }
  by rewrite lookup_insert_ne.
Qed.

Lemma lookup_gset_PNone (l : list string) k :
  gset_to_gmap PNone (list_to_set l : gset string) !! k = if decide (k ∈ l) then Some PNone else None.
Proof.
  rewrite lookup_gset_to_gmap. case_decide as Hk.
  - by rewrite option_guard_True by set_solver.
  - by rewrite option_guard_False by set_solver.
Qed.

Lemma merge_dict_drop m l : merge_dict m (gset_to_gmap PNone (list_to_set l)) = filter (λ kv, kv.1 ∉ l) m.
Proof.
  apply map_eq. intros k. rewrite lookup_merge_dict, lookup_gset_PNone. case_decide.
  - symmetry. apply map_lookup_filter_None. right. naive_solver.
  - symmetry. rewrite map_lookup_filter. destruct (m !! k); simpl; [|done].
    by rewrite option_guard_True.
Qed.

Lemma elem_of_dead_keys d field live k :
  k ∈ dead_keys d field (Some live) ↔ is_Some (map_of d field !! k) ∧ k ∉ live.
Proof.
  unfold dead_keys, map_of. destruct (dget d field); cbn.
  1-6: split; [by intros ?%not_elem_of_nil|intros [[? Hx] _]; done].
  rewrite elem_of_sorted_strings, list_elem_of_filter, list_elem_of_fmap. split.
  - intros [Hl ([? x] & -> & Hx%elem_of_map_to_list)]. cbn in *. eauto.
  - intros [[x Hx] Hl]. split; [done|]. exists (k, x). by rewrite elem_of_map_to_list.
Qed.

Lemma NoDup_fst_filter {A B} (Q : A * B → Prop) `{∀ x, Decision (Q x)} (l : list (A * B)) :
  NoDup l.*1 → NoDup (filter Q l).*1.
Proof.
  induction l as [|x l IH]; [done|]. rewrite fmap_cons, NoDup_cons. intros [Hx Hl].
  rewrite filter_cons. case_decide; [|by apply IH]. rewrite fmap_cons. apply NoDup_cons. split; [|by apply IH].
  intros Hin. apply Hx. apply list_elem_of_fmap in Hin as (y & -> & Hy).
  apply list_elem_of_filter in Hy as [_ Hy]. apply list_elem_of_fmap. eauto.
Qed.

(** What [prune] applies, and the patch it makes of it. *)
Lemma elem_of_prune_applied scopes d f l :
  (f, l) ∈ prune_applied scopes d ↔ l ≠ [] ∧ ∃ live, (f, live) ∈ scopes ∧ l = dead_keys d f live.
Proof.
  unfold prune_applied. rewrite list_elem_of_filter, list_elem_of_fmap. cbn. split.
  - intros [Hl ([f' live] & [= -> ->] & Hin)]. eauto.
  - intros [Hl (live & Hin & ->)]. split; [done|]. by exists (f, live).
Qed.

Definition applied_patch (applied : list (string * list string)) : gmap string pv :=
  list_to_map ((λ fd, (fd.1, PDict (gset_to_gmap PNone (list_to_set fd.2)))) <$> applied).

Lemma lookup_applied_patch scopes d f dead :
  NoDup scopes.*1 →
  applied_patch (prune_applied scopes d) !! f = Some dead ↔
  ∃ l, (f, l) ∈ prune_applied scopes d ∧ dead = PDict (gset_to_gmap PNone (list_to_set l)).
Proof.
  intros Hnd. assert (Happ : NoDup (prune_applied scopes d).*1).
  { unfold prune_applied. apply NoDup_fst_filter. by rewrite <-list_fmap_compose. }
  unfold applied_patch. rewrite <-elem_of_list_to_map; [|by rewrite <-list_fmap_compose].
  rewrite list_elem_of_fmap. split; [intros ([f' l] & [= -> ->] & Hin); eauto|].
  intros (l & Hin & ->). by exists (f, l).
Qed.

(** An entry of a scoped map whose id is not live. *)
Definition dead (scopes : list (string * option (gset string))) (d : gmap string pv) (f k : string) : Prop :=
  ∃ live, (f, Some live) ∈ scopes ∧ is_Some (map_of d f !! k) ∧ k ∉ live.

(** [d'] is [d] with the scoped maps cut down to their live entries: a field
    without a dead entry, scoped or not, is as it was. *)
Definition pruned_to scopes (d d' : gmap string pv) : Prop :=
  (∀ f live, (f, Some live) ∈ scopes → map_of d' f = filter (λ kv, kv.1 ∈ live) (map_of d f)) ∧
  (∀ f, (∀ k, ¬ dead scopes d f k) → d' !! f = d !! f).

Lemma prune_applied_dead scopes d f k :
  (∃ ids, (f, ids) ∈ prune_applied scopes d ∧ k ∈ ids) ↔ dead scopes d f k.
Proof.
  unfold dead. setoid_rewrite elem_of_prune_applied. split.
  - intros (ids & (Hne & [live|] & Hin & ->) & Hk); [|by destruct Hne].
    apply elem_of_dead_keys in Hk. eauto.
  - intros (live & Hin & Hk). apply elem_of_dead_keys in Hk.
    exists (dead_keys d f (Some live)). split; [|done]. split; [|by eauto].
    intros E. rewrite E in Hk. by apply not_elem_of_nil in Hk.
Qed.

Lemma dead_keys_NoDup d f live : NoDup (dead_keys d f live).
Proof.
  unfold dead_keys. destruct live as [live|]; [|constructor].
  destruct (dget d f); try constructor.
  rewrite sorted_strings_perm. apply NoDup_filter, NoDup_fst_map_to_list.
Qed.

(** The patch [prune] sends, on a status whose scoped fields are distinct. *)
Lemma prune_patch_effect scopes d :
  NoDup scopes.*1 →
  let d' := match prune_patch scopes d [] with Ok (Some p, _) => patch_effect d p | _ => d end in
  pruned_to scopes d d'.
Proof.
  intros Hnd d'.
  set (patch := applied_patch (prune_applied scopes d)).
  assert (Hd' : d' = merge_dict d patch).
  { unfold d', prune_patch, patch, applied_patch. destruct (prune_applied scopes d) as [|fd l].
    - apply map_eq. intros k. by rewrite lookup_merge_dict.
    - cbn [patch_effect]. unfold patch_effect, status_patch. by rewrite lookup_singleton_eq. }
  pose proof (λ f dead, lookup_applied_patch scopes d f dead Hnd) as Hpatch. fold patch in Hpatch.
  pose proof (elem_of_prune_applied scopes d) as Hin.
  clearbody d' patch. subst d'. split.
  - intros f live Hf.
    assert (Hdead : map_of d f = ∅ ∨ dget d f = PDict (map_of d f)).
    { unfold map_of. destruct (dget d f); eauto. }
    assert (Hflt : filter (λ kv, kv.1 ∉ dead_keys d f (Some live)) (map_of d f)
                   = filter (λ kv, kv.1 ∈ live) (map_of d f)).
    { apply map_filter_ext. intros k x Hk. cbn [fst]. rewrite elem_of_dead_keys, Hk.
      destruct (decide (k ∈ live)); naive_solver. }
    rewrite <-Hflt. unfold map_of at 1, dget. rewrite lookup_merge_dict.
    destruct (patch !! f) as [dead|] eqn:Ep.
    + apply Hpatch in Ep as (l & Hl & ->). apply Hin in Hl as (Hne & live' & Hl & ->).
      assert (live' = Some live) as ->.
      { apply list_elem_of_lookup in Hf as [i Hf], Hl as [j Hl].
        assert (i = j) as ->; [|congruence].
        eapply (NoDup_lookup scopes.*1); [done| |]; rewrite list_lookup_fmap; [by rewrite Hf|by rewrite Hl]. }
      rewrite patcher_dict. cbn. rewrite merge_dict_drop. reflexivity.
    + change (map_of d f = filter (λ kv, kv.1 ∉ dead_keys d f (Some live)) (map_of d f)).
      symmetry. apply map_filter_id. intros k x Hk. cbn [fst]. intros Hkd.
      assert (dead_keys d f (Some live) ≠ []) as Hne by (intros E; by rewrite E in Hkd; apply not_elem_of_nil in Hkd).
      assert (is_Some (patch !! f)) as [? ?]; [|congruence].
      eexists. apply Hpatch. eexists. split; [|done]. apply Hin. eauto.
  - intros f Hf. rewrite lookup_merge_dict. destruct (patch !! f) as [ids|] eqn:Ep; [|done]. exfalso.
    apply Hpatch in Ep as (l & Hl & _). pose proof (Hin f l) as [(Hne & _) _]; [done|].
    destruct l as [|k l]; [done|]. apply (Hf k), prune_applied_dead. exists (k :: l). split; [done|by left].
Qed.

Section operations.
Context {W P : Type} `{StatusServer W} `{Entropy W} `{StatusEventSink W P} `{KeyOrder}.
Context (self : Store).
Implicit Types s : st W P.

(** The escalation marker is added to an existing soft-stop anchor and
    disturbs neither its other members nor any other anchor; a vanished
    anchor raises and is not recreated. *)
Theorem mark_escalated_correct id t outcome s r s' :
  mark_soft_stop_escalated self id t outcome s = (r, s') →
  match dget (map_of (doc self s) SOFT_STOPS) id with
  | PDict cur =>
      no_null (PDict cur) = true → r = Ok tt →
      map_of (doc self s') SOFT_STOPS =
        <[id := PDict (escalated t outcome cur)]> (map_of (doc self s) SOFT_STOPS) ∧
      ∀ f, f ≠ SOFT_STOPS → doc self s' !! f = doc self s !! f
  | _ => r ≠ Ok tt ∧ doc self s' = doc self s
  end.
Proof.
  intros E. unfold mark_soft_stop_escalated in E.
  apply mutate_stable_run in E as [_ Hm]; [|by intros ? []]. revert Hm.
  unfold mark_escalated_patch. rewrite dget_map_of.
  destruct (dget (map_of (doc self s) SOFT_STOPS) id) as [| | | | | |cur] eqn:Ecur.
  1-6: (destruct r as [[]|e]; [by intros (o & ? & _)|intros [Hd|(p & x' & ? & _)]; done]).
  fold (escalated t outcome cur). intros Hm Hn ->. destruct Hm as (o & Ho & ->).
  assert (Hlk : map_of (doc self s) SOFT_STOPS !! id = Some (PDict cur)).
  { unfold dget in Ecur. destruct (_ !! id); naive_solver. }
  destruct (py_eq (PDict (escalated t outcome cur)) (PDict cur)) eqn:Ep.
  - injection Ho as <-. apply py_eq_escalated in Ep. rewrite Ep. by rewrite insert_id.
  - injection Ho as <-.
    destruct (patch_effect_field (doc self s) SOFT_STOPS {[id := PDict (escalated t outcome cur)]}) as [Q1 Q2].
    split; [|done]. unfold map_of at 1, dget. rewrite Q1. cbn.
    rewrite merge_dict_singleton, Hlk, patcher_dict. cbn. by rewrite merge_escalated.
Qed.

Lemma prune_run analyses datapoints s r s' :
  prune self analyses datapoints s = (r, s') →
  let scopes := prune_scopes analyses datapoints in
  frame self s s' ∧
  match r with
  | Ok removed => removed = prune_applied scopes (doc self s) ∧ pruned_to scopes (doc self s) (doc self s')
  | Raise _ => doc self s' = doc self s ∨ pruned_to scopes (doc self s) (doc self s')
  end.
Proof.
  intros E scopes. unfold prune in E. fold scopes in E.
  apply mutate_stable_run in E as [Hf Hr]; [|done]. split; [done|].
  assert (Hnd : NoDup scopes.*1) by (apply (bool_decide_unpack _); by vm_compute).
  pose proof (prune_patch_effect scopes (doc self s) Hnd) as Hp. cbv zeta in Hp.
  destruct r as [removed|e].
  - destruct Hr as (o & Hb & Hd). rewrite Hb, <-Hd in Hp. split; [|done].
    revert Hb. unfold prune_patch. destruct (prune_applied _ _); congruence.
  - destruct Hr as [?|(p & x & Hb & Hd)]; [by left|right]. by rewrite Hb, <-Hd in Hp.
Qed.

(** C10: pruning. When it returns, the report lists, once per field, exactly
    the entries of the scoped maps whose id is not live, all of these entries
    are gone from the status, every other entry of the scoped maps has the
    value it had, and no other field, no field without a dead entry, no other
    CR's status and no other memory has changed; a set that could not be read
    ([None]) scopes nothing. When it raises, all of this was done to the status
    or none of it. *)
Theorem prune_exact analyses datapoints s r s' :
  prune self analyses datapoints s = (r, s') →
  let scopes := prune_scopes analyses datapoints in
  frame self s s' ∧
  match r with
  | Ok removed =>
      NoDup removed.*1 ∧
      (∀ f ids, (f, ids) ∈ removed → ids ≠ [] ∧ NoDup ids) ∧
      (∀ f k, (∃ ids, (f, ids) ∈ removed ∧ k ∈ ids) ↔ dead scopes (doc self s) f k) ∧
      pruned_to scopes (doc self s) (doc self s')
  | Raise _ => doc self s' = doc self s ∨ pruned_to scopes (doc self s) (doc self s')
  end.
Proof.
  intros E scopes. apply prune_run in E as [Hf Hr]. fold scopes in Hr. split; [done|].
  destruct r as [removed|]; [|done]. destruct Hr as [-> Hp]. split_and!; [| |apply prune_applied_dead|done].
  - apply NoDup_fst_filter. rewrite <-list_fmap_compose. apply (bool_decide_unpack _). by vm_compute.
  - intros f ids (Hne & live & _ & ->)%elem_of_prune_applied. split; [done|apply dead_keys_NoDup].
Qed.

Definition deferred_of (d : gmap string pv) : list pv :=
  match dget d DEFERRED_EVENTS with PList l => l | _ => [] end.

Lemma decode_deferred_app i l e es :
  decode_deferred i l = Ok es → decode_deferred i (l ++ [PDict e]) = Ok (es ++ [str_values e]).
Proof.
  revert i es. induction l as [|v l IH]; intros i es; simpl.
  - by intros [= <-].
  - destruct v; try done. unfold mbind, res_bind.
    destruct (decode_deferred (i + 1) l) as [rest|] eqn:E; [|done]. intros [= <-].
    by rewrite (IH _ _ E).
Qed.

(** A deferred event is appended at the end, reads back as it was
    written, and never takes the list beyond its bound. *)
Theorem append_deferred_fifo entry bound s s' es :
  append_deferred_event self entry (Some bound) s = (Ok tt, s') →
  decode_deferred 0 (deferred_of (doc self s)) = Ok es →
  decode_deferred 0 (deferred_of (doc self s')) =
    Ok (if bound <=? Z.of_nat (length (deferred_of (doc self s))) then es else es ++ [entry]) ∧
  Z.of_nat (length (deferred_of (doc self s'))) ≤ Z.max bound (Z.of_nat (length (deferred_of (doc self s)))) ∧
  ∀ f, f ≠ DEFERRED_EVENTS → doc self s' !! f = doc self s !! f.
Proof.
  intros E Hes. unfold append_deferred_event in E.
  apply mutate_stable_run in E as [_ (o & Hb & Hd)]; [|by intros ? []].
  unfold pure_patch in Hb. fold (deferred_of (doc self s)) in Hb.
  destruct (bound <=? _) eqn:Eb; injection Hb as <-.
  - rewrite Hd. split_and!; [done|lia|done].
  - unfold patch_effect, status_patch in Hd. rewrite lookup_singleton_eq in Hd.
    assert (Hdef : deferred_of (doc self s') = deferred_of (doc self s) ++ [PDict (PStr <$> entry)]).
    { unfold deferred_of at 1, dget. by rewrite Hd, lookup_merge_dict, lookup_singleton_eq. }
    rewrite Hdef. split_and!.
    + rewrite (decode_deferred_app _ _ _ _ Hes). do 3 f_equal. unfold str_values.
      rewrite <-map_fmap_compose. apply map_fmap_id.
    + rewrite length_app. simpl. apply Z.leb_gt in Eb. lia.
    + intros f Hf. by rewrite Hd, lookup_merge_dict, lookup_singleton_ne.
Qed.
End operations.

(** ** The hypotheses hold on concrete runs *)

#[local] Existing Instance sim_sink.

Section witnesses.
Let entry : pv := PDict (to_dict (RequeueRecord.Make 1 0)).
Let anchor : pv := PDict (to_dict (SoftStopRecord.Make 0 "issued" None None)).
Let s0 (races : nat) : st sim unit :=
  sim_start (sim_of {[SOFT_STOPS := PDict {["a1" := anchor]}; REQUEUES := PDict {["dp1" := entry]}]} races) tt.

Definition wrote := _set_map_entry sim_store REQUEUES "dp2" entry (s0 0).

Lemma set_map_entry_atomic_witness :
  map_of (doc sim_store wrote.2) REQUEUES = entry_after ∅ "dp2" entry {["dp1" := entry]} ∨
  (wrote.1 ≠ Ok tt ∧ map_of (doc sim_store wrote.2) REQUEUES = {["dp1" := entry]}).
Proof.
  refine (proj1 (set_map_entry_atomic sim_store REQUEUES "dp2" entry (s0 0) wrote.1 wrote.2 _ _ _)).
  - right. by eexists.
  - done.
  - apply surjective_pairing.
Defined.

Lemma set_map_entry_capped_witness :
  Z.of_nat (size (map_of (doc sim_store wrote.2) REQUEUES)) ≤ STATUS_MAP_MAX_ENTRIES.
Proof.
  apply (set_map_entry_capped sim_store REQUEUES "dp2" entry (s0 0)).
  - right. by eexists.
  - done.
  - vm_compute; reflexivity.
  - left. by vm_compute.
Defined.

(** The same write with [dp1] protected and [dp3] not. *)
Let s1 : st sim unit :=
  St (sim_of {[REQUEUES := PDict {["dp1" := entry; "dp3" := entry]}]} 0) tt
     (StoreMem {[("ns", "cr", REQUEUES) := {["dp1"]}]} None) [].
Definition wrote_protected := _set_map_entry sim_store REQUEUES "dp2" entry s1.

Lemma cap_evicts_protected_last_witness :
  map_of (doc sim_store wrote_protected.2) REQUEUES !! "dp1" = Some entry.
Proof.
  apply (cap_evicts_protected_last sim_store REQUEUES "dp2" entry s1 wrote_protected.2 "dp1" entry "dp3").
  - right. by eexists.
  - done.
  - apply (bool_decide_unpack _). by vm_compute.
  - vm_compute; reflexivity.
  - by eexists.
  - done.
  - apply (bool_decide_unpack _). by vm_compute.
  - vm_compute; reflexivity.
  - apply (bool_decide_unpack _). by vm_compute.
  - done.
Defined.

Let record := StopRecord.Make 0 "stopped" (Some 1000000).
Definition stored := set_stop_record sim_store "a1" record (s0 2).
Definition fetched := get_stop_record sim_store "a1" stored.2.

Lemma set_then_get_record_witness : fetched.1 = Ok (Some record).
Proof.
  set (read := _read_status sim_store stored.2).
  refine (f_equal fst (proj2 (set_then_get_record sim_store STOPPED_ANALYSES "a1" record (s0 2) stored.2 read.2
    (match read.1 with Ok d => d | Raise _ => ∅ end) _ _ _ _) _ _)).
  - by left.
  - done.
  - vm_compute; reflexivity.
  - vm_compute; reflexivity.
  - by split.
  - by intros k [? ?].
Defined.

(** The marker patch, four lost races. *)
Lemma mutate_survives_conflicts_witness :
  let build := λ (_ : gmap string pv) (x : unit), Ok (Some (status_patch {[LAST_RECYCLE_AT := iso_pv 0]}), x) in
  ∃ p x' y s', _mutate sim_store build tt (s0 4) = (Ok x', s') ∧
    build (doc sim_store (s0 4)) y = Ok (Some p, x') ∧ doc sim_store s' = patch_effect (doc sim_store (s0 4)) p.
Proof.
  intros build. apply (mutate_survives_conflicts sim_store build tt (s0 4)).
  - intros y. by eexists _, _.
  - by vm_compute; lia.
Defined.

Definition marked := mark_soft_stop_escalated sim_store "a1" 0 "escalated" (s0 1).

Lemma mark_escalated_correct_witness :
  map_of (doc sim_store marked.2) SOFT_STOPS =
    <["a1" := PDict (escalated 0 "escalated" (to_dict (SoftStopRecord.Make 0 "issued" None None)))]>
      {["a1" := anchor]}.
Proof.
  refine (proj1 (mark_escalated_correct sim_store "a1" 0 "escalated" (s0 1) marked.1 marked.2 _ _ _)).
  - apply surjective_pairing.
  - vm_compute; reflexivity.
  - vm_compute; reflexivity.
Defined.

Definition pruned := prune sim_store (Some {["a2"]}) None (s0 0).

Lemma prune_exact_witness :
  map_of (doc sim_store pruned.2) SOFT_STOPS =
    filter (λ kv, kv.1 ∈ ({["a2"]} : gset string)) {["a1" := anchor]}.
Proof.
  destruct (prune_exact sim_store (Some {["a2"]}) None (s0 0) (Ok [(SOFT_STOPS, ["a1"])]) pruned.2)
    as (_ & _ & _ & _ & Hp & _).
  - vm_compute; reflexivity.
  - apply (Hp SOFT_STOPS {["a2"]}). by left.
Defined.

Definition deferred := append_deferred_event sim_store {["reason" := "Test"]} (Some 100) (s0 0).

Lemma append_deferred_fifo_witness :
  decode_deferred 0 (deferred_of (doc sim_store deferred.2)) = Ok [{["reason" := "Test"]}].
Proof.
  refine (proj1 (append_deferred_fifo sim_store {["reason" := "Test"]} 100 (s0 0) deferred.2 [] _ _)).
  - vm_compute; reflexivity.
  - done.
Defined.
End witnesses.

(** ** Two behaviours worth knowing *)

(** [_prune_stale_entries] does not look at the age of an entry: whatever
    carries a timestamp goes. *)
Lemma prune_stale_ignores_age e :
  entry_timestamp e ≠ PNone → stale_entry_removed (PDict e) = true.
Proof. intros He. simpl. by rewrite bool_decide_eq_false_2. Qed.

(** Updating a key that is already in a map at the cap evicts another entry
    although no room is needed. *)
Lemma update_at_cap_evicts protected m key v x :
  m !! key = Some x → py_eq x v = false → v ≠ PNone →
  STATUS_MAP_MAX_ENTRIES <= Z.of_nat (size m) →
  evicts key v m = true ∧ evicted_keys protected m ≠ [].
Proof.
  intros Hk Hp Hv Hs. split.
  - unfold evicts, dget. rewrite Hk. simpl. rewrite Hp, bool_decide_eq_false_2 by done.
    by apply Z.leb_le in Hs as ->.
  - intros E. apply (f_equal length) in E. unfold evicted_keys in E.
    rewrite evicted_for_length in E. unfold STATUS_MAP_MAX_ENTRIES in *. simpl in E. lia.
Qed.

(** The closure keeps the eviction of an earlier attempt: rebuilt against a map
    that fits, the patch evicts nothing but the keys are still reported. *)
Lemma eviction_report_survives_retry protected field key v m stale :
  evicts key v m = false → py_eq (dget m key) v = false →
  set_map_entry_patch protected field key v {[field := PDict m]} stale =
    Ok (Some (status_patch {[field := PDict {[key := v]}]}), stale).
Proof.
  intros Ee Ep. unfold set_map_entry_patch.
  assert (dget {[field := PDict m]} field = PDict m) as -> by (unfold dget; by rewrite lookup_singleton_eq).
  unfold evicts in Ee. by rewrite Ee, Ep.
Qed.
