(* ===== verification/EventsSpec.v ===== *)
(** * Delivery of warnings

    The emitter's dry-run gate, and what the queue of deferred warnings
    promises: it is a bounded FIFO queue per CR, and a warning is dropped from
    the queue or from its durable copy only once it has been emitted. *)
From S2P Require Import Prelude PyValue Effects Logic Services StatusRecords StatusStore StatusStoreFacts StatusStoreSpec SimWorld Events.

(** The Events posted by a list of actions: object, reason and message. *)
Definition kopf_of (a : action) : option (pv * string * string * string) :=
  match a with KopfEvent o t r m => Some (o, t, r, m) | _ => None end.

Definition events_of {W P} (s : st W P) : list (pv * string * string * string) := omap kopf_of (log s).

Lemma keeps_events {W P A} (m : M W P A) :
  within (emits (λ a, kopf_of a = None)) m → within (keeps events_of) m.
Proof.
  intros Hm s. destruct (Hm s) as (l & El & HF). unfold keeps, events_of. rewrite El, omap_app.
  replace (omap kopf_of l) with (@nil (pv * string * string * string)); [by rewrite app_nil_r|].
  clear El. induction HF as [|a l Ha HF IH]; [done|]. simpl. by rewrite Ha.
Qed.

(** ** The emitter *)

Section emitter.
Context {W P : Type} `{KopfApi W} `{Lens P EmitterCount}.
Implicit Types s : st W P.

(** A dry-run emitter posts nothing and counts the call; otherwise the
    emitter posts exactly one Event and counts it as emitted or as failed. *)
Theorem emit_gate self t reason m s r s' :
  emit self t reason m s = (r, s') →
  let ls := emitter_labels self reason in
  if truthy (emitter_dry_run self)
  then r = Ok tt ∧ log s' = log s ++ [MetricInc "EVENTS_DRY_RUN_SUPPRESSED_TOTAL" ls 1] ∧
       suppressed_count (lget (mem s')) = suppressed_count (lget (mem s)) + 1
  else log s' = log s ++ [KopfEvent (emitter_body self) t reason m;
         MetricInc (if is_ok r then "EVENTS_EMITTED_TOTAL" else "EVENTS_EMIT_FAILURES_TOTAL") ls 1] ∧
       mem s' = mem s.
Proof.
  unfold emit. destruct (truthy _).
  - intros [= <- <-]. simpl. split_and!; [done|done|]. by rewrite lget_lput.
  - unfold mbind, M_bind, try_except, kopf_event, ext. destruct (kopf_event_call _ _ _ _ _) as [[[]|e] w].
    + intros [= <- <-]. simpl. by rewrite <-app_assoc.
    + intros [= <- <-]. simpl. by rewrite <-app_assoc.
Qed.
End emitter.

(** ** The queue *)

(** What another writer may not see changed: the memory and every document. *)
Definition same {W P} `{StatusServer W} (s s' : st W P) : Prop :=
  mem s' = mem s ∧ ∀ ns n, status_doc (world s') ns n = status_doc (world s) ns n.

#[export] Instance same_preorder {W P} `{StatusServer W} : PreOrder (same (W:=W) (P:=P)).
Proof.
  split; [by intros s|]. intros s1 s2 s3 (M1 & D1) (M2 & D2).
  split; [congruence|]. intros ns n. by rewrite D2, D1.
Qed.

Lemma frame_same {W P} `{StatusServer W} self (s s' : st W P) :
  frame self s s' → doc self s' = doc self s → same s s'.
Proof.
  intros (Hm & _ & Hd) Hdoc. split; [done|]. intros ns n.
  destruct (decide ((ns, n) = (store_namespace self, store_name self))) as [[= -> ->]|Hne]; [exact Hdoc|by apply Hd].
Qed.

Section queue.
Context {W P : Type} `{StatusServer W} `{Entropy W} `{KopfApi W} `{Lens P SinkQueue}.
Implicit Types s : st W P.

(** The factory builds the store of the CR it is asked for, and neither it nor
    posting an Event writes the status or the queue. *)
Class DeferredStores (factory : string → string → M W P Store) : Prop := {
  factory_store ns n s x s' : factory ns n s = (Ok x, s') → x = MkStore ns n;
  factory_same ns n : within same (factory ns n);
  factory_silent ns n : within (keeps events_of) (factory ns n);
  kopf_same o t r m w ns n : status_doc (kopf_event_call o t r m w).2 ns n = status_doc w ns n;
}.

Context (factory : string → string → M W P Store) `{!DeferredStores factory}.

Definition queue_of s : list deferred := queue (lget (mem s)).

(** The durable copy of the warnings of a CR, as the flush decodes it. *)
Definition persisted_of (ns n : string) s : list (gmap string string) :=
  match decode_deferred 0 (deferred_of (doc (MkStore ns n) s)) with Ok es => es | Raise _ => [] end.

Definition event_of (ns n : string) (d : deferred) : pv * string * string * string :=
  (cr_ref ns n, "Warning", def_reason d, def_message d).

(** A store that ignores its own capped-map warnings: they play no part here. *)
Let no_sink : StatusEventSink W P := λ _ _ _ _, mret tt.
#[local] Existing Instance no_sink.

#[local] Instance silent_store self : StoreQuiet self (λ a, kopf_of a = None).
Proof.
  split.
  - by intros [].
  - intros. unfold _emit_status_map_event, no_sink. solve_within.
Qed.

Lemma same_persisted ns n s s' : same s s' → persisted_of ns n s' = persisted_of ns n s.
Proof. intros [_ Hd]. unfold persisted_of, doc. simpl. by rewrite Hd. Qed.

Lemma same_queue s s' : same s s' → queue_of s' = queue_of s.
Proof. intros [Hm _]. unfold queue_of. by rewrite Hm. Qed.

(** *** The steps of a flush *)

Lemma store_for_run ns n s r s' :
  _store_for (Some factory) ns n s = (r, s') →
  ∃ o, r = Ok o ∧ (o = None ∨ o = Some (MkStore ns n)) ∧ same s s' ∧ events_of s' = events_of s.
Proof.
  unfold _store_for, try_except, mbind, M_bind.
  pose proof (factory_same ns n s) as Hs. pose proof (factory_silent ns n s) as He.
  destruct (factory ns n s) as [[x|e] s1] eqn:E; cbn in *; intros [= <- <-].
  - apply factory_store in E as ->. eexists. split_and!; [done|by right|done..].
  - eexists. split_and!; [done|by left|done..].
Qed.

Lemma get_deferred_run self s r s' :
  get_deferred_events self s = (r, s') →
  same s s' ∧ ∀ es, r = Ok es → decode_deferred 0 (deferred_of (doc self s)) = Ok es.
Proof.
  unfold get_deferred_events. unfold mbind, M_bind. destruct (_read_status self s) as [[d|e] s1] eqn:E;
    apply read_status_run in E as (F & D & Hd); [|intros [= <- <-]; split; [by eapply frame_same|done]].
  rewrite (Hd d eq_refl). unfold of_res. intros [= <- <-]. split; [by eapply frame_same|].
  intros es. unfold deferred_of, py_or.
  destruct (dget (doc self s) DEFERRED_EVENTS) as [|b|z|t|t|l|m]; simpl; [done|..].
  all: repeat case_match; intros; by simplify_eq.
Qed.

Lemma read_persisted_run ns n o s r s' :
  o = None ∨ o = Some (MkStore ns n) → read_persisted o s = (r, s') →
  ∃ es, r = Ok es ∧ (es = [] ∨ es = persisted_of ns n s) ∧ same s s' ∧ events_of s' = events_of s.
Proof.
  intros [->| ->]; unfold read_persisted.
  { intros [= <- <-]. exists []. split_and!; [done|by left|done..]. }
  pose proof (keeps_events (get_deferred_events (MkStore ns n)) ltac:(solve_within) s) as He.
  unfold try_except. destruct (get_deferred_events (MkStore ns n) s) as [[es|e] s1] eqn:E;
    apply get_deferred_run in E as [Hs Hes]; intros [= <- <-].
  - exists es. split_and!; [done| |done|done]. right. unfold persisted_of. by rewrite (Hes es eq_refl).
  - exists []. split_and!; [done|by left|done..].
Qed.

Lemma clear_persisted_run ns n o s r s' :
  o = None ∨ o = Some (MkStore ns n) → clear_persisted o s = (r, s') →
  r = Ok tt ∧ mem s' = mem s ∧ events_of s' = events_of s.
Proof.
  intros [->| ->]; unfold clear_persisted; [by intros [= <- <-]|].
  pose proof (keeps_events (clear_deferred_events (MkStore ns n)) ltac:(apply clear_deferred_quiet, _) s) as He.
  unfold try_except. destruct (clear_deferred_events (MkStore ns n) s) as [[[]|e] s1] eqn:E;
    apply mutate_run in E as [[Hm _] _]; by intros [= <- <-].
Qed.

Lemma emit_all_run ns n l s r s' :
  foreach l (λ d, emit_deferred ns n (def_reason d) (def_message d)) s = (r, s') →
  same s s' ∧
  match r with
  | Ok _ => events_of s' = events_of s ++ (event_of ns n <$> l)
  | Raise _ => ∃ l', l' `prefix_of` l ∧ events_of s' = events_of s ++ (event_of ns n <$> l')
  end.
Proof.
  revert s. induction l as [|d l IH]; intros s; simpl; [intros [= <- <-]; split; [done|by rewrite app_nil_r]|].
  unfold mbind, M_bind, emit_deferred at 1, emit_kopf_event, kopf_event, ext.
  pose proof (λ ns' n', kopf_same (cr_ref ns n) "Warning" (def_reason d) (def_message d) (world s) ns' n') as Hk.
  destruct (kopf_event_call _ _ _ _ _) as [[[]|e] w]; simpl in Hk.
  - intros E. apply IH in E as [[Em Ed] Er]. simpl in *. split; [split; [done|]; intros; by rewrite Ed, Hk|].
    unfold events_of in *. simpl in Er. rewrite omap_app in Er. simpl in Er.
    destruct r; [by rewrite Er, <-app_assoc|]. destruct Er as (l' & Hl & Er).
    exists (d :: l'). split; [by apply prefix_cons|]. by rewrite Er, <-app_assoc.
  - intros [= <- <-]. split; [split; [done|]; simpl; intros; by rewrite Hk|].
    exists [d]. split; [apply prefix_cons, prefix_nil|]. unfold events_of. simpl. by rewrite omap_app.
Qed.

(** *** A whole flush *)

Definition others (ns n : string) (q : list deferred) : list deferred := filter (λ d, is_for ns n d = false) q.
Definition mine (ns n : string) (q : list deferred) : list deferred := filter (λ d, is_for ns n d = true) q.

Lemma depth_gauge_run s : ∃ s', depth_gauge s = (Ok tt, s') ∧ same s s' ∧ events_of s' = events_of s.
Proof.
  eexists. split; [reflexivity|]. split; [done|]. unfold events_of. simpl. rewrite omap_app. apply app_nil_r.
Qed.

Lemma others_nothing ns n q : mine ns n q = [] → others ns n q = q.
Proof.
  unfold mine, others. induction q as [|d q IH]; [done|]. rewrite !filter_cons.
  destruct (is_for ns n d); [by rewrite decide_True|]. intros Hq. rewrite decide_True by done.
  rewrite IH; [done|]. by rewrite decide_False in Hq by done.
Qed.

(** What is emitted, in order: the durable entries, then the queued ones that
    have no durable copy. *)
Definition flushed (ns n : string) (entries : list (gmap string string)) (q : list deferred) : list deferred :=
  (persisted_deferred ns n <$> entries) ++ fresh_entries (persisted_deferred ns n <$> entries) (mine ns n q).

Lemma clear_when_run ns n o (entries : list (gmap string string)) s r s' :
  o = None ∨ o = Some (MkStore ns n) → when (negb (bool_decide (entries = []))) (clear_persisted o) s = (r, s') →
  r = Ok tt ∧ mem s' = mem s ∧ events_of s' = events_of s ∧ (persisted_of ns n s' = persisted_of ns n s ∨ entries ≠ []).
Proof.
  intros Ho. case_bool_decide as He; simpl; [intros [= <- <-]; auto|].
  intros (-> & ? & ?)%(clear_persisted_run ns n); auto.
Qed.

Lemma depth_unseen s (w : W) m g v :
  events_of (St (W:=W) (P:=P) w m g (log s ++ [MetricSet "WARNINGS_DEFERRED_QUEUE_DEPTH" [] v])) = events_of s.
Proof. unfold events_of. simpl. rewrite omap_app. apply app_nil_r. Qed.


Lemma flush_run ns n s r s' :
  flush_for (Some factory) ns n s = (r, s') →
  ∃ entries out, (entries = [] ∨ entries = persisted_of ns n s) ∧
    out `prefix_of` flushed ns n entries (queue_of s) ∧
    events_of s' = events_of s ++ (event_of ns n <$> out) ∧
    (persisted_of ns n s' = persisted_of ns n s ∨
      (entries = persisted_of ns n s ∧ (persisted_deferred ns n <$> entries) `prefix_of` out)) ∧
    match r with
    | Ok k => out = flushed ns n entries (queue_of s) ∧ k = Z.of_nat (length out) ∧
              queue_of s' = others ns n (queue_of s)
    | Raise _ => queue_of s' = queue_of s
    end.
Proof.
  unfold flush_for. rewrite (bind_run get_part _ s (lget (mem s)) s) by done. cbv zeta.
  fold (queue_of s) (mine ns n (queue_of s)).
  destruct (_store_for (Some factory) ns n s) as [r1 s1] eqn:E1.
  apply store_for_run in E1 as Q1. destruct Q1 as (o & -> & Ho & S1 & V1). rewrite (bind_run _ _ _ _ _ E1).
  destruct (read_persisted o s1) as [r2 s2] eqn:E2.
  apply (read_persisted_run ns n) in E2 as Q2; [|done]. destruct Q2 as (es & -> & Hes & S2 & V2).
  rewrite (bind_run _ _ _ _ _ E2). rewrite (same_persisted _ _ _ _ S1) in Hes.
  assert (S02 : same s s2) by (by etransitivity). rewrite <-(same_queue _ _ S02), <-(same_persisted ns n _ _ S02) in *.
  assert (V02 : events_of s2 = events_of s) by congruence. rewrite <-V02. clear s s1 E1 E2 S1 S2 S02 V1 V2 V02.
  set (pers := persisted_deferred ns n <$> es).
  destruct (bool_decide _ && _) eqn:Eb.
  { apply andb_true_iff in Eb as [Hp%bool_decide_eq_true He%bool_decide_eq_true].
    destruct (depth_gauge_run s2) as (s3 & E3 & S3 & V3). rewrite (bind_run _ _ _ _ _ E3). intros [= <- <-].
    exists [], []. unfold flushed. rewrite Hp, He in *. simpl. unfold fresh_entries. simpl.
    rewrite app_nil_r, (same_persisted _ _ _ _ S3), (same_queue _ _ S3), others_nothing by done.
    split_and!; try done; by left. }
  clear Eb. unfold mbind at 1, M_bind at 1.
  destruct (foreach pers _ s2) as [[[]|e] s3] eqn:E3; apply emit_all_run in E3 as [S3 V3].
  2: { destruct V3 as (out & Hout & V3). intros [= <- <-]. exists es, out.
       split_and!; [done|by apply prefix_app_r|done|left; by apply same_persisted|by apply same_queue]. }
  unfold mbind at 1, M_bind at 1. destruct (when _ _ s3) as [r4 s4] eqn:E4.
  apply (clear_when_run ns n) in E4 as Q4; [|done].
  destruct Q4 as (-> & M4 & V4 & D4). unfold mbind at 1, M_bind at 1.
  assert (Dur : persisted_of ns n s4 = persisted_of ns n s2 ∨ es = persisted_of ns n s2).
  { rewrite <-(same_persisted ns n _ _ S3). destruct D4 as [?|Hne]; [by left|]. destruct Hes as [?|?]; [done|].
    right. by rewrite (same_persisted ns n _ _ S3). }
  assert (Q2 : queue_of s4 = queue_of s2) by (unfold queue_of; rewrite M4; apply (same_queue _ _ S3)).
  set (fresh := fresh_entries pers (mine ns n (queue_of s2))).
  destruct (foreach fresh _ s4) as [[[]|e] s5] eqn:E5; apply emit_all_run in E5 as [S5 V5].
  2: { destruct V5 as (out & Hout & V5). intros [= <- <-]. exists es, (pers ++ out).
       rewrite V5, V4, V3, <-app_assoc, fmap_app, (same_queue _ _ S5), (same_persisted _ _ _ _ S5).
       split_and!; [done|by apply prefix_app|done| |done].
       destruct Dur; [by left|right]. split; [done|by apply prefix_app_r]. }
  intros [= <- <-]. exists es, (pers ++ fresh).
  split_and!; [done|done| | |done| |].
  - rewrite depth_unseen, V5, V4, V3, fmap_app. by rewrite <-app_assoc.
  - destruct Dur as [Hd|Hd]; [left|right; split; [done|by apply prefix_app_r]].
    rewrite <-Hd. exact (same_persisted ns n _ _ S5).
  - by rewrite length_app.
  - unfold queue_of at 1. simpl. rewrite lget_lput. simpl. fold (queue_of s5). by rewrite (same_queue _ _ S5), Q2.
Qed.

(** *** A deferral *)

Lemma persist_run d s r s' :
  _persist (Some factory) d s = (r, s') → r = Ok tt ∧ mem s' = mem s ∧ events_of s' = events_of s.
Proof.
  unfold _persist. destruct (_store_for (Some factory) (def_namespace d) (def_name d) s) as [r1 s1] eqn:E1.
  apply store_for_run in E1 as Q1. destruct Q1 as (o & -> & Ho & [M1 _] & V1). rewrite (bind_run _ _ _ _ _ E1).
  destruct Ho as [->| ->]; [by intros [= <- <-]|].
  set (store := MkStore _ _). set (n := Some MAX_DEFERRED_WARNING_EVENTS).
  pose proof (keeps_events (append_deferred_event store (entry_of d) n) ltac:(apply append_deferred_quiet, _) s1) as He.
  unfold try_except. destruct (append_deferred_event store (entry_of d) n s1) as [[[]|e] s2] eqn:E;
    apply mutate_run in E as [[Hm _] _]; intros [= <- <-]; unfold keeps in He; simpl in He; split_and!; congruence.
Qed.

Definition accepted (q : list deferred) : bool := Z.of_nat (length q) <? MAX_DEFERRED_WARNING_EVENTS.

Lemma defer_run d s r s' :
  defer_to_next_tick (Some factory) d s = (r, s') →
  r = Ok tt ∧ events_of s' = events_of s ∧
  queue_of s' = if accepted (queue_of s) then queue_of s ++ [d] else queue_of s.
Proof.
  unfold defer_to_next_tick. rewrite (bind_run get_part _ s (lget (mem s)) s) by done. fold (queue_of s).
  unfold accepted. rewrite Z.leb_antisym. destruct (Z.of_nat (length (queue_of s)) <? MAX_DEFERRED_WARNING_EVENTS); cbn [negb].
  - unfold mbind at 1, M_bind at 1. rewrite (bind_run (put_part _) _ s tt _ eq_refl).
    match goal with |- context [_persist (Some factory) d ?s1] =>
      destruct (_persist (Some factory) d s1) as [r1 s2] eqn:E1 end.
    apply persist_run in E1 as (-> & M1 & V1). destruct (depth_gauge_run s2) as (s3 & E3 & S3 & V3).
    rewrite E3. intros [= <- <-]. split_and!; [done|by rewrite V3|].
    rewrite (same_queue _ _ S3). unfold queue_of. rewrite M1. simpl. by rewrite lget_lput.
  - rewrite (bind_run (inc _ _) _ s tt _ eq_refl).
    match goal with |- depth_gauge ?s1 = _ → _ => destruct (depth_gauge_run s1) as (s3 & E3 & S3 & V3) end.
    rewrite E3. intros [= <- <-]. split_and!; [done| |by rewrite (same_queue _ _ S3)].
    rewrite V3. unfold events_of. simpl. rewrite omap_app. apply app_nil_r.
Qed.

(** *** The abstract queue *)

Inductive sink_op :=
  | Defer (d : deferred)
  | Flush (ns n : string)
  | Clear.

Definition run_op (op : sink_op) : M W P unit :=
  match op with
  | Defer d => defer_to_next_tick (Some factory) d
  | Flush ns n => flush_for (Some factory) ns n;; mret tt
  | Clear => clear_queue
  end.

(** A bounded FIFO queue from which a completed flush takes the entries of one CR. *)
Inductive queue_step : sink_op → bool → list deferred → list deferred → Prop :=
  | step_accept d q : accepted q = true → queue_step (Defer d) true q (q ++ [d])
  | step_drop d q : accepted q = false → queue_step (Defer d) true q q
  | step_flush ns n q : queue_step (Flush ns n) true q (others ns n q)
  | step_flush_failed ns n q : queue_step (Flush ns n) false q q
  | step_clear q : queue_step Clear true q [].

Lemma queue_step_bounded op ok q q' :
  queue_step op ok q q' → Z.of_nat (length q) ≤ MAX_DEFERRED_WARNING_EVENTS →
  Z.of_nat (length q') ≤ MAX_DEFERRED_WARNING_EVENTS.
Proof.
  unfold MAX_DEFERRED_WARNING_EVENTS. destruct 1 as [d q Ha|d q Ha|ns n q|ns n q|q]; intros Hb; try done.
  - unfold accepted, MAX_DEFERRED_WARNING_EVENTS in Ha. rewrite length_app. simpl. lia.
  - pose proof (length_filter (λ d, is_for ns n d = false) q). unfold others. lia.
Qed.

(** C38: whatever the factory, the store and the Kubernetes API do, the queue
    steps as a bounded FIFO queue: a deferral is appended or, at the bound,
    dropped, and never raises; a flush that returns removes exactly the entries
    of its CR and one that raises removes nothing. *)
Theorem sink_refines_queue op s r s' :
  run_op op s = (r, s') →
  queue_step op (is_ok r) (queue_of s) (queue_of s') ∧
  (Z.of_nat (length (queue_of s)) ≤ MAX_DEFERRED_WARNING_EVENTS →
   Z.of_nat (length (queue_of s')) ≤ MAX_DEFERRED_WARNING_EVENTS).
Proof.
  intros E. assert (Hstep : queue_step op (is_ok r) (queue_of s) (queue_of s'));
    [|split; [done|by eapply queue_step_bounded]].
  revert E. destruct op as [d|ns n|]; simpl.
  - intros (-> & _ & ->)%defer_run. destruct (accepted _) eqn:Ea; by constructor.
  - unfold mbind, M_bind. destruct (flush_for (Some factory) ns n s) as [[k|e] s1] eqn:E;
      apply flush_run in E as (es & out & _ & _ & _ & _ & Hr); intros [= <- <-].
    + destruct Hr as (_ & _ & ->). constructor.
    + rewrite Hr. constructor.
  - intros [= <- <-]. unfold queue_of. simpl. rewrite lget_lput. constructor.
Qed.

(** C39: A flush is at-least-once: a warning queued or persisted for the CR is
    emitted by the flush or is still there afterwards, and the entries of other
    CRs stay queued. *)
Theorem deferred_at_least_once ns n s r s' :
  flush_for (Some factory) ns n s = (r, s') →
  ∃ evs, events_of s' = events_of s ++ evs ∧
    (∀ d, d ∈ queue_of s → is_for ns n d = true → event_of ns n d ∈ evs ∨ d ∈ queue_of s') ∧
    (∀ d, d ∈ queue_of s → is_for ns n d = false → d ∈ queue_of s') ∧
    (∀ e, e ∈ persisted_of ns n s →
       event_of ns n (persisted_deferred ns n e) ∈ evs ∨ e ∈ persisted_of ns n s').
Proof.
  intros (es & out & _ & Hout & V & D & Hr)%flush_run. exists (event_of ns n <$> out). split; [done|].
  split_and!.
  - intros d Hd Hf. destruct r as [k|e]; [left|right; by rewrite Hr].
    destruct Hr as (-> & _ & _). apply list_elem_of_fmap_2. unfold flushed.
    destruct (decide (d ∈ persisted_deferred ns n <$> es)) as [?|Hn]; apply elem_of_app; [by left|right].
    apply list_elem_of_filter. split; [done|]. by apply list_elem_of_filter.
  - intros d Hd Hf. destruct r as [k|e]; [|by rewrite Hr].
    destruct Hr as (_ & _ & ->). by apply list_elem_of_filter.
  - intros e He. destruct D as [->|[-> [l Hl]]]; [by right|left].
    apply list_elem_of_fmap_2. rewrite Hl. apply elem_of_app. left. by apply list_elem_of_fmap_2.
Qed.

(** A flush that returns has emitted the durable entries first and then
    each queued entry without durable copy, in order and once each, and reports
    their number; when the durable copy was read, nothing but what was queued
    or persisted is emitted. *)
Theorem flush_order ns n s k s' :
  flush_for (Some factory) ns n s = (Ok k, s') →
  ∃ entries, (entries = [] ∨ entries = persisted_of ns n s) ∧
    events_of s' = events_of s ++ (event_of ns n <$> flushed ns n entries (queue_of s)) ∧
    k = Z.of_nat (length (flushed ns n entries (queue_of s))).
Proof. intros (es & out & Hes & _ & V & _ & -> & -> & _)%flush_run. by exists es. Qed.
End queue.

(** ** Concrete runs *)

Definition sim_factory (ns n : string) : M sim SinkQueue Store := mret (MkStore ns n).

#[local] Instance sim_stores : DeferredStores sim_factory.
Proof. split; [by intros ? ? ? ? ? [= <- <-]|by intros ? ? ?..|done]. Qed.

Definition warning : deferred := Deferred "ns" "cr" "StatusMapCapped" "evicted d1".
Definition queued_start : st sim SinkQueue := sim_start (sim_of ∅ 0) (MkSinkQueue []).
Definition deferred_run : res unit * st sim SinkQueue := run_op sim_factory (Defer warning) queued_start.
Definition deferred_state : st sim SinkQueue := deferred_run.2.

(** The queue does not survive the process, the status does. *)
Definition restarted : st sim SinkQueue := sim_start (world deferred_state) (MkSinkQueue []).

Definition dry_emitter : EventEmitter := MkEventEmitter PNone (PBool true).

Lemma emit_gate_witness :
  log (emit dry_emitter "Normal" "R" "m" (sim_start (sim_of ∅ 0) (MkEmitterCount 0))).2 =
    [MetricInc "EVENTS_DRY_RUN_SUPPRESSED_TOTAL" (emitter_labels dry_emitter "R") 1].
Proof.
  exact (proj1 (proj2 (emit_gate dry_emitter "Normal" "R" "m" (sim_start (sim_of ∅ 0) (MkEmitterCount 0))
    (Ok tt) _ eq_refl))).
Defined.

Lemma sink_refines_queue_witness :
  queue_step (Defer warning) true [] (queue_of deferred_state).
Proof.
  refine (proj1 (sink_refines_queue sim_factory (Defer warning) queued_start (Ok tt) deferred_state _)).
  apply (run_eq deferred_run). vm_compute; reflexivity.
Defined.

(** After a restart the warning is emitted from its durable copy. *)
Lemma deferred_at_least_once_witness :
  ∃ evs, events_of (flush_for (Some sim_factory) "ns" "cr" restarted).2 = events_of restarted ++ evs ∧
    (event_of "ns" "cr" (persisted_deferred "ns" "cr" (entry_of warning)) ∈ evs ∨
     entry_of warning ∈ persisted_of "ns" "cr" (flush_for (Some sim_factory) "ns" "cr" restarted).2).
Proof.
  destruct (deferred_at_least_once sim_factory "ns" "cr" restarted (Ok 1) _
    (run_eq _ _ ltac:(vm_compute; reflexivity))) as (evs & V & _ & _ & Hp).
  exists evs. split; [exact V|]. apply Hp. apply (bool_decide_unpack _). vm_compute; reflexivity.
Defined.

Lemma flush_order_witness :
  ∃ entries, (entries = [] ∨ entries = persisted_of "ns" "cr" restarted) ∧
    events_of (flush_for (Some sim_factory) "ns" "cr" restarted).2
      = events_of restarted ++ (event_of "ns" "cr" <$> flushed "ns" "cr" entries []) ∧
    1 = Z.of_nat (length (flushed "ns" "cr" entries [])).
Proof.
  refine (flush_order sim_factory "ns" "cr" restarted 1 _ (run_eq _ _ _)). vm_compute; reflexivity.
Defined.
