(* ===== verification/Singleton.v ===== *)
(** * The singleton guard ([singleton.py])

    One OpenStudioClusterManager per namespace is served: the oldest.  The
    election sorts the listed CRs by creation time, name and uid; every handler
    is wrapped so that it runs only for the elected CR.  Around it, the guard's state-change Events, the two one-time warnings and
    the cache that skips the check on status-only updates. *)
From S2P Require Import Prelude PyValue Effects Logic PyTime Services Config KubeOps K8sApi Url RedisClient ClientFactory Events.

Definition CRD_GROUP := "energy.nrel.gov".
Definition CRD_PLURAL := "openstudioclustermanagers".
Definition SINGLETON_CONFLICT_EVENT := "SingletonConflict".
Definition SINGLETON_ACTIVE_EVENT := "SingletonActive".

(** ** Seniority *)

(** [datetime.max] *)
Definition _MISSING_CREATED : Z := 253402300799999999.

Definition _meta (obj : pv) : gmap string pv := default ∅ (metadata_of obj).

Definition _cr_name (obj : pv) : string := py_str (py_or (dget (_meta obj) "name") (PStr "<unnamed>")).
Definition _cr_created (obj : pv) : string :=
  py_str (py_or (dget (_meta obj) "creationTimestamp") (PStr "<no creationTimestamp>")).

Definition _same_cr (a b : pv) : bool :=
  let ma := _meta a in
  let mb := _meta b in
  if truthy (dget ma "uid") && truthy (dget mb "uid") then py_eq (dget ma "uid") (dget mb "uid")
  else py_eq (dget ma "name") (dget mb "name").

(** Creation time, name, uid. *)
Notation seniority := (Z * string * string)%type.

(** [key(obj)] *)
Definition seniority_key (obj : pv) : res seniority :=
  let raw := dget (_meta obj) "creationTimestamp" in
  created ← (if truthy raw
             then utc_parser SingletonGuardError raw
                    ("OpenStudioClusterManager " +:+ _cr_name obj +:+ ": metadata.creationTimestamp")
             else Ok _MISSING_CREATED);
  mret (created, str_or_empty (dget (_meta obj) "name"), str_or_empty (dget (_meta obj) "uid")).

(** The order of tuples. *)
Definition seniority_leb (a b : seniority) : bool :=
  let '(t1, n1, u1) := a in
  let '(t2, n2, u2) := b in
  if t1 =? t2 then if String.eqb n1 n2 then String.leb u1 u2 else String.leb n1 n2 else t1 <? t2.

(** [sorted(items, key=key)] *)
Definition sort_crs_by_seniority (items : list pv) : res (list pv) :=
  keys ← map_res seniority_key items;
  mret ((stable_sort (λ x y : seniority * pv, seniority_leb x.1 y.1) (zip keys items)).*2).

Definition resolve_active_cr (items : list pv) : res (option pv) :=
  ordered ← sort_crs_by_seniority items; mret (head ordered).

(** ** State of the module *)

(** [SingletonGuard]: the last announced winner and losers. *)
Record GuardState := MkGuardState { _last_state : option (option string * gset string) }.

Definition crkey : Type := string * string.

(** What a relist reacts to: uid, spec, labels, annotations, deletion. *)
Record surface := MkSurface {
  surface_uid : string;
  surface_spec : option (gmap string pv);
  surface_labels : option (gmap string pv);
  surface_annotations : option (gmap string pv);
  surface_deletion : string;
}.

(** [OrderedDict], oldest entry first. *)
Notation guard_cache := (list (crkey * surface)).

Record SingletonMem := MkSingletonMem {
  _process_guard : option GuardState;
  _redis_url_warned : gset crkey;
  _redis_secret_ref_forbidden_warned : gset crkey;
  _guard_last_seen_surface : guard_cache;
}.

Definition with_guard g m := MkSingletonMem g (_redis_url_warned m)
  (_redis_secret_ref_forbidden_warned m) (_guard_last_seen_surface m).
Definition with_url_warned k m := MkSingletonMem (_process_guard m)
  ({[k]} ∪ _redis_url_warned m) (_redis_secret_ref_forbidden_warned m) (_guard_last_seen_surface m).
Definition with_forbidden_warned k m := MkSingletonMem (_process_guard m)
  (_redis_url_warned m) ({[k]} ∪ _redis_secret_ref_forbidden_warned m) (_guard_last_seen_surface m).
Definition with_surfaces c m := MkSingletonMem (_process_guard m)
  (_redis_url_warned m) (_redis_secret_ref_forbidden_warned m) c.

(** ** [_BoundedGuardCache] *)

Module GuardCache.
Definition _MAX_GUARD_CACHE_ENTRIES : nat := 1000.

Definition find (k : crkey) (c : guard_cache) : option surface :=
  snd <$> head (filter (λ e : crkey * surface, e.1 = k) c).
Definition remove (k : crkey) (c : guard_cache) : guard_cache := filter (λ e : crkey * surface, e.1 ≠ k) c.

(** The value, and the cache with the entry moved to the end. *)
Definition get (k : crkey) (c : guard_cache) : option surface * guard_cache :=
  match find k c with
  | Some v => (Some v, remove k c ++ [(k, v)])
  | None => (None, c)
  end.

(** The oldest entries go while there are too many. *)
Definition shrink (c : guard_cache) : guard_cache := drop (length c - _MAX_GUARD_CACHE_ENTRIES) c.

Definition set (k : crkey) (v : surface) (c : guard_cache) : guard_cache :=
  match find k c with
  | Some _ => remove k c ++ [(k, v)]
  | None => shrink (c ++ [(k, v)])
  end.

Definition pop (k : crkey) (c : guard_cache) : guard_cache := remove k c.
End GuardCache.

Section guard.
Context {W P : Type}.
Context `{CustomObjectsApi W} `{KubeConfigApi W} `{KopfApi W} `{KeyOrder} `{Lens P SingletonMem} `{Lens P K8sClients}.

Definition modify_singleton (f : SingletonMem → SingletonMem) : M W P unit :=
  m ← get_part; put_part (f m).

Definition set_guard (g : option GuardState) : M W P unit := modify_singleton (with_guard g).

(** [_get_guard], with the guard's state. *)
Definition _get_guard : M W P GuardState :=
  m ← get_part (C:=SingletonMem);
  match _process_guard m with
  | Some g => mret g
  | None =>
      put_api CustomObjects None;;
      operator_custom_objects_api;;
      set_guard (Some (MkGuardState None));;
      mret (MkGuardState None)
  end.

(** ** [SingletonGuard] *)

Definition list_crs (namespace : string) : M W P (list pv) :=
  resp ← list_namespaced_custom_object namespace;
  of_res (items ← py_get resp "items";
          elements ← py_iter (py_or items (PList []));
          mret (filter (λ v, is_dict v = true) elements)).

Definition is_active (body : pv) (namespace : string) : M W P bool :=
  items ← list_crs namespace;
  winner ← of_res (resolve_active_cr items);
  mret match winner with Some w => _same_cr body w | None => false end.

Definition losers_of (winner : option pv) (items : list pv) : list pv :=
  match winner with
  | None => items
  | Some w => filter (λ o, _same_cr o w = false) items
  end.

Definition conflict_message (winner loser : pv) : string :=
  "Ignored by the operator: " +:+ _cr_name winner +:+ " is the oldest OpenStudioClusterManager in this namespace (created " +:+
  _cr_created winner +:+ " vs " +:+ _cr_created loser +:+
  "). Exactly one CR may be served per namespace (D05); delete this CR or the other one.".

Definition active_message (items losers : list pv) : string :=
  "Served as the oldest of " +:+ str_of_Z (Z.of_nat (length items)) +:+
  " OpenStudioClusterManager CRs in this namespace (D05); the others are ignored: " +:+
  join ", " (_cr_name <$> losers) +:+ ".".

Definition guard_snapshot (winner : option pv) (losers : list pv) : option string * gset string :=
  (_cr_name <$> winner, list_to_set (_cr_name <$> losers)).

Definition enforce (items : list pv) (sink : pv → string → string → string → M W P unit) : M W P unit :=
  winner ← of_res (resolve_active_cr items);
  let losers := losers_of winner items in
  let state := guard_snapshot winner losers in
  m ← get_part (C:=SingletonMem);
  if bool_decide ((_process_guard m ≫= _last_state) = Some state) then mret tt
  else
    set_guard (Some (MkGuardState (Some state)));;
    match winner with
    | None => inc "SINGLETON_ELECTION_TOTAL" [("outcome", "idle")]
    | Some w =>
        if bool_decide (losers = []) then inc "SINGLETON_ELECTION_TOTAL" [("outcome", "active")]
        else
          inc "SINGLETON_ELECTION_TOTAL" [("outcome", "conflict")];;
          foreach losers (λ l, sink l "Warning" SINGLETON_CONFLICT_EVENT (conflict_message w l));;
          sink w "Normal" SINGLETON_ACTIVE_EVENT (active_message items losers)
    end.

(** ** The handler wrapper *)

Record call := MkCall { kw_body : pv; kw_namespace : pv; kw_name : pv }.

(** The exceptions on which a gated handler skips its tick. *)
Definition guard_skips (e : exn) : bool :=
  match e with ApiException _ _ | ConfigException _ | SingletonGuardError _ => true | _ => false end.

Definition is_active_cr (body : pv) (namespace : string) : M W P bool :=
  _get_guard;; is_active body namespace.

(** The check of the wrapper: [None] when the active CR could not be resolved. *)
Definition resolve_gate (fn_name : string) (kwargs : call) (body : pv) : M W P (option bool) :=
  let namespace := py_str (kw_namespace kwargs) in
  try_except (a ← is_active_cr body namespace; mret (Some a))
    (λ e, if guard_skips e then
            Some (inc "HANDLER_TICK_FAILURES_TOTAL"
                    [("namespace", namespace); ("name", str_or_empty (kw_name kwargs));
                     ("module", fn_name); ("error_type", exn_class e)];;
                  mret None)
          else None).

(** [_gated(fn)]: [None] when the handler did not run. *)
Definition _gated {A} (fn_name : string) (fn : call → M W P A) (kwargs : call) : M W P (option A) :=
  let body := py_or (kw_body kwargs) (PDict ∅) in
  if negb (is_dict body) || negb (truthy (kw_namespace kwargs)) then mret None
  else
    active ← resolve_gate fn_name kwargs body;
    match active with
    | None => mret None
    | Some false =>
        inc "SINGLETON_LOSER_SKIPS_TOTAL"
          [("module", fn_name); ("namespace", py_str (kw_namespace kwargs)); ("name", _cr_name body)];;
        mret None
    | Some true => r ← fn kwargs; mret (Some r)
    end.
End guard.

(** ** Wrapping the registered handlers *)

Record selector := MkSelector { sel_group : option string; sel_any_name : option string; sel_plural : option string }.

(** What the guard reads and replaces of a registered handler: [h_fn] is
    [None] without a function and otherwise tells whether it is gated;
    [h_replaceable] whether [dataclasses.replace] accepts it. *)
Record handler := MkHandler {
  h_id : string;
  h_selector : option selector;
  h_fn : option bool;
  h_replaceable : bool;
}.

Definition _selector_matches_oscms (h : handler) : bool :=
  match h_selector h with
  | None => false
  | Some sel =>
      String.eqb (default "None" (sel_group sel)) CRD_GROUP &&
      existsb (String.eqb CRD_PLURAL) (omap id [sel_any_name sel; sel_plural sel])
  end.

Definition is_gated (h : handler) : bool := bool_decide (h_fn h = Some true).
Definition gate (h : handler) : handler := MkHandler (h_id h) (h_selector h) (Some true) (h_replaceable h).

(** The handlers a run wraps. *)
Definition gateable (registered : gset string) (h : handler) : bool :=
  _selector_matches_oscms h && bool_decide (h_fn h = Some false) &&
  bool_decide (h_id h ∈ registered) && h_replaceable h.

(** The handler a run leaves in the registry. *)
Definition wrap (registered : gset string) (h : handler) : handler := if gateable registered h then gate h else h.

Definition count (f : handler → bool) (l : list handler) : Z := Z.of_nat (length (filter (λ h, f h = true) l)).

(** [install_singleton_guard]: the handler list as it is left, and the number
    of handlers wrapped; [None] when the registry is not as expected. *)
Definition install_singleton_guard {W P} (registry : option (list handler)) (registered : gset string)
  : M W P (option (list handler) * Z) :=
  match registry with
  | None =>
      gauge "SINGLETON_WRAPPED_HANDLERS" [] (MInt 0);;
      gauge "SINGLETON_EXPECTED_HANDLERS" [] (MInt (Z.of_nat (size registered)));;
      mret (None, 0)
  | Some handlers =>
      gauge "SINGLETON_EXPECTED_HANDLERS" []
        (MInt (count (λ h, _selector_matches_oscms h && opt_is_some (h_fn h)) handlers));;
      let after := wrap registered <$> handlers in
      gauge "SINGLETON_WRAPPED_HANDLERS" [] (MInt (count (λ h, _selector_matches_oscms h && is_gated h) after));;
      mret (Some after, count (gateable registered) handlers)
  end.

(** ** One-time warnings *)

(** [_redis_secret_ref_of] *)
Definition _redis_secret_ref_of (spec : gmap string pv) : option RedisSecretRef :=
  match dget spec "redisCredentials" with
  | PDict credentials =>
      match dget credentials "secretRef" with
      | PDict ref =>
          match nonempty_str (dget ref "name"), nonempty_str (dget ref "key") with
          | Some name, Some key => Some (MkRedisSecretRef name key)
          | _, _ => None
          end
      | _ => None
      end
  | _ => None
  end.

Definition _has_redis_secret_ref (spec : gmap string pv) : bool := opt_is_some (_redis_secret_ref_of spec).

(** Namespace and name of a listed item. *)
Definition item_key (item : pv) : crkey :=
  let meta := match item with
              | PDict m => match dget m "metadata" with PDict meta => meta | _ => m end
              | _ => ∅
              end in
  (str_or_empty (dget meta "namespace"), str_or_empty (dget meta "name")).

Definition redis_url_empty_message : string :=
  "spec.redisUrl is empty and spec.redisCredentials.secretRef is unset (issue #116). " +:+
  "Operator Modules 3/5 (worker recycler + web_background stall) will be no-ops until a " +:+
  "Redis URL is configured. Recommended: store the full redis://:password@queue... URL in a Secret and reference " +:+
  "it via spec.redisCredentials.secretRef (issue #463). The previous default exposed the kind-recipe password " +:+
  "`openstudio` and has been removed.".

Definition secret_ref_forbidden_message (ref : RedisSecretRef) : string :=
  "Secret read for spec.redisCredentials.secretRef " +:+ repr_str (ref_name ref) +:+
  " was denied (403 Forbidden, issue #606): the default operator Role (deploy/rbac.yaml) grants " +:+
  "secrets:get only on the canonical name(s) via resourceNames (default: 'openstudio-redis'). Either " +:+
  "add " +:+ repr_str (ref_name ref) +:+ " to the Role's resourceNames (a deliberate, reviewable RBAC change) or point " +:+
  "spec.redisCredentials.secretRef at a granted Secret. Redis-dependent ticks skip with counted failures " +:+
  "until resolved.".

Definition warn_key (k : crkey) (reason message : string) {W P} `{KopfApi W} : M W P unit :=
  emit_kopf_event (cr_ref k.1 k.2) "Warning" reason message.

Section checks.
Context {W P : Type}.
Context `{CustomObjectsApi W} `{KubeConfigApi W} `{KopfApi W} `{CoreV1Api W} `{KeyOrder} `{UrlTables}.
Context `{Lens P SingletonMem} `{Lens P K8sClients} `{Lens P (list (string * ReadOnlyRedisClient))}.
Context (env : RedisEnv).

(** [item.get("spec") or {}] and its first [.get] *)
Definition spec_of (item : pv) : pv :=
  match item with PDict m => py_or (dget m "spec") (PDict ∅) | _ => PDict ∅ end.

Definition url_guard_item (item : pv) : M W P unit :=
  let k := item_key item in
  if String.eqb k.1 "" || String.eqb k.2 "" then mret tt
  else
    m ← get_part (C:=SingletonMem);
    if bool_decide (k ∈ _redis_url_warned m) then mret tt
    else
      url ← of_res (py_get (spec_of item) "redisUrl");
      if String.eqb (str_or_empty url) "" && negb (_has_redis_secret_ref (default ∅ (as_dict (spec_of item))))
      then
        modify_singleton (with_url_warned k);;
        warn_key k "RedisUrlEmpty" redis_url_empty_message
      else mret tt.

Definition _emit_redis_url_guard_events (items : list pv) : M W P unit := foreach items url_guard_item.

(** The probe of one Secret: denied, failed otherwise, or read. *)
Inductive probe := Denied | Failed | Readable.

Definition probe_secret (ref : RedisSecretRef) (namespace : string) : M W P probe :=
  try_except (get_read_only_redis_client env "" (Some ref) namespace;; mret Readable)
    (λ e, Some (mret match e with
                     | RedisCredentialResolutionError _ (Some 403) => Denied
                     | _ => Failed
                     end)).

Definition forbidden_item (item : pv) : M W P unit :=
  let k := item_key item in
  if String.eqb k.1 "" || String.eqb k.2 "" then mret tt
  else
    m ← get_part (C:=SingletonMem);
    if bool_decide (k ∈ _redis_secret_ref_forbidden_warned m) then mret tt
    else
      match as_dict (spec_of item) ≫= _redis_secret_ref_of with
      | None => mret tt
      | Some ref =>
          p ← probe_secret ref k.1;
          match p with
          | Failed => mret tt
          | Denied =>
              modify_singleton (with_forbidden_warned k);;
              warn_key k "RedisSecretRefForbidden" (secret_ref_forbidden_message ref)
          | Readable => modify_singleton (with_forbidden_warned k)
          end
      end.

Definition _emit_redis_secret_ref_forbidden_events (items : list pv) : M W P unit :=
  foreach items forbidden_item.

(** ** The check and its triggers *)

(** [_check]: [None] when the CRs could not be listed. *)
Definition _check (namespace : string) : M W P unit :=
  if String.eqb namespace "" then mret tt
  else
    listed ← try_except (_get_guard;; items ← list_crs namespace; mret (Some items))
      (λ e, match e with ApiException _ _ | ConfigException _ => Some (mret None) | _ => None end);
    match listed with
    | None => mret tt
    | Some items =>
        try_except (enforce items emit_kopf_event)
          (λ e, match e with SingletonGuardError _ => Some (mret tt) | _ => None end);;
        _emit_redis_url_guard_events items;;
        _emit_redis_secret_ref_forbidden_events items
    end.

(** [singleton_guard_startup], with [POD_NAMESPACE] *)
Definition singleton_guard_startup (pod_namespace : option string) : M W P unit :=
  _check (default "" pod_namespace).

Definition _cr_policy_surface (body : gmap string pv) : surface :=
  let meta := _meta (PDict body) in
  MkSurface (str_or_empty (dget meta "uid")) (as_dict (dget body "spec")) (as_dict (dget meta "labels"))
    (as_dict (dget meta "annotations")) (str_or_empty (dget meta "deletionTimestamp")).

(** The comparison of two surfaces, by [==] of their members. *)
Definition same_mapping (a b : option (gmap string pv)) : bool :=
  match a, b with
  | Some a, Some b => py_eq (PDict a) (PDict b)
  | None, None => true
  | _, _ => false
  end.

Definition same_surface (a b : surface) : bool :=
  String.eqb (surface_uid a) (surface_uid b) && same_mapping (surface_spec a) (surface_spec b) &&
  same_mapping (surface_labels a) (surface_labels b) && same_mapping (surface_annotations a) (surface_annotations b) &&
  String.eqb (surface_deletion a) (surface_deletion b).

Definition _skip_guard_relist (body : gmap string pv) (k : crkey) (event_type : option string) : M W P bool :=
  if negb (bool_decide (event_type = Some "MODIFIED")) then mret false
  else
    m ← get_part (C:=SingletonMem);
    match _process_guard m ≫= _last_state with
    | None => mret false
    | Some _ =>
        let '(seen, cache) := GuardCache.get k (_guard_last_seen_surface m) in
        put_part (with_surfaces cache m);;
        mret match seen with Some seen => same_surface seen (_cr_policy_surface body) | None => false end
    end.

Definition singleton_guard_event (namespace name : string) (body : gmap string pv) (event_type : option string)
  : M W P unit :=
  let k := (namespace, name) in
  if bool_decide (event_type = Some "DELETED") then
    modify_singleton (λ m, with_surfaces (GuardCache.pop k (_guard_last_seen_surface m)) m);;
    _check namespace
  else
    skip ← _skip_guard_relist body k event_type;
    if (skip : bool) then mret tt
    else
      _check namespace;;
      modify_singleton (λ m,
        with_surfaces (GuardCache.set k (_cr_policy_surface body) (_guard_last_seen_surface m)) m).
End checks.
