(* ===== verification/LogFormat.v ===== *)
(** * JSON log lines ([logging_setup.py])

    What the formatter puts into a line, in order, and the idempotent
    installation of its handler. *)
From S2P Require Import Prelude PyValue Effects Logic PyTime.

Definition _RESERVED_LOGRECORD_ATTRS : gset string :=
  list_to_set ["args"; "asctime"; "created"; "exc_info"; "exc_text"; "filename"; "funcName"; "levelname"; "levelno"; "lineno";
    "message"; "module"; "msecs"; "msg"; "name"; "pathname"; "process"; "processName"; "relativeCreated"; "stack_info";
    "thread"; "threadName"; "taskName"].

Definition _CANONICAL_FIELDS : list string :=
  ["timestamp"; "level"; "logger"; "message"; "module"; "funcName"; "lineno"].

(** A value attached to a record: one [json.dumps] accepts, one it refuses with
    a [TypeError] and whose [repr] is used, or one that contains itself. *)
Inductive log_value := Serialisable (v : pv) | Unserialisable (repr : string) | Circular.

(** A record: the attributes [logging] sets, the message already merged with
    its arguments, the formatted exception if there is one, and the dictionary
    in its order, the attributes set through [extra] included. *)
Record log_record := MkLogRecord {
  rec_created : Z;
  rec_levelname : string;
  rec_name : string;
  rec_message : string;
  rec_module : string;
  rec_funcName : string;
  rec_lineno : Z;
  rec_exception : option string;
  rec_dict : list (string * log_value);
}.

(** A Python [dict] in insertion order. *)
Notation payload := (list (string * pv)).

Definition has_key (k : string) (p : payload) : bool := bool_decide (k ∈ p.*1).

(** [payload[k] = v] *)
Fixpoint put (k : string) (v : pv) (p : payload) : payload :=
  match p with
  | [] => [(k, v)]
  | (k', v') :: p => if String.eqb k' k then (k', v) :: p else (k', v') :: put k v p
  end.

Definition canonical (r : log_record) : payload :=
  [("timestamp", PStr (isoformat (rec_created r))); ("level", PStr (rec_levelname r)); ("logger", PStr (rec_name r));
   ("message", PStr (rec_message r)); ("module", PStr (rec_module r)); ("funcName", PStr (rec_funcName r));
   ("lineno", PInt (rec_lineno r))].

(** [getattr(record, "k8s_ref", None)] when it is a dict. *)
Definition k8s_ref_of (r : log_record) : option (gmap string pv) :=
  match snd <$> head (filter (λ e : string * log_value, e.1 = "k8s_ref") (rec_dict r)) with
  | Some (Serialisable (PDict m)) => Some m
  | _ => None
  end.

Definition put_ref_field (m : gmap string pv) (k : string) (p : payload) : payload :=
  match dget m k with
  | PStr s => if String.eqb s "" then p else put k (PStr s) p
  | _ => p
  end.

Definition with_k8s_ref (r : log_record) (p : payload) : payload :=
  match k8s_ref_of r with
  | Some m => put_ref_field m "name" (put_ref_field m "namespace" p)
  | None => p
  end.

(** The attributes the loop passes over. *)
Definition skipped_key (p : payload) (k : string) : bool :=
  bool_decide (k ∈ _RESERVED_LOGRECORD_ATTRS) || has_key k p || String.prefix "_" k || String.eqb k "k8s_ref".

Fixpoint add_extras (l : list (string * log_value)) (p : payload) : res payload :=
  match l with
  | [] => Ok p
  | (k, v) :: l =>
      if skipped_key p k then add_extras l p
      else
        match v with
        | Serialisable v => add_extras l (put k v p)
        | Unserialisable repr => add_extras l (put k (PStr repr) p)
        | Circular => Raise (ValueError "Circular reference detected")
        end
  end.

(** The members of the object a line holds. *)
Definition format (r : log_record) : res payload :=
  p ← add_extras (rec_dict r) (with_k8s_ref r (canonical r));
  mret match rec_exception r with Some text => put "exc_info" (PStr text) p | None => p end.

(** ** The installation *)

Record log_handler := MkLogHandler { lh_level : Z; lh_json : bool }.
Record log_target := MkLogTarget { lt_handlers : list log_handler; lt_level : Z; lt_sentinel : option log_handler }.

Definition install_json_logging (level : Z) (target : log_target) : log_handler * log_target :=
  match lt_sentinel target with
  | Some existing => (existing, target)
  | None =>
      let handler := MkLogHandler level true in
      (handler, MkLogTarget (lt_handlers target ++ [handler]) level (Some handler))
  end.

(** ** Facts *)

Lemma put_keys k v p : (put k v p).*1 = if has_key k p then p.*1 else p.*1 ++ [k].
Proof.
  unfold has_key. induction p as [|[k' v'] p IH]; [done|]. cbn [put]. destruct (String.eqb_spec k' k) as [->|Hne].
  - rewrite bool_decide_eq_true_2; [done|by left].
  - cbn. rewrite IH. case_bool_decide as Hk; case_bool_decide as Hk'; try done.
    + destruct Hk'. by right.
    + apply elem_of_cons in Hk' as [->|]; done.
Qed.

(** The value of a key: that of its only entry. *)
Fixpoint at_key (k : string) (p : payload) : option pv :=
  match p with
  | [] => None
  | (k', v) :: p => if String.eqb k' k then Some v else at_key k p
  end.

Lemma at_put k k' v p : at_key k (put k' v p) = if decide (k = k') then Some v else at_key k p.
Proof.
  induction p as [|[k1 v1] p IH]; cbn [put at_key].
  - destruct (String.eqb_spec k' k); case_decide; by subst.
  - destruct (String.eqb_spec k1 k') as [->|Hne]; cbn [at_key].
    + destruct (String.eqb_spec k' k) as [->|]; [by rewrite decide_True|]. by rewrite decide_False by done.
    + rewrite IH. destruct (String.eqb_spec k1 k) as [->|]; [by rewrite decide_False|done].
Qed.

Lemma at_key_Some k p : is_Some (at_key k p) ↔ k ∈ p.*1.
Proof.
  induction p as [|[k' v'] p IH]; cbn [at_key].
  - split; [by intros []|by intros ?%not_elem_of_nil].
  - rewrite fmap_cons, elem_of_cons. cbn. destruct (String.eqb_spec k' k) as [->|Hne]; [split; eauto|].
    rewrite IH. split; [auto|by intros [|]].
Qed.

Lemma has_key_at k p : has_key k p = opt_is_some (at_key k p).
Proof.
  unfold has_key. destruct (at_key k p) as [v|] eqn:E; cbn.
  - apply bool_decide_eq_true, at_key_Some. by rewrite E.
  - apply bool_decide_eq_false. rewrite <-at_key_Some, E. by intros [].
Qed.

(** The names the loop never copies. *)
Definition private_name (k : string) : bool :=
  bool_decide (k ∈ _RESERVED_LOGRECORD_ATTRS) || String.prefix "_" k || String.eqb k "k8s_ref".

Lemma skipped_key_eq p k : skipped_key p k = private_name k || opt_is_some (at_key k p).
Proof. unfold skipped_key, private_name. rewrite has_key_at. by destruct (bool_decide _), (opt_is_some _), (String.prefix _ _), (String.eqb _ _). Qed.

#[local] Opaque private_name.

Definition rendered (v : log_value) : option pv :=
  match v with Serialisable v => Some v | Unserialisable repr => Some (PStr repr) | Circular => None end.

(** The value of an attribute of the record. *)
Fixpoint attribute (k : string) (l : list (string * log_value)) : option log_value :=
  match l with
  | [] => None
  | (k', v) :: l => if String.eqb k' k then Some v else attribute k l
  end.

Lemma attribute_None k l : k ∉ l.*1 → attribute k l = None.
Proof.
  induction l as [|[k' v] l IH]; [done|]. rewrite fmap_cons, not_elem_of_cons. cbn. intros [Hne Hk].
  destruct (String.eqb_spec k' k); [by subst|]. by apply IH.
Qed.

(** What writing one field does to a payload with distinct keys. *)
Lemma put_grows k v p : NoDup p.*1 → NoDup (put k v p).*1 ∧ ∃ ks, (put k v p).*1 = p.*1 ++ ks.
Proof.
  intros Hp. rewrite put_keys, has_key_at. destruct (at_key k p) eqn:E; cbn; [split; [done|exists []; by rewrite app_nil_r]|].
  split; [|by exists [k]]. apply NoDup_app. split_and!; [done| |apply NoDup_singleton].
  intros x Hx ->%list_elem_of_singleton. apply at_key_Some in Hx. rewrite E in Hx. by destruct Hx.
Qed.

(** The loop adds the admissible attributes at the end and overwrites nothing. *)
Lemma add_extras_spec l p p' : NoDup l.*1 → NoDup p.*1 → add_extras l p = Ok p' →
  NoDup p'.*1 ∧ (∃ ks, p'.*1 = p.*1 ++ ks) ∧
  ∀ k, at_key k p' = match at_key k p with
                     | Some v => Some v
                     | None => if private_name k then None else attribute k l ≫= rendered
                     end.
Proof.
  revert p. induction l as [|[k1 v1] l IH]; intros p Hl Hp; cbn [add_extras].
  { intros [= <-]. split_and!; [done|exists []; by rewrite app_nil_r|]. intros k. cbn. by destruct (at_key k p), (private_name k). }
  rewrite fmap_cons, NoDup_cons in Hl. destruct Hl as [Hk1 Hl]. cbn in Hk1. rewrite skipped_key_eq.
  assert (Hnew : ∀ v, private_name k1 || opt_is_some (at_key k1 p) = false → rendered v1 = Some v → add_extras l (put k1 v p) = Ok p' →
    NoDup p'.*1 ∧ (∃ ks, p'.*1 = p.*1 ++ ks) ∧ ∀ k, at_key k p' = match at_key k p with
      | Some v => Some v | None => if private_name k then None else attribute k ((k1, v1) :: l) ≫= rendered end).
  { intros v Hs Hv E. apply orb_false_iff in Hs as [Hpr Hat]. pose proof (put_keys k1 v p) as Hkeys. rewrite has_key_at, Hat in Hkeys.
    destruct (IH (put k1 v p) Hl (proj1 (put_grows k1 v p Hp)) E) as (Hn & (ks & Hks) & Hv').
    split_and!; [done|exists (k1 :: ks); by rewrite Hks, Hkeys, <-app_assoc|]. intros k. rewrite Hv', at_put. cbn [attribute].
    destruct (decide (k = k1)) as [->|Hne].
    - rewrite String.eqb_refl. destruct (at_key k1 p); [done|]. by rewrite Hpr; cbn.
    - destruct (String.eqb_spec k1 k); [congruence|reflexivity]. }
  destruct (private_name k1 || opt_is_some (at_key k1 p)) eqn:Hs.
  - intros E. destruct (IH p Hl Hp E) as (Hn & Hks & Hv). split_and!; [done..|]. intros k. rewrite Hv. cbn [attribute].
    destruct (at_key k p) as [v|] eqn:Ek; [done|]. destruct (String.eqb_spec k1 k) as [->|]; [|done].
    rewrite Ek, orb_false_r in Hs. by rewrite Hs.
  - destruct v1 as [v|repr|]; [by apply Hnew..|done].
Qed.

Lemma ref_field_grows m k p : NoDup p.*1 →
  NoDup (put_ref_field m k p).*1 ∧ (∃ ks, (put_ref_field m k p).*1 = p.*1 ++ ks) ∧
  ∀ k', k' ≠ k → at_key k' (put_ref_field m k p) = at_key k' p.
Proof.
  intros Hp. assert (Hid : NoDup p.*1 ∧ (∃ ks, p.*1 = p.*1 ++ ks) ∧ ∀ k', k' ≠ k → at_key k' p = at_key k' p)
    by (split_and!; [done|exists []; by rewrite app_nil_r|done]).
  unfold put_ref_field. destruct (dget m k); try done. destruct (String.eqb s ""); [done|].
  destruct (put_grows k (PStr s) p Hp). split_and!; [done..|]. intros k' Hk. by rewrite at_put, decide_False.
Qed.

Lemma k8s_ref_grows r p : NoDup p.*1 →
  NoDup (with_k8s_ref r p).*1 ∧ (∃ ks, (with_k8s_ref r p).*1 = p.*1 ++ ks) ∧
  ∀ k, k ≠ "namespace" → k ≠ "name" → at_key k (with_k8s_ref r p) = at_key k p.
Proof.
  intros Hp. unfold with_k8s_ref. destruct (k8s_ref_of r) as [m|]; [|split_and!; [done|exists []; by rewrite app_nil_r|done]].
  destruct (ref_field_grows m "namespace" p Hp) as (H1 & (ks1 & E1) & A1).
  destruct (ref_field_grows m "name" _ H1) as (H2 & (ks2 & E2) & A2).
  split_and!; [done|exists (ks1 ++ ks2); by rewrite E2, E1, assoc by apply _|]. intros k Hn Hm. by rewrite A2, A1.
Qed.

Lemma canonical_keys r : (canonical r).*1 = _CANONICAL_FIELDS.
Proof. done. Qed.

Lemma canonical_distinct : NoDup _CANONICAL_FIELDS.
Proof. apply (bool_decide_unpack _). vm_compute; reflexivity. Qed.

(** A line always starts with the seven canonical fields, with the values of
    the record: nothing attached to a record can displace, shadow or repeat
    them, nor forge the exception; every other attached value that is not
    private appears under its own name, as itself or as its [repr]. *)
Theorem format_line r p :
  NoDup (rec_dict r).*1 → format r = Ok p →
  NoDup p.*1 ∧ take 7 p.*1 = _CANONICAL_FIELDS ∧
  (∀ k v, at_key k (canonical r) = Some v → at_key k p = Some v) ∧
  at_key "exc_info" p = PStr <$> rec_exception r ∧
  ∀ k, k ∉ _CANONICAL_FIELDS ++ ["namespace"; "name"; "exc_info"] →
    at_key k p = if private_name k then None else attribute k (rec_dict r) ≫= rendered.
Proof.
  intros Hd (p1 & E1 & E)%res_bind_Ok. injection E as <-.
  destruct (k8s_ref_grows r (canonical r) canonical_distinct) as (Hn0 & (ks0 & Hk0) & A0).
  destruct (add_extras_spec _ _ _ Hd Hn0 E1) as (Hn1 & (ks1 & Hk1) & A1).
  set (p2 := match rec_exception r with Some text => _ | None => _ end).
  assert (H2 : NoDup p2.*1 ∧ (∃ ks, p2.*1 = p1.*1 ++ ks) ∧ ∀ k, k ≠ "exc_info" → at_key k p2 = at_key k p1).
  { unfold p2. destruct (rec_exception r) as [text|]; [|split_and!; [done|exists []; by rewrite app_nil_r|done]].
    destruct (put_grows "exc_info" (PStr text) p1 Hn1). split_and!; [done..|]. intros k Hk. by rewrite at_put, decide_False. }
  destruct H2 as (Hn2 & (ks2 & Hk2) & A2).
  assert (Hbase : ∀ k, k ∉ _CANONICAL_FIELDS ++ ["namespace"; "name"] → at_key k (with_k8s_ref r (canonical r)) = None).
  { intros k (Hk & [Hn Hm%not_elem_of_cons]%not_elem_of_cons)%not_elem_of_app. rewrite A0 by tauto.
    destruct (at_key k (canonical r)) eqn:Ek; [|done]. destruct Hk. rewrite <-(canonical_keys r). apply at_key_Some. eauto. }
  split_and!; [done|by rewrite Hk2, Hk1, Hk0|..].
  - intros k v Hk. assert (k ∈ _CANONICAL_FIELDS) as Hin by (rewrite <-(canonical_keys r); apply at_key_Some; eauto).
    assert (Hne : k ≠ "exc_info" ∧ k ≠ "namespace" ∧ k ≠ "name")
      by (by repeat apply elem_of_cons in Hin as [->|Hin]; last by apply not_elem_of_nil in Hin).
    destruct Hne as (? & ? & ?). by rewrite A2, A1, A0, Hk by done.
  - unfold p2. destruct (rec_exception r) as [text|]; [by rewrite at_put, decide_True|]. rewrite A1, Hbase; [done|].
    apply (bool_decide_unpack _). vm_compute; reflexivity.
  - intros k (Hk & Hr)%not_elem_of_app. rewrite !not_elem_of_cons in Hr. destruct Hr as (Hn & Hm & Hx & _).
    rewrite A2, A1, Hbase by (rewrite ?not_elem_of_app, ?not_elem_of_cons; auto using not_elem_of_nil). reflexivity.
Qed.

(** Installing twice installs once, and the second level is ignored. *)
Lemma install_idempotent level level' target :
  let '(h, t) := install_json_logging level target in install_json_logging level' t = (h, t).
Proof. unfold install_json_logging. by destruct (lt_sentinel target) as [h|] eqn:E; rewrite ?E. Qed.

(** An attached value that contains itself takes the formatter down: its
    [ValueError] is not the [TypeError] the loop catches. *)
Lemma circular_value_escapes r k :
  rec_dict r = [(k, Circular)] → k ∉ (with_k8s_ref r (canonical r)).*1 → private_name k = false →
  format r = Raise (ValueError "Circular reference detected").
Proof.
  intros Hr Hk Hp. unfold format. rewrite Hr. cbn. rewrite skipped_key_eq, Hp.
  destruct (at_key k _) eqn:E; [|done]. destruct Hk. apply at_key_Some. eauto.
Qed.

(** ** A concrete line *)

Definition demo_record : log_record :=
  MkLogRecord 0 "INFO" "operator" "tick done" "analysis_sla" "run" 12 None
    [("name", Serialisable (PStr "operator")); ("lineno", Serialisable (PInt 999)); ("timestamp", Serialisable (PStr "forged"));
     ("k8s_ref", Serialisable (PDict {["namespace" := PStr "ns"; "name" := PStr "cr"]}));
     ("tick", Unserialisable "<Tick>"); ("_secret", Serialisable (PStr "x"))].

Definition demo_line : res payload := format demo_record.

Lemma format_line_witness : ∃ p, demo_line = Ok p ∧ at_key "lineno" p = Some (PInt 12) ∧ take 7 p.*1 = _CANONICAL_FIELDS ∧
  at_key "tick" p = Some (PStr "<Tick>").
Proof.
  destruct demo_line as [p|e] eqn:E; [|exfalso; revert E; vm_compute; discriminate]. exists p. split; [reflexivity|].
  destruct (format_line demo_record p) as (_ & Ht & Hc & _ & Hx).
  - apply (bool_decide_unpack _). vm_compute. reflexivity.
  - exact E.
  - split; [apply Hc; reflexivity|]. split; [exact Ht|]. rewrite Hx; [vm_compute; reflexivity|].
    apply (bool_decide_unpack _). vm_compute. reflexivity.
Defined.
