(* ===== verification/KopfPersistence.v ===== *)
(** * Persistence settings and finalizers ([kopf_persistence.py])

    The settings that keep the framework's bookkeeping in the status, and the
    removal of the finalizer requirement from the registered handlers, whose
    list the singleton guard rewrites too. *)
From S2P Require Import Prelude PyValue Effects Logic Singleton.

(** What the package sets of the framework's settings. *)
Inductive diffbase := AnnotationsDiffBaseStorage | StatusDiffBaseStorage.
Record OperatorSettings := MkOperatorSettings { diffbase_storage : diffbase; finalizer : option string }.

(** On top of the framework's defaults. *)
Definition operator_persistence_settings (defaults : OperatorSettings) : OperatorSettings :=
  let settings := MkOperatorSettings StatusDiffBaseStorage (finalizer defaults) in
  MkOperatorSettings (diffbase_storage settings) None.

(** A registered timer or daemon: what the guard sees of it, and the flag. *)
Record spawning := MkSpawning { sp_handler : handler; requires_finalizer : bool }.

Definition disarm (h : spawning) : spawning := MkSpawning (sp_handler h) false.

(** The body of the loop at one index of the live list. *)
Definition disarm_at (acc : list spawning * Z) (entry : nat * spawning) : list spawning * Z :=
  let '(handlers, disarmed) := acc in
  let '(index, h) := entry in
  if negb (_selector_matches_oscms (sp_handler h)) then acc
  else if negb (requires_finalizer h) then acc
  else if h_replaceable (sp_handler h) then (<[index := disarm h]> handlers, disarmed + 1)
  else acc.

(** [None]: the registry is not as expected. *)
Definition disarm_oscm_finalizer_requirements (registry : option (list spawning)) : option (list spawning) * Z :=
  match registry with
  | None => (None, 0)
  | Some handlers =>
      let '(after, disarmed) := fold_left disarm_at (zip (seq 0 (length handlers)) handlers) (handlers, 0) in
      (Some after, disarmed)
  end.

(** ** Facts *)

(** The handlers a run disarms. *)
Definition disarmable (h : spawning) : bool :=
  _selector_matches_oscms (sp_handler h) && requires_finalizer h && h_replaceable (sp_handler h).

Definition disarm_one (h : spawning) : spawning := if disarmable h then disarm h else h.

Notation armed l := (Z.of_nat (length (filter (λ h, disarmable h = true) l))).

Lemma disarm_at_eq done todo h n :
  disarm_at (done ++ h :: todo, n) (length done, h) =
  (done ++ disarm_one h :: todo, if disarmable h then n + 1 else n).
Proof.
  unfold disarm_at, disarm_one, disarmable. destruct (_selector_matches_oscms _); [|done].
  destruct (requires_finalizer h); [|done]. destruct (h_replaceable _); [|done]. cbn. by rewrite insert_app_r_alt, Nat.sub_diag.
Qed.

(** The loop, with the part of the list it has done. *)
Lemma disarm_loop done todo n :
  fold_left disarm_at (zip (seq (length done) (length todo)) todo) (done ++ todo, n) =
  (done ++ (disarm_one <$> todo), n + armed todo).
Proof.
  revert done n. induction todo as [|h todo IH]; intros done n; [simpl; rewrite app_nil_r; f_equal; lia|].
  cbn [length seq zip fold_left]. rewrite disarm_at_eq. specialize (IH (done ++ [disarm_one h]) (if disarmable h then n + 1 else n)).
  rewrite length_app, Nat.add_comm in IH. cbn [length Nat.add] in IH. rewrite <-!app_assoc in IH. cbn [app] in IH.
  etransitivity; [exact IH|]. rewrite fmap_cons, filter_cons. f_equal. destruct (disarmable h) eqn:E; simpl; lia.
Qed.

Lemma disarm_run handlers :
  disarm_oscm_finalizer_requirements (Some handlers) = (Some (disarm_one <$> handlers), armed handlers).
Proof. unfold disarm_oscm_finalizer_requirements. pose proof (disarm_loop [] handlers 0) as E. simpl in E. by rewrite E. Qed.

Lemma disarm_one_idle h : disarmable (disarm_one h) = false.
Proof. unfold disarm_one. destruct (disarmable h) eqn:E; [|done]. unfold disarmable. simpl. by rewrite andb_false_r. Qed.

(** ** With the singleton guard *)

(** The guard's rewrite of the same list: only the function changes. *)
Definition wrap_spawning (registered : gset string) (h : spawning) : spawning :=
  MkSpawning (wrap registered (sp_handler h)) (requires_finalizer h).

Lemma wrap_fields registered h :
  _selector_matches_oscms (wrap registered h) = _selector_matches_oscms h ∧ h_replaceable (wrap registered h) = h_replaceable h.
Proof. unfold wrap. by destruct (gateable registered h). Qed.

Lemma disarm_wrap registered h : disarm_one (wrap_spawning registered h) = wrap_spawning registered (disarm_one h).
Proof.
  unfold disarm_one, disarmable, wrap_spawning. cbn [sp_handler requires_finalizer].
  destruct (wrap_fields registered (sp_handler h)) as [-> ->]. by destruct (_ && _).
Qed.

(** After the two boot steps, the guard and the disarming, which commute,
    no replaceable handler of the CR asks for the finalizer, each registered one
    among them is gated, handlers of other resources and ids are untouched; the
    count is the number disarmed, and a second run finds nothing left to do. *)
Theorem boot_disarms_and_gates registered handlers :
  let guarded l := wrap_spawning registered <$> l in
  let '(after, n) := disarm_oscm_finalizer_requirements (Some (guarded handlers)) in
  after = guarded <$> (disarm_oscm_finalizer_requirements (Some handlers)).1 ∧
  n = armed handlers ∧
  disarm_oscm_finalizer_requirements after = (after, 0) ∧
  ∀ l, after = Some l → Forall2 (λ h h',
    h_id (sp_handler h') = h_id (sp_handler h) ∧
    (_selector_matches_oscms (sp_handler h) = false → h' = h) ∧
    (_selector_matches_oscms (sp_handler h) = true → h_replaceable (sp_handler h) = true →
       requires_finalizer h' = false ∧
       (h_id (sp_handler h) ∈ registered → is_Some (h_fn (sp_handler h)) → is_gated (sp_handler h') = true))) handlers l.
Proof.
  intros guarded. rewrite !disarm_run. split_and!.
  - cbn. f_equal. unfold guarded. rewrite <-!list_fmap_compose. apply list_fmap_ext. intros i h _. apply disarm_wrap.
  - unfold guarded. induction handlers as [|h l IH]; [done|]. rewrite fmap_cons, !filter_cons.
    assert (disarmable (wrap_spawning registered h) = disarmable h) as ->.
    { unfold disarmable, wrap_spawning. cbn. by destruct (wrap_fields registered (sp_handler h)) as [-> ->]. }
    destruct (disarmable h); simpl; lia.
  - f_equal.
    + f_equal. rewrite <-list_fmap_compose. apply list_fmap_ext. intros i h _. cbn. unfold disarm_one at 1. by rewrite disarm_one_idle.
    + induction (guarded handlers) as [|h l IH]; [done|]. by rewrite fmap_cons, filter_cons, disarm_one_idle.
  - intros l [= <-]. unfold guarded. rewrite <-list_fmap_compose. induction handlers as [|h l IH]; constructor; [|done]. clear IH.
    cbn. rewrite disarm_wrap. unfold wrap_spawning, disarm_one, disarmable, wrap, gateable.
    destruct (_selector_matches_oscms (sp_handler h)) eqn:Em; cbn [andb negb].
    + split_and!; [by repeat case_match|done|]. intros _ Hr. rewrite Hr, andb_true_r. cbn [requires_finalizer sp_handler].
      split; [by destruct (requires_finalizer h) eqn:Er|]. intros Hid [b Hb].
      assert ((if requires_finalizer h then disarm h else h).(sp_handler) = sp_handler h) as -> by by destruct (requires_finalizer h).
      rewrite Em, Hb, Hr, (bool_decide_eq_true_2 _ Hid). unfold is_gated.
      destruct b; [rewrite (bool_decide_eq_false_2 (Some true = Some false)) by done|]; cbn; by rewrite ?Hb.
    + by rewrite Em; destruct h.
Qed.

(** The settings make every write of the framework a status write. *)
Lemma settings_status_only defaults :
  diffbase_storage (operator_persistence_settings defaults) = StatusDiffBaseStorage ∧
  finalizer (operator_persistence_settings defaults) = None.
Proof. done. Qed.
