(* ===== verification/DryRunAudit.v ===== *)
(** * The dry-run audit ([handlers/dry_run_audit.py])

    A watch handler that announces every change of [spec.dryRun] of a CR.  The
    last value seen of each CR is a dictionary of the process. *)
From S2P Require Import Prelude PyValue Effects Logic Services StatusStore Singleton SimWorld Events EventsSpec.

Definition DRY_RUN_TOGGLED_EVENT := "DryRunToggled".

(** [_last_dry_run] *)
Record AuditState := MkAuditState { _last_dry_run : gmap crkey bool }.

Definition _dry_run_of (body : pv) : bool :=
  match mapping body with
  | Some m => match mapping (dget m "spec") with Some spec => truthy (dget spec "dryRun") | None => false end
  | None => false
  end.

(** The first maximal element, by a key of strings. *)
Fixpoint max_by (key : gmap string pv → string) (best : gmap string pv) (l : list (gmap string pv)) : gmap string pv :=
  match l with
  | [] => best
  | x :: l => max_by key (if String.ltb (key best) (key x) then x else best) l
  end.

Definition _acting_manager (body : pv) : option string :=
  match metadata_of body with
  | None => None
  | Some meta =>
      match dget meta "managedFields" with
      | PList managed =>
          match omap mapping managed with
          | [] => None
          | c :: candidates =>
              let manager := str_or_empty (dget (max_by (λ m, str_or_empty (dget m "time")) c candidates) "manager") in
              if String.eqb manager "" then None else Some manager
          end
      | _ => None
      end
  end.

(** The body [emit] attaches the Event to. *)
Definition audit_ref (key : crkey) : pv :=
  PDict {["metadata" := PDict {["namespace" := PStr key.1; "name" := PStr key.2]}]}.

Definition flag_label (b : bool) : string := if b then "true" else "false".

Definition attribution (body : pv) : string :=
  match _acting_manager body with
  | Some manager =>
      " Last writer per metadata.managedFields: " +:+ repr_str manager +:+
      "; the acting principal is recorded in the kube-apiserver audit log."
  | None =>
      " metadata carries no managedFields hint; the acting principal is recorded in the kube-apiserver audit log."
  end.

Definition toggle_message (key : crkey) (previous current : bool) (body : pv) : string :=
  "spec.dryRun toggled: " +:+ flag_label previous +:+ " → " +:+ flag_label current +:+
  " on OpenStudioClusterManager " +:+ key.1 +:+ "/" +:+ key.2 +:+ " (issue #397 audit). " +:+
  (if current then "Operator mutations are now SUPPRESSED (dry-run mode, D11)."
   else "Operator mutations are now LIVE (D11 enforcement resumed).") +:+ attribution body.

(** The CR a body names, if it can be audited. *)
Definition audit_key (body : pv) : option crkey :=
  meta ← metadata_of body;
  let namespace := str_or_empty (dget meta "namespace") in
  let name := str_or_empty (dget meta "name") in
  if String.eqb namespace "" || String.eqb name "" then None else Some (namespace, name).

Section audit.
Context {W P : Type} `{Lens P AuditState}.
Context (emit : pv → string → string → string → M W P unit).

Definition reset_audit_state : M W P unit := put_part (MkAuditState ∅).

Definition record_dry_run_transition (body : pv) : M W P bool :=
  match audit_key body with
  | None => mret false
  | Some key =>
      let current := _dry_run_of body in
      a ← get_part (C:=AuditState);
      put_part (MkAuditState (<[key := current]> (_last_dry_run a)));;
      match _last_dry_run a !! key with
      | None => mret false
      | Some previous =>
          if Bool.eqb previous current then mret false
          else
            emit (audit_ref key) "Normal" DRY_RUN_TOGGLED_EVENT (toggle_message key previous current body);;
            gauge "DRY_RUN_ACTIVE" [("namespace", key.1); ("name", key.2)] (MInt (if current then 1 else 0));;
            mret true
      end
  end.

(** The watch handler: a deletion forgets the CR. *)
Definition dry_run_toggle_audit (namespace name : string) (event_type : option string) (body : pv) : M W P unit :=
  if bool_decide (event_type = Some "DELETED") then
    a ← get_part (C:=AuditState);
    put_part (MkAuditState (delete (namespace, name) (_last_dry_run a)))
  else record_dry_run_transition body;; mret tt.
End audit.

(** ** What a stream of watch events announces *)

(** A watch event of one CR: the value it carries, or its deletion. *)
Inductive watch_event := Seen (body : pv) | Deleted.

(** The changes between neighbours; a deletion starts over. *)
Fixpoint toggles (last : option bool) (l : list watch_event) : list (bool * bool) :=
  match l with
  | [] => []
  | Deleted :: l => toggles None l
  | Seen body :: l =>
      let current := _dry_run_of body in
      match last with
      | Some previous => if Bool.eqb previous current then [] else [(previous, current)]
      | None => []
      end ++ toggles (Some current) l
  end.

(** An announcement of a change: it names the CR, the old and the new value. *)
Definition announces (key : crkey) (e : pv * string * string * string) (t : bool * bool) : Prop :=
  ∃ body, e = (audit_ref key, "Normal", DRY_RUN_TOGGLED_EVENT, toggle_message key t.1 t.2 body).

(** The events of one CR in a stream of events of many. *)
Definition of_key (key : crkey) (l : list (crkey * watch_event)) : list watch_event :=
  omap (λ e, if decide (e.1 = key) then Some e.2 else None) l.

Definition well_addressed (e : crkey * watch_event) : Prop :=
  match e.2 with Seen body => audit_key body = Some e.1 | Deleted => True end.

Definition ref_key (ref : pv) : option crkey :=
  meta ← metadata_of ref;
  match dget meta "namespace", dget meta "name" with PStr ns, PStr n => Some (ns, n) | _, _ => None end.

Lemma audit_ref_inj k1 k2 : audit_ref k1 = audit_ref k2 → k1 = k2.
Proof.
  intros E. assert (Hk : ∀ k, ref_key (audit_ref k) = Some k) by (by intros []).
  apply (f_equal ref_key) in E. rewrite !Hk in E. by injection E.
Qed.

Section stream.
Context {W P : Type} `{Lens P AuditState} `{KopfApi W}.
Implicit Types s : st W P.

Definition handle (e : crkey * watch_event) : M W P unit :=
  match e.2 with
  | Seen body => dry_run_toggle_audit emit_kopf_event e.1.1 e.1.2 (Some "MODIFIED") body
  | Deleted => dry_run_toggle_audit emit_kopf_event e.1.1 e.1.2 (Some "DELETED") PNone
  end.

Definition last_seen (key : crkey) s : option bool := _last_dry_run (lget (mem s)) !! key.

(** A stream of watch events: one handler call each, and a failure of one call
    (kopf logs it and goes on) does not keep the next from being handled. *)
Definition watch (l : list (crkey * watch_event)) s : st W P :=
  fold_left (λ s e, (handle e s).2) l s.

(** One event: what it tries to announce, and what is remembered. *)
Lemma handle_run e s r s' :
  well_addressed e → handle e s = (r, s') →
  (∀ key, last_seen key s' =
     if decide (e.1 = key) then match e.2 with Seen body => Some (_dry_run_of body) | Deleted => None end
     else last_seen key s) ∧
  ∃ evs, events_of s' = events_of s ++ evs ∧ Forall2 (announces e.1) evs (toggles (last_seen e.1 s) [e.2]).
Proof.
  destruct e as [k [body|]]; unfold well_addressed, handle, dry_run_toggle_audit; cbn [fst snd].
  - intros Hk. rewrite bool_decide_eq_false_2 by done. unfold record_dry_run_transition. rewrite Hk. cbv zeta.
    set (now := _dry_run_of body). unfold mbind at 1, M_bind at 1.
    destruct ((_ : M W P bool) s) as [b s1] eqn:E. intros Hr.
    assert (s' = s1) as -> by (destruct b; by injection Hr). clear Hr. revert E.
    rewrite (bind_run (get_part (C:=AuditState)) _ s (lget (mem s)) s eq_refl).
    rewrite (bind_run (put_part _) _ s tt _ eq_refl). fold (last_seen k s). set (s2 := St _ _ _ _).
    assert (Hlast : ∀ s3, mem s3 = mem s2 → ∀ key, last_seen key s3 = if decide (k = key) then Some now else last_seen key s).
    { intros s3 Hm key. unfold last_seen. rewrite Hm. subst s2. cbn. rewrite lget_lput. cbn. case_decide; by simplify_map_eq. }
    destruct (last_seen k s) as [previous|] eqn:El; cbn [toggles];
      [|intros [= _ <-]; split; [by apply Hlast|exists []; by rewrite app_nil_r]].
    fold now. destruct (Bool.eqb previous now) eqn:Eb; [intros [= _ <-]; split; [by apply Hlast|exists []; by rewrite app_nil_r]|].
    unfold emit_kopf_event, kopf_event, ext, mbind, M_bind. cbn [log world]. set (msg := toggle_message _ _ _ _).
    destruct (kopf_event_call _ _ _ _ (world s2)) as [[[]|e] w]; cbn; intros [= _ <-].
    all: split; [by apply Hlast|]; exists [(audit_ref k, "Normal", DRY_RUN_TOGGLED_EVENT, msg)]; split;
      [unfold events_of; cbn; by rewrite !omap_app, ?app_nil_r|constructor; [by exists body|constructor]].
  - intros _. rewrite bool_decide_eq_true_2 by done.
    rewrite (bind_run (get_part (C:=AuditState)) _ s (lget (mem s)) s eq_refl). intros [= _ <-].
    split; [|exists []; by rewrite app_nil_r]. intros key. unfold last_seen. cbn. rewrite lget_lput. cbn.
    destruct k. case_decide; by simplify_map_eq.
Qed.

(** C22: the audit trail is exact: over any stream of watch events of any number
    of CRs, and whatever the API server answers to the posts, the Events the
    handler posts for a CR are its changes of [spec.dryRun] in order, one post
    for each change and none for anything else; what happens to other CRs, and
    a post that fails, has no influence on the others, and a deletion makes the
    next sight a new baseline. *)
Theorem toggles_announced key l s :
  Forall well_addressed l →
  ∃ evs, events_of (watch l s) = events_of s ++ evs ∧
    Forall2 (announces key) (filter (λ e, e.1.1.1 = audit_ref key) evs) (toggles (last_seen key s) (of_key key l)).
Proof.
  revert s. induction l as [|e l IH]; intros s Hl; [exists []; by rewrite app_nil_r|].
  apply Forall_cons in Hl as [He Hl]. unfold watch. cbn [fold_left]. destruct (handle e s) as [r s1] eqn:E1.
  apply handle_run in E1 as [Hlast (evs1 & V1 & F1)]; [|done]. destruct (IH s1 Hl) as (evs2 & V2 & F2).
  cbn [snd]. fold (watch l s1).
  exists (evs1 ++ evs2). split; [by rewrite V2, V1, assoc_L by apply _|]. rewrite filter_app, Hlast in *.
  assert (Forall (λ v, v.1.1.1 = audit_ref e.1) evs1) as Ho.
  { clear -F1. induction F1 as [|v t evs ts (b & ->) F IH]; by constructor. }
  unfold of_key in *. simpl. destruct (decide (e.1 = key)) as [<-|Hne].
  - rewrite (filter_Forall_all _ evs1) by done. destruct (e.2) as [body|] eqn:Ee; simpl in *.
    + rewrite app_nil_r in F1. by apply Forall2_app.
    + by apply Forall2_nil_inv_r in F1 as ->.
  - rewrite (filter_Forall_none _ evs1); [done|]. eapply Forall_impl; [exact Ho|]. intros v -> Hk. by apply audit_ref_inj in Hk.
Qed.

(** A change whose Event cannot be posted is never announced: the value is
    remembered before the Event, so the next event with it is no change. *)
Theorem failed_announcement_lost key body previous e s w :
  audit_key body = Some key → last_seen key s = Some previous → previous ≠ _dry_run_of body →
  kopf_event_call (audit_ref key) "Normal" DRY_RUN_TOGGLED_EVENT
    (toggle_message key previous (_dry_run_of body) body) (world s) = (Raise e, w) →
  ∃ s1, handle (key, Seen body) s = (Raise e, s1) ∧ toggles (last_seen key s1) [Seen body] = [].
Proof.
  intros Hk Hp Hne Hc. unfold handle, dry_run_toggle_audit, record_dry_run_transition. cbn [fst snd].
  rewrite bool_decide_eq_false_2 by done. rewrite Hk. cbv zeta.
  rewrite (bind_raise _ _ s e (St w (lput (MkAuditState (<[key := _dry_run_of body]> (_last_dry_run (lget (mem s))))) (mem s))
    (shared s) (log s ++ [KopfEvent (audit_ref key) "Normal" DRY_RUN_TOGGLED_EVENT
      (toggle_message key previous (_dry_run_of body) body)]))).
  - eexists. split; [done|]. unfold last_seen. cbn. rewrite lget_lput. cbn. rewrite lookup_insert_eq.
    by rewrite Bool.eqb_reflx.
  - rewrite (bind_run (get_part (C:=AuditState)) _ s (lget (mem s)) s eq_refl).
    rewrite (bind_run (put_part _) _ s tt _ eq_refl). fold (last_seen key s). rewrite Hp.
    destruct (Bool.eqb previous (_dry_run_of body)) eqn:Eb; [by apply Bool.eqb_prop in Eb|].
    unfold emit_kopf_event, kopf_event, ext, mbind, M_bind. cbn. by rewrite Hc.
Qed.
End stream.

(** ** A concrete stream *)

Definition audit_body (name : string) (dry : bool) : pv :=
  PDict {["metadata" := PDict {["namespace" := PStr "ns"; "name" := PStr name]};
          "spec" := PDict {["dryRun" := PBool dry]}]}.

(** Two CRs interleaved; the first toggles twice, the second never. *)
Definition audit_stream : list (crkey * watch_event) :=
  [(("ns", "a"), Seen (audit_body "a" false)); (("ns", "b"), Seen (audit_body "b" true));
   (("ns", "a"), Seen (audit_body "a" true)); (("ns", "b"), Seen (audit_body "b" true));
   (("ns", "a"), Seen (audit_body "a" false)); (("ns", "a"), Deleted); (("ns", "a"), Seen (audit_body "a" true))].

Definition audit_run : st sim AuditState := watch audit_stream (sim_start (sim_of ∅ 0) (MkAuditState ∅)).

Lemma toggles_announced_witness :
  ∃ evs, events_of audit_run = evs ∧
    Forall2 (announces ("ns", "a")) (filter (λ e, e.1.1.1 = audit_ref ("ns", "a")) evs)
      [(false, true); (true, false)].
Proof.
  destruct (toggles_announced ("ns", "a") audit_stream (sim_start (sim_of ∅ 0) (MkAuditState ∅))) as (evs & V & F).
  - repeat constructor.
  - exists evs. split; [exact V|exact F].
Defined.
