(* ===== verification/SingletonSpec.v ===== *)
(** * Correctness of the singleton guard

    The election is a strict total order on the listed CRs, so exactly one of
    them is served whatever order the API lists them in, and a gated handler
    runs only for that one. *)
From S2P Require Import Prelude PyValue Effects Logic PyTime Services Config KubeOps K8sApi Url RedisClient ClientFactory StatusStore SimWorld Events EventsSpec Singleton.

(** ** The order *)

Lemma leb_trans x y z : String.leb x y = true → String.leb y z = true → String.leb x z = true.
Proof.
  intros H1 H2. apply Is_true_true. transitivity y; by apply Is_true_true. Qed.

Lemma leb_antisym x y : String.leb x y = true → String.leb y x = true → x = y.
Proof. intros H1 H2. by apply String.leb_antisym. Qed.

Lemma leb_refl x : String.leb x x = true.
Proof. destruct (String.leb_total x x); done. Qed.

Lemma seniority_total a b : seniority_leb a b = false → seniority_leb b a = true.
Proof.
  destruct a as [[t1 n1] u1], b as [[t2 n2] u2]. unfold seniority_leb.
  rewrite (Z.eqb_sym t2 t1), (String.eqb_sym n2 n1).
  destruct (Z.eqb_spec t1 t2); [|lia]. destruct (String.eqb_spec n1 n2).
  - intros Hu. destruct (String.leb_total u1 u2); congruence.
  - intros Hn. destruct (String.leb_total n1 n2); congruence.
Qed.

Lemma seniority_trans a b c :
  seniority_leb a b = true → seniority_leb b c = true → seniority_leb a c = true.
Proof.
  destruct a as [[t1 n1] u1], b as [[t2 n2] u2], c as [[t3 n3] u3]. unfold seniority_leb.
  destruct (Z.eqb_spec t1 t2), (Z.eqb_spec t2 t3), (Z.eqb_spec t1 t3); try lia.
  destruct (String.eqb_spec n1 n2), (String.eqb_spec n2 n3), (String.eqb_spec n1 n3); subst; try done; eauto using leb_trans.
  intros L1 L2. by pose proof (leb_antisym _ _ L1 L2).
Qed.

Lemma seniority_antisym a b : seniority_leb a b = true → seniority_leb b a = true → a = b.
Proof.
  destruct a as [[t1 n1] u1], b as [[t2 n2] u2]. unfold seniority_leb.
  rewrite (Z.eqb_sym t2 t1), (String.eqb_sym n2 n1).
  destruct (Z.eqb_spec t1 t2) as [<-|]; [|lia]. destruct (String.eqb_spec n1 n2) as [<-|]; intros L1 L2.
  - by rewrite (leb_antisym _ _ L1 L2).
  - by pose proof (leb_antisym _ _ L1 L2).
Qed.

(** ** The election *)

Definition key_of (o : pv) : seniority :=
  match seniority_key o with Ok k => k | Raise _ => (0, "", "") end.

Notation ranked_leb := (λ x y : seniority * pv, seniority_leb x.1 y.1).

Lemma map_res_keys items keys :
  map_res seniority_key items = Ok keys → zip keys items = (λ o, (key_of o, o)) <$> items.
Proof.
  intros Hk%map_res_Ok. induction Hk as [|o k items keys Ho _ IH]; [done|]. simpl. rewrite IH.
  unfold key_of. by rewrite Ho.
Qed.

Lemma map_res_total {A B} (f : A → res B) l : (∀ x, x ∈ l → is_ok (f x) = true) → ∃ bs, map_res f l = Ok bs.
Proof.
  induction l as [|x l IH]; intros Hl; [by exists []|]. simpl.
  pose proof (Hl x ltac:(by left)) as Hx. destruct (f x) as [b|]; [|done].
  destruct IH as [bs ->]; [intros; apply Hl; by right|]. by exists (b :: bs).
Qed.

Lemma map_res_all {A B} (f : A → res B) l bs x : map_res f l = Ok bs → x ∈ l → is_ok (f x) = true.
Proof.
  intros Hk%map_res_Ok. induction Hk as [|y k l bs Ho _ IH]; [by intros ?%not_elem_of_nil|].
  intros [->|Hx]%elem_of_cons; [by rewrite Ho|auto].
Qed.

(** Comparable CRs: each has a readable creation time. *)
Definition comparable (items : list pv) : Prop := ∀ o, o ∈ items → is_ok (seniority_key o) = true.

Lemma resolve_eq items r :
  resolve_active_cr items = Ok r ↔
  comparable items ∧ r = snd <$> head (stable_sort ranked_leb ((λ o, (key_of o, o)) <$> items)).
Proof.
  unfold resolve_active_cr, sort_crs_by_seniority. split.
  - destruct (map_res seniority_key items) as [keys|] eqn:Ek; [|done].
    unfold mbind, res_bind, mret, res_ret. rewrite (map_res_keys _ _ Ek). intros [= <-]. split.
    + intros o Ho. by eapply map_res_all.
    + by destruct (stable_sort _ _).
  - intros [Hc ->]. destruct (map_res_total seniority_key items Hc) as [keys Ek]. rewrite Ek.
    unfold mbind, res_bind, mret, res_ret. rewrite (map_res_keys _ _ Ek). by destruct (stable_sort _ _).
Qed.

Lemma winner_least items w :
  resolve_active_cr items = Ok (Some w) →
  w ∈ items ∧ ∀ o, o ∈ items → seniority_leb (key_of w) (key_of o) = true.
Proof.
  intros [_ Hr]%resolve_eq. destruct (head (stable_sort _ _)) as [[k w']|] eqn:Eh; [|done]. injection Hr as <-.
  apply stable_sort_head in Eh as [Hin Hmin].
  - apply list_elem_of_fmap in Hin as (w0 & [= -> ->] & Hin). split; [done|]. intros o Ho.
    destruct (Hmin (key_of o, o)) as [[= -> ->]|Hle]; [by apply (list_elem_of_fmap_2 (λ o, (key_of o, o)))| |done].
    destruct (seniority_leb _ _) eqn:E; [done|]. by apply seniority_total in E as E'; rewrite E' in E.
  - intros x y. apply seniority_total.
  - intros x y z. apply seniority_trans.
Qed.

Lemma winner_exists items : comparable items → items ≠ [] → ∃ w, resolve_active_cr items = Ok (Some w).
Proof.
  intros Hc Hne. pose proof (stable_sort_perm ranked_leb ((λ o, (key_of o, o)) <$> items)) as Hp.
  destruct (stable_sort ranked_leb _) as [|[k w] l] eqn:E.
  - apply Permutation_nil, fmap_nil_inv in Hp. done.
  - exists w. apply resolve_eq. split; [done|]. by rewrite E.
Qed.

(** Created earlier, or at the same time with a smaller name, or with the same
    name and no greater uid; the strings in Unicode code point order. *)
Definition older (a b : seniority) : Prop :=
  let '(t1, n1, u1) := a in
  let '(t2, n2, u2) := b in
  t1 < t2 ∨ t1 = t2 ∧ (n1 ≠ n2 ∧ String.leb n1 n2 = true ∨ n1 = n2 ∧ String.leb u1 u2 = true).

Lemma seniority_older a b : seniority_leb a b = true → older a b.
Proof.
  destruct a as [[t1 n1] u1], b as [[t2 n2] u2]. simpl.
  destruct (Z.eqb_spec t1 t2); [|intros ?%Z.ltb_lt; by left]. destruct (String.eqb_spec n1 n2); auto.
Qed.

(** C15: the elected CR is the oldest of those listed, ties broken by name and
    then uid, a CR without creation time counting as the youngest; there is one
    whenever the list is not empty and every creation time is readable. *)
Theorem active_is_oldest items :
  (∀ w, resolve_active_cr items = Ok (Some w) →
     w ∈ items ∧ ∃ kw, seniority_key w = Ok kw ∧
     ∀ o, o ∈ items → ∃ ko, seniority_key o = Ok ko ∧ older kw ko) ∧
  (resolve_active_cr items = Ok None ↔ items = []) ∧
  (is_ok (resolve_active_cr items) = true ↔ comparable items).
Proof.
  split_and!.
  - intros w Hr. pose proof (winner_least _ _ Hr) as [Hin Hmin]. apply resolve_eq in Hr as [Hc _].
    assert (Hk : ∀ o, o ∈ items → seniority_key o = Ok (key_of o)).
    { intros o Ho. specialize (Hc o Ho). unfold key_of. by destruct (seniority_key o). }
    split; [done|]. exists (key_of w). split; [by apply Hk|]. intros o Ho. exists (key_of o). auto using seniority_older.
  - split; [|by intros ->]. intros [Hc Hr]%resolve_eq. destruct (decide (items = [])) as [|Hne]; [done|].
    destruct (winner_exists _ Hc Hne) as [w [_ Hw]%resolve_eq]. congruence.
  - split.
    + destruct (resolve_active_cr items) as [r|] eqn:E; [|done]. by apply resolve_eq in E as [? _].
    + intros Hc. by rewrite (proj2 (resolve_eq items _) (conj Hc eq_refl)).
Qed.

(** The order in which the API lists the CRs does not matter: when no two
    share creation time, name and uid, every permutation elects the same one. *)
Theorem election_order_independent items items' w :
  (∀ a b, a ∈ items → b ∈ items → seniority_key a = seniority_key b → a = b) →
  items ≡ₚ items' →
  resolve_active_cr items = Ok (Some w) → resolve_active_cr items' = Ok (Some w).
Proof.
  intros Hinj Hp Hr. pose proof (winner_least _ _ Hr) as [Hin Hmin]. apply resolve_eq in Hr as [Hc _].
  assert (Hc' : comparable items') by (intros o; rewrite <-Hp; apply Hc).
  destruct (winner_exists items') as [w' Hw']; [done|by intros ->; apply Permutation_nil_r in Hp as ->; apply not_elem_of_nil in Hin|].
  rewrite Hw'. do 2 f_equal. apply winner_least in Hw' as [Hin' Hmin']. rewrite <-Hp in Hin'.
  apply Hinj; [done|done|]. pose proof (Hc w Hin) as Hk. pose proof (Hc w' Hin') as Hk'.
  assert (Hkk : key_of w' = key_of w) by (apply seniority_antisym; [apply Hmin'; by rewrite <-Hp|by apply Hmin]).
  unfold key_of in Hkk. destruct (seniority_key w), (seniority_key w'); simpl in *; congruence.
Qed.

Definition uid_of (o : pv) : pv := dget (_meta o) "uid".

(** C14: when every listed CR has a uid and the uids differ, exactly one of them
    passes the check its handlers make. *)
Theorem exactly_one_active items :
  items ≠ [] → comparable items →
  (∀ o, o ∈ items → truthy (uid_of o) = true) →
  (∀ a b, a ∈ items → b ∈ items → py_eq (uid_of a) (uid_of b) = true → a = b) →
  ∃ w, resolve_active_cr items = Ok (Some w) ∧ w ∈ items ∧
    ∀ o, o ∈ items → _same_cr o w = true ↔ o = w.
Proof.
  intros Hne Hc Hu Hinj. destruct (winner_exists _ Hc Hne) as [w Hw]. exists w. split; [done|].
  apply winner_least in Hw as [Hin _]. split; [done|]. intros o Ho. unfold _same_cr.
  fold (uid_of o) (uid_of w). rewrite (Hu o Ho), (Hu w Hin). simpl. split; [by apply Hinj|].
  intros ->. apply py_eq_refl.
Qed.

(** ** Gated handlers *)

Section gated.
Context {W P : Type}.
Context `{CustomObjectsApi W} `{KubeConfigApi W} `{KopfApi W} `{KeyOrder} `{Lens P SingletonMem} `{Lens P K8sClients}.
Implicit Types s : st W P.

(** What the guard itself does: it loads the client configuration, lists the
    CRs and counts. *)
Definition guard_action (a : action) : Prop :=
  match a with LoadKubeConfig | KubeListCrs _ | MetricInc _ _ _ => True | _ => False end.

Lemma get_guard_emits : within (emits guard_action) (_get_guard (W:=W) (P:=P)).
Proof.
  unfold _get_guard, set_guard, modify_singleton, put_api, put_part, operator_custom_objects_api. solve_within.
Qed.
Hint Resolve get_guard_emits : within.

Lemma list_crs_emits ns : within (emits guard_action) (list_crs (W:=W) (P:=P) ns).
Proof. unfold list_crs, list_namespaced_custom_object. solve_within; done. Qed.
Hint Resolve list_crs_emits : within.

Lemma is_active_cr_emits body ns : within (emits guard_action) (is_active_cr (W:=W) (P:=P) body ns).
Proof. unfold is_active_cr, is_active. solve_within. Qed.
Hint Resolve is_active_cr_emits : within.

Lemma is_active_cr_run body ns s b s1 :
  is_active_cr body ns s = (Ok b, s1) →
  ∃ items winner, (_get_guard;; list_crs ns) s = (Ok items, s1) ∧ resolve_active_cr items = Ok winner ∧
    b = match winner with Some w => _same_cr body w | None => false end.
Proof.
  unfold is_active_cr, is_active. intros (g & s2 & E2 & E)%bind_Ok. apply bind_Ok in E as (items & s3 & E3 & E).
  apply bind_Ok in E as (winner & s4 & E4 & E). injection E4 as Ew ->. injection E as <- <-.
  exists items, winner. split_and!; [|done|done]. apply bind_Ok. eauto.
Qed.

Lemma resolve_gate_run fn_name c body s r s1 :
  resolve_gate fn_name c body s = (r, s1) →
  Forall guard_action (drop (length (log s)) (log s1)) ∧
  match r with
  | Ok (Some b) => is_active_cr body (py_str (kw_namespace c)) s = (Ok b, s1)
  | Ok None => True
  | Raise e => guard_skips e = false
  end.
Proof.
  assert (Hq : within (emits guard_action) (resolve_gate (W:=W) (P:=P) fn_name c body)).
  { unfold resolve_gate. solve_within. all: case_match; simplify_eq; solve_within. }
  intros E. destruct (Hq s) as (l & El & Hl). rewrite E in El. cbn [snd] in El.
  split; [by rewrite El, drop_app_length|]. revert E. unfold resolve_gate, try_except, mbind, M_bind.
  destruct (is_active_cr body (py_str (kw_namespace c)) s) as [[b|e] s2]; [by intros [= <- <-]|].
  destruct (guard_skips e) eqn:Eg; intros [= <- <-]; done.
Qed.

(** C13: a handler behind the guard runs only in a tick whose listing elects its
    CR, and then from the state the listing left; in every other tick it is
    not called, nothing but the guard's own reads and counters happens, and an
    API, configuration or timestamp error is a skipped tick, not a failure. *)
Theorem gated_runs_only_active {A} fn_name (fn : call → M W P A) c s r s' :
  _gated fn_name fn c s = (r, s') →
  let body := py_or (kw_body c) (PDict ∅) in
  (∃ items w s1, (_get_guard;; list_crs (py_str (kw_namespace c))) s = (Ok items, s1) ∧
     resolve_active_cr items = Ok (Some w) ∧ _same_cr body w = true ∧
     (fn c s1).2 = s' ∧ r = (a ← (fn c s1).1; mret (Some a))) ∨
  (Forall guard_action (drop (length (log s)) (log s')) ∧
   (r = Ok None ∨ ∃ e, r = Raise e ∧ guard_skips e = false)).
Proof.
  unfold _gated. intros E. set (body := py_or (kw_body c) (PDict ∅)) in *. destruct (negb (is_dict body) || _).
  { injection E as <- <-. right. rewrite drop_all. auto. }
  destruct (resolve_gate fn_name c body s) as [ra s1] eqn:Ea.
  apply resolve_gate_run in Ea as Q. destruct Q as [Hl Q].
  destruct ra as [[[]|]|e].
  - rewrite (bind_run _ _ _ _ _ Ea) in E. left.
    apply is_active_cr_run in Q as (items & [w|] & E3 & Hr & Hb); [|done].
    exists items, w, s1. split_and!; try done; revert E; unfold mbind, M_bind;
      destruct (fn c s1) as [[a|e] s4]; by intros [= <- <-].
  - rewrite (bind_run _ _ _ _ _ Ea) in E. injection E as <- <-. right. simpl. split; [|by left].
    rewrite drop_app. apply Forall_app. split; [done|]. apply Forall_drop. by repeat constructor.
  - rewrite (bind_run _ _ _ _ _ Ea) in E. injection E as <- <-. auto.
  - rewrite (bind_raise _ _ _ _ _ Ea) in E. injection E as <- <-. right. split; [done|]. right. eauto.
Qed.
End gated.

(** ** The fingerprint cache *)

Definition cache_wf (c : guard_cache) : Prop :=
  NoDup c.*1 ∧ (length c ≤ GuardCache._MAX_GUARD_CACHE_ENTRIES)%nat.

Lemma cache_find_Some k c v : GuardCache.find k c = Some v → (k, v) ∈ c.
Proof.
  unfold GuardCache.find. destruct (filter _ c) as [|[k' v'] l] eqn:E; [done|]. intros [= ->].
  assert (Hin : (k', v) ∈ filter (λ e : crkey * surface, e.1 = k) c) by (rewrite E; by left).
  by apply list_elem_of_filter in Hin as [<- ?].
Qed.

Lemma cache_remove_keys k c : k ∉ (GuardCache.remove k c).*1.
Proof. unfold GuardCache.remove. intros ([k' v'] & -> & [Hk _]%list_elem_of_filter)%list_elem_of_fmap. done. Qed.

Lemma cache_remove_NoDup k c : NoDup c.*1 → NoDup (GuardCache.remove k c).*1.
Proof.
  unfold GuardCache.remove. induction c as [|[k' v'] c IH]; [done|]. simpl. intros [Hk Hc]%NoDup_cons.
  rewrite filter_cons. case_decide; [|by auto]. simpl. apply NoDup_cons. split; [|by auto].
  intros (e & -> & [_ He]%list_elem_of_filter)%list_elem_of_fmap. by apply Hk, list_elem_of_fmap_2.
Qed.

Lemma cache_remove_shorter k v c : (k, v) ∈ c → (length (GuardCache.remove k c) < length c)%nat.
Proof. intros Hin. apply length_filter_lt with (k, v); [done|]. by intros []. Qed.

Lemma cache_moved_wf k v v' c : cache_wf c → (k, v) ∈ c → cache_wf (GuardCache.remove k c ++ [(k, v')]).
Proof.
  intros [Hn Hl] Hin. split.
  - rewrite fmap_app. apply NoDup_app. split_and!; [by apply cache_remove_NoDup| |apply NoDup_singleton].
    intros k' Hk' ->%list_elem_of_singleton. by eapply cache_remove_keys.
  - rewrite length_app. simpl. apply cache_remove_shorter in Hin. lia.
Qed.

Lemma cache_find_last k v c : k ∉ c.*1 → GuardCache.find k (c ++ [(k, v)]) = Some v.
Proof.
  unfold GuardCache.find. induction c as [|[k' v'] c IH]; simpl; [by rewrite filter_cons_True|].
  rewrite not_elem_of_cons. intros [Hne Hk]. rewrite filter_cons_False by done. by apply IH.
Qed.

Lemma cache_find_None k c : GuardCache.find k c = None → k ∉ c.*1.
Proof.
  unfold GuardCache.find. intros Hf (e & -> & He)%list_elem_of_fmap.
  destruct (filter _ c) as [|[? ?] l] eqn:E; [|done]. by eapply (filter_nil_not_elem_of _ _ e) in E.
Qed.

Lemma cache_shrink_eq k v c :
  (length c ≤ GuardCache._MAX_GUARD_CACHE_ENTRIES)%nat →
  GuardCache.shrink (c ++ [(k, v)]) =
    (if (length c <? GuardCache._MAX_GUARD_CACHE_ENTRIES)%nat then c else tail c) ++ [(k, v)].
Proof.
  unfold GuardCache.shrink. intros Hl. rewrite length_app. cbn [length].
  destruct (Nat.ltb_spec (length c) GuardCache._MAX_GUARD_CACHE_ENTRIES) as [Hlt|Hge].
  - replace (length c + 1 - GuardCache._MAX_GUARD_CACHE_ENTRIES)%nat with 0%nat by lia. done.
  - replace (length c + 1 - GuardCache._MAX_GUARD_CACHE_ENTRIES)%nat with 1%nat by lia.
    destruct c as [|e c]; [|done]. simpl in Hge. unfold GuardCache._MAX_GUARD_CACHE_ENTRIES in Hge. lia.
Qed.

Lemma cache_moved_perm k w c : NoDup c.*1 → (k, w) ∈ c → GuardCache.remove k c ++ [(k, w)] ≡ₚ c.
Proof.
  intros Hn Hin. induction c as [|[k' v'] c IH]; [by apply not_elem_of_nil in Hin|].
  simpl in Hn. apply NoDup_cons in Hn as [Hk Hn]. unfold GuardCache.remove.
  apply elem_of_cons in Hin as [[= <- <-]|Hin].
  - rewrite filter_cons_False by naive_solver. rewrite Permutation_app_comm. simpl. constructor.
    assert (Hall : ∀ e, e ∈ c → e.1 ≠ k) by (intros e He <-; by apply Hk, list_elem_of_fmap_2).
    clear -Hall. induction c as [|e c IH]; [done|]. rewrite filter_cons_True by (apply Hall; by left).
    constructor. apply IH. intros; apply Hall; by right.
  - rewrite filter_cons_True; [simpl; constructor; by apply IH|]. simpl. intros ->.
    by apply Hk, (list_elem_of_fmap_2 fst _ (k, w)).
Qed.

Lemma cache_pushed_wf k v c : cache_wf c → k ∉ c.*1 →
  let c' := if (length c <? GuardCache._MAX_GUARD_CACHE_ENTRIES)%nat then c else tail c in
  k ∉ c'.*1 ∧ cache_wf (c' ++ [(k, v)]).
Proof.
  intros [Hn Hl] Hk c'.
  assert (Hc' : k ∉ c'.*1 ∧ NoDup c'.*1 ∧ (S (length c') ≤ GuardCache._MAX_GUARD_CACHE_ENTRIES)%nat).
  { unfold c'. destruct (Nat.ltb_spec (length c) GuardCache._MAX_GUARD_CACHE_ENTRIES); [by split_and!|].
    destruct c as [|e c]; [by split_and!; try (unfold GuardCache._MAX_GUARD_CACHE_ENTRIES; simpl; lia)|].
    simpl in *. apply not_elem_of_cons in Hk as [_ Hk]. apply NoDup_cons in Hn as [_ Hn]. by split_and!. }
  destruct Hc' as (Hk' & Hn' & Hl'). split; [done|]. split; [|rewrite length_app; simpl; lia].
  rewrite fmap_app. apply NoDup_app. split_and!; [done|by intros k' ? ->%list_elem_of_singleton|apply NoDup_singleton].
Qed.

Lemma cache_set_wf k v c : cache_wf c → cache_wf (GuardCache.set k v c).
Proof.
  intros Hwf. unfold GuardCache.set. destruct (GuardCache.find k c) as [w|] eqn:Ef.
  - apply cache_find_Some in Ef. by eapply cache_moved_wf.
  - apply cache_find_None in Ef. rewrite cache_shrink_eq by apply Hwf. by apply cache_pushed_wf.
Qed.

Lemma cache_get_wf k c : cache_wf c → cache_wf (GuardCache.get k c).2.
Proof.
  intros Hwf. unfold GuardCache.get. destruct (GuardCache.find k c) as [w|] eqn:Ef; [|done].
  apply cache_find_Some in Ef. by eapply cache_moved_wf.
Qed.

Lemma cache_pop_wf k c : cache_wf c → cache_wf (GuardCache.pop k c).
Proof. intros [Hn Hl]. split; [by apply cache_remove_NoDup|]. etransitivity; [apply length_filter|done]. Qed.

(** The fingerprint cache holds at most a thousand entries, one per CR; a
    write is read back, a read changes only the order, and at the bound a new
    CR displaces exactly the least recently used one. *)
Theorem guard_cache_lru k v c :
  cache_wf c →
  cache_wf (GuardCache.set k v c) ∧ GuardCache.find k (GuardCache.set k v c) = Some v ∧
  cache_wf (GuardCache.get k c).2 ∧ (GuardCache.get k c).2 ≡ₚ c ∧ (GuardCache.get k c).1 = GuardCache.find k c ∧
  (k ∉ c.*1 → GuardCache.set k v c =
     (if (length c <? GuardCache._MAX_GUARD_CACHE_ENTRIES)%nat then c else tail c) ++ [(k, v)]) ∧
  (k ∈ c.*1 → GuardCache.set k v c = GuardCache.remove k c ++ [(k, v)]).
Proof.
  intros Hwf. pose proof (cache_set_wf k v c Hwf). pose proof (cache_get_wf k c Hwf).
  destruct (GuardCache.find k c) as [w|] eqn:Ef; unfold GuardCache.set, GuardCache.get in *; rewrite Ef in *.
  - apply cache_find_Some in Ef as Hin. split_and!; simpl; try done.
    + apply cache_find_last, cache_remove_keys.
    + apply cache_moved_perm; [apply Hwf|done].
    + intros Hk. exfalso. by apply Hk, (list_elem_of_fmap_2 fst _ (k, w)).
  - apply cache_find_None in Ef as Hk. rewrite cache_shrink_eq in * by apply Hwf.
    destruct (cache_pushed_wf k v c Hwf Hk) as [Hk' _]. split_and!; try done. by apply cache_find_last.
Qed.

(** ** Installing the guard *)

Lemma gateable_ungated registered h : gateable registered h = true → is_gated h = false.
Proof.
  unfold gateable, is_gated. rewrite !andb_true_iff, !bool_decide_eq_true. intros [[[_ ->] _] _].
  by rewrite bool_decide_eq_false_2.
Qed.

Lemma gateable_wrap registered h : gateable registered (wrap registered h) = false.
Proof.
  unfold wrap. destruct (gateable registered h) eqn:E; [|done]. unfold gateable. simpl. by rewrite andb_false_r.
Qed.

Lemma wrap_wrap registered h : wrap registered (wrap registered h) = wrap registered h.
Proof. unfold wrap at 1. by rewrite gateable_wrap. Qed.

Lemma is_gated_wrap registered h : is_gated (wrap registered h) = gateable registered h || is_gated h.
Proof.
  unfold wrap. destruct (gateable registered h); [|done]. unfold is_gated. by rewrite bool_decide_eq_true_2.
Qed.

Lemma gateable_or_gated registered h :
  _selector_matches_oscms h = true → h_id h ∈ registered → is_Some (h_fn h) → h_replaceable h = true →
  gateable registered h || is_gated h = true.
Proof.
  intros Hm Hid [[] Hf] Hr; unfold gateable, is_gated; rewrite Hf, Hr, Hm, (bool_decide_eq_true_2 (h_id h ∈ registered)) by done.
  - by rewrite orb_true_r.
  - done.
Qed.

Lemma count_wrap registered l :
  count is_gated (wrap registered <$> l) = count is_gated l + count (gateable registered) l.
Proof.
  unfold count. induction l as [|h l IH]; [done|]. rewrite fmap_cons, !filter_cons, is_gated_wrap.
  pose proof (gateable_ungated registered h) as Hu.
  destruct (gateable registered h), (is_gated h); try (by specialize (Hu eq_refl)); simpl; lia.
Qed.

Lemma count_none f l : (∀ h, h ∈ l → f h = false) → count f l = 0.
Proof.
  intros Hl. unfold count. induction l as [|h l IH]; [done|].
  rewrite filter_cons_False by (rewrite (Hl h); [done|by left]). apply IH. intros; apply Hl; by right.
Qed.

(** After the installation the handlers of other resources are as they
    were, every handler of the CR that is registered, has a function and can be
    replaced is gated, its id and selector unchanged, and none was ungated; the
    count returned is the number gated by this run, and a second run wraps
    nothing and changes nothing. *)
Theorem install_gates {W P} handlers registered (s : st W P) after n s' :
  install_singleton_guard (Some handlers) registered s = (Ok (Some after, n), s') →
  n = count is_gated after - count is_gated handlers ∧
  Forall2 (λ h h', h_id h' = h_id h ∧ h_selector h' = h_selector h ∧
    (_selector_matches_oscms h = false → h' = h) ∧
    (_selector_matches_oscms h = true → h_id h ∈ registered → is_Some (h_fn h) → h_replaceable h = true →
       is_gated h' = true) ∧
    (is_gated h = true → is_gated h' = true) ∧
    (is_gated h' = true → is_gated h = true ∨ gateable registered h = true)) handlers after ∧
  ∀ s1 : st W P, (install_singleton_guard (Some after) registered s1).1 = Ok (Some after, 0).
Proof.
  intros [= <- <- <-]. split_and!.
  - rewrite count_wrap. lia.
  - induction handlers as [|h l IH]; constructor; [|done]. clear IH. rewrite is_gated_wrap.
    assert (Hsame : h_id (wrap registered h) = h_id h ∧ h_selector (wrap registered h) = h_selector h)
      by (unfold wrap; by destruct (gateable registered h)).
    destruct Hsame as [-> ->]. split_and!; try done.
    + intros Hm. unfold wrap, gateable. by rewrite Hm.
    + by apply gateable_or_gated.
    + intros ->. apply orb_true_r.
    + rewrite orb_true_iff. tauto.
  - intros s1. simpl. rewrite <-list_fmap_compose. do 3 f_equal.
    + apply list_fmap_ext. intros i h _. apply wrap_wrap.
    + apply count_none. intros h (h' & -> & _)%list_elem_of_fmap. apply gateable_wrap.
Qed.

(** ** Announcing the outcome *)

Section announce.
Context {W P : Type} `{KopfApi W} `{Lens P SingletonMem}.
Implicit Types s : st W P.

(** The Events of an election with this outcome. *)
Definition announcement (items : list pv) (winner : option pv) : list (pv * string * string * string) :=
  match winner with
  | None => []
  | Some w =>
      let losers := losers_of winner items in
      if bool_decide (losers = []) then []
      else ((λ l, (l, "Warning", SINGLETON_CONFLICT_EVENT, conflict_message w l)) <$> losers) ++
           [(w, "Normal", SINGLETON_ACTIVE_EVENT, active_message items losers)]
  end.

Definition announced s : option (option string * gset string) := _process_guard (lget (mem s)) ≫= _last_state.

Lemma emit_event_run o t r m s s' :
  emit_kopf_event o t r m s = (Ok tt, s') → events_of s' = events_of s ++ [(o, t, r, m)] ∧ mem s' = mem s.
Proof.
  unfold emit_kopf_event, kopf_event, ext. destruct (kopf_event_call _ _ _ _ _) as [? w]. intros [= -> <-].
  unfold events_of. simpl. by rewrite omap_app.
Qed.

Lemma foreach_events {A} (f : A → pv * string * string * string) l s s' :
  foreach l (λ x, let '(o, t, r, m) := f x in emit_kopf_event o t r m) s = (Ok tt, s') →
  events_of s' = events_of s ++ (f <$> l) ∧ mem s' = mem s.
Proof.
  revert s. induction l as [|x l IH]; intros s; simpl.
  - intros [= <-]. by rewrite app_nil_r.
  - destruct (f x) as [[[o t] r] m] eqn:Ef. intros ([] & s1 & E1 & E)%bind_Ok. apply IH in E as [-> ->].
    apply emit_event_run in E1 as [-> ->]. by rewrite <-app_assoc.
Qed.

Lemma inc_events family ls s : events_of (inc (W:=W) (P:=P) family ls s).2 = events_of s.
Proof. unfold events_of. simpl. rewrite omap_app. apply app_nil_r. Qed.

(** A check announces an outcome when it differs from the last one
    announced and only then: one warning per losing CR and one notice to the
    winner when there is a conflict, no Event otherwise; the outcome is
    remembered. *)
Theorem conflicts_announced items s s' :
  enforce items emit_kopf_event s = (Ok tt, s') →
  ∃ winner, resolve_active_cr items = Ok winner ∧
    let snapshot := guard_snapshot winner (losers_of winner items) in
    announced s' = Some snapshot ∧
    if bool_decide (announced s = Some snapshot) then s' = s
    else events_of s' = events_of s ++ announcement items winner.
Proof.
  unfold enforce. intros (winner & s1 & E1 & E)%bind_Ok. injection E1 as Hr ->. exists winner. split; [done|]. cbv zeta.
  rewrite (bind_run get_part _ s1 (lget (mem s1)) s1) in E by done. fold (announced s1) in E. revert E.
  case_bool_decide as Ha; [by intros [= <-]|].
  set (g := Some (MkGuardState (Some (guard_snapshot winner (losers_of winner items))))).
  set (s2 := St (world s1) (lput (with_guard g (lget (mem s1))) (mem s1)) (shared s1) (log s1)).
  rewrite (bind_run (set_guard g) _ s1 tt s2) by done.
  assert (A2 : announced s2 = Some (guard_snapshot winner (losers_of winner items))).
  { unfold announced, s2. simpl. rewrite lget_lput. done. }
  assert (V2 : events_of s2 = events_of s1) by done. rewrite <-V2. clearbody s2. clear Ha.
  intros E. unfold announced in *. destruct winner as [w|]; simpl in *.
  - case_bool_decide as Hl.
    + injection E as <-. rewrite app_nil_r. split; [done|]. apply inc_events.
    + apply bind_Ok in E as ([] & s3 & E3 & E). injection E3 as <-. apply bind_Ok in E as ([] & s4 & E4 & E).
      apply (foreach_events (λ l, (l, "Warning", SINGLETON_CONFLICT_EVENT, conflict_message w l))) in E4 as [V4 M4].
      apply emit_event_run in E as [-> ->]. rewrite V4, M4, <-app_assoc. split; [exact A2|].
      rewrite <-(inc_events "SINGLETON_ELECTION_TOTAL" [("outcome", "conflict")] s2). done.
  - injection E as <-. rewrite app_nil_r. split; [done|]. apply inc_events.
Qed.
End announce.

(** ** Skipped checks *)

Lemma cache_find_set k v c : GuardCache.find k (GuardCache.set k v c) = Some v.
Proof.
  unfold GuardCache.set. destruct (GuardCache.find k c) as [w|] eqn:Ef; [apply cache_find_last, cache_remove_keys|].
  apply cache_find_None in Ef. unfold GuardCache.shrink. rewrite length_app. simpl.
  rewrite drop_app_le by (unfold GuardCache._MAX_GUARD_CACHE_ENTRIES; lia). apply cache_find_last.
  intros (e & -> & He)%list_elem_of_fmap. apply Ef, list_elem_of_fmap_2.
  eapply elem_of_submseteq; [exact He|]. apply sublist_submseteq, sublist_drop.
Qed.

Lemma cache_find_get k c : GuardCache.find k (GuardCache.get k c).2 = GuardCache.find k c.
Proof.
  unfold GuardCache.get. destruct (GuardCache.find k c) as [w|] eqn:Ef; [|done].
  simpl. apply cache_find_last, cache_remove_keys.
Qed.

Lemma py_eq_trans a b c : py_eq a b = true → py_eq b c = true → py_eq a c = true.
Proof. unfold py_eq. rewrite !bool_decide_eq_true. congruence. Qed.

Lemma same_mapping_trans a b c : same_mapping a b = true → same_mapping b c = true → same_mapping a c = true.
Proof. destruct a, b, c; simpl; try done. apply py_eq_trans. Qed.

Lemma same_surface_trans a b c : same_surface a b = true → same_surface b c = true → same_surface a c = true.
Proof.
  unfold same_surface. rewrite !andb_true_iff, !String.eqb_eq. intros ((((? & ?) & ?) & ?) & ?) ((((? & ?) & ?) & ?) & ?).
  split_and!; try congruence; by eapply same_mapping_trans.
Qed.

Section skip.
Context {W P : Type}.
Context `{CustomObjectsApi W} `{KubeConfigApi W} `{KopfApi W} `{CoreV1Api W} `{KeyOrder} `{UrlTables}.
Context `{Lens P SingletonMem} `{Lens P K8sClients} `{Lens P (list (string * ReadOnlyRedisClient))}.
Context (env : RedisEnv).
Implicit Types s : st W P.

Definition seen_surface k s : option surface := GuardCache.find k (_guard_last_seen_surface (lget (mem s))).

Lemma skip_run body k t s :
  ∃ s', _skip_guard_relist body k t s =
    (Ok (bool_decide (t = Some "MODIFIED") && opt_is_some (announced s) &&
         match seen_surface k s with Some seen => same_surface seen (_cr_policy_surface body) | None => false end), s') ∧
    world s' = world s ∧ log s' = log s ∧ announced s' = announced s ∧ seen_surface k s' = seen_surface k s.
Proof.
  unfold _skip_guard_relist. case_bool_decide as Ht; simpl; [|by eexists].
  fold (announced s). unfold announced, seen_surface. simpl. rewrite (bind_run get_part _ s (lget (mem s)) s) by done.
  destruct (_process_guard _ ≫= _) as [st|] eqn:Eg; simpl; [|by eexists].
  pose proof (cache_find_get k (_guard_last_seen_surface (lget (mem s)))) as Hf.
  destruct (GuardCache.get _ _) as [seen cache] eqn:Ec. simpl in Hf.
  assert (Hs : seen = GuardCache.find k (_guard_last_seen_surface (lget (mem s)))).
  { unfold GuardCache.get in Ec. destruct (GuardCache.find _ _); by injection Ec as <- _. }
  eexists. split; [by rewrite <-Hs|]. simpl. rewrite lget_lput. simpl. split_and!; [done|done|exact Eg|exact Hf].
Qed.

(** An event is skipped only when it is a modification, the guard has
    announced an outcome before, and the uid, spec, labels, annotations and
    deletion mark of the CR are those seen at the last event not skipped; a
    skipped event touches nothing outside the process. *)
Theorem skip_only_unchanged ns name body t s :
  let k := (ns, name) in
  (∃ s1, _skip_guard_relist body k t s = (Ok true, s1)) →
  (t = Some "MODIFIED" ∧ is_Some (announced s) ∧
   ∃ seen, seen_surface k s = Some seen ∧ same_surface seen (_cr_policy_surface body) = true) ∧
  ∃ s', singleton_guard_event env ns name body t s = (Ok tt, s') ∧ world s' = world s ∧ log s' = log s ∧
    announced s' = announced s ∧ seen_surface k s' = seen_surface k s.
Proof.
  intros k [s1 E]. destruct (skip_run body k t s) as (s2 & E2 & Hw & Hl & Ha & Hk). rewrite E2 in E.
  injection E as E <-. rewrite E in E2. rewrite !andb_true_iff, bool_decide_eq_true, opt_is_some_spec in E.
  destruct E as [[-> Hann] Hs]. split.
  - split_and!; [done|done|]. destruct (seen_surface k s) as [seen|]; [eauto|done].
  - exists s2. split_and!; try done. unfold singleton_guard_event. rewrite bool_decide_eq_false_2 by done.
    fold k. by rewrite (bind_run _ _ _ _ _ E2).
Qed.

(** A processed event leaves its surface behind, whatever became of its check. *)
Lemma event_records ns name body s s' :
  singleton_guard_event env ns name body (Some "MODIFIED") s = (Ok tt, s') →
  ∃ seen, seen_surface (ns, name) s' = Some seen ∧ same_surface seen (_cr_policy_surface body) = true.
Proof.
  unfold singleton_guard_event. rewrite bool_decide_eq_false_2 by done.
  destruct (skip_run body (ns, name) (Some "MODIFIED") s) as (s2 & E2 & Hw & Hl & Ha & Hk).
  rewrite (bind_run _ _ _ _ _ E2). destruct (_ && _ && _) eqn:Eb.
  - intros [= <-]. rewrite Hk. rewrite !andb_true_iff in Eb. destruct Eb as [_ Hs].
    destruct (seen_surface _ s) as [seen|]; [eauto|done].
  - intros ([] & s3 & E3 & E)%bind_Ok. injection E as <-. unfold seen_surface. simpl. rewrite lget_lput. simpl.
    rewrite cache_find_set. eexists. split; [done|].
    unfold same_surface. rewrite !String.eqb_refl. unfold same_mapping. repeat case_match; by rewrite ?py_eq_refl.
Qed.

(** After a processed modification the next one with the same surface is
    skipped, even when the check of the first failed because the CRs could not
    be listed: what that check would have reported waits for a change or a
    restart. *)
Theorem failed_check_not_retried ns name body body' s s' :
  singleton_guard_event env ns name body (Some "MODIFIED") s = (Ok tt, s') →
  is_Some (announced s') →
  same_surface (_cr_policy_surface body) (_cr_policy_surface body') = true →
  ∃ s2, singleton_guard_event env ns name body' (Some "MODIFIED") s' = (Ok tt, s2) ∧ log s2 = log s'.
Proof.
  intros (seen & Hs & Hb)%event_records Ha Hb'.
  destruct (skip_run body' (ns, name) (Some "MODIFIED") s') as (s2 & E2 & Hw & Hl & _ & _).
  exists s2. split; [|done]. unfold singleton_guard_event. rewrite bool_decide_eq_false_2 by done.
  rewrite (bind_run _ _ _ _ _ E2), Hs, (same_surface_trans _ _ _ Hb Hb'), (proj2 (opt_is_some_spec _) Ha). done.
Qed.
End skip.

(** ** Two CRs in one namespace *)

Definition demo_cr (name created uid : string) : pv :=
  PDict {["metadata" := PDict {["namespace" := PStr "ns"; "name" := PStr name; "uid" := PStr uid;
    "creationTimestamp" := PStr created]}]}.

Definition elder := demo_cr "b" "2024-01-01T00:00:00Z" "u1".
Definition younger := demo_cr "a" "2024-06-01T00:00:00Z" "u2".

Record guard_mem := MkGuardMem { gm_guard : SingletonMem; gm_apis : K8sClients; gm_redis : list (string * ReadOnlyRedisClient) }.
#[local] Instance gm_guard_lens : Lens guard_mem SingletonMem := {
  lget := gm_guard; lput c p := MkGuardMem c (gm_apis p) (gm_redis p); lget_lput c p := eq_refl }.
#[local] Instance gm_apis_lens : Lens guard_mem K8sClients := {
  lget := gm_apis; lput c p := MkGuardMem (gm_guard p) c (gm_redis p); lget_lput c p := eq_refl }.
#[local] Instance gm_redis_lens : Lens guard_mem (list (string * ReadOnlyRedisClient)) := {
  lget := gm_redis; lput c p := MkGuardMem (gm_guard p) (gm_apis p) c; lget_lput c p := eq_refl }.

Definition guard_world (crs : list pv) : sim :=
  Sim ∅ 0 (PDict {["items" := PList crs]}) [] ∅ ∅ ∅ (λ _ _, not_found) (λ _, not_found).
Definition guard_start (crs : list pv) : st sim guard_mem :=
  sim_start (guard_world crs) (MkGuardMem (MkSingletonMem None ∅ ∅ []) no_clients []).

Lemma elder_elected : resolve_active_cr [elder; younger] = Ok (Some elder).
Proof. by vm_compute. Qed.

Lemma pair_case (Q : pv → Prop) o : Q elder → Q younger → o ∈ [elder; younger] → Q o.
Proof. by intros ? ? [->|[->|?%not_elem_of_nil]%elem_of_cons]%elem_of_cons. Qed.

(** The two share neither rank nor uid. *)
Lemma pair_distinct (Q : pv → pv → Prop) a b :
  (Q elder younger → False) → (Q younger elder → False) →
  a ∈ [elder; younger] → b ∈ [elder; younger] → Q a b → a = b.
Proof.
  intros H1 H2 Ha Hb. revert a Ha. refine (λ a Ha, pair_case (λ a, Q a b → a = b) a _ _ Ha);
    refine (pair_case (λ b, Q _ b → _ = b) b _ _ Hb); intros; first [reflexivity|exfalso; by eauto].
Qed.

Lemma election_order_independent_witness : resolve_active_cr [younger; elder] = Ok (Some elder).
Proof.
  apply (election_order_independent [elder; younger]).
  - intros a b. apply (pair_distinct (λ a b, seniority_key a = seniority_key b)); by vm_compute.
  - apply Permutation_swap.
  - exact elder_elected.
Defined.

Lemma exactly_one_active_witness :
  ∃ w, resolve_active_cr [elder; younger] = Ok (Some w) ∧ w ∈ [elder; younger] ∧
    ∀ o, o ∈ [elder; younger] → _same_cr o w = true ↔ o = w.
Proof.
  apply (exactly_one_active [elder; younger]).
  - done.
  - intros o. apply (pair_case (λ o, is_ok (seniority_key o) = true)); by vm_compute.
  - intros o. apply (pair_case (λ o, truthy (uid_of o) = true)); by vm_compute.
  - intros a b. apply (pair_distinct (λ a b, py_eq (uid_of a) (uid_of b) = true)); by vm_compute.
Defined.

Definition younger_call : call := MkCall younger (PStr "ns") (PStr "a").
Definition younger_tick : res (option unit) * st sim guard_mem :=
  _gated "sla" (λ _, act (Sleep 1)) younger_call (guard_start [elder; younger]).

(** The younger CR's handler does not run. *)
Lemma gated_runs_only_active_witness :
  (∃ items w s1, (_get_guard;; list_crs "ns") (guard_start [elder; younger]) = (Ok items, s1) ∧
     resolve_active_cr items = Ok (Some w) ∧ _same_cr younger w = true ∧
     (act (P:=guard_mem) (Sleep 1) s1).2 = younger_tick.2 ∧
     younger_tick.1 = (a ← (act (P:=guard_mem) (Sleep 1) s1).1; mret (Some a))) ∨
  (Forall guard_action (drop 0 (log younger_tick.2)) ∧
   (younger_tick.1 = Ok None ∨ ∃ e, younger_tick.1 = Raise e ∧ guard_skips e = false)).
Proof.
  exact (gated_runs_only_active "sla" (λ _, act (Sleep 1)) younger_call (guard_start [elder; younger])
    younger_tick.1 younger_tick.2 (surjective_pairing _)).
Defined.

Lemma guard_cache_lru_witness :
  let v := MkSurface "u" None None None "" in
  cache_wf (GuardCache.set ("ns", "a") v []) ∧ GuardCache.find ("ns", "a") (GuardCache.set ("ns", "a") v []) = Some v.
Proof.
  intros v. assert (Hwf : cache_wf []) by (split; [constructor|simpl; lia]).
  destruct (guard_cache_lru ("ns", "a") v [] Hwf) as (Q1 & Q2 & _). by split.
Defined.

Definition timer : handler :=
  MkHandler "analysis_sla" (Some (MkSelector (Some CRD_GROUP) None (Some CRD_PLURAL))) (Some false) true.
Definition install : res (option (list handler) * Z) * st unit unit :=
  install_singleton_guard (Some [timer]) {["analysis_sla"]} (St tt tt (StoreMem ∅ None) []).

Lemma install_gates_witness : 1 = count is_gated [gate timer] - count is_gated [timer].
Proof.
  refine (proj1 (install_gates [timer] {["analysis_sla"]} (St tt tt (StoreMem ∅ None) []) [gate timer] 1 install.2 _)).
  by vm_compute.
Defined.

Definition first_check : res unit * st sim guard_mem :=
  enforce [elder; younger] emit_kopf_event (guard_start []).

Lemma conflicts_announced_witness :
  ∃ winner, resolve_active_cr [elder; younger] = Ok winner ∧
    announced first_check.2 = Some (guard_snapshot winner (losers_of winner [elder; younger])).
Proof.
  destruct (conflicts_announced [elder; younger] (guard_start []) first_check.2) as (w & Hr & Ha & _).
  - apply (run_eq first_check). by vm_compute.
  - exists w. exact (conj Hr Ha).
Defined.

#[local] Instance guard_tables : UrlTables := { bracketed_host_ok _ := false; netloc_nfkc_ok _ := false }.
Definition elder_body : gmap string pv := default ∅ (as_dict elder).
Definition guarded_event (s : st sim guard_mem) : res unit * st sim guard_mem :=
  singleton_guard_event demo_env "ns" "b" elder_body (Some "MODIFIED") s.
Definition seen_once : st sim guard_mem := (guarded_event (guard_start [elder])).2.

Lemma failed_check_not_retried_witness :
  ∃ s2, guarded_event seen_once = (Ok tt, s2) ∧ log s2 = log seen_once.
Proof.
  apply (failed_check_not_retried demo_env "ns" "b" elder_body elder_body (guard_start [elder]) seen_once).
  - apply (run_eq (guarded_event (guard_start [elder]))). by vm_compute.
  - apply opt_is_some_spec. by vm_compute.
  - by vm_compute.
Defined.

Lemma skip_only_unchanged_witness :
  "MODIFIED" = "MODIFIED" ∧ is_Some (announced seen_once).
Proof.
  destruct (skip_only_unchanged demo_env "ns" "b" elder_body (Some "MODIFIED") seen_once) as ((_ & Q & _) & _).
  - exists (_skip_guard_relist elder_body ("ns", "b") (Some "MODIFIED") seen_once).2. apply run_eq. by vm_compute.
  - by split.
Defined.

(** The Redis URL of a CR is removed while the API is down for one request: the
    warning that the next modification should bring does not come. *)
Module Outage.
Definition configured : pv := PDict (<["spec" := PDict {["redisUrl" := PStr "redis://queue"]}]> elder_body).
Definition unconfigured : gmap string pv := <["spec" := PDict {["redisUrl" := PStr ""]}]> elder_body.

(** The number of listings so far; the second one fails. *)
#[local] Instance flaky_crs : CustomObjectsApi nat := {
  get_status_call _ _ n := (not_found, n);
  patch_status_call _ _ _ n := (not_found, n);
  list_crs_call _ n :=
    (match n with
     | O => Ok (PDict {["items" := PList [configured]]})
     | 1%nat => Raise (ApiException 503 "Service Unavailable")
     | _ => Ok (PDict {["items" := PList [PDict unconfigured]]})
     end, S n);
}.
#[local] Instance flaky_config : KubeConfigApi nat := {
  incluster_config_call n := (Ok tt, n); kube_config_call n := (Ok tt, n) }.
#[local] Instance flaky_kopf : KopfApi nat := { kopf_event_call _ _ _ _ n := (Ok tt, n) }.
#[local] Instance flaky_core : CoreV1Api nat := {
  list_pods_call _ _ n := (Ok [], n);
  delete_pod_call _ _ _ n := (Ok tt, n);
  read_secret_call _ _ n := (not_found, n);
  create_event_call _ _ n := (Ok tt, n);
}.

Definition event (body : gmap string pv) (s : st nat guard_mem) : st nat guard_mem :=
  (singleton_guard_event demo_env "ns" "b" body (Some "MODIFIED") s).2.
Definition fresh : st nat guard_mem :=
  St 0%nat (MkGuardMem (MkSingletonMem None ∅ ∅ []) no_clients []) (StoreMem ∅ None) [].

Definition warned (s : st nat guard_mem) : bool :=
  existsb (λ e : pv * string * string * string, String.eqb e.1.2 "RedisUrlEmpty") (events_of s).

Definition before : st nat guard_mem := event (default ∅ (as_dict configured)) fresh.

Lemma warning_lost :
  warned (event unconfigured (event unconfigured before)) = false ∧
  warned (event unconfigured (St 2%nat (mem before) (shared before) (log before))) = true.
Proof. split; by vm_compute. Qed.
End Outage.
