(* ===== verification/OscmTick.v ===== *)
(** * The tick runner ([_oscm_handlers.py])

    Every timer of the operator runs its module's [tick] through
    [run_oscm_tick]: the shutdown and idle checks, the parse of the spec, the
    posture gauges, the construction of the clients inside the guarded region,
    the skip of a failed tick with its counters, and the heartbeat. *)
From S2P Require Import Prelude PyValue Effects Logic PyTime Services Config K8sApi StatusStore Events.

(** ** The registry of handlers *)

(** [REGISTRY]: the identifiers [install_singleton_guard] looks up. *)
Definition register (handler_id : string) (registry : gset string) : gset string := {[handler_id]} ∪ registry.
Definition is_registered (handler_id : string) (registry : gset string) : bool := bool_decide (handler_id ∈ registry).
Definition reset_registry : gset string := ∅.

(** [observe_tick_duration] *)
Definition observe_tick_duration {W P A} (module : string) (fn : M W P A) : M W P A :=
  observe_duration "HANDLER_TICK_DURATION_SECONDS" [("module", module)] fn.

(** ** Outages across handlers *)

(** Microseconds. *)
Definition _OUTAGE_WINDOW : Z := 60 * us_second.

Definition recent_failures (now : Z) (failures : gmap string Z) : gmap string Z :=
  filter (λ e : string * Z, now - _OUTAGE_WINDOW < e.2) failures.

(** [_cross_handler_failures] after a failure of [module] at [now]. *)
Definition record_failure (module : string) (now : Z) (failures : gmap string Z) : gmap string Z :=
  recent_failures now (<[module := now]> failures).

(** The failing modules of an outage: at least two. *)
Definition outage_of (failures : gmap string Z) : option (list string) :=
  let modules := sorted_strings (map_to_list failures).*1 in
  if (2 <=? length modules)%nat then Some modules else None.

(** ** The runner *)

(** [SKIP_TICK_EXCEPTIONS] *)
Definition skips_tick (e : exn) : bool :=
  match e with
  | OpenStudioApiError _ | StatusStoreError _ | StatusStoreConflictError _ | ApiException _ _
  | RedisClientError _ | RedisCredentialResolutionError _ _ | OperatorConfigError _
  | ConfigException _ | LocationValueError _ => true
  | _ => false
  end.

Record TickState := MkTickState {
  _shutdown_requested : bool;
  _cross_handler_failures : gmap string Z;
}.

Definition flag_value (v : pv) : metric_value := MInt (if truthy v then 1 else 0).

(** [metrics.stamp_config_posture_gauges] *)
Definition stamp_config_posture_gauges {W P} (namespace name : string) (dry_run server_url_set redis_url_set auto_soft_stop : pv)
  : M W P unit :=
  let ls := [("namespace", namespace); ("name", name)] in
  gauge "DRY_RUN_ACTIVE" ls (flag_value dry_run);;
  gauge "SERVER_URL_SET" ls (flag_value server_url_set);;
  gauge "REDIS_URL_SET" ls (flag_value redis_url_set);;
  gauge "AUTO_SOFT_STOP_ENABLED" ls (flag_value auto_soft_stop).

Section runner.
Context {W P D R : Type}.
Context `{Clock W} `{Lens P TickState} `{Lens P EmitterCount}.
Context (spec : gmap string pv) (body : pv) (namespace name module : string).
Context (custom_objects_api : M W P ApiClient).
Context (wire : OperatorConfig → M W P D).
Context (tick : OperatorConfig → Store → EventEmitter → D → Z → M W P R).

Definition heartbeat : M W P unit := gauge "HANDLER_LAST_TICK_TIMESTAMP" [("module", module)] MNow.

(** The [except] block: the tick is skipped, and counted. *)
Definition skip_tick (e : exn) : M W P (option R) :=
  inc "HANDLER_TICK_FAILURES_TOTAL"
    [("namespace", namespace); ("name", name); ("module", module); ("error_type", exn_class e)];;
  now_ts ← ask clock;
  t ← get_part (C:=TickState);
  let failures := record_failure module now_ts (_cross_handler_failures t) in
  match outage_of failures with
  | Some modules => inc "HANDLER_CROSS_HANDLER_OUTAGE_TOTAL" [("module_set", join "-" modules)]
  | None => mret tt
  end;;
  put_part (MkTickState (_shutdown_requested t) failures);;
  when (is_redis_client_error e) (inc "REDIS_UNREACHABLE_TOTAL" [("namespace", namespace); ("name", name)]);;
  mret None.

(** The guarded region: clients, wiring and the tick. *)
Definition guarded_tick (config : OperatorConfig) (now : Z) : M W P R :=
  custom_objects_api;;
  put_part (MkEmitterCount 0);;
  deps ← wire config;
  tick config (MkStore namespace name) (MkEventEmitter body (dry_run config)) deps now.

Definition idle_tick : M W P (option R) :=
  policy ← of_res (py_get_or (dget_or spec "analysisPolicy" (PDict ∅)) "autoSoftStop" (PBool true));
  stamp_config_posture_gauges namespace name (dget_or spec "dryRun" (PBool false)) (PBool false)
    (PBool (truthy (dget spec "redisUrl"))) policy;;
  heartbeat;;
  mret None.

Definition run_oscm_tick : M W P (option R) :=
  t ← get_part (C:=TickState);
  if _shutdown_requested t then mret None
  else if negb (truthy (dget spec "serverUrl")) then idle_tick
  else
    config ← of_res (from_spec spec);
    stamp_config_posture_gauges namespace name (dry_run config) (PBool (truthy (server_url config)))
      (PBool (truthy (redis_url config) || opt_is_some (redis_secret_ref config)))
      (auto_soft_stop (analysis_policy config));;
    finally
      (if negb (truthy (server_url config)) then mret None
       else
         now ← ask clock;
         try_except (r ← guarded_tick config now; mret (Some r))
           (λ e, if skips_tick e then Some (skip_tick e) else None))
      heartbeat.

(** [_handle_sigterm], up to the exit of the process. *)
Definition request_shutdown : M W P unit :=
  t ← get_part (C:=TickState); put_part (MkTickState true (_cross_handler_failures t)).
End runner.

(** ** Facts *)

Lemma from_spec_server_url spec c : from_spec spec = Ok c → server_url c = dget_or spec "serverUrl" (PStr "").
Proof.
  unfold from_spec. intros E. repeat (apply res_bind_Ok in E as (? & _ & E)). by injection E as <-.
Qed.

(** The posture gauges of a parsed spec. *)
Definition posture_of (config : OperatorConfig) (namespace name : string) : list action :=
  let ls := [("namespace", namespace); ("name", name)] in
  [MetricSet "DRY_RUN_ACTIVE" ls (flag_value (dry_run config));
   MetricSet "SERVER_URL_SET" ls (flag_value (PBool (truthy (server_url config))));
   MetricSet "REDIS_URL_SET" ls (flag_value (PBool (truthy (redis_url config) || opt_is_some (redis_secret_ref config))));
   MetricSet "AUTO_SOFT_STOP_ENABLED" ls (flag_value (auto_soft_stop (analysis_policy config)))].

Section facts.
Context {W P D R : Type}.
Context `{Clock W} `{Lens P TickState} `{Lens P EmitterCount}.
Context (spec : gmap string pv) (body : pv) (namespace name module : string).
Context (custom_objects_api : M W P ApiClient).
Context (wire : OperatorConfig → M W P D).
Context (tick : OperatorConfig → Store → EventEmitter → D → Z → M W P R).
Implicit Types s : st W P.

Notation run := (run_oscm_tick spec body namespace name module custom_objects_api wire tick).
Notation guarded := (guarded_tick body namespace name custom_objects_api wire tick).
Notation beat := (MetricSet "HANDLER_LAST_TICK_TIMESTAMP" [("module", module)] MNow).

Definition failures_of s : gmap string Z := _cross_handler_failures (lget (mem s)).

(** The counters of a skipped tick. *)
Definition skip_counters (e : exn) (failures : gmap string Z) : list action :=
  [MetricInc "HANDLER_TICK_FAILURES_TOTAL"
     [("namespace", namespace); ("name", name); ("module", module); ("error_type", exn_class e)] 1] ++
  match outage_of failures with
  | Some modules => [MetricInc "HANDLER_CROSS_HANDLER_OUTAGE_TOTAL" [("module_set", join "-" modules)] 1]
  | None => []
  end ++
  (if is_redis_client_error e then [MetricInc "REDIS_UNREACHABLE_TOTAL" [("namespace", namespace); ("name", name)] 1] else []).

Lemma skip_tick_run e s :
  let failures := record_failure module (clock (world s)) (failures_of s) in
  skip_tick (R:=R) namespace name module e s =
    (Ok None, St (world s) (lput (MkTickState (_shutdown_requested (lget (mem s))) failures) (mem s)) (shared s)
       (log s ++ skip_counters e failures)).
Proof.
  cbv zeta. unfold skip_tick, skip_counters, failures_of. rewrite (bind_run (inc _ _) _ s tt _ eq_refl).
  rewrite (bind_run (ask clock) _ _ _ _ eq_refl), (bind_run get_part _ _ _ _ eq_refl). cbv zeta. cbn [mem world].
  destruct (outage_of _); destruct (is_redis_client_error e);
    unfold put_part, modify_mem, get_mem, set_mem, mbind, M_bind; cbn; by rewrite <-?app_assoc, ?app_nil_r.
Qed.

(** The state once the posture gauges are stamped. *)
Definition stamped (config : OperatorConfig) s : st W P :=
  St (world s) (mem s) (shared s) (log s ++ posture_of config namespace name).

(** C16: a tick of a CR whose spec parses and has a server URL, outside
    shutdown, stamps the posture gauges first and the heartbeat last on every
    path. In between it returns what the module's tick returns; a failure of
    the client construction, the wiring or the tick that is one of the nine
    skipped classes makes it a tick without result, counted once and remembered
    for the outage window; any other failure propagates, after the heartbeat,
    uncounted and with the memory as the failed region left it. *)
Theorem tick_outcome config s r s' :
  _shutdown_requested (lget (mem s)) = false → truthy (dget spec "serverUrl") = true →
  from_spec spec = Ok config → run s = (r, s') →
  let '(rg, s2) := guarded config (clock (world s)) (stamped config s) in
  world s' = world s2 ∧ shared s' = shared s2 ∧
  match rg with
  | Ok x => r = Ok (Some x) ∧ log s' = log s2 ++ [beat] ∧ mem s' = mem s2
  | Raise e =>
      if skips_tick e then
        let failures := record_failure module (clock (world s2)) (failures_of s2) in
        r = Ok None ∧ log s' = log s2 ++ skip_counters e failures ++ [beat] ∧
        mem s' = lput (MkTickState (_shutdown_requested (lget (mem s2))) failures) (mem s2)
      else r = Raise e ∧ log s' = log s2 ++ [beat] ∧ mem s' = mem s2
  end.
Proof.
  intros Hd Hu Ec. unfold run_oscm_tick. rewrite (bind_run get_part _ s _ s eq_refl), Hd, Hu, Ec. cbn [negb].
  rewrite (bind_run (of_res (Ok config)) _ s config s eq_refl).
  assert (Hs : stamp_config_posture_gauges namespace name (dry_run config) (PBool (truthy (server_url config)))
      (PBool (truthy (redis_url config) || opt_is_some (redis_secret_ref config)))
      (auto_soft_stop (analysis_policy config)) s = (Ok tt, stamped config s)).
  { unfold stamp_config_posture_gauges, gauge, act, mbind, M_bind. cbn [log world mem shared].
    by rewrite <-!app_assoc. }
  rewrite (bind_run _ _ _ _ _ Hs).
  assert (Hurl : truthy (server_url config) = true).
  { rewrite (from_spec_server_url _ _ Ec). unfold dget_or. unfold dget in Hu. by destruct (spec !! "serverUrl"). }
  rewrite Hurl. cbn [negb]. unfold finally. rewrite (bind_run (ask clock) _ _ _ _ eq_refl).
  unfold try_except, mbind, M_bind. cbn [world stamped].
  destruct (guarded config _ _) as [[x|e] s2]; [by intros [= <- <-]|].
  destruct (skips_tick e); [|by intros [= <- <-]].
  rewrite skip_tick_run. intros [= <- <-]. cbn. by rewrite <-app_assoc.
Qed.

(** Two invocations leave no heartbeat behind: one after the shutdown
    request, which does nothing at all, and one whose spec does not parse,
    whose error also propagates uncounted. *)
Theorem heartbeat_gaps s :
  (_shutdown_requested (lget (mem s)) = true → run s = (Ok None, s)) ∧
  (∀ e, _shutdown_requested (lget (mem s)) = false → truthy (dget spec "serverUrl") = true →
     from_spec spec = Raise e → run s = (Raise e, s)).
Proof.
  split; [|intros e]; intros Hd; unfold run_oscm_tick; rewrite (bind_run get_part _ s _ s eq_refl), Hd; [done|].
  intros Hu Hs. by rewrite Hu, Hs.
Qed.
End facts.

(** ** The outage window *)

(** A history of skipped ticks, oldest first: the module and the time. *)
Notation history := (list (string * Z)).

Definition failures_after (h : history) : gmap string Z :=
  fold_left (λ m e, record_failure e.1 e.2 m) h ∅.

(** The reference: the time of a module's last failure. *)
Definition last_failure (module : string) (h : history) : option Z :=
  snd <$> last (filter (λ e : string * Z, e.1 = module) h).

(** A clock that does not run backwards. *)
Definition chronological (h : history) : Prop := StronglySorted (λ a b : string * Z, a.2 ≤ b.2) h.

Lemma last_failure_snoc module m t h :
  last_failure module (h ++ [(m, t)]) = if decide (m = module) then Some t else last_failure module h.
Proof.
  unfold last_failure. rewrite filter_app. case_decide as Hm.
  - rewrite filter_cons_True by done. by rewrite filter_nil, last_snoc.
  - rewrite filter_cons_False by done. by rewrite filter_nil, app_nil_r.
Qed.

Lemma chronological_snoc h m t : chronological (h ++ [(m, t)]) → chronological h ∧ Forall (λ e, e.2 ≤ t) h.
Proof.
  induction h as [|e h IH]; intros Hs; [by repeat constructor|].
  apply StronglySorted_inv in Hs as [Hs Hf]. apply IH in Hs as [? ?]. apply Forall_app in Hf as [Hf Hl].
  apply Forall_cons in Hl as [Hl _]. split; by constructor.
Qed.

Lemma lookup_failures_after h m t now k u :
  chronological (h ++ [(m, t)]) → t = now →
  failures_after (h ++ [(m, t)]) !! k = Some u ↔
  last_failure k (h ++ [(m, t)]) = Some u ∧ now - _OUTAGE_WINDOW < u.
Proof.
  intros Hs ->. revert m now k u Hs. induction h as [|[m' t'] h IH] using rev_ind; intros m now k u Hs;
    unfold failures_after; rewrite fold_left_app; cbn [fold_left fst snd];
    unfold record_failure at 1, recent_failures at 1; rewrite map_lookup_filter_Some, lookup_insert_Some, last_failure_snoc; cbn [snd].
  - rewrite lookup_empty. case_decide; naive_solver.
  - fold (failures_after (h ++ [(m', t')])). apply chronological_snoc in Hs as [Hs Hf].
    rewrite IH by done. apply Forall_app in Hf as [_ Ht]. apply Forall_cons in Ht as [Ht _]. cbn in Ht.
    case_decide; [naive_solver|]. split; [naive_solver|]. intros [? ?]. split; [|done]. right. split_and!; [done|done|lia].
Qed.

Lemma outage_of_spec failures module t :
  failures !! module = Some t →
  is_Some (outage_of failures) ↔ ∃ other u, other ≠ module ∧ failures !! other = Some u.
Proof.
  intros Hm. unfold outage_of. rewrite sorted_strings_length, length_fmap, length_map_to_list.
  rewrite <-(insert_delete_id failures module t Hm) at 1. rewrite map_size_insert_None by apply lookup_delete_eq.
  destruct (Nat.leb_spec 2 (S (size (delete module failures)))) as [Hs|Hs].
  - split; [|by eexists]. intros _.
    destruct (decide (delete module failures = ∅)) as [Hd|Hd]; [by rewrite Hd, map_size_empty in Hs; lia|].
    apply map_choose in Hd as (other & u & Hl). apply lookup_delete_Some in Hl as [? ?]. eauto.
  - split; [by intros []|]. intros (other & u & Hne & Hl).
    assert (Hz : delete module failures = ∅) by (apply map_size_empty_inv; lia).
    assert (Hl' : delete module failures !! other = Some u) by (by rewrite lookup_delete_ne).
    by rewrite Hz, lookup_empty in Hl'.
Qed.

(** C25: a skipped tick counts as part of an outage across handlers exactly
    when another module's last skipped tick is less than a minute old, and the
    memory behind it never holds more than the modules that failed in the last
    minute. *)
Theorem outage_detected h module now :
  chronological (h ++ [(module, now)]) →
  let failures := failures_after (h ++ [(module, now)]) in
  (is_Some (outage_of failures) ↔
     ∃ other t, other ≠ module ∧ last_failure other h = Some t ∧ now - t < _OUTAGE_WINDOW) ∧
  ∀ m t, failures !! m = Some t ↔
    (m = module ∧ t = now) ∨ (m ≠ module ∧ last_failure m h = Some t ∧ now - t < _OUTAGE_WINDOW).
Proof.
  intros Hs failures.
  assert (Hl : ∀ m t, failures !! m = Some t ↔
    (m = module ∧ t = now) ∨ (m ≠ module ∧ last_failure m h = Some t ∧ now - t < _OUTAGE_WINDOW)).
  { intros m t. unfold failures. rewrite (lookup_failures_after _ _ _ now) by done. rewrite last_failure_snoc.
    case_decide as Hm.
    - split; [intros [[= <-] _]; by left|]. intros [[_ ->]|[? _]]; [|done]. split; [done|]. unfold _OUTAGE_WINDOW, us_second. lia.
    - split; [intros [? ?]; right; split_and!; [done|done|lia]|]. intros [[<- _]|(? & ? & ?)]; [done|]. split; [done|lia]. }
  split; [|exact Hl]. rewrite (outage_of_spec failures module now) by (apply Hl; by left).
  split.
  - intros (other & t & Hne & Ht). apply Hl in Ht as [[? _]|(_ & ? & ?)]; [done|]. eauto.
  - intros (other & t & Hne & Ht & Hw). exists other, t. split; [done|]. apply Hl. by right.
Qed.

(** ** Concrete ticks *)

Record tick_mem := MkTickMem { tm_state : TickState; tm_count : EmitterCount }.
#[local] Instance tm_state_lens : Lens tick_mem TickState := {
  lget := tm_state; lput c p := MkTickMem c (tm_count p); lget_lput c p := eq_refl }.
#[local] Instance tm_count_lens : Lens tick_mem EmitterCount := {
  lget := tm_count; lput c p := MkTickMem (tm_state p) c; lget_lput c p := eq_refl }.
#[local] Instance tick_clock : Clock Z := { clock w := w }.

Definition tick_start (down : bool) : st Z tick_mem :=
  St 0 (MkTickMem (MkTickState down ∅) (MkEmitterCount 0)) (StoreMem ∅ None) [].
Definition tick_spec : gmap string pv := {["serverUrl" := PStr "http://web"]}.

(** A tick whose server is unreachable. *)
Definition failing_tick : M Z tick_mem (option unit) :=
  run_oscm_tick tick_spec PNone "ns" "cr" "analysis_sla" (mret (MkApiClient true)) (λ _, mret tt)
    (λ _ _ _ _ _, raise (OpenStudioApiError "down")).

Lemma tick_outcome_witness :
  failures_of (failing_tick (tick_start false)).2 = {["analysis_sla" := 0]}.
Proof.
  epose proof (tick_outcome tick_spec PNone "ns" "cr" "analysis_sla" (mret (MkApiClient true)) (λ _, mret tt)
    (λ _ _ _ _ _, raise (A:=unit) (OpenStudioApiError "down")) _ (tick_start false) _ (failing_tick (tick_start false)).2
    eq_refl eq_refl eq_refl (surjective_pairing _)) as Q.
  destruct Q as (_ & _ & _ & _ & Hm). unfold failures_of. rewrite Hm.
  apply (bool_decide_unpack _). vm_compute; reflexivity.
Defined.

Lemma outage_detected_witness :
  is_Some (outage_of (failures_after [("analysis_sla", 0); ("worker_recycler", 30 * us_second)])).
Proof.
  apply (outage_detected [("analysis_sla", 0)] "worker_recycler" (30 * us_second)).
  - by repeat constructor.
  - exists "analysis_sla", 0. split_and!; [done|vm_compute; reflexivity|vm_compute; reflexivity].
Defined.

(** A CR whose Redis URL comes from a Secret reads as having none while idle. *)
Definition idle_spec : gmap string pv :=
  {["redisCredentials" := PDict {["secretRef" := PDict {["name" := PStr "openstudio-redis"; "key" := PStr "url"]}]}]}.

Lemma idle_posture_ignores_secret :
  let s' := (run_oscm_tick (R:=unit) idle_spec PNone "ns" "cr" "analysis_sla" (mret (MkApiClient true)) (λ _, mret tt)
    (λ _ _ _ _ _, mret tt) (tick_start false)).2 in
  MetricSet "REDIS_URL_SET" [("namespace", "ns"); ("name", "cr")] (MInt 0) ∈ log s' ∧
  is_Some (match from_spec idle_spec with Ok c => redis_secret_ref c | Raise _ => None end).
Proof. split; apply (bool_decide_unpack _); vm_compute; reflexivity. Qed.
