(* ===== verification/PruneEntrypoint.v ===== *)
(** * The storage pruner's process ([prune_entrypoint.py])

    One run of the CronJob: the wiring, the election, one retention tick, and
    the exit code. *)
From S2P Require Import Prelude PyValue Effects Logic PyTime Services Config KubeOps K8sApi StatusRecords StatusStore RestClient Url RedisClient ClientFactory AnalysisSla Archival Retention Events Singleton OscmTick.

Definition EVENT_SOURCE_COMPONENT := "openstudio-storage-pruner".
Definition CRD_VERSION := "v1alpha1".
Definition PRUNE_TICK_FAILURE_REASON_CR_LIST := "cr_list_failure".
Definition PRUNE_TICK_FAILURE_REASON_RUNTIME := "runtime_failure".
Definition PRUNE_TICK_FAILURE_REASON_REDIS_URL_EMPTY := "redis_url_empty".

(** [_SKIP_TICK_EXCEPTIONS] *)
Definition prune_skips (e : exn) : bool := skips_tick e || is_value_error e.

Definition tick_failed {W P} (reason : string) : M W P unit := inc "PRUNE_TICK_FAILURES_TOTAL" [("reason", reason)].

(** ** The Event emitter *)

(** [involved] *)
Definition involved_object (meta : pv) (namespace : string) : res (gmap string pv) :=
  name ← py_get meta "name";
  uid ← py_get meta "uid";
  let involved : gmap string pv :=
    {["apiVersion" := PStr (CRD_GROUP +:+ "/" +:+ CRD_VERSION); "kind" := PStr "OpenStudioClusterManager";
      "name" := PStr (str_or_empty name); "namespace" := PStr namespace]} in
  Ok (if truthy uid then <["uid" := PStr (py_str uid)]> involved else involved).

(** The nanosecond clock, read at the resolution of [clock]. *)
Definition event_body (involved : gmap string pv) (namespace event_type reason message : string) (t : Z) : pv :=
  PDict {["apiVersion" := PStr "v1"; "kind" := PStr "Event";
    "metadata" := PDict {["name" := PStr (py_str (dget involved "name") +:+ "." +:+
                            string_of (lower <$> chars reason) +:+ "." +:+ str_of_Z (1000 * t));
                          "namespace" := PStr namespace]};
    "involvedObject" := PDict involved; "type" := PStr event_type; "reason" := PStr reason;
    "message" := PStr message; "source" := PDict {["component" := PStr EVENT_SOURCE_COMPONENT]};
    "firstTimestamp" := iso_pv t; "lastTimestamp" := iso_pv t; "count" := PInt 1]}.

Section emitter.
Context {W P : Type} `{CoreV1Api W} `{Clock W}.

(** The [emit] closure: an Event that cannot be recorded is dropped. *)
Definition prune_emit (involved : gmap string pv) (namespace event_type reason message : string) : M W P unit :=
  t ← ask clock;
  try_except (create_namespaced_event namespace (event_body involved namespace event_type reason message t))
    (λ e, if is_api_exception e then Some (mret tt) else None).

Definition build_event_emitter (cr : pv) (namespace : string) : res (string → string → string → M W P unit) :=
  meta ← py_get cr "metadata";
  involved ← involved_object (py_or meta (PDict ∅)) namespace;
  Ok (prune_emit involved namespace).
End emitter.

(** ** The process *)

(** [cr.get("spec") or {}] as [OperatorConfig.from_spec] takes it *)
Definition config_of_cr (cr : pv) : res OperatorConfig :=
  spec ← py_get cr "spec";
  match py_or spec (PDict ∅) with
  | PDict m => from_spec m
  | v => Raise (AttributeError (type_name v +:+ " object has no attribute get"))
  end.

Definition cr_name_of (cr : pv) : res string :=
  m ← py_get cr "metadata"; n ← py_get (py_or m (PDict ∅)) "name"; Ok (str_or_empty n).

Definition redis_url_empty_warning (namespace name : string) : string :=
  "spec.redisUrl is empty on " +:+ namespace +:+ "/" +:+ name +:+ " (issues #116, #180). " +:+
  "Storage prune actor is a no-op until you set this field explicitly. The previous default exposed the kind-recipe " +:+
  "password `openstudio` and has been removed; helm-chart users should derive the URL from the Redis-secret KeyRef.".

(** Which of the API clients [main] was given. *)
Record GivenApis := MkGivenApis { given_custom : bool; given_batch : bool; given_core : bool }.

Section prune.
Context {W P : Type}.
Context `{CustomObjectsApi W} `{Entropy W} `{StatusEventSink W P} `{KeyOrder} `{HttpApi W} `{BatchV1Api W}.
Context `{CoreV1Api W} `{Clock W} `{KubeConfigApi W} `{Lens P K8sClients}.
(** [client_factory or get_openstudio_client]: of the configured URL. *)
Context (client_factory : pv → M W P OpenStudioClient).
Context (apis : GivenApis) (now : option Z).

Definition _list_crs (namespace : string) : M W P (list pv) :=
  resp ← list_namespaced_custom_object namespace;
  items ← of_res (items ← py_get resp "items"; py_iter (py_or items (PList [])));
  mret (filter (λ item, is_dict item = true) items).

(** The wiring: the missing clients, unless all were given. *)
Definition build_apis : M W P unit :=
  if given_custom apis && given_batch apis && given_core apis then mret tt
  else
    load_operator_kube_config load_incluster_config load_kube_config;;
    (if given_custom apis then mret tt else operator_custom_objects_api;; mret tt);;
    (if given_batch apis then mret tt else operator_batch_api;; mret tt);;
    (if given_core apis then mret tt else operator_core_api;; mret tt).

(** [except _SKIP_TICK_EXCEPTIONS]: the failure is counted, the exit code is 5. *)
Definition exit_on_skip {A} (m : M W P A) (k : A → M W P Z) : M W P Z :=
  r ← try_except (a ← m; mret (inl a))
        (λ e, if prune_skips e then Some (tick_failed PRUNE_TICK_FAILURE_REASON_RUNTIME;; mret (inr tt)) else None);
  match r with inl a => k a | inr _ => mret 5 end.

(** The guarded region: the client and the tick. *)
Definition prune_tick (namespace name : string) (config : OperatorConfig)
    (emit : string → string → string → M W P unit) : M W P RetentionTickResult :=
  client ← client_factory (server_url config);
  t ← match now with Some t => mret t | None => ask clock end;
  run_retention_tick client (MkStore namespace name) config t emit namespace.

(** From the elected CR to the exit code. *)
Definition prune_cr (namespace : string) (cr : pv) : M W P Z :=
  name ← of_res (cr_name_of cr);
  exit_on_skip (of_res (config_of_cr cr)) (λ config,
    if negb (truthy (server_url config)) then mret 0
    else
      emit ← of_res (build_event_emitter cr namespace);
      if negb (truthy (redis_url config)) then
        tick_failed PRUNE_TICK_FAILURE_REASON_REDIS_URL_EMPTY;;
        emit "Warning" "RedisURLEmpty" (redis_url_empty_warning namespace name);;
        mret 3
      else exit_on_skip (prune_tick namespace name config emit) (λ _, mret 0)).

(** The listing, and the election. *)
Definition prune_namespace (namespace : string) : M W P Z :=
  crs ← try_except (crs ← _list_crs namespace; mret (Some crs))
    (λ e, match e with
          | ApiException _ _ | ConfigException _ =>
              Some (tick_failed PRUNE_TICK_FAILURE_REASON_CR_LIST;; mret None)
          | _ => None
          end);
  match crs with
  | None => mret 4
  | Some crs =>
      active ← of_res (resolve_active_cr crs);
      match active with
      | None => mret 0
      | Some cr => prune_cr namespace cr
      end
  end.

(** [namespace] and [os.environ.get("POD_NAMESPACE")] *)
Definition main (namespace pod_namespace : option string) : M W P Z :=
  match (match namespace with Some n => Some n | None => pod_namespace end) with
  | None => mret 2
  | Some namespace =>
      if String.eqb namespace "" then mret 2
      else exit_on_skip build_apis (λ _, prune_namespace namespace)
  end.
End prune.
