(* ===== verification/Actions.v ===== *)
(** * Classes of actions

    The safety theorems bound what a tick can do.  [harmless] is the bound the
    dry-run mode promises: everything but the requests and API calls that
    change the user's cluster.  Reads, the operator's own status writes, Events
    and metrics are harmless. *)
From S2P Require Import Prelude PyValue Effects Logic Services StatusStore StatusStoreFacts RestClient RestClientSpec.

Definition harmless (a : action) : Prop :=
  match a with
  | HttpRequest m u _ _ => ¬ mutating_request m u
  | KubeDeletePod _ _ _ | KubePatchDeployment _ _ _ | KubeCreateJob _ _ | KubeDeleteJob _ _ _ => False
  | _ => True
  end.

Lemma read_action_harmless a : read_action a → harmless a.
Proof. by destruct a. Qed.

Lemma store_action_harmless self a : store_action self a → harmless a.
Proof. by destruct a. Qed.

(** The actions a run added to the log. *)
Definition new_actions {W P A} (m : M W P A) (s : st W P) : list action :=
  drop (length (log s)) (log (m s).2).

Lemma new_actions_emits {W P A} (m : M W P A) (Pa : action → Prop) s :
  within (emits Pa) m → Forall Pa (new_actions m s).
Proof. intros Hm. destruct (Hm s) as (l & L & HF). unfold new_actions. by rewrite L, drop_app_length. Qed.

(** A computation that stays within a class wherever [harmless] does. *)
Notation quiet m := (within (emits harmless) m).

Lemma store_quiet_harmless {W P} `{StatusEventSink W P} self (Pa : action → Prop) :
  (∀ a, harmless a → Pa a) →
  (∀ ns n r m, quiet (_emit_status_map_event ns n r m)) →
  StoreQuiet self Pa.
Proof.
  intros HP Hs. split.
  - intros a Ha. by eapply HP, store_action_harmless.
  - intros. eapply within_emits_weaken; [exact HP|apply Hs].
Qed.

(** ** Where an action of a run comes from *)

Notation grows m := (within (emits (λ _, True)) m).

Lemma emits_grows {W P A} (m : M W P A) Pa : within (emits Pa) m → grows m.
Proof. by apply within_emits_weaken. Qed.

Lemma new_actions_log {W P A} (m : M W P A) s : grows m → log (m s).2 = log s ++ new_actions m s.
Proof. intros Hm. destruct (Hm s) as (l & L & _). unfold new_actions. by rewrite L, drop_app_length. Qed.

Lemma new_actions_within {W P A} (m : M W P A) Pa s a : within (emits Pa) m → a ∈ new_actions m s → Pa a.
Proof. intros Hm Ha. pose proof (new_actions_emits m Pa s Hm) as HF. by eapply Forall_forall in HF. Qed.

Lemma new_actions_bind {W P A B} (m : M W P A) (f : A → M W P B) s a :
  grows m → (∀ b, grows (f b)) → a ∈ new_actions (m ≫= f) s →
  a ∈ new_actions m s ∨ ∃ b s1, m s = (Ok b, s1) ∧ a ∈ new_actions (f b) s1.
Proof.
  intros Hm Hf Ha. pose proof (new_actions_log m s Hm) as Lm. destruct (m s) as [[b|e] s1] eqn:E; simpl in Lm.
  - pose proof (new_actions_log (f b) s1 (Hf b)) as Lf. unfold new_actions in Ha.
    rewrite (bind_run m f s b s1 E), Lf, Lm, <-(assoc_L (++)), drop_app_length in Ha.
    apply elem_of_app in Ha as [?|?]; [by left|right; by exists b, s1].
  - left. unfold new_actions in *. by rewrite (bind_raise m f s e s1 E) in Ha; rewrite E.
Qed.

Lemma new_actions_nil {W P A} (r : A) (s : st W P) a : a ∈ new_actions (mret r) s → False.
Proof. unfold new_actions. simpl. rewrite drop_all. apply not_elem_of_nil. Qed.

Lemma new_actions_of_res {W P A B} (r : res A) (f : A → M W P B) s a :
  a ∈ new_actions (of_res r ≫= f) s → ∃ b, r = Ok b ∧ a ∈ new_actions (f b) s.
Proof.
  destruct r as [b|e]; [by exists b|]. unfold new_actions. simpl. rewrite drop_all.
  by intros ?%not_elem_of_nil.
Qed.

Lemma new_actions_ask {W P A B} (f : W → A) (k : A → M W P B) s a :
  a ∈ new_actions (ask f ≫= k) s → a ∈ new_actions (k (f (world s))) s.
Proof. done. Qed.

(** An action of a loop is an action of one iteration, run from the state the
    iterations before it reached. *)
Lemma new_actions_fold {W P A B} (f : B → A → M W P B) l b s a :
  (∀ b x, grows (f b x)) → a ∈ new_actions (fold_m f b l) s →
  ∃ l1 x l2 b' s', l = l1 ++ x :: l2 ∧ fold_m f b l1 s = (Ok b', s') ∧ a ∈ new_actions (f b' x) s'.
Proof.
  intros Hf. revert b s. induction l as [|x l IH]; intros b s Ha.
  { unfold new_actions in Ha. simpl in Ha. rewrite drop_all in Ha. by apply not_elem_of_nil in Ha. }
  simpl in Ha. apply new_actions_bind in Ha as [Ha|(b1 & s1 & E & Ha)].
  - exists [], x, l, b, s. by split_and!.
  - apply IH in Ha as (l1 & y & l2 & b' & s' & -> & E' & Ha). exists (x :: l1), y, l2, b', s'.
    split_and!; [done| |done]. simpl. by rewrite (bind_run _ _ s b1 s1 E).
  - apply Hf.
  - intros b1. apply within_fold_m; [apply _|]. intros. apply Hf.
Qed.
