(* ===== verification/MetricsServer.v ===== *)
(** * The metrics endpoint ([metrics.py], the server)

    The bearer gate in front of the exposition, and the start of the server
    with its record of the first attempt to bind.  Header and token are texts
    of characters below 256; the exposition, the file system and the sockets
    are arguments. *)
From S2P Require Import Prelude PyValue Effects Logic PyTime Services Url PyText Sha256 Archival.

Definition METRICS_PORT : Z := 9090.
Definition DEFAULT_METRICS_PORT : Z := METRICS_PORT.

(** ** The bearer token *)

(** [open_text]: the decoded file; an [OSError] when it cannot be opened or
    read, another exception when it is not UTF-8. *)
Definition _read_bearer_token (open_text : string → res text_chars) (token_file : string) : res (option text_chars) :=
  match open_text token_file with
  | Ok text => Ok (Some (strip_text text))
  | Raise (OSError _) => Ok None
  | Raise e => Raise e
  end.

Definition _bearer_authorized (header token : text_chars) : bool :=
  let '(scheme, _, presented) := partition 32 header in
  if negb (bool_decide (lower <$> scheme = chars "bearer")) then false
  else bool_decide (strip_text presented = token).

(** ** The gated application *)

Record request := MkRequest { path_info : option string; http_authorization : option text_chars }.
Record response := MkResponse { resp_status : string; resp_headers : list (string * string); resp_body : string }.

Definition plain (status body : string) (extra : list (string * string)) : response :=
  MkResponse status
    ([("Content-Type", "text/plain; charset=utf-8"); ("Content-Length", str_of_Z (Z.of_nat (String.length body)))] ++ extra)
    body.

Definition unauthorized : response :=
  plain "401 Unauthorized" ("Unauthorized" +:+ newline)
    [("WWW-Authenticate", "Bearer realm=" +:+ dquote +:+ "openstudio-operator-metrics" +:+ dquote)].

(** [_make_bearer_auth_wsgi_app(token_file)] around [inner]. *)
Definition bearer_app (inner : request → response) (open_text : string → res text_chars) (token_file : string)
    (environ : request) : res response :=
  let path := default "" (path_info environ) in
  if String.eqb path "/metrics" then
    token ← _read_bearer_token open_text token_file;
    let header := default [] (http_authorization environ) in
    match token with
    | None => Ok unauthorized
    | Some token =>
        if bool_decide (token = []) || negb (_bearer_authorized header token) then Ok unauthorized
        else Ok (inner environ)
    end
  else if String.eqb path "/healthz" then Ok (plain "200 OK" ("ok" +:+ newline) [])
  else Ok (plain "404 Not Found" ("Not Found" +:+ newline) []).

(** ** The server *)

(** [_started], [_active_port], [_bind_gauge_latched] *)
Record MetricsServer := MkMetricsServer { _started : bool; _active_port : option Z; _bind_gauge_latched : bool }.

Definition not_started : MetricsServer := MkMetricsServer false None false.

(** What one call meets: the environment variable, the file system and the
    outcome of the bind, with the token file the server is started with. *)
Record server_env := MkServerEnv {
  env_token_file : string;
  env_open_text : string → res text_chars;
  env_bind : string → Z → option string → res Z;
}.

Definition bound_gauge (addr : string) (port v : Z) : action :=
  MetricSet "METRICS_SERVER_BOUND" [("addr", addr); ("port", str_of_Z port)] (MInt v).

Section server.
Context {W P : Type} `{Lens P MetricsServer}.

(** The first attempt to bind is recorded, later ones are not. *)
Definition latch_bind (addr : string) (port v : Z) : M W P unit :=
  t ← get_part (C:=MetricsServer);
  when (negb (_bind_gauge_latched t))
    (act (bound_gauge addr port v);; put_part (MkMetricsServer (_started t) (_active_port t) true)).

Definition token_file_of (env : server_env) (token_file : option string) : option string :=
  let f := match token_file with
           | Some f => f
           | None => string_of (strip_text (chars (env_token_file env)))
           end in
  if String.eqb f "" then None else Some f.

(** The [try] block: the port the socket is bound to. *)
Definition bind_server (env : server_env) (addr : string) (port : Z) (token_file : option string) : res Z :=
  match token_file with
  | Some f => _read_bearer_token (env_open_text env) f;; env_bind env addr port (Some f)
  | None => env_bind env addr port None
  end.

Definition start_metrics_server (env : server_env) (port : option Z) (addr : string) (token_file : option string)
  : M W P (option Z) :=
  t ← get_part (C:=MetricsServer);
  if _started t then mret (_active_port t)
  else
    let bound_port := default DEFAULT_METRICS_PORT port in
    match bind_server env addr bound_port (token_file_of env token_file) with
    | Raise (OSError _) => latch_bind addr bound_port 0;; mret None
    | Raise e => raise e
    | Ok active =>
        latch_bind addr bound_port 1;;
        t ← get_part (C:=MetricsServer);
        put_part (MkMetricsServer true (Some active) (_bind_gauge_latched t));;
        mret (Some active)
    end.

Definition is_metrics_server_started : M W P bool := t ← get_part (C:=MetricsServer); mret (_started t).
End server.

(** ** What the gate lets through *)

(** A header that presents the token: a scheme [bearer], whatever its case, a
    space, and the token between optional spaces. *)
Definition presents (header token : text_chars) : Prop :=
  ∃ scheme c rest, header = scheme ++ c :: rest ∧ is_char 32 c = true ∧ Forall (λ x, is_char 32 x = false) scheme ∧
    lower <$> scheme = chars "bearer" ∧ strip_text rest = token.

Lemma break_spec p l : let '(a, b) := break p l in
  l = a ++ b ∧ Forall (λ x, p x = false) a ∧ match b with [] => True | c :: _ => p c = true end.
Proof.
  induction l as [|x l IH]; simpl; [done|]. destruct (p x) eqn:E; [done|]. destruct (break p l) as [a b].
  destruct IH as (-> & Ha & Hb). split_and!; [done|by constructor|done].
Qed.

Lemma break_unique p a c b : Forall (λ x, p x = false) a → p c = true → break p (a ++ c :: b) = (a, c :: b).
Proof. intros Ha Hc. induction Ha as [|x a Hx _ IH]; simpl; [by rewrite Hc|]. by rewrite Hx, IH. Qed.

Lemma authorized_iff header token : token ≠ [] → _bearer_authorized header token = true ↔ presents header token.
Proof.
  intros Ht. unfold _bearer_authorized, presents, partition. split.
  - pose proof (break_spec (is_char 32) header) as Hs. destruct (break (is_char 32) header) as [scheme rest].
    destruct Hs as (-> & Hsc & Hc). destruct rest as [|c rest]; cbn; destruct (bool_decide (lower <$> scheme = _)) eqn:El; try done;
      cbn; intros Hp%bool_decide_eq_true; [by subst token|]. apply bool_decide_eq_true in El. by exists scheme, c, rest.
  - intros (scheme & c & rest & -> & Hc & Hsc & Hl & Hr). rewrite break_unique by done. cbn.
    rewrite (bool_decide_eq_true_2 _ Hl). cbn. by apply bool_decide_eq_true.
Qed.

(** A request that may see the exposition. *)
Definition admitted_request (open_text : string → res text_chars) (token_file : string) (r : request) : Prop :=
  path_info r = Some "/metrics" ∧
  ∃ text, open_text token_file = Ok text ∧ strip_text text ≠ [] ∧ presents (default [] (http_authorization r)) (strip_text text).

(** C33: the gate leaks nothing: a request for /metrics that presents the present
    token of the file gets the exposition, and the answer to any other request
    does not depend on the exposition at all, whatever its path; a missing,
    unreadable or empty token file admits no one. *)
Theorem exposition_gated inner open_text token_file r :
  (admitted_request open_text token_file r → bearer_app inner open_text token_file r = Ok (inner r)) ∧
  (¬ admitted_request open_text token_file r →
     ∀ inner', bearer_app inner' open_text token_file r = bearer_app inner open_text token_file r).
Proof.
  unfold bearer_app, admitted_request. split.
  - intros (Hpath & text & Ho & Hne & Hp). rewrite Hpath. cbn. unfold _read_bearer_token. rewrite Ho. cbn.
    rewrite bool_decide_eq_false_2 by done. by rewrite (proj2 (authorized_iff _ _ Hne) Hp).
  - intros Hn inner'. destruct (String.eqb_spec (default "" (path_info r)) "/metrics") as [Hpath|]; [|done].
    unfold _read_bearer_token. destruct (open_text token_file) as [text|e] eqn:Ho; [|by destruct e]. cbn.
    destruct (bool_decide (strip_text text = [])) eqn:Et; [done|]. apply bool_decide_eq_false in Et.
    destruct (_bearer_authorized _ _) eqn:Ea; [|done]. destruct Hn. split.
    + destruct (path_info r) as [p|]; simpl in *; [by subst|done].
    + exists text. split_and!; [done..|]. by apply authorized_iff.
Qed.

(** ** The record of the first bind *)

Section starts.
Context {W P : Type} `{Lens P MetricsServer}.
Implicit Types s : st W P.

(** A call with what it meets. *)
Record start_call := MkStartCall {
  sc_env : server_env; sc_port : option Z; sc_addr : string; sc_token_file : option string }.

Definition run_start (c : start_call) : M W P (option Z) :=
  start_metrics_server (sc_env c) (sc_port c) (sc_addr c) (sc_token_file c).

(** The calls of a process, one after the other, whatever they raise. *)
Definition run_starts (cs : list start_call) s : st W P := fold_left (λ s c, (run_start c s).2) cs s.

Definition call_port (c : start_call) : Z := default DEFAULT_METRICS_PORT (sc_port c).

(** The bind a call would get: a port, refused, or no attempt recorded. *)
Definition outcome (c : start_call) : option (option Z) :=
  match bind_server (sc_env c) (sc_addr c) (call_port c) (token_file_of (sc_env c) (sc_token_file c)) with
  | Ok p => Some (Some p)
  | Raise (OSError _) => Some None
  | Raise _ => None
  end.

Definition recorded (c : start_call) : option action :=
  (λ o, bound_gauge (sc_addr c) (call_port c) (if opt_is_some o then 1 else 0)) <$> outcome c.

Definition first_recorded (cs : list start_call) : option action := head (omap recorded cs).
Definition first_port (cs : list start_call) : option Z := head (omap (λ c, outcome c ≫= id) cs).

(** The effect of one call on the state of the server and on the gauge. *)
Definition server_after (c : start_call) (t : MetricsServer) : MetricsServer :=
  if _started t then t
  else match outcome c with
       | None => t
       | Some (Some n) => MkMetricsServer true (Some n) true
       | Some None => MkMetricsServer false (_active_port t) true
       end.

Lemma latch_bind_run addr port v s : ∃ s1, latch_bind addr port v s = (Ok tt, s1) ∧
  lget (mem s1) = MkMetricsServer (_started (lget (mem s))) (_active_port (lget (mem s))) true ∧
  log s1 = log s ++ (if _bind_gauge_latched (lget (mem s)) then [] else [bound_gauge addr port v]).
Proof.
  unfold latch_bind. rewrite (bind_run (get_part (C:=MetricsServer)) _ s (lget (mem s)) s eq_refl).
  destruct (lget (mem s)) as [started active []] eqn:Et; cbn; eexists; (split; [reflexivity|]); cbn.
  - by rewrite Et, app_nil_r.
  - by rewrite lget_lput.
Qed.

Lemma run_start_spec c s :
  let t := lget (mem s) in
  lget (mem (run_start c s).2) = server_after c t ∧
  log (run_start c s).2 = log s ++ (if _started t || _bind_gauge_latched t then [] else option_list (recorded c)).
Proof.
  cbv zeta. unfold run_start, start_metrics_server, server_after, recorded, outcome, call_port.
  rewrite (bind_run (get_part (C:=MetricsServer)) _ s (lget (mem s)) s eq_refl).
  destruct (lget (mem s)) as [started active latched] eqn:Et. cbn [_started _bind_gauge_latched _active_port].
  destruct started; [cbn; by rewrite Et, app_nil_r|]. cbn [orb].
  destruct (bind_server _ _ _ _) as [n|e]; [|destruct e; try (cbn; rewrite Et; by destruct latched; rewrite ?app_nil_r)].
  - destruct (latch_bind_run (sc_addr c) (default DEFAULT_METRICS_PORT (sc_port c)) 1 s) as (s1 & E1 & Et1 & El1).
    rewrite Et in *. rewrite (bind_run _ _ s tt s1 E1), (bind_run (get_part (C:=MetricsServer)) _ s1 _ s1 eq_refl), Et1.
    unfold put_part, modify_mem, get_mem, set_mem, mbind, M_bind. cbn. by rewrite lget_lput, El1.
  - destruct (latch_bind_run (sc_addr c) (default DEFAULT_METRICS_PORT (sc_port c)) 0 s) as (s1 & E1 & Et1 & El1).
    rewrite Et in *. rewrite (bind_run _ _ s tt s1 E1). cbn. by rewrite Et1, El1.
Qed.

(** The bind gauge tells the outcome of the first attempt for ever: over any
    sequence of starts in a process, whatever each of them meets, one gauge is
    written, for the first attempt that binds or is refused, and no later
    attempt changes it; the port in use is that of the first success, which
    every later call returns without a second server. *)
Theorem bind_recorded_once cs s :
  lget (mem s) = not_started →
  lget (mem (run_starts cs s)) =
    MkMetricsServer (opt_is_some (first_port cs)) (first_port cs) (opt_is_some (first_recorded cs)) ∧
  log (run_starts cs s) = log s ++ option_list (first_recorded cs) ∧
  ∀ c p, first_port cs = Some p → (run_start c (run_starts cs s)).1 = Ok (Some p).
Proof.
  intros Hs. assert (Hinv : lget (mem (run_starts cs s)) =
      MkMetricsServer (opt_is_some (first_port cs)) (first_port cs) (opt_is_some (first_recorded cs)) ∧
    log (run_starts cs s) = log s ++ option_list (first_recorded cs) ∧
    (is_Some (first_port cs) → is_Some (first_recorded cs))).
  { induction cs as [|c cs IH] using rev_ind; [cbn; rewrite Hs, app_nil_r; split_and!; [done..|by intros []]|].
    destruct IH as (Et & El & Hp). unfold run_starts in *. rewrite fold_left_app. cbn [fold_left].
    destruct (run_start_spec c (fold_left (λ s c, (run_start c s).2) cs s)) as [-> ->]. rewrite Et, El.
    unfold first_port, first_recorded in *. rewrite !omap_app. revert Hp.
    generalize (omap (λ c, outcome c ≫= id) cs) (omap recorded cs). intros ps gs Hp.
    unfold server_after. cbn. unfold recorded.
    destruct ps as [|p ps]; [|destruct (Hp (ex_intro _ p eq_refl)) as [g Hg]]; (destruct gs as [|g' gs]; [try done|]);
      destruct (outcome c) as [[n|]|]; cbn; rewrite ?app_nil_r; split_and!; try done; by intros [].
  }
  destruct Hinv as (Et & El & _). split_and!; [done..|]. intros c p Hp. unfold run_start, start_metrics_server.
  rewrite (bind_run (get_part (C:=MetricsServer)) _ _ _ _ eq_refl). rewrite Et, Hp. done.
Qed.

(** A token file that is not UTF-8 takes the start down: only [OSError]s are
    caught. *)
Lemma undecodable_token_escapes env port addr f msg s :
  _started (lget (mem s)) = false → f ≠ "" → env_open_text env f = Raise (ValueError msg) →
  start_metrics_server env port addr (Some f) s = (Raise (ValueError msg), s).
Proof.
  intros Hs Hf Ho. unfold start_metrics_server, token_file_of. rewrite (bind_run (get_part (C:=MetricsServer)) _ s (lget (mem s)) s eq_refl), Hs.
  destruct (String.eqb_spec f ""); [done|]. unfold bind_server, _read_bearer_token. by rewrite Ho.
Qed.
End starts.

(** ** A concrete server *)

(** The port is taken at the first start and free at the second. *)
Definition demo_starts : list start_call :=
  let env bind := MkServerEnv EmptyString (λ _, Raise (OSError "no such file")) (λ _ _ _, bind) in
  [MkStartCall (env (Raise (OSError "address in use"))) None "0.0.0.0" None;
   MkStartCall (env (Ok 9091)) (Some 9091) "0.0.0.0" None].

Definition demo_server : st unit MetricsServer := St tt not_started (StoreMem ∅ None) [].

Lemma bind_recorded_once_witness :
  mem (run_starts demo_starts demo_server) = MkMetricsServer true (Some 9091) true ∧
  log (run_starts demo_starts demo_server) = [bound_gauge "0.0.0.0" 9090 0].
Proof.
  destruct (bind_recorded_once demo_starts demo_server ltac:(done)) as (Em & El & _). split; [exact Em|exact El].
Defined.
