(* ===== verification/AnalysisSlaSpec.v ===== *)
(** * The SLA monitor keeps its promises

    The per-anchor step against an abstract decision function, the dry-run
    guarantee, whom an escalation may evict, and the one-shot markers. *)
From S2P Require Import Prelude PyValue Effects Logic PyTime Services Config StatusRecords StatusStore StatusStoreFacts SimWorld StatusStoreSpec RestClient RestClientSpec Actions AnalysisSla.

(** ** The abstract decision *)

Inductive sla_decision := Retire | Leave | SoftStop | StopThenEscalate | Escalate.

Definition decide_anchor (grace max_runtime now : Z) (started : bool) (r : SoftStopRecord.t) : sla_decision :=
  let runtime := now - SoftStopRecord.issued_at r in
  if negb started then Retire
  else if opt_is_some (SoftStopRecord.escalated_at r) then Leave
  else if String.eqb (SoftStopRecord.outcome r) _OUTCOME_WATCHING && (max_runtime <? runtime) then SoftStop
  else if runtime <=? grace then Leave
  else if String.eqb (SoftStopRecord.outcome r) _OUTCOME_ISSUED then StopThenEscalate
  else Escalate.

Definition soft_stop_request (client : OpenStudioClient) (id : string) : action :=
  HttpRequest "GET" (_base client +:+ ("/analyses/" +:+ id +:+ "/soft_stop")) [] [].

Definition stop_request (client : OpenStudioClient) (id : string) : action :=
  HttpRequest "POST" (_base client +:+ ("/analyses/" +:+ id +:+ "/action")) [] [("analysis_action", "stop")].

(** What a decision allows on analysis [id] beyond the harmless. *)
Definition sla_allows (client : OpenStudioClient) (dry : bool) (namespace id : string) (d : sla_decision)
    (a : action) : Prop :=
  harmless a ∨
  (dry = false ∧
   match d with
   | Retire | Leave => False
   | SoftStop => a = soft_stop_request client id
   | StopThenEscalate => a = stop_request client id ∨ ∃ pod g, a = KubeDeletePod pod namespace g
   | Escalate => ∃ pod g, a = KubeDeletePod pod namespace g
   end).

Section sla.
Context {W P : Type}.
Context `{CustomObjectsApi W} `{Entropy W} `{StatusEventSink W P} `{KeyOrder} `{HttpApi W} `{CoreV1Api W}.
Context (client : OpenStudioClient) (store : Store) (config : OperatorConfig) (now : Z).
Context (emit : string → string → string → M W P unit) (namespace : string).
Context (pod_api : bool) (redis_client : option (RedisClientLike W P)).
Implicit Types s : st W P.

(** The collaborators the tick is given are quiet. *)
Class QuietCollaborators : Prop := {
  quiet_emit t r m : quiet (emit t r m);
  quiet_event_sink ns n r m : quiet (_emit_status_map_event (W:=W) (P:=P) ns n r m);
  quiet_redis redis id : redis_client = Some redis → quiet (workers_for_analysis redis id);
}.

Context `{!QuietCollaborators}.

Notation escalate := (_escalate_analysis store config now emit namespace pod_api redis_client).
Notation step := (grace_step client store config now emit namespace pod_api redis_client).
Notation dry := (config_flag (dry_run config)).

Section bounds.
Context (Pa : action → Prop) (HP : ∀ a, harmless a → Pa a).

Lemma store_bound : StoreQuiet store Pa.
Proof. apply (store_quiet_harmless store Pa HP), quiet_event_sink. Qed.

Lemma emit_bound t r m : within (emits Pa) (emit t r m).
Proof. eapply within_emits_weaken; [exact HP|apply quiet_emit]. Qed.

Lemma redis_bound redis id : redis_client = Some redis → within (emits Pa) (workers_for_analysis redis id).
Proof. intros Hr. eapply within_emits_weaken; [exact HP|by apply quiet_redis]. Qed.

Lemma read_bound a : read_action a → Pa a.
Proof. intros Ha. by apply HP, read_action_harmless. Qed.

Local Ltac bound :=
  pose proof store_bound; solve_within; try (apply emit_bound); try (by apply redis_bound); try (apply HP; done).

Lemma matched_bound id :
  within (emits Pa) (_resque_matched_worker_pods namespace pod_api redis_client id).
Proof.
  unfold _resque_matched_worker_pods. destruct redis_client as [redis|] eqn:Er; bound.
Qed.

Lemma escalate_bound id r :
  (dry = false → ∀ pod g, Pa (KubeDeletePod pod namespace g)) →
  within (emits Pa) (escalate id r).
Proof.
  intros Hdel. unfold _escalate_analysis. pose proof matched_bound.
  apply within_bind; [apply _|done|intros victims].
  apply within_bind; [apply _| |intros e].
  { apply within_fold_m; [apply _|]. intros e v _. unfold evict_one.
    destruct dry eqn:Ed; bound; by apply Hdel. }
  bound.
Qed.

Lemma soft_stop_bound id r :
  (dry = false → Pa (soft_stop_request client id)) →
  within (emits Pa) (issue_soft_stop client store config now emit id r).
Proof.
  intros Hreq. unfold issue_soft_stop. destruct dry eqn:Ed; simpl; [bound|].
  assert (within (emits Pa) (soft_stop_analysis (W:=W) (P:=P) client id)).
  { unfold soft_stop_analysis. apply within_bind; [apply _| |intros; solve_within].
    apply request_quiet. intros a Ha. destruct a; try done; try (by apply HP).
    destruct Ha as (-> & -> & -> & ->). by apply Hreq. }
  bound.
Qed.

Lemma issue_stop_bound id :
  (dry = false → Pa (stop_request client id)) →
  within (emits Pa) (issue_stop client store config now emit id).
Proof.
  intros Hreq. unfold issue_stop. destruct dry eqn:Ed; simpl; [bound|].
  assert (within (emits Pa) (stop_analysis (W:=W) (P:=P) client id)).
  { unfold stop_analysis. apply within_bind; [apply _| |intros; solve_within].
    apply request_quiet. intros a Ha. destruct a; try done; try (by apply HP).
    destruct Ha as (-> & -> & -> & ->). by apply Hreq. }
  bound.
Qed.

Lemma stop_stage_bound id :
  (dry = false → Pa (stop_request client id)) →
  within (emits Pa) (stop_before_escalation client store config now emit id).
Proof.
  intros Hreq. pose proof (issue_stop_bound id Hreq). unfold stop_before_escalation. bound.
Qed.

Lemma observe_bound anchors ids doc :
  within (emits Pa) (observe_analysis client store now anchors ids doc).
Proof.
  unfold observe_analysis, _status_is_started. pose proof read_bound.
  assert (∀ id, within (emits Pa) (get_analysis_status (P:=P) client id)) by (intros; by apply get_analysis_status_quiet).
  bound.
Qed.
End bounds.

Definition started_in (id : string) (ids : gset string) : bool := bool_decide (id ∈ ids).

(** The step does what its decision allows and no more. *)
Lemma step_bound grace max_runtime ids acc id r :
  within (emits (sla_allows client dry namespace id
    (decide_anchor grace max_runtime now (started_in id ids) r)))
    (step grace max_runtime ids acc (id, r)).
Proof.
  assert (HP : ∀ d a, harmless a → sla_allows client dry namespace id d a) by (intros d a Ha; by left).
  unfold grace_step, decide_anchor, started_in.
  pose proof (λ d, store_quiet_harmless store _ (HP d) quiet_event_sink) as Hstore.
  destruct (decide (id ∈ ids)) as [Hin|Hin].
  2: { rewrite (bool_decide_eq_true_2 (id ∉ ids)) by done. specialize (Hstore Retire).
       rewrite bool_decide_eq_false_2 by done. cbn [negb]. solve_within. }
  rewrite (bool_decide_eq_false_2 (id ∉ ids)) by tauto. rewrite (bool_decide_eq_true_2 (id ∈ ids)) by done. cbn [negb].
  destruct (opt_is_some (SoftStopRecord.escalated_at r)); [solve_within|].
  destruct (_ && _).
  { apply within_bind; [apply _| |intros []; solve_within].
    apply soft_stop_bound; [by apply HP|]. intros Hd. right. by split. }
  destruct (_ <=? grace); [solve_within|].
  destruct (String.eqb (SoftStopRecord.outcome r) _OUTCOME_ISSUED).
  - apply within_bind; [apply _|apply stop_stage_bound; [by apply HP|]|].
    { intros Hd. right. split; [done|]. by left. }
    intros stage. destruct stage; [solve_within|]. unfold escalate_step.
    apply within_bind; [apply _|apply escalate_bound; [by apply HP|]|intros; solve_within].
    intros Hd pod g. right. split; [done|]. right. by exists pod, g.
  - unfold escalate_step. apply within_bind; [apply _|apply escalate_bound; [by apply HP|]|intros; solve_within].
    intros Hd pod g. right. split; [done|]. by exists pod, g.
Qed.

Lemma allows_dry id d a : sla_allows client true namespace id d a → harmless a.
Proof. by intros [?|[? _]]. Qed.

(** A tick stays within whatever its decisions are allowed. *)
Lemma sla_tick_bound (Pa : action → Prop) :
  (∀ a, harmless a → Pa a) → (∀ id d a, sla_allows client dry namespace id d a → Pa a) →
  within (emits Pa) (run_sla_tick client store config now emit namespace pod_api redis_client).
Proof.
  intros HP Hallow. pose proof (store_quiet_harmless store Pa HP quiet_event_sink).
  unfold run_sla_tick. destruct (negb _); [solve_within|].
  pose proof (list_analyses_quiet (P:=P) Pa (read_bound Pa HP) client).
  pose proof (observe_bound Pa HP).
  assert (∀ ids, within (emits Pa) (_grace_and_escalate client store config now emit namespace pod_api redis_client ids)).
  { intros ids. unfold _grace_and_escalate.
    apply within_bind; [apply _|solve_within|intros grace].
    apply within_bind; [apply _|solve_within|intros max_runtime].
    apply within_bind; [apply _|solve_within|intros anchors].
    apply within_fold_m; [apply _|]. intros acc [id r] _.
    eapply within_emits_weaken; [|apply step_bound]. apply Hallow. }
  solve_within; by apply HP.
Qed.

Lemma tick_dry_quiet : dry = true →
  quiet (run_sla_tick client store config now emit namespace pod_api redis_client).
Proof.
  intros Hdry. apply sla_tick_bound; [done|]. intros id d a Ha. rewrite Hdry in Ha. by eapply allows_dry.
Qed.
End sla.

(** ** Whom an escalation evicts *)

Definition deleted_pod (a : action) : option string :=
  match a with KubeDeletePod p _ _ => Some p | _ => None end.

Section escalation.
Context {W P : Type}.
Context `{CustomObjectsApi W} `{Entropy W} `{StatusEventSink W P} `{KeyOrder} `{HttpApi W} `{CoreV1Api W}.
Context (client : OpenStudioClient) (store : Store) (config : OperatorConfig) (now : Z).
Context (emit : string → string → string → M W P unit) (namespace : string).
Context (pod_api : bool) (redis_client : option (RedisClientLike W P)).
Implicit Types s : st W P.

(** [pod] belongs to a worker Redis lists for the analysis and to a pod of the
    namespace. *)
Definition serves_analysis (id pod worker : string) s : Prop :=
  ∃ redis ws s1 pods w,
    redis_client = Some redis ∧ workers_for_analysis redis id s = (Ok ws, s1) ∧ worker ∈ ws ∧
    pod_name_for_worker redis worker = Some pod ∧
    list_pods_call namespace None (world s1) = (Ok pods, w) ∧ pod ∈ omap pod_name pods.

Lemma matched_run id s victims s' :
  _resque_matched_worker_pods namespace pod_api redis_client id s = (Ok victims, s') →
  ∀ v, v ∈ victims → serves_analysis id v.1 v.2 s.
Proof.
  unfold _resque_matched_worker_pods. destruct redis_client as [redis|] eqn:Er; [|done].
  rewrite bind_Ok. intros (ws & s1 & Ew & E). destruct ws as [|w0 ws]; [by injection E as <- <-; intros ? ?%not_elem_of_nil|].
  revert E. remember (w0 :: ws) as ws' eqn:Ews; clear Ews w0 ws.
  rewrite bind_Ok. intros (pods & s2 & Ep & [= <- <-]) [pod worker].
  rewrite list_elem_of_omap. intros (w & Hw & Hm).
  destruct (pod_name_for_worker redis w) as [p|] eqn:En; [|done]. cbn in Hm.
  case_bool_decide as Hc; [|done]. injection Hm as -> ->.
  rewrite elem_of_list_to_set, list_elem_of_filter in Hc. destruct Hc as [_ Hc].
  destruct pod_api; [|by injection Ep as <- <-; apply not_elem_of_nil in Hc].
  revert Ep. unfold observe_duration, finally, list_namespaced_pod, ext.
  destruct (list_pods_call namespace None (world s1)) as [[pods'|] w'] eqn:El; [|done].
  intros [= <- <-]. by eexists redis, _, s1, pods', w'.
Qed.

(** An eviction round attempts every victim once, in order, whatever
    deletions fail: the pods deleted or failed add up to the victims. *)
Theorem eviction_attempts_all grace victims e0 e s s' :
  fold_m (evict_one namespace false grace) e0 victims s = (Ok e, s') →
  (∃ l, log s' = log s ++ l ∧ omap deleted_pod l = victims.*1) ∧
  evicted_count e + failed_count e = evicted_count e0 + failed_count e0 + Z.of_nat (length victims).
Proof.
  revert e0 s. induction victims as [|v victims IH]; intros e0 s.
  { intros [= <- <-]. split; [|simpl; lia]. exists []. by rewrite app_nil_r. }
  simpl. rewrite bind_Ok. intros (e1 & s1 & E1 & E).
  apply IH in E as ((l & L & D) & C).
  assert (evicted_count e1 + failed_count e1 = evicted_count e0 + failed_count e0 + 1 ∧
    ∃ l1, log s1 = log s ++ l1 ∧ omap deleted_pod l1 = [v.1]) as [C1 (l1 & L1 & D1)].
  { revert E1. unfold evict_one, try_except, observe_duration, finally, delete_namespaced_pod, ext, mbind, M_bind, mret, M_ret.
    destruct (delete_pod_call _ _ _ _) as [[[]|exc] w]; simpl.
    - intros [= <- <-]. simpl. split; [lia|]. eexists. rewrite <-app_assoc. split; [done|done].
    - destruct (is_api_exception exc); [|done]. intros [= <- <-]. simpl. split; [lia|].
      eexists. rewrite <-app_assoc. split; [done|done]. }
  split; [|lia]. exists (l1 ++ l). rewrite L, L1, app_assoc, omap_app, D1, D. done.
Qed.

Section targets.
Context `{!QuietCollaborators emit redis_client}.

(** An escalation deletes only pods that run a worker of the analysis and
    are listed in the CR's namespace, with the configured grace, and none in
    dry-run. *)
Theorem escalation_targets id r s pod ns g :
  KubeDeletePod pod ns g ∈ new_actions (_escalate_analysis store config now emit namespace pod_api redis_client id r) s →
  config_flag (dry_run config) = false ∧ ns = namespace ∧
  g = (if config_flag (force_delete_on_escalation (analysis_policy config)) then Some 0 else None) ∧
  ∃ worker, serves_analysis id pod worker s.
Proof.
  unfold new_actions, _escalate_analysis.
  set (Pa := λ a, harmless a ∨ (config_flag (dry_run config) = false ∧ ∃ p worker, a = KubeDeletePod p namespace
    (if config_flag (force_delete_on_escalation (analysis_policy config)) then Some 0 else None) ∧
    serves_analysis id p worker s)).
  assert (HP : ∀ a, harmless a → Pa a) by (intros a Ha; by left).
  pose proof (store_quiet_harmless store Pa HP (quiet_event_sink emit redis_client)) as Hstore.
  enough (∃ l, log ((victims ← _resque_matched_worker_pods namespace pod_api redis_client id; _) s).2 = log s ++ l ∧
    Forall Pa l) as (l & -> & HF).
  { rewrite drop_app_length. intros Hin. destruct (proj1 (Forall_forall _ _) HF _ Hin) as [?|(Hd & p & w & Ha & Hs)]; [done|].
    injection Ha as -> -> ->. eauto. }
  pose proof (matched_bound store emit namespace pod_api redis_client Pa HP id s) as (l1 & L1 & F1).
  destruct (_resque_matched_worker_pods namespace pod_api redis_client id s) as [[victims|exc] s1] eqn:Em.
  2: { rewrite (bind_raise _ _ _ _ _ Em). by exists l1. }
  rewrite (bind_run _ _ _ _ _ Em). pose proof (matched_run _ _ _ _ Em) as Hv. simpl in L1.
  match goal with |- context [log (?m s1).2] => assert (within (emits Pa) m) as Hm end.
  { apply within_bind; [apply _| |intros e; solve_within; try (apply HP; done)].
    - apply within_fold_m; [apply _|]. intros e [p w] Hin. apply Hv in Hin. unfold evict_one.
      destruct (config_flag (dry_run config)) eqn:Ed; [solve_within|].
      solve_within; try (apply HP; done). right. split; [done|]. by exists p, w.
    - eapply within_emits_weaken; [exact HP|apply (quiet_emit emit redis_client)]. }
  destruct (Hm s1) as (l2 & -> & F2). exists (l1 ++ l2). rewrite L1, app_assoc.
  split; [done|]. by apply Forall_app.
Qed.
End targets.
End escalation.

(** ** The tick *)

Section tick.
Context {W P : Type}.
Context `{CustomObjectsApi W} `{Entropy W} `{StatusEventSink W P} `{KeyOrder} `{HttpApi W} `{CoreV1Api W}.
Context (client : OpenStudioClient) (store : Store) (config : OperatorConfig) (now : Z).
Context (emit : string → string → string → M W P unit) (namespace : string).
Context (pod_api : bool) (redis_client : option (RedisClientLike W P)) `{!QuietCollaborators emit redis_client}.
Implicit Types s : st W P.

(** Dry-run: a tick with [spec.dryRun] set sends no request that changes
    the server and deletes no pod, on every path through it. *)
Theorem sla_dry_run_harmless s :
  config_flag (dry_run config) = true →
  Forall harmless (new_actions (run_sla_tick client store config now emit namespace pod_api redis_client) s).
Proof. intros Hd. by apply new_actions_emits, tick_dry_quiet. Qed.

(** C21: one anchor's step does what the abstract decision on its record allows:
    the soft stop only for a watching anchor over its runtime limit, the
    waiting stop only for an issued one past its grace, evictions only past
    grace and before the escalation marker, each only for this analysis, and
    nothing at all for an anchor that is retired, marked or within its limits. *)
Theorem sla_step_within_decision grace max_runtime ids acc id r s :
  Forall (sla_allows client (config_flag (dry_run config)) namespace id
      (decide_anchor grace max_runtime now (bool_decide (id ∈ ids)) r))
    (new_actions (grace_step client store config now emit namespace pod_api redis_client
       grace max_runtime ids acc (id, r)) s).
Proof. apply new_actions_emits, (step_bound client store config now emit namespace pod_api redis_client). Qed.
End tick.

Section markers.
Context {W P : Type}.
Context `{StatusServer W} `{Entropy W} `{StatusEventSink W P} `{KeyOrder} `{HttpApi W} `{CoreV1Api W}.
Context (client : OpenStudioClient) (store : Store) `{!SinkSpec (P:=P) store} (config : OperatorConfig) (now : Z).
Context (emit : string → string → string → M W P unit) (namespace : string).
Context (pod_api : bool) (redis_client : option (RedisClientLike W P)).
Implicit Types s : st W P.

(** REST calls leave the CR's status alone. *)
Lemma request_keeps_doc self method path params data :
  (∀ m u p d w, status_doc (http_call m u p d w).2 = status_doc w) →
  within (keeps (doc store)) (_request (P:=P) self method path params data).
Proof.
  intros Hhttp. unfold _request. apply within_finally_with; [apply _| |by intros b s0].
  generalize (S (_max_retries self)), 0, "". intros n. induction n as [|n IH]; intros a last; simpl.
  { apply within_raise, _. }
  apply within_bind; [apply _| |intros _].
  { apply within_when; [apply _|]. solve_within. }
  apply within_bind; [apply _| |intros r].
  - unfold send. apply within_try; [apply _| |intros e k; case_match; intros; simplify_eq; apply within_ret, _].
    apply within_bind; [apply _| |intros; apply within_ret, _].
    intros s0. unfold ext, keeps, doc. specialize (Hhttp method (_base self +:+ path) params data (world s0)).
    destruct (http_call _ _ _ _ _) as [x w]. simpl in *. by rewrite Hhttp.
  - destruct r as [e|x]; [apply IH|]. repeat case_match; first [apply within_ret; apply _|apply within_raise; apply _|apply IH].
Qed.

(** Escalation is one-shot: one that returns has left the marker with its
    time and outcome on the anchor, and an anchor with a marker is left alone
    by every later tick in which the analysis is still started. *)
Theorem escalation_leaves_marker id r s outcome s' :
  _escalate_analysis store config now emit namespace pod_api redis_client id r s = (Ok outcome, s') →
  (∃ e, map_of (doc store s') SOFT_STOPS !! id = Some (PDict e) ∧
     e !! "escalatedAt" = Some (iso_pv now) ∧ e !! "escalationOutcome" = Some (PStr outcome)) ∧
  ∀ grace max_runtime ids acc r' s2,
    SoftStopRecord.escalated_at r' = Some now → id ∈ ids →
    grace_step client store config now emit namespace pod_api redis_client grace max_runtime ids acc (id, r') s2
      = (Ok acc, s2).
Proof.
  intros E. split.
  - revert E. unfold _escalate_analysis. rewrite bind_Ok. intros (victims & s1 & _ & E).
    revert E. rewrite bind_Ok. intros (e & s2 & _ & E). revert E. rewrite bind_Ok. intros ([] & s3 & _ & E).
    destruct (eviction_failure e); [done|]. revert E. rewrite bind_Ok. intros ([] & s4 & _ & E).
    revert E. rewrite bind_Ok. intros ([] & s5 & E5 & [= <- <-]).
    by apply mark_escalated_marks in E5.
  - intros grace max_runtime ids acc r' s2 Hr Hin. unfold grace_step.
    by rewrite bool_decide_eq_false_2, Hr by tauto.
Qed.

(** The soft stop is one-shot: a step that issues it leaves the anchor with
    an outcome other than [watching], on which no later decision is a soft stop. *)
Theorem soft_stop_recorded id r s s' :
  field_ok (doc store s) SOFT_STOPS →
  issue_soft_stop client store config now emit id r s = (Ok tt, s') →
  (∀ t rs m, within (keeps (doc store)) (emit t rs m)) →
  (∀ m u p d w, status_doc (http_call m u p d w).2 = status_doc w) →
  (∃ e, map_of (doc store s') SOFT_STOPS !! id = Some (PDict e) ∧ e !! "outcome" = Some (PStr (issued_outcome config))) ∧
  ∀ grace max_runtime later started r', SoftStopRecord.outcome r' = issued_outcome config →
    decide_anchor grace max_runtime later started r' ≠ SoftStop.
Proof.
  intros Hok E Hemit Hhttp. split.
  - revert E. unfold issue_soft_stop. rewrite bind_Ok. intros ([] & s1 & E1 & E).
    assert (doc store s1 = doc store s) as D1.
    { assert (Hk : within (keeps (doc store)) (soft_stop_analysis (P:=P) client id)).
      { apply within_bind; [apply _|by apply request_keeps_doc|intros; apply within_ret, _]. }
      specialize (Hk s). destruct (negb _); simpl in E1; [|by injection E1 as <-].
      rewrite E1 in Hk. exact Hk. }
    revert E. rewrite bind_Ok. intros ([] & s2 & E2 & E). assert (doc store s2 = doc store s1) as D2.
    { match type of E2 with emit ?t ?c ?m _ = _ => specialize (Hemit t c m s1) end. by rewrite E2 in Hemit. }
    revert E. rewrite bind_Ok. intros ([] & s3 & E3 & E). injection E3 as <-.
    eapply (set_record_member store SOFT_STOPS id _ "outcome"); [| | |exact E]; [|done|done].
    unfold doc in *. simpl. by rewrite D2, D1.
  - intros grace max_runtime later started r' Hr. unfold decide_anchor. rewrite Hr. unfold issued_outcome.
    by repeat case_match.
Qed.
End markers.

(** ** Concrete ticks *)

#[local] Existing Instance sim_sink.

(** A server that lists one analysis, started. *)
Definition sla_http (method url : string) : res http_response :=
  if String.eqb url "http://web/analyses.json"
  then Ok (Response 200 "" (Ok (PList [PDict {["_id" := PStr "a1"]}])))
  else Ok (Response 200 "" (Ok (PDict {["analysis" := PDict {["status" := PStr "started"]}]}))).

Definition sla_world (anchor : SoftStopRecord.t) : sim :=
  Sim {[("ns", "cr") := {[SOFT_STOPS := PDict {["a1" := PDict (to_dict anchor)]}]}]} 0 (PDict ∅)
    [Pod (Some "worker-1") (Some "Running") []] ∅ ∅ ∅ sla_http (λ _, Raise (RedisError "down")).

Definition sla_config (dry : bool) : OperatorConfig :=
  MkOperatorConfig (PStr "http://web") (PStr "redis://r") None (PBool dry) (PStr "") (PStr "")
    (MkAnalysisPolicy (PInt 180) (PInt 15) (PBool true) (PBool false))
    (MkDatapointPolicy (PInt 45) (PInt 3)) (MkWorkerPolicy (PInt 12) (PBool true) (PInt 30))
    (MkWebBackgroundPolicy (PInt 10)) (MkStoragePolicy (PBool false) PNone PNone PNone (PInt 7) (PBool true)).

Definition sla_redis : RedisClientLike sim unit :=
  MkRedisClientLike (λ _, mret ["worker-1:12:*"]) (λ _, Some "worker-1").

#[export] Instance sim_quiet {P} : QuietCollaborators (P:=P) sim_emit None.
Proof.
  split.
  - intros. unfold sim_emit, kopf_event. solve_within; done.
  - intros. unfold _emit_status_map_event, sim_sink. solve_within; done.
  - done.
Qed.

#[local] Instance sla_quiet : QuietCollaborators sim_emit (Some sla_redis).
Proof.
  split; [apply sim_quiet|apply sim_quiet|]. intros redis id [= <-]. simpl. solve_within.
Qed.

Definition sla_tick (dry : bool) (anchor : SoftStopRecord.t) (minute : Z) : M sim unit SlaTickResult :=
  run_sla_tick (make_client "http://web") sim_store (sla_config dry) (minute * us_minute)
    sim_emit "ns" true (Some sla_redis).

Definition watching : SoftStopRecord.t := SoftStopRecord.Make 0 "watching" None None.
Definition sla_start (anchor : SoftStopRecord.t) : st sim unit := sim_start (sla_world anchor) tt.

Lemma sla_dry_run_harmless_witness : Forall harmless (new_actions (sla_tick true watching 200) (sla_start watching)).
Proof.
  apply (sla_dry_run_harmless (make_client "http://web") sim_store (sla_config true) (200 * us_minute)
    sim_emit "ns" true (Some sla_redis)). reflexivity.
Defined.

Lemma sla_step_within_decision_witness :
  Forall (sla_allows (make_client "http://web") false "ns" "a1"
      (decide_anchor (15 * us_minute) (180 * us_minute) (16 * us_minute) (bool_decide ("a1" ∈ ({["a1"]} : gset string))) watching))
    (new_actions (grace_step (make_client "http://web") sim_store (sla_config false) (16 * us_minute) sim_emit "ns" true
       (Some sla_redis) (15 * us_minute) (180 * us_minute) {["a1"]} (MkSlaTickResult [] [] []) ("a1", watching)) (sla_start watching)).
Proof.
  apply (sla_step_within_decision (make_client "http://web") sim_store (sla_config false) (16 * us_minute) sim_emit
    "ns" true (Some sla_redis)).
Defined.

Lemma escalation_targets_witness :
  ∃ worker, serves_analysis "ns" (Some sla_redis) "a1" "worker-1" worker (sla_start watching).
Proof.
  refine (proj2 (proj2 (proj2 (escalation_targets sim_store (sla_config false) 0 sim_emit "ns" true
    (Some sla_redis) "a1" watching (sla_start watching) "worker-1" "ns" None _)))).
  apply (bool_decide_unpack _). vm_compute. reflexivity.
Defined.

Lemma eviction_attempts_all_witness :
  (∃ l, log (fold_m (evict_one "ns" false None) (MkEviction 0 0 None) [("p1", "w1"); ("p2", "w2")]
       (sla_start watching)).2 = [] ++ l ∧ omap deleted_pod l = ["p1"; "p2"]) ∧ 2 + 0 = 0 + 0 + 2.
Proof.
  apply (eviction_attempts_all "ns" None [("p1", "w1"); ("p2", "w2")] (MkEviction 0 0 None)
    (MkEviction 2 0 None) (sla_start watching)). by vm_compute.
Defined.

Definition escalation_run :=
  _escalate_analysis sim_store (sla_config false) (20 * us_minute) sim_emit "ns" true (Some sla_redis) "a1"
    watching (sla_start watching).

Lemma escalation_leaves_marker_witness :
  ∃ e, map_of (doc sim_store escalation_run.2) SOFT_STOPS !! "a1" = Some (PDict e) ∧
    e !! "escalatedAt" = Some (iso_pv (20 * us_minute)) ∧ e !! "escalationOutcome" = Some (PStr "evicted").
Proof.
  refine (proj1 (escalation_leaves_marker (make_client "http://web") sim_store (sla_config false)
    (20 * us_minute) sim_emit "ns" true (Some sla_redis) "a1" watching (sla_start watching) "evicted" escalation_run.2 _)).
  by vm_compute.
Defined.

Definition soft_stop_run :=
  issue_soft_stop (make_client "http://web") sim_store (sla_config false) (200 * us_minute) sim_emit "a1"
    watching (sla_start watching).

Lemma soft_stop_recorded_witness :
  ∃ e, map_of (doc sim_store soft_stop_run.2) SOFT_STOPS !! "a1" = Some (PDict e) ∧
    e !! "outcome" = Some (PStr "issued").
Proof.
  refine (proj1 (soft_stop_recorded (make_client "http://web") sim_store (sla_config false) (200 * us_minute)
    sim_emit "a1" watching (sla_start watching) soft_stop_run.2 _ _ _ _)).
  - right. by eexists.
  - by vm_compute.
  - by intros t r m s.
  - done.
Defined.

(** With the default policy (maximum 180 minutes, grace 15) an analysis
    first seen 16 minutes ago, which has never been asked to stop, has its
    worker pod deleted: the tick escalates a [watching] anchor past the grace. *)
Theorem watching_anchor_escalated :
  KubeDeletePod "worker-1" "ns" None ∈ log (sla_tick false watching 16 (sla_start watching)).2 ∧
  soft_stop_request (make_client "http://web") "a1" ∉ log (sla_tick false watching 16 (sla_start watching)).2.
Proof. split; apply (bool_decide_unpack _); by vm_compute. Qed.

(** A stop that timed out is taken for completed on the next tick: the record
    is pruned and the escalation skipped, although the analysis still runs. *)
Definition timed_out : st sim unit :=
  sim_start (Sim {[("ns", "cr") := {[SOFT_STOPS := PDict {["a1" := PDict (to_dict (SoftStopRecord.Make 0 "issued" None None))]};
      STOPPED_ANALYSES := PDict {["a1" := PDict (to_dict (StopRecord.Make (200 * us_minute) "timeout" (Some (202 * us_minute))))]}]}]} 0 (PDict ∅)
    [Pod (Some "worker-1") (Some "Running") []] ∅ ∅ ∅ sla_http (λ _, Raise (RedisError "down"))) tt.

Lemma timed_out_stop_pruned :
  let r := sla_tick false watching 203 timed_out in
  r.1 = Ok (MkSlaTickResult [] [] []) ∧ map_of (doc sim_store r.2) STOPPED_ANALYSES = ∅.
Proof. by vm_compute. Qed.
