(* ===== verification/RetentionSpec.v ===== *)
(** * Retention deletes only what is verified

    The actions of a retention step are bounded by the state of the archival
    Job at that step; the cardinal rule of the whole tick is proved from the
    bounds of its steps. *)
From S2P Require Import Prelude PyValue Effects Logic PyTime Services Config StatusRecords StatusStore StatusStoreFacts SimWorld StatusStoreSpec RestClient RestClientSpec Actions AnalysisSla AnalysisSlaSpec Archival ArchivalSpec Retention.

Definition delete_request (client : OpenStudioClient) (id : string) : action :=
  HttpRequest "DELETE" (_base client +:+ ("/analyses/" +:+ id)) [] [].

(** ** The state of an archival Job *)

Section jobs.
Context {W : Type} `{BatchV1Api W} (namespace : string).

(** The answer the API gives in the world [w]. *)
Definition job_ended (condition name : string) (w : W) : Prop :=
  ∃ j, (read_job_call name namespace w).1 = Ok j ∧ _job_terminal_condition j = Some condition.

Definition job_absent (name : string) (w : W) : Prop :=
  ∃ reason, (read_job_call name namespace w).1 = Raise (ApiException 404 reason).

(** The upload of an analysis is verified: its record says so, or the Job the
    record names has completed. *)
Definition uploaded (record : ArchivedAnalysisRecord.t) (w : W) : Prop :=
  is_Some (ArchivedAnalysisRecord.verified_at record) ∨
  ∃ name, ArchivedAnalysisRecord.job_name record = Some name ∧ job_ended _JOB_COMPLETE name w.
End jobs.

Lemma terminal_condition_cases j c : _job_terminal_condition j = Some c → c = _JOB_COMPLETE ∨ c = _JOB_FAILED.
Proof.
  unfold _job_terminal_condition. intros Hc%head_Some_elem_of. apply list_elem_of_omap in Hc as ([[t|] [st|]] & _ & E);
    try done. destruct (String.eqb_spec t _JOB_COMPLETE), (String.eqb_spec t _JOB_FAILED); subst;
    rewrite ?andb_false_r, ?andb_true_r in E; repeat case_match; naive_solver.
Qed.

(** ** Eligibility *)

(** The usable completion time of a document: its update time, or its creation
    time when that is unusable. *)
Definition completes_at (m : gmap string pv) (t : Z) : Prop :=
  dget m "updated_at" = PDate t ∨ (∀ u, dget m "updated_at" ≠ PDate u) ∧ dget m "created_at" = PDate t.

Lemma completion_time_spec m :
  ∃ o, _completion_time (PDict m) = Ok o ∧ ∀ t, o = Some t ↔ completes_at m t.
Proof.
  unfold _completion_time, completes_at, py_get, mbind, res_bind.
  destruct (dget m "updated_at") eqn:Eu; try destruct (dget m "created_at") eqn:Ec;
    eexists; (split; [reflexivity|]); naive_solver.
Qed.

(** An analysis is due exactly when it is completed, has a usable completion
    time, and that time is at least the retention time ago, the boundary
    included. *)
Theorem eligible_iff m now retention :
  ∃ b, _eligible (PDict m) now retention = Ok b ∧
  (b = true ↔ py_eq (dget m "status") (PStr _COMPLETED) = true ∧
    ∃ t, completes_at m t ∧ t + retention <= now).
Proof.
  destruct (completion_time_spec m) as (o & E & Ho). unfold _eligible, is_completed. rewrite E.
  unfold py_get, mbind, res_bind. destruct (py_eq _ _); [|exists false; naive_solver].
  exists (match o with Some t => retention <=? now - t | None => false end). split; [done|].
  setoid_rewrite <-Ho. destruct o as [t|]; [rewrite Z.leb_le|]; split.
  - intros. split; [done|]. exists t. split; [done|lia].
  - intros (_ & ? & [= <-] & ?). lia.
  - done.
  - by intros (_ & ? & ? & ?).
Qed.

Lemma due_of_spec tracked now retention completed due id :
  due_of tracked now retention completed = Ok due → id ∈ due →
  id ∉ tracked ∧ ∃ doc, (id, doc) ∈ completed ∧ _eligible doc now retention = Ok true.
Proof.
  revert due. induction completed as [|[id' doc] l IH]; intros due E Hin; simpl in E.
  { injection E as <-. by apply not_elem_of_nil in Hin. }
  case_bool_decide as Ht; unfold mbind, res_bind in E.
  - destruct (due_of _ _ _ l) as [rest|] eqn:El; [|done]. injection E as <-.
    edestruct IH as (? & d & ? & ?); [done..|]. split; [done|]. exists d. split; [by right|done].
  - destruct (_eligible doc now retention) as [b|] eqn:Eb; [|done].
    destruct (due_of _ _ _ l) as [rest|] eqn:El; [|done]. injection E as <-.
    destruct b; [apply elem_of_cons in Hin as [->|Hin]|]; [split; [done|]; exists doc; split; [by left|done]| |];
    (edestruct IH as (? & d & ? & ?); [done..|]; split; [done|]; exists d; split; [by right|done]).
Qed.

(** ** The bounds *)

Section steps.
Context {W P : Type}.
Context `{CustomObjectsApi W} `{Entropy W} `{StatusEventSink W P} `{KeyOrder} `{HttpApi W} `{BatchV1Api W}.
Context (client : OpenStudioClient) (store : Store) (config : OperatorConfig) (now : Z).
Context (emit : string → string → string → M W P unit) (namespace : string).
Context `{!QuietCollaborators emit None}.
Implicit Types s : st W P.

Notation policy := (storage_policy config).
Notation dry := (config_flag (dry_run config)).
Notation purge := (config_flag (purge_completed_nfs_files policy)).

(** What a step over a tracked record may do, from the world [w]. *)
Definition reconcile_allows (completed : list (string * pv)) (id : string) (record : ArchivedAnalysisRecord.t)
    (w : W) (a : action) : Prop :=
  harmless a ∨
  (dry = false ∧ purge = true ∧ id ∈ completed.*1 ∧ uploaded namespace record w ∧ a = delete_request client id).

(** What a step over a due analysis may do. *)
Definition spawn_allows (id : string) (w : W) (a : action) : Prop :=
  let name := archival_job_name id in
  harmless a ∨
  (dry = false ∧
   ((purge = true ∧ job_ended namespace _JOB_COMPLETE name w ∧ a = delete_request client id) ∨
    (job_ended namespace _JOB_FAILED name w ∧ a = KubeDeleteJob name namespace "Foreground") ∨
    ((job_absent namespace name w ∨ job_ended namespace _JOB_FAILED name w) ∧
     ∃ ids manifest, build_archival_job id policy namespace ids = Ok manifest ∧
       a = KubeCreateJob namespace manifest))).

Section bounds.
Context (Pa : action → Prop) (HP : ∀ a, harmless a → Pa a).

Local Ltac bound :=
  pose proof (store_bound store emit None Pa HP);
  pose proof (emit_bound emit None Pa HP); solve_within; try (apply HP; done).

Lemma read_job_bound name : within (emits Pa) (_read_job (P:=P) namespace name).
Proof.
  unfold _read_job. apply within_try; [apply _|bound|].
  intros e k Hk. destruct e; try done. destruct (status =? 404); [|done]. injection Hk as <-. bound.
Qed.

Lemma clear_archived_bound id : within (emits Pa) (clear_archived_analysis (P:=P) store id).
Proof. unfold clear_archived_analysis. bound. Qed.

Lemma fail_archival_bound id detail : within (emits Pa) (_fail_archival store emit id detail).
Proof. pose proof (clear_archived_bound id). unfold _fail_archival. bound. Qed.

Lemma delete_verified_bound id record just :
  (dry = false → purge = true → Pa (delete_request client id)) →
  within (emits Pa) (_delete_verified client store config emit id record just).
Proof.
  intros Hdel. pose proof (clear_archived_bound id). unfold _delete_verified.
  destruct purge; simpl; [|bound]. destruct dry; [bound|].
  assert (within (emits Pa) (delete_analysis (W:=W) (P:=P) client id)).
  { unfold delete_analysis. apply within_bind; [apply _| |intros; solve_within].
    apply request_quiet. intros a Ha. destruct a; try done; try (by apply HP).
    destruct Ha as (-> & -> & -> & ->). by apply Hdel. }
  bound.
Qed.

Lemma announce_and_delete_bound id message record result :
  (dry = false → purge = true → Pa (delete_request client id)) →
  within (emits Pa) (announce_and_delete client store config emit id message record result).
Proof. intros Hdel. pose proof (λ r j, delete_verified_bound id r j Hdel). unfold announce_and_delete. bound. Qed.

Lemma set_archived_bound id record : within (emits Pa) (set_archived_analysis (P:=P) store id record).
Proof. unfold set_archived_analysis. bound. Qed.

Lemma verify_and_delete_bound id message record result :
  (dry = false → purge = true → Pa (delete_request client id)) →
  within (emits Pa) (verify_and_delete client store config emit id message record result).
Proof.
  intros Hdel. pose proof set_archived_bound. pose proof announce_and_delete_bound. unfold verify_and_delete. solve_within.
Qed.

Lemma start_archival_bound id payload result :
  (∀ ids manifest, dry = false → build_archival_job id policy namespace ids = Ok manifest →
    Pa (KubeCreateJob namespace manifest)) →
  within (emits Pa) (start_archival client store config now emit namespace id payload result).
Proof.
  intros Hc. unfold start_archival, ids_for, set_archived_analysis.
  pose proof (list_datapoints_quiet (P:=P) Pa (λ a Ha, HP a (read_action_harmless a Ha)) client).
  apply within_bind; [apply _|bound|]. intros [ids listing].
  apply within_of_res_bind; [apply _|]. intros manifest Hm.
  apply within_bind; [apply _| |intros; bound].
  destruct dry eqn:Ed; simpl; [bound|]. apply within_emits_ext. by eapply Hc.
Qed.
End bounds.

Lemma reads_bound Pa : (∀ a, harmless a → Pa a) → within (emits Pa) (tick_reads (P:=P) client store).
Proof.
  intros HP. pose proof (store_bound store emit None Pa HP).
  pose proof (list_analyses_quiet (P:=P) Pa (λ a Ha, HP a (read_action_harmless a Ha)) client).
  unfold tick_reads, get_archived_analyses. solve_within.
Qed.

(** What the answer to the read of a Job says of the world. *)
Lemma read_job_run name s found s1 :
  _read_job namespace name s = (Ok found, s1) →
  match found with
  | Some j => (read_job_call name namespace (world s)).1 = Ok j
  | None => job_absent namespace name (world s)
  end.
Proof.
  unfold _read_job, try_except, read_namespaced_job, ext, job_absent, mbind, M_bind, mret, M_ret.
  destruct (read_job_call name namespace (world s)) as [[j|e] w]; simpl; [by intros [= <- <-]|].
  destruct e; try done. destruct (status =? 404) eqn:E; [|done]. apply Z.eqb_eq in E as ->.
  intros [= <- <-]. by eexists.
Qed.

Notation step := (_reconcile_tracked client store config now emit namespace).
Notation spawn := (_spawn_archival client store config now emit namespace).

(** Where an action of a step that begins with the read of a Job comes from. *)
Lemma after_read {A} name (k : option job → M W P A) s a :
  (∀ found, grows (k found)) → a ∈ new_actions (_read_job namespace name ≫= k) s →
  harmless a ∨
  (job_absent namespace name (world s) ∧ ∃ s1, a ∈ new_actions (k None) s1) ∨
  ∃ j, (read_job_call name namespace (world s)).1 = Ok j ∧ ∃ s1, a ∈ new_actions (k (Some j)) s1.
Proof.
  intros Hk Ha. pose proof (read_job_bound harmless (λ a Ha, Ha) name) as Hr.
  apply new_actions_bind in Ha as [Ha|(found & s1 & E & Ha)]; [| |by eapply emits_grows|done].
  - left. by eapply new_actions_within.
  - right. apply read_job_run in E. destruct found as [j|]; [right|left]; eauto.
Qed.

Lemma reconcile_bound completed result id record s a :
  a ∈ new_actions (step completed result (id, record)) s → reconcile_allows completed id record (world s) a.
Proof.
  pose proof (clear_archived_bound harmless (λ a Ha, Ha) id) as Hclear.
  pose proof (fail_archival_bound harmless (λ a Ha, Ha) id) as Hfail.
  assert (Hq : ∀ {A} (m : M W P A), quiet m → a ∈ new_actions m s → reconcile_allows completed id record (world s) a).
  { intros A m Hm Ha. left. by eapply new_actions_within. }
  unfold _reconcile_tracked. case_bool_decide as Hid; [by apply Hq; solve_within|].
  destruct (ArchivedAnalysisRecord.verified_at record) as [t|] eqn:Ev; simpl.
  { apply new_actions_within, within_bind; [apply _| |intros; solve_within].
    apply delete_verified_bound; [by left|]. intros Hd Hp. right. split_and!; try done. left. by rewrite Ev. }
  destruct (ArchivedAnalysisRecord.job_name record) as [name|] eqn:En; [|destruct dry; apply Hq; solve_within].
  intros Ha. apply after_read in Ha as [Ha|[(_ & s1 & Ha)|(j & Hj & s1 & Ha)]]; [by left| | |].
  - left. eapply new_actions_within; [|exact Ha]. solve_within.
  - eapply new_actions_within; [|exact Ha]. set (Pa := reconcile_allows completed id record (world s)).
    assert (∀ a, harmless a → Pa a) as HP by (intros ? ?; by left).
    destruct (_job_terminal_condition j) as [c|] eqn:Ec; [|solve_within].
    destruct (String.eqb_spec c _JOB_FAILED) as [Hc|Hc].
    + eapply within_emits_weaken; [exact HP|]. solve_within.
    + apply verify_and_delete_bound; [exact HP|]. intros Hd Hp. right. split_and!; try done.
      right. exists name. split; [done|]. exists j. split; [done|].
      by destruct (terminal_condition_cases j c Ec) as [->|?].
  - pose proof (λ r m rec, verify_and_delete_bound (λ _, True) (λ _ _, I) id m rec r (λ _ _, I)).
    pose proof (λ d, fail_archival_bound (λ _, True) (λ _ _, I) id d). intros [j|]; solve_within.
Qed.

Lemma spawn_bound acc id s a :
  a ∈ new_actions (spawn acc id) s → spawn_allows id (world s) a.
Proof.
  destruct acc as [payload result]. unfold _spawn_archival. set (name := archival_job_name id).
  set (Pa := spawn_allows id (world s)). assert (∀ a, harmless a → Pa a) as HP by (intros ? ?; by left).
  pose proof (store_bound store emit None Pa HP).
  intros Ha. apply after_read in Ha as [Ha|[(Habs & s1 & Ha)|(j & Hj & s1 & Ha)]]; [by left| | |].
  - eapply new_actions_within; [|exact Ha]. apply start_archival_bound; [exact HP|].
    intros ids m Hd Hm. right. split; [done|]. right. right. eauto 6.
  - eapply new_actions_within; [|exact Ha].
    destruct (_job_terminal_condition j) as [c|] eqn:Ec; [|unfold set_archived_analysis; solve_within].
    destruct (String.eqb_spec c _JOB_COMPLETE) as [->|Hc].
    + apply within_bind; [apply _| |intros; solve_within]. apply verify_and_delete_bound; [exact HP|].
      intros Hd Hp. right. split; [done|]. left. split_and!; try done. by exists j.
    + assert (job_ended namespace _JOB_FAILED name (world s)) as Hf.
      { exists j. split; [done|]. by destruct (terminal_condition_cases j c Ec) as [?| ->]. }
      apply within_bind; [apply _|solve_within; by apply HP|intros _].
      apply within_bind; [apply _| |intros _].
      * destruct dry eqn:Ed; simpl; [solve_within|]. apply within_emits_ext. right. by eauto 6.
      * apply start_archival_bound; [exact HP|]. intros ids m Hd Hm. right. split; [done|]. right. right. eauto 8.
  - pose proof (λ m rec r, verify_and_delete_bound (λ _, True) (λ _ _, I) id m rec r (λ _ _, I)).
    pose proof (λ p r, start_archival_bound (λ _, True) (λ _ _, I) id p r (λ _ _ _ _, I)).
    pose proof (store_bound store emit None (λ _, True) (λ _ _, I)). unfold set_archived_analysis.
    intros [j|]; solve_within.
Qed.

(** ** The cardinal rule *)

Notation tick := (run_retention_tick client store config now emit namespace).
Notation reconciled completed := (reconcile_all client store config now emit namespace completed).
Notation spawned_all := (spawn_all client store config now emit namespace).

(** What a tick may do, and in which state of the world it may do it: the
    state a step over a tracked record, or over a due analysis, starts from. *)
Definition tick_allows s (a : action) : Prop :=
  harmless a ∨
  (config_flag (archive_to_s3 policy) = true ∧ policy_complete config = true ∧
   ∃ completed tracked s1, tick_reads client store s = (Ok (completed, tracked), s1) ∧
   ((∃ l1 id record l2 acc s2, tracked = l1 ++ (id, record) :: l2 ∧
       reconciled completed l1 s1 = (Ok acc, s2) ∧ reconcile_allows completed id record (world s2) a) ∨
    (∃ result s2 retention id doc d1 acc s3, reconciled completed tracked s1 = (Ok result, s2) ∧
       config_days (retention_days policy) = Ok retention ∧ (id, doc) ∈ completed ∧ id ∉ tracked.*1 ∧
       _eligible doc now retention = Ok true ∧
       spawned_all d1 result s2 = (Ok acc, s3) ∧ spawn_allows id (world s3) a))).

Lemma step_grows completed b x : grows (step completed b x).
Proof.
  destruct x as [id record].
  pose proof (store_bound store emit None (λ _, True) (λ _ _, I)).
  pose proof (clear_archived_bound (λ _, True) (λ _ _, I)). pose proof (fail_archival_bound (λ _, True) (λ _ _, I)).
  pose proof (λ r j, delete_verified_bound (λ _, True) (λ _ _, I) id r j (λ _ _, I)).
  pose proof (λ r m rec, verify_and_delete_bound (λ _, True) (λ _ _, I) id m rec r (λ _ _, I)).
  pose proof (read_job_bound (λ _, True) (λ _ _, I)). unfold _reconcile_tracked. solve_within.
Qed.

Lemma spawn_grows acc id : grows (spawn acc id).
Proof.
  destruct acc as [payload result].
  pose proof (store_bound store emit None (λ _, True) (λ _ _, I)). pose proof (read_job_bound (λ _, True) (λ _ _, I)).
  pose proof (λ r m rec, verify_and_delete_bound (λ _, True) (λ _ _, I) id m rec r (λ _ _, I)).
  pose proof (λ p r, start_archival_bound (λ _, True) (λ _ _, I) id p r (λ _ _ _ _, I)).
  pose proof (set_archived_bound (λ _, True) (λ _ _, I)). unfold _spawn_archival. solve_within.
Qed.

Lemma retention_tick_bound s a : a ∈ new_actions tick s → tick_allows s a.
Proof.
  pose proof step_grows as Hstep. pose proof spawn_grows as Hspawn.
  assert (∀ completed l, grows (reconciled completed l)) as Hrec by (intros; unfold reconcile_all; solve_within).
  assert (∀ d r, grows (spawned_all d r)) as Hall by (intros; unfold spawn_all; solve_within).
  unfold run_retention_tick.
  destruct (config_flag (archive_to_s3 policy)) eqn:Ea; simpl; [|by intros ?%new_actions_nil].
  destruct (policy_complete config) eqn:Ep; simpl; [|by intros ?%new_actions_nil].
  intros [Ha|([completed tracked] & s1 & E1 & Ha)]%new_actions_bind;
    [left; eapply new_actions_within; [by apply reads_bound|exact Ha]| |by apply reads_bound|intros [? ?]; solve_within].
  apply new_actions_bind in Ha as [Ha|(result & s2 & E2 & Ha)]; [| |done|intros; solve_within].
  - apply new_actions_fold in Ha as (l1 & [id record] & l2 & acc & s2 & -> & E2 & Ha); [|done].
    right. split_and!; [done..|]. eexists _, _, _. split; [exact E1|]. left.
    eexists _, _, _, _, _, _. split_and!; [done|exact E2|by eapply reconcile_bound].
  - apply new_actions_of_res in Ha as (retention & Er & Ha).
    apply new_actions_of_res in Ha as (due & Ed & Ha).
    apply new_actions_bind in Ha as [Ha|([payload r'] & s3 & E3 & Ha)]; [| |done|intros [? ?]; solve_within].
    + apply new_actions_fold in Ha as (d1 & id & d2 & acc & s3 & -> & E3 & Ha); [|done].
      assert (id ∉ tracked.*1 ∧ ∃ doc, (id, doc) ∈ completed ∧ _eligible doc now retention = Ok true) as (? & d & ? & ?).
      { eapply due_of_spec; [exact Ed|set_solver]. }
      right. split_and!; [done..|]. eexists _, _, _. split; [exact E1|]. right.
      exists result, s2, retention, id, d, d1, acc, s3. split_and!; try done. by eapply spawn_bound.
    + by apply new_actions_nil in Ha.
Qed.

(** C2: the cardinal rule of the storage pruner: every deletion a tick sends is
    for an analysis the listing reports as completed, outside dry run and with
    purging on, and the archival of that analysis is verified when its step
    begins: by its record, or by its Job, which the API then reports complete.
    A Job is created only for an analysis that is past its retention, has no
    record, and has no Job or one that failed. *)
Theorem deletes_only_verified s :
  Forall (tick_allows s) (new_actions tick s).
Proof. apply Forall_forall. intros a. apply retention_tick_bound. Qed.

(** C9: dry-run: a retention tick with [spec.dryRun] set creates and deletes no
    Job and no analysis. *)
Theorem retention_dry_run_harmless s : dry = true → Forall harmless (new_actions tick s).
Proof.
  intros Hd. apply Forall_forall. intros a Ha%retention_tick_bound. unfold tick_allows, reconcile_allows, spawn_allows in Ha.
  rewrite Hd in Ha. naive_solver.
Qed.

(** Without archival configured, or with an incomplete policy, the tick does
    nothing at all: no reads, no writes, no deletions. *)
Theorem retention_passive s :
  config_flag (archive_to_s3 policy) = false ∨ policy_complete config = false → tick s = (Ok no_result, s).
Proof. unfold run_retention_tick. intros [->| ->]; [done|]. by destruct (config_flag _). Qed.
End steps.

(** ** The status document *)

Section durable.
Context {W P : Type}.
Context `{StatusServer W} `{Entropy W} `{StatusEventSink W P} `{KeyOrder} `{HttpApi W} `{BatchV1Api W}.
Context (client : OpenStudioClient) (store : Store) `{!SinkSpec (P:=P) store} (config : OperatorConfig) (now : Z).
Context (emit : string → string → string → M W P unit) (namespace : string).
Context `{!QuietCollaborators emit None}.
Implicit Types s : st W P.

(** C18: crash safety: the verification is durable before the deletion is sent.
    Every action of the verified branch that is not harmless comes after the
    status document holds the time of the verification, so a process that dies
    after the deletion finds the analysis verified, never half archived. *)
Theorem verified_before_delete id message record t result s :
  field_ok (doc store s) ARCHIVED_ANALYSES → ArchivedAnalysisRecord.verified_at record = Some t →
  Forall (λ a, harmless a ∨
    ∃ s1 e, set_archived_analysis store id record s = (Ok tt, s1) ∧
      map_of (doc store s1) ARCHIVED_ANALYSES !! id = Some (PDict e) ∧ e !! "verifiedAt" = Some (iso_pv t) ∧
      a ∈ new_actions (announce_and_delete client store config emit id message record result) s1)
    (new_actions (verify_and_delete client store config emit id message record result) s).
Proof.
  intros Hok Hv. apply Forall_forall. intros a Ha. unfold verify_and_delete in Ha.
  apply new_actions_bind in Ha as [Ha|([] & s1 & E & Ha)].
  - left. eapply new_actions_within; [|exact Ha]. by apply (set_archived_bound store emit).
  - right. assert (Hm : to_dict record !! "verifiedAt" = Some (PStr (isoformat t))).
    { destruct record as [b bu v j sp]. simpl in Hv. subst v. by destruct j, sp. }
    assert (ARCHIVED_ANALYSES ≠ DEFERRED_EVENTS) as Hf by done.
    destruct (set_record_member store ARCHIVED_ANALYSES id record "verifiedAt" _ s s1 Hok Hf Hm E) as (e & He & Hk).
    exists s1, e. by split_and!.
  - by apply (set_archived_bound store emit (λ _, True)).
  - intros []. by apply (announce_and_delete_bound client store config emit (λ _, True)).
Qed.

Lemma py_eq_none v : py_eq v PNone = true → v = PNone.
Proof. unfold py_eq. rewrite bool_decide_eq_true. by destruct v. Qed.

(** A null write leaves nothing to read under the key. *)
Lemma clear_entry_run field key s s' :
  field_ok (doc store s) field → field ≠ DEFERRED_EVENTS →
  _set_map_entry store field key PNone s = (Ok tt, s') → dget (map_of (doc store s') field) key = PNone.
Proof.
  intros Hok Hf E. apply set_map_entry_run in E as (_ & -> & _); [|done..].
  unfold entry_after. destruct (py_eq (dget _ key) PNone) eqn:Ee; [by apply py_eq_none|].
  unfold evicts. rewrite bool_decide_eq_true_2 by done. simpl. unfold dget. by rewrite lookup_delete_eq.
Qed.

(** C19: a failed archival costs nothing: when the Job failed or is gone, the
    step sends nothing that changes the server, reports no deletion, and
    leaves no record, so that the analysis is due again at the next tick. *)
Theorem failed_archival_retained completed result id record name s s' result' :
  (∀ t r m, within (keeps (doc store)) (emit t r m)) →
  (∀ n ns w, status_doc (read_job_call n ns w).2 = status_doc w) →
  id ∈ completed.*1 → ArchivedAnalysisRecord.verified_at record = None →
  ArchivedAnalysisRecord.job_name record = Some name →
  job_absent namespace name (world s) ∨ job_ended namespace _JOB_FAILED name (world s) →
  field_ok (doc store s) ARCHIVED_ANALYSES →
  let m := _reconcile_tracked client store config now emit namespace completed result (id, record) in
  Forall harmless (new_actions m s) ∧
  (m s = (Ok result', s') → result' = result ∧ dget (map_of (doc store s') ARCHIVED_ANALYSES) id = PNone).
Proof.
  intros Hemit Hjob Hin Hv Hn Hw Hok m. split.
  { apply Forall_forall. intros a Ha. apply reconcile_bound in Ha; [|exact QuietCollaborators0].
    destruct Ha as [?|(_ & _ & _ & [[t Ht]|(n' & Hn' & j & Hj & Hc)] & _)]; [done| |].
    - congruence.
    - rewrite Hn in Hn'. injection Hn' as <-. unfold _JOB_COMPLETE in Hc.
      destruct Hw as [[r Hr]|(j' & Hj' & Hc')]; [|unfold _JOB_FAILED in Hc']; congruence. }
  subst m. unfold _reconcile_tracked. rewrite bool_decide_eq_false_2 by (by intros ?). rewrite Hv, Hn. cbn [opt_is_some].
  assert (Hfail : ∀ d s1, doc store s1 = doc store s →
    (_fail_archival store emit id d;; mret result) s1 = (Ok result', s') →
    result' = result ∧ dget (map_of (doc store s') ARCHIVED_ANALYSES) id = PNone).
  { intros d s1 Hd. rewrite bind_Ok. intros ([] & s2 & E & [= <- <-]). split; [done|].
    unfold _fail_archival in E. apply bind_Ok in E as ([] & s3 & E3 & E).
    eapply clear_entry_run; [|done|exact E]. rewrite (run_keeps _ _ _ _ _ (Hemit _ _ _) E3). by rewrite Hd. }
  rewrite bind_Ok. intros (found & s1 & E1 & E). pose proof (read_job_run _ _ _ _ _ E1) as Hf.
  assert (doc store s1 = doc store s) as Hd.
  { revert E1. unfold _read_job, try_except, read_namespaced_job, ext, mbind, M_bind, mret, M_ret.
    specialize (Hjob name namespace (world s)). unfold doc.
    destruct (read_job_call name namespace (world s)) as [[j|e] w]; [by intros [= <- <-]; simpl; rewrite <-Hjob|].
    destruct e; try done. destruct (_ =? _); [|done]. intros [= <- <-]. simpl. by rewrite <-Hjob. }
  destruct found as [j|]; [|by eapply Hfail].
  destruct Hw as [[r Hr]|(j' & Hj' & Hc')]; [congruence|]. assert (j = j') as -> by congruence.
  rewrite Hc' in E. simpl in E. by eapply Hfail.
Qed.
End durable.

(** ** A concrete lifecycle *)

#[local] Existing Instance sim_sink.

Definition archive_config (dry : bool) : OperatorConfig :=
  MkOperatorConfig (PStr "http://web") (PStr "redis://r") None (PBool dry) (PStr "") (PStr "")
    (MkAnalysisPolicy (PInt 180) (PInt 15) (PBool true) (PBool false))
    (MkDatapointPolicy (PInt 45) (PInt 3)) (MkWorkerPolicy (PInt 12) (PBool true) (PInt 30))
    (MkWebBackgroundPolicy (PInt 10))
    (MkStoragePolicy (PBool true) (PStr "s3") (PStr "bucket") (PStr "secret") (PInt 7) (PBool true)).

(** A server with one completed analysis, which has one datapoint. *)
Definition archive_http (method url : string) : res http_response :=
  if String.eqb url "http://web/analyses.json"
  then Ok (Response 200 "" (Ok (PList [PDict {["_id" := PStr "a1"; "status" := PStr "completed";
    "updated_at" := PStr "1970-01-01T00:00:00Z"]}])))
  else Ok (Response 200 "" (Ok (PList [PDict {["_id" := PStr "d1"; "analysis_id" := PStr "a1"]}]))).

Definition archive_world : sim :=
  Sim {[("ns", "cr") := ∅]} 0 (PDict ∅) [] ∅ ∅ ∅ archive_http (λ _, Raise (RedisError "down")).

Definition archive_client : OpenStudioClient := make_client "http://web".

Definition archive_tick (dry : bool) (day : Z) : M sim unit RetentionTickResult :=
  run_retention_tick archive_client sim_store (archive_config dry) (day * us_day) sim_emit "ns".

Definition archive_start : st sim unit := sim_start archive_world tt.

(** The state after the tick of day 8, when the Job has ended. *)
Definition job_ends (condition : string) (s : st sim unit) : st sim unit :=
  St (set_jobs {[archival_job_name "a1" := Job [(Some condition, Some "True")]]} (world s))
     (mem s) (shared s) (log s).

Definition spawned_state : st sim unit := (archive_tick false 8 archive_start).2.
Definition completed_state : st sim unit := job_ends _JOB_COMPLETE spawned_state.
Definition failed_state : st sim unit := job_ends _JOB_FAILED spawned_state.

(** The record of the analysis in flight. *)
Definition in_flight : ArchivedAnalysisRecord.t :=
  policy_record (archive_config false) (8 * us_day) (Some (archival_job_name "a1")) None.

(** The whole lifecycle on a concrete cluster: below the retention time
    nothing happens, then one Job is created, then, once it is complete, the
    analysis is deleted once and its record removed; had the Job failed, the
    analysis would have been kept. *)
Theorem archive_lifecycle :
  (archive_tick false 6 archive_start).1 = Ok no_result ∧
  (archive_tick false 8 archive_start).1 = Ok (MkRetentionTickResult ["a1"] [] []) ∧
  sim_jobs (world spawned_state) = {[archival_job_name "a1" := Job []]} ∧
  (archive_tick false 9 completed_state).1 = Ok (MkRetentionTickResult [] ["a1"] ["a1"]) ∧
  delete_request archive_client "a1" ∈ log (archive_tick false 9 completed_state).2 ∧
  map_of (doc sim_store (archive_tick false 9 completed_state).2) ARCHIVED_ANALYSES = ∅ ∧
  delete_request archive_client "a1" ∉ log (archive_tick false 9 failed_state).2.
Proof.
  repeat apply conj;
    lazymatch goal with
    | |- _ ∈ _ => apply (bool_decide_unpack _)
    | |- _ ∉ _ => apply (bool_decide_unpack _)
    | |- _ => idtac
    end; vm_compute; reflexivity.
Qed.

Lemma deletes_only_verified_witness :
  delete_request archive_client "a1" ∈ new_actions (archive_tick false 9) completed_state ∧
  Forall (tick_allows archive_client sim_store (archive_config false) (9 * us_day) sim_emit "ns" completed_state)
    (new_actions (archive_tick false 9) completed_state).
Proof.
  split; [apply (bool_decide_unpack _); vm_compute; reflexivity|].
  exact (deletes_only_verified archive_client sim_store (archive_config false) (9 * us_day) sim_emit "ns" completed_state).
Defined.

Lemma retention_dry_run_harmless_witness : Forall harmless (new_actions (archive_tick true 9) completed_state).
Proof.
  exact (retention_dry_run_harmless archive_client sim_store (archive_config true) (9 * us_day) sim_emit "ns"
    completed_state eq_refl).
Defined.

Lemma retention_passive_witness :
  run_retention_tick archive_client sim_store (sla_config false) (9 * us_day) sim_emit "ns" completed_state = (Ok no_result, completed_state).
Proof.
  exact (retention_passive archive_client sim_store (sla_config false) (9 * us_day) sim_emit "ns" completed_state
    (or_introl eq_refl)).
Defined.

Lemma verified_before_delete_witness :
  let m := verify_and_delete archive_client sim_store (archive_config false) sim_emit "a1" "archived"
    (mark_verified (9 * us_day) in_flight) no_result in
  delete_request archive_client "a1" ∈ new_actions m completed_state ∧
  (delete_request archive_client "a1" ∈ new_actions m completed_state →
   ∃ (s1 : st sim unit) e, map_of (doc sim_store s1) ARCHIVED_ANALYSES !! "a1" = Some (PDict e) ∧
     e !! "verifiedAt" = Some (iso_pv (9 * us_day))).
Proof.
  intros m. split; [apply (bool_decide_unpack _); vm_compute; reflexivity|]. intros Hin.
  pose proof (verified_before_delete archive_client sim_store (archive_config false) sim_emit "a1" "archived"
    (mark_verified (9 * us_day) in_flight) (9 * us_day) no_result completed_state) as HF.
  rewrite Forall_forall in HF. destruct (HF (ltac:(right; vm_compute; eauto)) eq_refl _ Hin) as [Hh|(s1 & e & _ & ? & ? & _)].
  - exfalso. apply Hh. left. discriminate.
  - by exists s1, e.
Defined.

Lemma failed_archival_retained_witness :
  dget (map_of (doc sim_store (_reconcile_tracked archive_client sim_store (archive_config false) (9 * us_day)
    sim_emit "ns" [("a1", PNone)] no_result ("a1", in_flight) failed_state).2) ARCHIVED_ANALYSES) "a1" = PNone.
Proof.
  refine (proj2 (proj2 (failed_archival_retained archive_client sim_store (archive_config false) (9 * us_day)
    sim_emit "ns" [("a1", PNone)] no_result "a1" in_flight (archival_job_name "a1") failed_state _ no_result
    _ _ _ _ _ _ _) _)).
  - by intros t r m s.
  - done.
  - by left.
  - done.
  - done.
  - right. eexists. split; [vm_compute; reflexivity|reflexivity].
  - right. vm_compute. eauto.
  - apply run_eq. vm_compute. reflexivity.
Defined.
