(* ===== verification/PruneSpec.v ===== *)
(** * One run of the storage pruner

    The exit codes, and the cardinal rule of the retention tick carried to the
    whole process: the election, the configuration and the Event emitter are
    those of the run itself. *)
From S2P Require Import Prelude PyValue Effects Logic PyTime Services Config KubeOps K8sApi StatusRecords StatusStore StatusStoreFacts SimWorld StatusStoreSpec RestClient RestClientSpec Url RedisClient ClientFactory Actions AnalysisSla AnalysisSlaSpec Archival Retention RetentionSpec Events Singleton OscmTick PruneEntrypoint.

(** The tail a failed run leaves in the log. *)
Definition failure_action (reason : string) : action := MetricInc "PRUNE_TICK_FAILURES_TOTAL" [("reason", reason)] 1.

Section prune.
Context {W P : Type}.
Context `{CustomObjectsApi W} `{Entropy W} `{StatusEventSink W P} `{KeyOrder} `{HttpApi W} `{BatchV1Api W}.
Context `{CoreV1Api W} `{Clock W} `{KubeConfigApi W} `{Lens P K8sClients}.
Context (client_factory : pv → M W P OpenStudioClient) (apis : GivenApis) (now : option Z).
Implicit Types s : st W P.

Notation run_main := (main client_factory apis now).
Notation run_cr := (prune_cr client_factory now).

(** ** Exit codes *)

Lemma exit_on_skip_run {A} (m : M W P A) k s r s' :
  exit_on_skip m k s = (r, s') →
  (∃ a s1, m s = (Ok a, s1) ∧ k a s1 = (r, s')) ∨
  (∃ e s1, m s = (Raise e, s1) ∧ prune_skips e = false ∧ r = Raise e ∧ s' = s1) ∨
  (∃ e s1, m s = (Raise e, s1) ∧ prune_skips e = true ∧ r = Ok 5 ∧
     s' = St (world s1) (mem s1) (shared s1) (log s1 ++ [failure_action PRUNE_TICK_FAILURE_REASON_RUNTIME])).
Proof.
  unfold exit_on_skip, try_except, mbind, M_bind, mret, M_ret.
  destruct (m s) as [[a|e] s1]; [intros E; left; by exists a, s1|].
  right. destruct (prune_skips e) eqn:Ee; [right|left]; exists e, s1; split_and!; naive_solver.
Qed.

(** What the end of the log says of the exit code. *)
Definition exit_trace (code : Z) s' : Prop :=
  (code = 0 ∨ code = 2) ∨
  (code = 5 ∧ last (log s') = Some (failure_action PRUNE_TICK_FAILURE_REASON_RUNTIME)) ∨
  (code = 4 ∧ last (log s') = Some (failure_action PRUNE_TICK_FAILURE_REASON_CR_LIST)) ∨
  (code = 3 ∧ ∃ l namespace body, log s' =
     l ++ [failure_action PRUNE_TICK_FAILURE_REASON_REDIS_URL_EMPTY; KubeCreateEvent namespace body]).

Lemma exit_on_skip_trace {A} (m : M W P A) k s code s' :
  (∀ a s1, k a s1 = (Ok code, s') → exit_trace code s') →
  exit_on_skip m k s = (Ok code, s') → exit_trace code s'.
Proof.
  intros Hk [(a & s1 & _ & E)|[(e & s1 & _ & _ & ? & _)|(e & s1 & _ & _ & [= ->] & ->)]]%exit_on_skip_run;
    [by eapply Hk|done|]. right. left. split; [done|]. simpl. by rewrite last_snoc.
Qed.

Lemma build_event_emitter_Ok cr namespace emit :
  build_event_emitter (W:=W) (P:=P) cr namespace = Ok emit → ∃ involved, emit = prune_emit involved namespace.
Proof.
  unfold build_event_emitter. intros (meta & _ & (involved & _ & [= <-])%res_bind_Ok)%res_bind_Ok. by exists involved.
Qed.

Lemma prune_cr_trace namespace cr s code s' : run_cr namespace cr s = (Ok code, s') → exit_trace code s'.
Proof.
  unfold prune_cr. rewrite bind_Ok. intros (name & s1 & _ & E). revert E. apply exit_on_skip_trace.
  intros config s2. destruct (negb (truthy (server_url config))); [intros [= <- _]; by left; left|].
  rewrite bind_Ok. intros (emit & s3 & [= Ee <-] & E). apply build_event_emitter_Ok in Ee as (involved & ->). revert E.
  destruct (negb (truthy (redis_url config))).
  - unfold prune_emit, tick_failed, inc, act, ask, try_except, create_namespaced_event, ext, mbind, M_bind, mret, M_ret.
    cbn. set (body := event_body _ _ _ _ _ _). destruct (create_event_call _ _ _) as [[[]|e] w]; cbn.
    + intros [= <- <-]. right. right. right. split; [done|]. exists (log s2), namespace, body. cbn. by rewrite <-app_assoc.
    + destruct (is_api_exception e); [|done]. intros [= <- <-]. right. right. right. split; [done|].
      exists (log s2), namespace, body. cbn. by rewrite <-app_assoc.
  - apply exit_on_skip_trace. intros r s3 [= <- _]. by left; left.
Qed.

(** A run that ends by itself exits with one of five codes, and a failure
    code comes with its counter: 5 with the runtime failure and 4 with the
    failed listing as the very last action, 3 with the empty Redis URL and its
    Event.  Codes 0 and 2 are idle, done, and the missing namespace. *)
Theorem exit_code_counted namespace env s code s' :
  run_main namespace env s = (Ok code, s') → exit_trace code s'.
Proof.
  unfold main. destruct (match namespace with Some n => Some n | None => env end) as [ns|];
    [|intros [= <- _]; by left; right].
  destruct (String.eqb ns ""); [intros [= <- _]; by left; right|].
  apply exit_on_skip_trace. intros [] s1. unfold prune_namespace, try_except.
  unfold mbind at 1, M_bind at 1. unfold mbind at 1, M_bind at 1.
  destruct (_list_crs ns s1) as [[crs|e] s2]; cbn [mret M_ret].
  - unfold of_res, mbind, M_bind. destruct (resolve_active_cr crs) as [[cr|]|]; [|intros [= <- _]; by left; left|done].
    apply prune_cr_trace.
  - destruct e; try done; cbn; intros [= <- <-]; right; right; left; (split; [done|]); simpl; by rewrite last_snoc.
Qed.

(** ** The cardinal rule of the process *)

(** The collaborators [main] is given are quiet. *)
Class QuietPrune : Prop := {
  prune_quiet_sink ns n r m : quiet (_emit_status_map_event (W:=W) (P:=P) ns n r m);
  prune_quiet_factory url : quiet (client_factory url);
}.
Context `{!QuietPrune}.

(** The emitter only records Events. *)
#[local] Instance prune_collaborators involved namespace : QuietCollaborators (prune_emit involved namespace) None.
Proof.
  split; [|apply prune_quiet_sink|done]. intros. unfold prune_emit. solve_within; try done.
  all: repeat case_match; simplify_eq; solve_within.
Qed.

Lemma exit_on_skip_actions {A} (m : M W P A) k s a :
  grows m → (∀ x, grows (k x)) → a ∈ new_actions (exit_on_skip m k) s →
  a ∈ new_actions m s ∨ harmless a ∨ ∃ x s1, m s = (Ok x, s1) ∧ a ∈ new_actions (k x) s1.
Proof.
  intros Hm Hk. pose proof (new_actions_log m s Hm) as Lm. unfold new_actions at 1.
  destruct (exit_on_skip m k s) as [r s'] eqn:E.
  apply exit_on_skip_run in E as [(x & s1 & E & Ek)|[(e & s1 & E & _ & _ & ->)|(e & s1 & E & _ & _ & ->)]];
    rewrite E in Lm; cbn [snd log] in *.
  - pose proof (new_actions_log (k x) s1 (Hk x)) as Lk. rewrite Ek in Lk. cbn in Lk.
    rewrite Lk, Lm, <-(assoc_L (++)), drop_app_length. intros [?|?]%elem_of_app; [by left|]. right. right. eauto.
  - rewrite Lm, drop_app_length. by left.
  - rewrite Lm, <-(assoc_L (++)), drop_app_length. intros [?|Ha]%elem_of_app; [by left|].
    apply list_elem_of_singleton in Ha as ->. by right; left.
Qed.

Lemma list_crs_quiet namespace : quiet (_list_crs (W:=W) (P:=P) namespace).
Proof. unfold _list_crs. solve_within; done. Qed.

Lemma build_apis_quiet : quiet (build_apis (W:=W) (P:=P) apis).
Proof.
  pose proof (λ slot strict, cached_api_emits (P:=P) harmless slot strict I).
  unfold build_apis, load_operator_kube_config, operator_custom_objects_api, operator_batch_api, operator_core_api.
  solve_within; try done.
Qed.

Lemma tick_grows client store config t emit namespace :
  QuietCollaborators emit None → grows (run_retention_tick (P:=P) client store config t emit namespace).
Proof.
  intros Hq. pose proof (reads_bound client store emit (λ _, True) (λ _ _, I)).
  pose proof (step_grows client store config t emit namespace). pose proof (spawn_grows client store config t emit namespace).
  unfold run_retention_tick, reconcile_all, spawn_all. solve_within.
Qed.

(** What the run may do for one elected CR, from the state [s]. *)
Definition prune_cr_allows (namespace : string) (cr : pv) s (a : action) : Prop :=
  harmless a ∨ ∃ name config involved client s1,
    cr_name_of cr = Ok name ∧ config_of_cr cr = Ok config ∧ truthy (server_url config) = true ∧
    truthy (redis_url config) = true ∧ client_factory (server_url config) s = (Ok client, s1) ∧
    tick_allows client (MkStore namespace name) config (default (clock (world s1)) now)
      (prune_emit involved namespace) namespace s1 a.

Lemma prune_tick_grows namespace name config involved :
  grows (prune_tick (P:=P) client_factory now namespace name config (prune_emit involved namespace)).
Proof.
  pose proof (λ u, emits_grows _ harmless (prune_quiet_factory u)). unfold prune_tick.
  apply within_bind; [apply _|done|intros client]. apply within_bind; [apply _|destruct now; solve_within|intros t].
  apply tick_grows, _.
Qed.

(** What follows the construction of the emitter. *)
Definition prune_with (namespace name : string) (config : OperatorConfig) (emit : string → string → string → M W P unit)
  : M W P Z :=
  if negb (truthy (redis_url config)) then
    tick_failed PRUNE_TICK_FAILURE_REASON_REDIS_URL_EMPTY;;
    emit "Warning" "RedisURLEmpty" (redis_url_empty_warning namespace name);; mret 3
  else exit_on_skip (prune_tick client_factory now namespace name config emit) (λ _, mret 0).

Lemma exit_on_skip_grows {A} (m : M W P A) k : grows m → (∀ x, grows (k x)) → grows (exit_on_skip m k).
Proof.
  intros Hm Hk. unfold exit_on_skip, tick_failed. apply within_bind; [apply _| |intros [x|]; [done|solve_within]].
  apply within_try; [apply _|solve_within|]. intros e h. destruct (prune_skips e); [|done]. intros [= <-]. solve_within.
Qed.

Lemma prune_with_grows namespace name config involved :
  grows (prune_with namespace name config (prune_emit involved namespace)).
Proof.
  pose proof (λ r m, emits_grows _ _ (quiet_emit (prune_emit involved namespace) None "Warning" r m)).
  unfold prune_with, tick_failed. destruct (negb _); [solve_within|].
  apply exit_on_skip_grows; [apply prune_tick_grows|intros; solve_within].
Qed.

Lemma prune_cr_grows namespace cr : grows (run_cr namespace cr).
Proof.
  unfold prune_cr. apply within_bind; [apply _|solve_within|intros name].
  apply exit_on_skip_grows; [solve_within|intros config]. destruct (negb _); [solve_within|].
  apply within_of_res_bind; [apply _|]. intros emit (involved & ->)%build_event_emitter_Ok. apply prune_with_grows.
Qed.

Lemma prune_cr_bound namespace cr s a : a ∈ new_actions (run_cr namespace cr) s → prune_cr_allows namespace cr s a.
Proof.
  unfold prune_cr. intros (name & En & Ha)%new_actions_of_res.
  apply exit_on_skip_actions in Ha as [Ha|[Hh|(config & s1 & [= Ec <-] & Ha)]]; [ |by left| | |].
  - unfold new_actions in Ha. simpl in Ha. rewrite drop_all in Ha. by apply not_elem_of_nil in Ha.
  - destruct (truthy (server_url config)) eqn:Eu; simpl in Ha; [|by apply new_actions_nil in Ha].
    apply new_actions_of_res in Ha as (emit & (involved & ->)%build_event_emitter_Ok & Ha).
    pose proof (quiet_emit (prune_emit (W:=W) (P:=P) involved namespace) None) as Hemit.
    destruct (truthy (redis_url config)) eqn:Er; simpl in Ha.
    + apply exit_on_skip_actions in Ha as [Ha|[Hh|(r & s2 & _ & Ha)]];
        [ |by left|by apply new_actions_nil in Ha|apply prune_tick_grows|intros; solve_within].
      unfold prune_tick in Ha. apply new_actions_bind in Ha as [Ha|(client & s2 & Ef & Ha)].
      * left. eapply new_actions_within; [apply prune_quiet_factory|exact Ha].
      * right. exists name, config, involved, client, s2. split_and!; try done. revert Ha.
        destruct now as [t|]; [apply retention_tick_bound, _|]. intros Ha%new_actions_ask. revert Ha. apply retention_tick_bound, _.
      * by eapply emits_grows, prune_quiet_factory.
      * intros client. apply within_bind; [apply _|destruct now; solve_within|intros t]. apply tick_grows, _.
    + left. eapply new_actions_within; [|exact Ha]. unfold tick_failed. solve_within.
  - solve_within.
  - intros config. destruct (negb _); [solve_within|].
    apply within_of_res_bind; [apply _|]. intros emit (involved & ->)%build_event_emitter_Ok. apply prune_with_grows.
Qed.

(** C6: the cardinal rule of the whole process: every action of a run that
    changes the user's system is one its retention tick may do (a deletion only
    of a verified analysis), for the configuration of the CR elected from this
    run's own listing, with a server and a Redis URL in its spec. *)
Theorem prune_run_safe namespace env s :
  Forall (λ a, harmless a ∨ ∃ ns s0 crs s1 cr,
    (match namespace with Some n => Some n | None => env end) = Some ns ∧ ns ≠ "" ∧
    build_apis apis s = (Ok tt, s0) ∧ _list_crs ns s0 = (Ok crs, s1) ∧ resolve_active_cr crs = Ok (Some cr) ∧
    prune_cr_allows ns cr s1 a)
    (new_actions (run_main namespace env) s).
Proof.
  apply Forall_forall. intros a. unfold main.
  destruct (match namespace with Some n => Some n | None => env end) as [ns|]; [|by intros ?%new_actions_nil].
  destruct (String.eqb_spec ns ""); [by intros ?%new_actions_nil|].
  assert (Hlist : quiet (try_except (crs ← _list_crs ns; mret (Some crs)) (λ e, match e with
      | ApiException _ _ | ConfigException _ => Some (tick_failed (W:=W) (P:=P) PRUNE_TICK_FAILURE_REASON_CR_LIST;; mret None)
      | _ => None end))).
  { pose proof (list_crs_quiet ns). unfold tick_failed. solve_within. }
  assert (Hns : ∀ crs, grows (match crs with
    | None => mret 4
    | Some crs => active ← of_res (resolve_active_cr crs); match active with None => mret 0 | Some cr => run_cr ns cr end end)).
  { pose proof prune_cr_grows. intros crs. solve_within. }
  intros Ha. apply exit_on_skip_actions in Ha as [Ha|[Hh|([] & s0 & Eb & Ha)]].
  - left. eapply new_actions_within; [apply build_apis_quiet|exact Ha].
  - by left.
  - unfold prune_namespace in Ha. apply new_actions_bind in Ha as [Ha|(crs & s1 & El & Ha)]; [| |by eapply emits_grows|done].
    { left. by eapply new_actions_within. }
    destruct crs as [crs|]; [|by apply new_actions_nil in Ha].
    apply new_actions_of_res in Ha as ([cr|] & Ec & Ha); [|by apply new_actions_nil in Ha].
    apply prune_cr_bound in Ha. right. exists ns, s0, crs, s1, cr. split_and!; try done.
    revert El. unfold try_except, mbind, M_bind, mret, M_ret. destruct (_list_crs ns s0) as [[l|e] s2]; [by intros [= -> ->]|].
    by destruct e.
  - by eapply emits_grows, build_apis_quiet.
  - intros []. unfold prune_namespace. apply within_bind; [apply _|by eapply emits_grows|done].
Qed.
End prune.

(** ** Concrete runs *)

#[local] Existing Instance sim_sink.

Definition prune_cr_object (redis_url : string) (redis_credentials : pv) : pv :=
  PDict {["metadata" := PDict {["name" := PStr "cr"; "namespace" := PStr "ns"; "uid" := PStr "u1"]};
          "spec" := PDict {["serverUrl" := PStr "http://web"; "redisUrl" := PStr redis_url;
            "redisCredentials" := redis_credentials;
            "storagePolicy" := PDict {["archiveToS3" := PBool true; "backend" := PStr "s3"; "bucket" := PStr "bucket";
              "secretRef" := PStr "secret"; "retentionDays" := PInt 7]}]}]}.

Definition secret_ref_object : pv :=
  PDict {["secretRef" := PDict {["name" := PStr "openstudio-redis"; "key" := PStr "url"]}]}.

Definition prune_world (cr : pv) : sim :=
  Sim {[("ns", "cr") := ∅]} 0 (PDict {["items" := PList [cr]]}) [] ∅ ∅ ∅ archive_http (λ _, Raise (RedisError "down")).

Definition prune_client (url : pv) : M sim K8sClients OpenStudioClient := mret (make_client (py_str url)).

Definition prune_main (day : Z) : M sim K8sClients Z :=
  main prune_client (MkGivenApis false false false) (Some (day * us_day)) None (Some "ns").

Definition prune_start (cr : pv) : st sim K8sClients := sim_start (prune_world cr) no_clients.

#[local] Instance prune_client_quiet : QuietPrune prune_client.
Proof.
  split; [|intros; unfold prune_client; solve_within].
  intros. unfold _emit_status_map_event, sim_sink. solve_within; done.
Qed.

(** The run past the retention time spawns the archival Job. *)
Definition prune_run : res Z * st sim K8sClients := prune_main 8 (prune_start (prune_cr_object "redis://r" PNone)).

Lemma exit_code_counted_witness : exit_trace 0 prune_run.2.
Proof.
  apply (exit_code_counted prune_client (MkGivenApis false false false) (Some (8 * us_day)) None (Some "ns")
    (prune_start (prune_cr_object "redis://r" PNone)) 0).
  apply run_eq. vm_compute. reflexivity.
Defined.

Lemma prune_run_safe_witness :
  Forall (λ a, harmless a ∨ ∃ ns s0 crs s1 cr,
    Some "ns" = Some ns ∧ ns ≠ "" ∧
    build_apis (MkGivenApis false false false) (prune_start (prune_cr_object "redis://r" PNone)) = (Ok tt, s0) ∧
    _list_crs ns s0 = (Ok crs, s1) ∧ resolve_active_cr crs = Ok (Some cr) ∧
    prune_cr_allows prune_client (Some (8 * us_day)) ns cr s1 a)
    (new_actions (prune_main 8) (prune_start (prune_cr_object "redis://r" PNone))).
Proof.
  exact (prune_run_safe prune_client (MkGivenApis false false false) (Some (8 * us_day)) None (Some "ns")
    (prune_start (prune_cr_object "redis://r" PNone))).
Defined.

(** The state of the log: which run creates a Job. *)
Definition creates_job (l : list action) : bool := existsb (λ a, match a with KubeCreateJob _ _ => true | _ => false end) l.

(** A CR whose Redis credentials come from a Secret only, as the spec allows,
    is refused with exit code 3 and never pruned, although nothing in the
    retention tick talks to Redis; the same CR with any URL is served. *)
Theorem secret_ref_only_not_pruned :
  (prune_main 8 (prune_start (prune_cr_object "" secret_ref_object))).1 = Ok 3 ∧
  creates_job (log (prune_main 8 (prune_start (prune_cr_object "" secret_ref_object))).2) = false ∧
  prune_run.1 = Ok 0 ∧ creates_job (log prune_run.2) = true.
Proof. repeat apply conj; vm_compute; reflexivity. Qed.
