(* ===== verification/DatapointWatchdogSpec.v ===== *)
(** * The datapoint watchdog keeps its promises

    Requeues stay within the budget and the dry-run mode, and an anchor ages
    out only after its id was absent for enough checks in a row. *)
From S2P Require Import Prelude PyValue Effects Logic PyTime Services Config StatusRecords StatusStore StatusStoreFacts SimWorld StatusStoreSpec RestClient RestClientSpec Actions AnalysisSla AnalysisSlaSpec DatapointWatchdog.

(** ** Debounce *)

Lemma bump_one_lookup live c k key :
  bump_one live c k !! key =
  if decide (k = key) then if decide (key ∈ live) then None else Some (default 0 (c !! key) + 1)
  else c !! key.
Proof.
  unfold bump_one. destruct (decide (k = key)) as [->|Hne].
  - destruct (decide (key ∈ live)).
    + by rewrite bool_decide_eq_true_2, lookup_delete_eq by done.
    + by rewrite bool_decide_eq_false_2, lookup_insert_eq by done.
  - case_bool_decide; by simplify_map_eq.
Qed.

Lemma bump_fold_lookup live l c key :
  NoDup l →
  foldl (bump_one live) c l !! key =
  if decide (key ∈ l) then if decide (key ∈ live) then None else Some (default 0 (c !! key) + 1)
  else c !! key.
Proof.
  revert c. induction l as [|k l IH]; intros c Hnd; cbn [foldl].
  { by rewrite decide_False by apply not_elem_of_nil. }
  apply NoDup_cons in Hnd as [Hk Hnd]. rewrite IH, bump_one_lookup by done.
  destruct (decide (k = key)) as [->|Hne].
  - rewrite (decide_False (P := key ∈ l)) by done. by rewrite (decide_True (P := key ∈ key :: l)) by left.
  - destruct (decide (key ∈ l)).
    + by rewrite (decide_True (P := key ∈ k :: l)) by (by right).
    + rewrite (decide_False (P := key ∈ k :: l)); [done|]. by intros [?|?]%elem_of_cons.
Qed.

Lemma lookup_bump_absences c tracked live key :
  _bump_absences c tracked live !! key =
  if decide (key ∈ tracked ∧ key ∉ live) then Some (default 0 (c !! key) + 1) else None.
Proof.
  unfold _bump_absences. rewrite map_lookup_filter, bump_fold_lookup by apply NoDup_elements.
  destruct (decide (key ∈ elements tracked)) as [Hin|Hin].
  - rewrite elem_of_elements in Hin. destruct (decide (key ∈ live)).
    + rewrite decide_False by tauto. done.
    + rewrite decide_True by done. simpl. by rewrite option_guard_True.
  - rewrite elem_of_elements in Hin. rewrite decide_False by tauto.
    destruct (c !! key); simpl; [|done]. by rewrite option_guard_False.
Qed.

(** The checks so far, most recent first: what was tracked and what was live. *)
Definition bump_all (views : list (gset string * gset string)) : gmap string Z :=
  foldr (λ v c, _bump_absences c v.1 v.2) ∅ views.

(** For how many checks in a row the key has been tracked and absent. *)
Fixpoint streak (views : list (gset string * gset string)) (key : string) : Z :=
  match views with
  | [] => 0
  | (tracked, live) :: views =>
      if decide (key ∈ tracked ∧ key ∉ live) then streak views key + 1 else 0
  end.

(** The counters count absences in a row, so an id is confirmed gone
    exactly when it was tracked and absent at each of the last three checks:
    one sighting, or one check at which it was not tracked, starts over. *)
Theorem bump_absences_counts_streak views key :
  default 0 (bump_all views !! key) = streak views key ∧
  (key ∈ confirmed_of (bump_all views) ↔ STATUS_ANCHOR_PRUNE_GONE_CONFIRMATIONS ≤ streak views key).
Proof.
  assert (Hs : ∀ views, default 0 (bump_all views !! key) = streak views key).
  { induction views0 as [|[tracked live] views' IH]; [done|]. simpl.
    rewrite lookup_bump_absences. cbn. rewrite IH. by case_decide. }
  split; [done|]. rewrite <-Hs. unfold confirmed_of. rewrite elem_of_dom, map_lookup_filter.
  unfold STATUS_ANCHOR_PRUNE_GONE_CONFIRMATIONS.
  destruct (bump_all views !! key) as [n|]; cbn; [|split; [by intros [? ?]|lia]].
  destruct (decide (3 <= n)).
  - rewrite option_guard_True by done. split; eauto.
  - rewrite option_guard_False by done. split; [by intros [? ?]|lia].
Qed.

(** ** One datapoint *)

Definition requeue_request (client : OpenStudioClient) (id : string) : action :=
  HttpRequest "POST" (_base client +:+ ("/data_points/" +:+ id +:+ "/requeue")) [] [].

(** When a requeue is due. *)
Definition requeue_due (config : OperatorConfig) (now max_runtime : Z) (since : option Z) (budget : Z) : Prop :=
  ∃ t n, since = Some t ∧ max_runtime < now - t ∧
    config_number (max_auto_requeues (datapoint_policy config)) = Ok n ∧ budget < n.

Section watchdog.
Context {W P : Type}.
Context `{CustomObjectsApi W} `{Entropy W} `{StatusEventSink W P} `{KeyOrder} `{SetOrder} `{HttpApi W}.
Context `{Lens P AnchorPruneState} `{Lens P ExhaustedSeen}.
Context (client : OpenStudioClient) (store : Store) (config : OperatorConfig) (now : Z).
Context (emit : string → string → string → M W P unit).
Context `{!QuietCollaborators emit None}.
Implicit Types s : st W P.

Notation dry := (config_flag (dry_run config)).

Definition requeue_allows (id : string) (due : Prop) (a : action) : Prop :=
  harmless a ∨ (dry = false ∧ due ∧ a = requeue_request client id).

Section bounds.
Context (Pa : action → Prop) (HP : ∀ a, harmless a → Pa a).

Local Ltac bound :=
  pose proof (store_bound store emit None Pa HP);
  pose proof (emit_bound emit None Pa HP);
  unfold get_part, put_part; solve_within; try (apply HP; done).

Lemma warn_bound id r b n : within (emits Pa) (warn_exhausted config emit id r b n).
Proof. unfold warn_exhausted. bound. Qed.

Lemma requeue_bound id r b :
  (dry = false → Pa (requeue_request client id)) →
  within (emits Pa) (requeue client store config now emit id r b).
Proof.
  intros Hreq. unfold requeue. destruct dry eqn:Ed; simpl; [bound|].
  assert (within (emits Pa) (requeue_datapoint (W:=W) (P:=P) client id)).
  { unfold requeue_datapoint. apply within_bind; [apply _| |intros; solve_within].
    apply request_quiet. intros a Ha. destruct a; try done; try (by apply HP).
    destruct Ha as (-> & -> & -> & ->). by apply Hreq. }
  bound.
Qed.

Lemma hygiene_bound ids : within (emits Pa) (_run_anchor_hygiene client store emit ids).
Proof.
  pose proof (list_datapoints_quiet (P:=P) Pa (λ a Ha, HP a (read_action_harmless a Ha)) client).
  pose proof (list_analyses_quiet (P:=P) Pa (λ a Ha, HP a (read_action_harmless a Ha)) client).
  unfold _run_anchor_hygiene, prune_confirmed. bound.
Qed.
End bounds.

Lemma zombie_step_bound max_runtime requeues started_since acc id :
  within (emits (requeue_allows id
    (requeue_due config now max_runtime (started_since !! id) (budget_of requeues id))))
    (zombie_step client store config now emit max_runtime requeues (started_since, acc) id).
Proof.
  set (Pa := requeue_allows id _). assert (HP : ∀ a, harmless a → Pa a) by (intros a Ha; by left).
  unfold zombie_step. destruct (started_since !! id) as [since|] eqn:Es; [|solve_within].
  destruct (now - since <=? max_runtime) eqn:Er; [solve_within|].
  apply within_of_res_bind; [apply _|]. intros n En. destruct (n <=? _) eqn:Eb.
  - apply within_bind; [apply _|by apply warn_bound|intros; solve_within].
  - apply within_bind; [apply _|apply requeue_bound; [done|]|intros; solve_within].
    intros Hd. right. split; [done|]. split; [|done]. exists since, n.
    apply Z.leb_gt in Er, Eb. by split_and!.
Qed.

(** A tick stays within whatever its steps are allowed. *)
Lemma watchdog_tick_bound (Pa : action → Prop) :
  (∀ a, harmless a → Pa a) → (∀ id, dry = false → Pa (requeue_request client id)) →
  within (emits Pa) (run_watchdog_tick client store config now emit).
Proof.
  intros HP Hreq.
  pose proof (store_bound store emit None Pa HP).
  pose proof (list_started_datapoints_quiet (P:=P) Pa (λ a Ha, HP a (read_action_harmless a Ha)) client).
  pose proof (hygiene_bound Pa HP).
  unfold run_watchdog_tick, get_part, put_part.
  assert (∀ ids m, within (emits Pa) (clear_departed (P:=P) store ids m)) by (intros; unfold clear_departed; solve_within).
  assert (∀ m id, within (emits Pa) (anchor_started (P:=P) store now m id)) by (intros; unfold anchor_started; solve_within).
  assert (∀ mr rq acc id, within (emits Pa) (zombie_step client store config now emit mr rq acc id)).
  { intros mr rq [m l] id. eapply within_emits_weaken; [|apply zombie_step_bound].
    intros a [?|(Hd & _ & ->)]; [by apply HP|by apply Hreq]. }
  solve_within; by apply HP.
Qed.

Lemma watchdog_dry_quiet : dry = true → quiet (run_watchdog_tick client store config now emit).
Proof. intros Hdry. apply watchdog_tick_bound; [done|congruence]. Qed.

(** Dry-run: a watchdog tick with [spec.dryRun] set requeues nothing and
    changes nothing on the server. *)
Theorem watchdog_dry_run_harmless s :
  dry = true → Forall harmless (new_actions (run_watchdog_tick client store config now emit) s).
Proof. intros Hd. by apply new_actions_emits, watchdog_dry_quiet. Qed.

(** C23: a datapoint's step requeues only when the datapoint has run longer than
    the limit since its anchor and its recorded budget is not spent, and then
    requeues that datapoint only. *)
Theorem requeue_only_when_due max_runtime requeues started_since acc id s :
  Forall (requeue_allows id (requeue_due config now max_runtime (started_since !! id) (budget_of requeues id)))
    (new_actions (zombie_step client store config now emit max_runtime requeues (started_since, acc) id) s).
Proof. apply new_actions_emits, zombie_step_bound. Qed.
End watchdog.

(** ** The durable budget *)

Lemma decoded_lookup {A} (g : string → pv → res A) l bs k :
  map_res (λ kv, r ← g kv.1 kv.2; Ok (kv.1, r)) l = Ok bs →
  ((list_to_map l : gmap string pv) !! k = None ∧ (list_to_map bs : gmap string A) !! k = None) ∨
  ∃ v r, (list_to_map l : gmap string pv) !! k = Some v ∧ g k v = Ok r ∧ (list_to_map bs : gmap string A) !! k = Some r.
Proof.
  intros HF%map_res_Ok. induction HF as [|[k1 v1] [k2 r] l bs Hx _ IH]; [by left|].
  apply res_bind_Ok in Hx as (r' & Hr & [= <- <-]). cbn in Hr. cbn [list_to_map foldr fst snd curry uncurry].
  destruct (decide (k1 = k)) as [->|Hne]; [right; exists v1, r'; by rewrite !lookup_insert_eq|].
  by rewrite !lookup_insert_ne.
Qed.

Lemma key_order_map `{KeyOrder} m : list_to_map (key_order m) = m.
Proof.
  rewrite (list_to_map_proper _ (map_to_list m)); [apply list_to_map_to_list| |apply key_order_perm].
  rewrite (fmap_Permutation fst _ _ (key_order_perm m)). apply NoDup_fst_map_to_list.
Qed.

Lemma py_int_norm v z : norm v = PInt z → PyInt.py_int v = Ok z.
Proof. destruct v; simpl; congruence. Qed.

Section budget.
Context {W P : Type}.
Context `{StatusServer W} `{Entropy W} `{StatusEventSink W P} `{KeyOrder} `{SetOrder} `{HttpApi W}.
Context `{Lens P AnchorPruneState} `{Lens P ExhaustedSeen}.
Context (client : OpenStudioClient) (store : Store) `{!SinkSpec (P:=P) store} (config : OperatorConfig) (now : Z).
Context (emit : string → string → string → M W P unit).
Implicit Types s : st W P.

(** Events and REST calls leave the status document alone. *)
Class KeepsDoc : Prop := {
  emit_keeps t rs m : within (keeps (doc store)) (emit t rs m);
  http_keeps m u p d (w : W) : status_doc (http_call m u p d w).2 = status_doc w;
}.
Context `{!KeepsDoc}.

Lemma when_keeps b m : within (keeps (doc store)) m → within (keeps (doc store)) (when (W:=W) (P:=P) b m).
Proof. apply within_when, _. Qed.

(** The count the document records for a datapoint. *)
Definition recorded (d : gmap string pv) (id : string) : Z :=
  match map_of d REQUEUES !! id with
  | Some (PDict e) => match PyInt.py_int <$> e !! "count" with Some (Ok n) => n | _ => 0 end
  | _ => 0
  end.

(** The budget a tick works with is the recorded one. *)
Lemma read_budget s l s' id :
  field_ok (doc store s) REQUEUES → get_requeues store s = (Ok l, s') → budget_of (list_to_map l) id = recorded (doc store s) id.
Proof.
  intros Hok. unfold get_requeues, get_records. rewrite bind_Ok. intros (m & s1 & Hm & [= Hl _]).
  apply read_map_run in Hm as (_ & _ & Hm); [|done]. rewrite (Hm m eq_refl) in Hl. clear Hm.
  pose proof (decoded_lookup (λ k v, RequeueRecord.from_dict v (entry_context REQUEUES k)) _ _ id Hl) as Hd.
  rewrite key_order_map in Hd. unfold budget_of, recorded. destruct Hd as [[-> ->]|(v & r & -> & Hr & ->)]; [done|].
  destruct v as [| | | | | |e]; try done. unfold RequeueRecord.from_dict, _required in Hr. cbn in Hr.
  destruct (e !! "count") as [c|]; [|done]. cbn in Hr. cbn. destruct (PyInt.py_int c) as [n|]; [|done]. cbn in Hr.
  destruct (e !! "lastRequeuedAt"); [|done]. cbn in Hr. destruct (_parse_utc _ _); [|done]. by injection Hr as <-.
Qed.

(** A step that requeues a datapoint leaves its count one higher in the CR's
    status, and that count is at most the configured maximum. *)
Lemma requeue_recorded max_runtime requeues m acc id s m' s' :
  field_ok (doc store s) REQUEUES → field_ok (doc store s) STARTED_SINCE →
  zombie_step client store config now emit max_runtime requeues (m, acc) id s = (Ok (m', acc ++ [id]), s') →
  ∃ e v n, map_of (doc store s') REQUEUES !! id = Some (PDict e) ∧ e !! "count" = Some v ∧
    PyInt.py_int v = Ok (budget_of requeues id + 1) ∧
    config_number (max_auto_requeues (datapoint_policy config)) = Ok n ∧ budget_of requeues id + 1 ≤ n.
Proof.
  intros Hr Hs. unfold zombie_step. destruct (m !! id) as [since|]; [|done].
  assert (Hacc : ∀ l : list string, l ≠ l ++ [id]).
  { intros l Hl. apply (f_equal length) in Hl. rewrite length_app in Hl. simpl in Hl. lia. }
  destruct (now - since <=? max_runtime); [intros [= _ Hl _]; by apply Hacc in Hl|].
  rewrite bind_Ok. intros (n & s0 & [= En <-] & E).
  destruct (n <=? budget_of requeues id) eqn:Eb.
  { apply bind_Ok in E as ([] & s1 & _ & [= _ Hl _]). by apply Hacc in Hl. }
  apply bind_Ok in E as ([] & s1 & E & [= _ <-]). unfold requeue in E.
  apply bind_Ok in E as ([] & s2 & E2 & E). apply bind_Ok in E as ([] & s3 & E3 & E).
  apply bind_Ok in E as ([] & s4 & E4 & E). apply bind_Ok in E as ([] & s5 & E5 & E6).
  apply (run_keeps (doc store)) in E2.
  2: { apply when_keeps. apply within_bind; [apply _|apply request_keeps_doc, http_keeps|intros; apply within_ret, _]. }
  apply (run_keeps (doc store)) in E3; [|apply emit_keeps].
  assert (doc store s4 = doc store s) as D4 by (injection E4 as <-; unfold doc in *; simpl; congruence).
  unfold set_requeue in E5. apply set_map_entry_run in E5 as (_ & R5 & O5); [|first [done|by rewrite D4]..].
  apply set_map_entry_run in E6 as (_ & _ & O6); [|first [done|eapply field_ok_ext; [|exact Hs]; by rewrite O5, D4]..].
  destruct (entry_after_scalar (protected_keys store REQUEUES (shared s4)) id
    (to_dict (RequeueRecord.Make (budget_of requeues id + 1) now)) (map_of (doc store s4) REQUEUES) "count"
    (PInt (budget_of requeues id + 1))) as (e & v & Q1 & Q2 & Q3); [done..|].
  exists e, v, n. split_and!; [|done|by apply py_int_norm|done|apply Z.leb_gt in Eb; lia].
  rewrite <-Q1, <-R5. by rewrite (map_of_ext _ (doc store s5) REQUEUES) by (by rewrite O6).
Qed.

(** ** Hygiene *)

(** Hygiene forgets nothing that is alive: when it prunes, an entry of the
    requeue and start-time maps goes only if its datapoint is not live and is
    confirmed absent or not tracked, and likewise for the analysis maps;
    every other entry keeps its value. *)
Theorem hygiene_keeps_live live_d live_a state confirmed_d confirmed_a s s' f k v :
  prune_confirmed store emit live_d live_a state confirmed_d confirmed_a s = (Ok tt, s') →
  let ids := if bool_decide (f ∈ [REQUEUES; STARTED_SINCE]) then (live_d, absent_datapoints state, confirmed_d)
             else (live_a, absent_analyses state, confirmed_a) in
  f ∈ _STATUS_MAP_FIELDS →
  map_of (doc store s) f !! k = Some v →
  map_of (doc store s') f !! k =
    if bool_decide (k ∈ ids.1.1 ∨ (is_Some (ids.1.2 !! k) ∧ k ∉ ids.2)) then Some v else None.
Proof.
  intros E ids Hf Hk. unfold prune_confirmed in E.
  apply bind_Ok in E as (removed & s1 & E1 & E). apply prune_run in E1 as (_ & _ & Hmap & _).
  apply bind_Ok in E as ([] & s2 & E2 & E).
  assert (doc store s2 = doc store s1) as D2 by (by injection E2 as <-).
  assert (doc store s' = doc store s2) as D3.
  { destruct removed; [by injection E as <-|]. eapply (run_keeps (doc store)); [apply emit_keeps|exact E]. }
  rewrite D3, D2.
  assert (∃ live, (f, Some live) ∈ prune_scopes
      (Some (live_a ∪ (dom (absent_analyses state) ∖ confirmed_a)))
      (Some (live_d ∪ (dom (absent_datapoints state) ∖ confirmed_d))) ∧
    (k ∈ live ↔ k ∈ ids.1.1 ∨ (is_Some (ids.1.2 !! k) ∧ k ∉ ids.2))) as (live & Hin & Hlive).
  { unfold ids. unfold _STATUS_MAP_FIELDS in Hf.
    repeat (apply elem_of_cons in Hf as [->|Hf]); [..|by apply not_elem_of_nil in Hf].
    all: eexists; split; [unfold prune_scopes; repeat (first [by left | right])|].
    all: cbn; rewrite elem_of_union, elem_of_difference, elem_of_dom; done. }
  rewrite (Hmap f live Hin), map_lookup_filter, Hk. simpl.
  case_bool_decide as Hb; [by rewrite option_guard_True by (by apply Hlive)|].
  rewrite option_guard_False; [done|]. intros ?. by apply Hb, Hlive.
Qed.
End budget.

(** ** The budget over time *)

Section history.
Context {W P : Type}.
Context `{StatusServer W} `{Entropy W} `{StatusEventSink W P} `{KeyOrder} `{SetOrder} `{HttpApi W}.
Context `{Lens P AnchorPruneState} `{Lens P ExhaustedSeen}.
Context (store : Store) `{!SinkSpec (P:=P) store}.
Implicit Types s : st W P.

(** A step leaves the document alone or requeues. *)
Lemma idle_or_requeued client config now emit `{!KeepsDoc store emit} max_runtime requeues m acc id s m' acc' s' :
  zombie_step client store config now emit max_runtime requeues (m, acc) id s = (Ok (m', acc'), s') →
  (acc' = acc ∧ doc store s' = doc store s) ∨ acc' = acc ++ [id].
Proof.
  unfold zombie_step. destruct (m !! id) as [since|]; [|done].
  destruct (now - since <=? max_runtime); [intros [= _ <- <-]; by left|].
  rewrite bind_Ok. intros (n & s0 & [= _ <-] & E). destruct (n <=? budget_of requeues id).
  - apply bind_Ok in E as ([] & s1 & E & [= _ <- <-]). left. split; [done|]. eapply (run_keeps (doc store)); [|exact E].
    pose proof (emit_keeps store emit). unfold warn_exhausted, get_part, put_part, inc. solve_within. all: by intros s2.
  - apply bind_Ok in E as ([] & s1 & _ & [= _ <- _]). by right.
Qed.

(** The history of one datapoint, with the number of completed requeues and the
    number of counts lost from the document: steps of ticks, each with its
    configuration and the budget its tick has read earlier (from [s0], however
    stale by then), and between them anything at all: other writers, other
    datapoints, cap evictions, hygiene prunes, restarts, steps that fail. A
    count is lost where the recorded number falls between steps, or where a
    requeue overwrites a number above the one its tick has read. *)
Inductive requeue_history (id : string) (limit : Z) : Z → Z → relation (st W P) :=
  | history_nil s : requeue_history id limit 0 0 s s
  | history_between k lost s1 s2 s3 :
      requeue_history id limit k lost s2 s3 →
      requeue_history id limit k
        (lost + Z.max 0 (recorded (doc store s1) id - recorded (doc store s2) id)) s1 s3
  | history_step k lost client config now emit max_runtime l s0 s0' m acc m' acc' s1 s2 s3 :
      KeepsDoc (P:=P) store emit →
      (∀ n, config_number (max_auto_requeues (datapoint_policy config)) = Ok n → n ≤ limit) →
      field_ok (doc store s0) REQUEUES → get_requeues store s0 = (Ok l, s0') →
      field_ok (doc store s1) REQUEUES → field_ok (doc store s1) STARTED_SINCE →
      zombie_step client store config now emit max_runtime (list_to_map l) (m, acc) id s1 = (Ok (m', acc'), s2) →
      requeue_history id limit k lost s2 s3 →
      requeue_history id limit (k + (if decide (acc' = acc) then 0 else 1))
        (lost + (if decide (acc' = acc) then 0
                 else Z.max 0 (recorded (doc store s1) id - recorded (doc store s0) id))) s1 s3.

(** C24: the budget bounds the requeues of a datapoint: over any history,
    whatever its length, the restarts and the configurations, at most [limit]
    requeues complete, less those recorded at its start, plus the counts lost
    from the document on the way (by cap eviction, a prune, another writer, or
    a tick working from a stale read); and every completed requeue is in the
    recorded count at the end or among the lost. So as long as nothing lowers
    the recorded count, the budget holds for good. A requeue is completed when
    its step returns: the request was sent and the count written. The steps
    are those of ticks on well-formed requeue and start-time maps, and Events
    and REST calls do not write the CR's status. *)
Theorem requeue_budget_bounded id limit k lost s s' :
  requeue_history id limit k lost s s' →
  0 ≤ k ∧ 0 ≤ lost ∧
  recorded (doc store s) id + k ≤ Z.max limit (recorded (doc store s) id) + lost ∧
  recorded (doc store s) id + k ≤ recorded (doc store s') id + lost.
Proof.
  induction 1 as [s|k lost s1 s2 s3 _ IH|k lost client config now emit mr l s0 s0' m acc m' acc' s1 s2 s3 HK Hlim Hok0 Hget Hok Hst E _ IH]; [lia|lia|].
  pose proof (read_budget store _ _ _ id Hok0 Hget) as Hb.
  destruct (idle_or_requeued _ _ _ _ _ _ _ _ _ _ _ _ _ E) as [[-> Hd]| ->].
  - rewrite !decide_True by done. rewrite Hd in IH. lia.
  - rewrite !decide_False by (intros Hl; apply (f_equal length) in Hl; rewrite length_app in Hl; cbn in Hl; lia).
    destruct (requeue_recorded client store config now emit _ _ _ _ _ _ _ _ Hok Hst E) as (e & v & n & He & Hv & Hn & Hc & Hle).
    specialize (Hlim n Hc). assert (recorded (doc store s2) id = recorded (doc store s0) id + 1) as Hr.
    { unfold recorded at 1. rewrite He, Hv. cbn. by rewrite Hn, Hb. }
    lia.
Qed.
End history.

(** ** Concrete runs *)

#[local] Existing Instance sim_sink.

Record watchdog_mem := MkWatchdogMem { wm_prune : AnchorPruneState; wm_seen : ExhaustedSeen }.
#[local] Instance wm_prune_lens : Lens watchdog_mem AnchorPruneState := {
  lget := wm_prune; lput c p := MkWatchdogMem c (wm_seen p); lget_lput c p := eq_refl }.
#[local] Instance wm_seen_lens : Lens watchdog_mem ExhaustedSeen := {
  lget := wm_seen; lput c p := MkWatchdogMem (wm_prune p) c; lget_lput c p := eq_refl }.

#[local] Instance wd_keeps : KeepsDoc (P:=watchdog_mem) sim_store sim_emit.
Proof. split; [by intros t r m s|done]. Qed.

Definition wd_client := make_client "http://web".
Definition wd_start (d : gmap string pv) : st sim watchdog_mem :=
  sim_start (Sim {[("ns", "cr") := d]} 0 (PDict ∅) [] ∅ ∅ ∅
    (λ _ _, Ok (Response 200 "" (Ok (PDict {["data_points" := PList [PDict {["_id" := PStr "d1"]}] ]}))))
    (λ _, Raise (RedisError "down"))) (MkWatchdogMem (MkAnchorPruneState 0 ∅ ∅) (MkExhaustedSeen ∅)).

Lemma watchdog_dry_run_harmless_witness :
  Forall harmless (new_actions (run_watchdog_tick wd_client sim_store (sla_config true) 0 sim_emit) (wd_start ∅)).
Proof. apply (watchdog_dry_run_harmless wd_client sim_store (sla_config true) 0 sim_emit). reflexivity. Defined.

Definition requeue_run_at : M sim watchdog_mem (gmap string Z * list string) :=
  zombie_step wd_client sim_store (sla_config false) (46 * us_minute) sim_emit (45 * us_minute) ∅
    ({["d1" := 0]}, []) "d1".
Definition requeue_run := requeue_run_at (wd_start ∅).

Lemma requeue_only_when_due_witness :
  Forall (requeue_allows wd_client (sla_config false) "d1" (requeue_due (sla_config false) (46 * us_minute)
      (45 * us_minute) (({["d1" := 0]} : gmap string Z) !! "d1") (budget_of ∅ "d1")))
    (new_actions requeue_run_at (wd_start ∅)).
Proof.
  apply (requeue_only_when_due wd_client sim_store (sla_config false) (46 * us_minute) sim_emit (45 * us_minute) ∅
    {["d1" := 0]} [] "d1").
Defined.

(** A step of the datapoint, from a tick that has just read the budgets, and
    two of them, each past the runtime since the last requeue. *)
Definition budgets_at s : list (string * RequeueRecord.t) :=
  match (get_requeues (P:=watchdog_mem) sim_store s).1 with Ok l => l | Raise _ => [] end.
Definition requeue_at now since s :=
  zombie_step wd_client sim_store (sla_config false) now sim_emit (45 * us_minute) (list_to_map (budgets_at s))
    ({["d1" := since]}, []) "d1" s.
Definition requeued_once := (requeue_at (46 * us_minute) 0 (wd_start ∅)).2.
Definition requeued_twice := (requeue_at (92 * us_minute) (46 * us_minute) requeued_once).2.

(** And once more after the two counts were lost. *)
Definition forgotten : st sim watchdog_mem := wd_start ∅.
Definition requeued_again := (requeue_at (46 * us_minute) 0 forgotten).2.

Lemma demo_history : requeue_history sim_store "d1" 3 3 2 (wd_start ∅) requeued_again.
Proof.
  assert (Hstep : ∀ k lost now since s s3, field_ok (doc sim_store s) REQUEUES → field_ok (doc sim_store s) STARTED_SINCE →
    (get_requeues (P:=watchdog_mem) sim_store s).1 = Ok (budgets_at s) →
    (requeue_at now since s).1 = Ok ({["d1" := now]}, ["d1"]) →
    requeue_history sim_store "d1" 3 k lost (requeue_at now since s).2 s3 → requeue_history sim_store "d1" 3 (k + 1) lost s s3).
  { intros k lost now since s s3 Hr Hs Hg Hz Hh.
    replace lost with (lost + Z.max 0 (recorded (doc sim_store s) "d1" - recorded (doc sim_store s) "d1")) by lia.
    refine (history_step sim_store "d1" 3 k lost wd_client (sla_config false) now sim_emit (45 * us_minute) (budgets_at s) s _
      {["d1" := since]} [] {["d1" := now]} ["d1"] s _ s3 _ _ Hr _ Hr Hs _ Hh).
    - by intros n [= <-].
    - rewrite <-Hg. apply surjective_pairing.
    - rewrite <-Hz. apply surjective_pairing. }
  apply (Hstep 2 2 (46 * us_minute) 0); [by left|by left|reflexivity|vm_compute; reflexivity|].
  apply (Hstep 1 2 (92 * us_minute) (46 * us_minute)); [right; vm_compute; eauto|right; vm_compute; eauto|vm_compute; reflexivity|vm_compute; reflexivity|].
  pose proof (history_between sim_store "d1" 3 1 0 requeued_twice forgotten requeued_again) as Hlost.
  replace (0 + Z.max 0 _) with 2 in Hlost by (vm_compute; reflexivity). apply Hlost.
  apply (Hstep 0 0 (46 * us_minute) 0); [by left|by left|reflexivity|vm_compute; reflexivity|].
  constructor.
Qed.

Lemma requeue_budget_bounded_witness :
  0 ≤ 3 ∧ 0 ≤ 2 ∧
  recorded (doc sim_store (wd_start ∅)) "d1" + 3 ≤ Z.max 3 (recorded (doc sim_store (wd_start ∅)) "d1") + 2 ∧
  recorded (doc sim_store (wd_start ∅)) "d1" + 3 ≤ recorded (doc sim_store requeued_again) "d1" + 2.
Proof. exact (requeue_budget_bounded sim_store "d1" 3 3 2 (wd_start ∅) requeued_again demo_history). Defined.

Definition hygiene_doc : gmap string pv :=
  {[REQUEUES := PDict {["d1" := PDict (to_dict (RequeueRecord.Make 1 0)); "d2" := PDict (to_dict (RequeueRecord.Make 3 0))]}]}.
Definition hygiene_state := MkAnchorPruneState 10 {["d1" := 1; "d2" := 3]} ∅.
Definition hygiene_run := prune_confirmed (W := sim) sim_store sim_emit ∅ ∅ hygiene_state {["d2"]} ∅ (wd_start hygiene_doc).

(** [d1] has been absent once, [d2] three times. *)
Lemma hygiene_keeps_live_witness :
  map_of (doc sim_store hygiene_run.2) REQUEUES !! "d1" = Some (PDict (to_dict (RequeueRecord.Make 1 0))).
Proof.
  refine (hygiene_keeps_live sim_store sim_emit ∅ ∅ hygiene_state {["d2"]} ∅ (wd_start hygiene_doc) hygiene_run.2
    REQUEUES "d1" (PDict (to_dict (RequeueRecord.Make 1 0))) _ _ _).
  - vm_compute; reflexivity.
  - by apply (bool_decide_unpack _).
  - vm_compute; reflexivity.
Defined.

(** An id of the stop records alone is pruned at its first absence, as soon as
    any other id is confirmed: no counter tracks it. *)
Lemma untracked_stop_record_pruned :
  let d := <[STOPPED_ANALYSES := PDict {["a1" := PDict (to_dict (StopRecord.Make 0 "issued" None))]}]> hygiene_doc in
  map_of (doc sim_store (prune_confirmed (W := sim) sim_store sim_emit ∅ ∅ hygiene_state {["d2"]} ∅ (wd_start d)).2)
    STOPPED_ANALYSES = ∅.
Proof. vm_compute; reflexivity. Qed.
