(* ===== verification/WorkerRecycler.v ===== *)
(** * The worker recycler ([handlers/worker_recycler.py])

    A rolling restart of the worker Deployment when the analyses are done or
    the interval has elapsed, at most once per cooldown. *)
From S2P Require Import Prelude PyValue Effects Logic PyTime Services Config StatusRecords StatusStore StatusStoreFacts StatusScalars RestClient KubeOps AnalysisSla SimWorld StatusStoreSpec RestClientSpec Actions AnalysisSlaSpec.

Definition WORKER_RECYCLED_EVENT := "WorkerRecycled".
Definition TRIGGER_ANALYSIS_COMPLETED := "analysis-completed".
Definition TRIGGER_INTERVAL_ELAPSED := "interval-elapsed".
Definition _COMPLETED := "completed".

(** [any(f(x) for x in l)] *)
Fixpoint any_res {A} (f : A → res bool) (l : list A) : res bool :=
  match l with
  | [] => Ok false
  | x :: l => b ← f x; if (b : bool) then Ok true else any_res f l
  end.

Definition _blocks_recycle (status : pv) : bool := py_eq status (PStr "started").

(** [timedelta(hours=v)] *)
Definition config_hours (v : pv) : res Z := n ← config_number v; timedelta (n * us_hour).

(** The analyses let a recycle happen: one completed, none started. *)
Definition analyses_done `{KeyOrder} (analyses : pv) : res bool :=
  docs ← py_iter analyses;
  some_completed ← any_res (λ doc, s ← py_get doc "status"; mret (py_eq s (PStr _COMPLETED))) docs;
  if (some_completed : bool) then
    some_started ← any_res (λ doc, s ← py_get doc "status"; mret (_blocks_recycle s)) docs;
    mret (negb some_started)
  else mret false.

Definition _armed_trigger `{KeyOrder} (analyses : pv) (config : OperatorConfig) (now : Z)
    (last_recycle_at : option Z) : res (option string) :=
  completed ← (if config_flag (recycle_after_analysis (worker_policy config)) then analyses_done analyses
               else mret false);
  if (completed : bool) then mret (Some TRIGGER_ANALYSIS_COMPLETED)
  else
    match last_recycle_at with
    | None => mret (Some TRIGGER_INTERVAL_ELAPSED)
    | Some last =>
        interval ← config_hours (recycle_worker_interval_hours (worker_policy config));
        mret (if interval <? now - last then Some TRIGGER_INTERVAL_ELAPSED else None)
    end.

(** [config.target_... or DEFAULT] *)
Definition target_deployment (configured : pv) (fallback : string) : string :=
  py_str (py_or configured (PStr fallback)).

Section recycler.
Context {W P : Type}.
Context `{CustomObjectsApi W} `{Entropy W} `{StatusEventSink W P} `{KeyOrder} `{HttpApi W} `{AppsV1Api W}.
Context (client : OpenStudioClient) (store : Store) (config : OperatorConfig) (namespace : string) (now : Z).
Context (emit : string → string → string → M W P unit).

Definition recycle_message (deployment trigger : string) : string :=
  "Recycled worker Deployment " +:+ namespace +:+ "/" +:+ deployment +:+ " (trigger: " +:+ trigger +:+
  ") — rolling restart via " +:+ RESTARTED_AT_ANNOTATION +:+ " patch" +:+
  (if config_flag (dry_run config) then " — patch suppressed (spec.dryRun)" else "").

Definition recycle (trigger : string) : M W P (option string) :=
  let deployment := target_deployment (target_worker_deployment config) DEFAULT_WORKER_DEPLOYMENT in
  when (negb (config_flag (dry_run config)))
    (rolling_restart_deployment deployment namespace now;; mret tt);;
  emit "Normal" WORKER_RECYCLED_EVENT (recycle_message deployment trigger);;
  inc "WORKERS_RECYCLED_TOTAL" [("trigger", trigger)];;
  set_last_recycle_at store (Some now);;
  mret (Some trigger).

(** The cooldown has not elapsed. *)
Definition cooling_down (cooldown : Z) (last : option Z) : bool :=
  match last with Some last => now - last <=? cooldown | None => false end.

Definition run_recycler_tick : M W P (option string) :=
  last_recycle_at ← get_last_recycle_at store;
  cooldown ← of_res (config_minutes (min_recycle_interval_minutes (worker_policy config)));
  if cooling_down cooldown last_recycle_at then mret None
  else
    analyses ← list_analyses client;
    trigger ← of_res (_armed_trigger analyses config now last_recycle_at);
    match trigger with
    | None => mret None
    | Some trigger => recycle trigger
    end.
End recycler.

(** ** Facts *)

Section facts.
Context {W P : Type}.
Context `{StatusServer W} `{Entropy W} `{StatusEventSink W P} `{KeyOrder} `{HttpApi W} `{AppsV1Api W}.
Context (client : OpenStudioClient) (store : Store) (config : OperatorConfig) (namespace : string) (now : Z).
Context (emit : string → string → string → M W P unit).
Context `{!QuietCollaborators emit None}.
Implicit Types s : st W P.

Notation tick := (run_recycler_tick client store config namespace now emit).

(** The restart the tick may send. *)
Definition recycle_patch : action :=
  KubePatchDeployment (target_deployment (target_worker_deployment config) DEFAULT_WORKER_DEPLOYMENT) namespace
    (restart_patch RESTARTED_AT_ANNOTATION (isoformat now)).

Lemma recycle_bound (Pa : action → Prop) trigger :
  (∀ a, harmless a → Pa a) → (config_flag (dry_run config) = false → Pa recycle_patch) →
  within (emits Pa) (recycle store config namespace now emit trigger).
Proof.
  intros HP Hpatch. unfold recycle. pose proof (store_bound store emit None Pa HP).
  pose proof (emit_bound emit None Pa HP).
  destruct (config_flag (dry_run config)) eqn:Ed; cbn [negb when].
  - solve_within; try (apply HP; done).
  - assert (within (emits Pa) (rolling_restart_deployment (P:=P)
      (target_deployment (target_worker_deployment config) DEFAULT_WORKER_DEPLOYMENT) namespace now)).
    { apply rolling_restart_bound; [by apply Hpatch|intros; by apply HP]. }
    solve_within; try (apply HP; done).
Qed.

(** Everything a tick emits is harmless or the one restart. *)
Lemma recycler_tick_bound (Pa : action → Prop) :
  (∀ a, harmless a → Pa a) → (config_flag (dry_run config) = false → Pa recycle_patch) →
  within (emits Pa) tick.
Proof.
  intros HP Hpatch. pose proof (recycle_bound Pa) as Hr. unfold run_recycler_tick.
  pose proof (store_bound store emit None Pa HP).
  pose proof (list_analyses_quiet (P:=P) Pa (λ a Ha, HP a (read_action_harmless a Ha)) client).
  unfold get_last_recycle_at. solve_within; try (by apply Hr).
Qed.

(** The recycler respects its cooldown: if the recorded last recycle is no
    further back than the configured minimum, the tick restarts nothing,
    whatever the analyses look like. *)
Theorem recycler_cooldown s last cooldown :
  parse_opt_utc (dget (doc store s) LAST_RECYCLE_AT) ("status." +:+ LAST_RECYCLE_AT) = Ok (Some last) →
  config_minutes (min_recycle_interval_minutes (worker_policy config)) = Ok cooldown →
  now - last ≤ cooldown →
  Forall harmless (new_actions tick s) ∧ ∀ trigger, (tick s).1 ≠ Ok (Some trigger).
Proof.
  intros Hl Hc Hle. unfold run_recycler_tick, new_actions.
  pose proof (store_bound store emit None harmless (λ a Ha, Ha)) as Hst.
  assert (Hq : quiet (get_last_recycle_at (P:=P) store)) by (unfold get_last_recycle_at; solve_within).
  specialize (Hq s). destruct (get_last_recycle_at store s) as [r s1] eqn:E1.
  pose proof (get_scalar_run store _ _ _ _ E1) as [_ Hr]. destruct Hq as (l & L & HF). cbn [snd] in L.
  destruct r as [t|e].
  - rewrite (bind_run _ _ _ _ _ E1). specialize (Hr t eq_refl). rewrite Hl in Hr. injection Hr as <-.
    rewrite Hc, (bind_run (of_res (Ok cooldown)) _ s1 cooldown s1) by done.
    unfold cooling_down. rewrite (proj2 (Z.leb_le _ _) Hle). cbn [mret M_ret snd fst].
    rewrite L, drop_app_length. by split.
  - rewrite (bind_raise _ _ _ _ _ E1). cbn [snd fst]. rewrite L, drop_app_length. by split.
Qed.

(** What a recycler tick can do: restart the configured worker Deployment
    in the CR's namespace, never in dry-run; everything else is harmless. *)
Theorem recycler_actions s :
  Forall (λ a, harmless a ∨ (config_flag (dry_run config) = false ∧ a = recycle_patch)) (new_actions tick s).
Proof. apply new_actions_emits, recycler_tick_bound; [by left|]. intros Hd. by right. Qed.
End facts.

(** The completion trigger fires exactly when the policy asks for it and
    the listing holds a completed analysis and no started one. *)
Theorem armed_on_completion `{KeyOrder} docs config now last trigger :
  Forall (λ d, is_dict d = true) docs →
  _armed_trigger (PList docs) config now last = Ok (Some trigger) →
  trigger = TRIGGER_ANALYSIS_COMPLETED ↔
  config_flag (recycle_after_analysis (worker_policy config)) = true ∧
  (∃ d, d ∈ docs ∧ py_get d "status" = Ok (PStr _COMPLETED)) ∧
  (∀ d, d ∈ docs → py_get d "status" ≠ Ok (PStr "started")).
Proof.
  intros Hd.
  assert (Hany : ∀ v, ∃ b, any_res (λ doc, s ← py_get doc "status"; mret (py_eq s (PStr v))) docs = Ok b ∧
    (b = true ↔ ∃ d, d ∈ docs ∧ py_get d "status" = Ok (PStr v))).
  { intros v. induction Hd as [|d docs Hdd Hds (b & Eb & Hb)].
    { exists false. split; [done|]. split; [done|]. by intros (? & ?%not_elem_of_nil & _). }
    destruct d as [| | | | | |m]; try done. simpl.
    destruct (py_eq (dget m "status") (PStr v)) eqn:Ep.
    - exists true. split; [done|]. split; [intros _|done]. exists (PDict m). split; [by left|].
      apply bool_decide_eq_true in Ep. simpl in *. f_equal. by apply norm_str.
    - exists b. split; [done|]. rewrite Hb. split.
      + intros (d & Hin & Hs). exists d. split; [by right|done].
      + intros (d & Hin & Hs). apply elem_of_cons in Hin as [->|Hin]; [|eauto].
        simpl in Hs. injection Hs as Hs. rewrite Hs, py_eq_refl in Ep. done. }
  destruct (Hany _COMPLETED) as (c & Ec & Hc). destruct (Hany "started") as (t & Et & Ht).
  unfold _armed_trigger, analyses_done. cbn [py_iter]. unfold mret, mbind, res_ret, res_bind in *.
  cbn beta iota in *. unfold _blocks_recycle. rewrite Ec, Et.
  destruct (config_flag _).
  - destruct c, t; cbn.
    2: { intros [= <-]. split; [intros _|done]. split; [done|]. split; [by apply Hc|].
         intros d Hin Hs. assert (false = true) by (apply Ht; eauto). done. }
    all: destruct last as [last|]; cbn; [destruct (config_hours _); [|done]; case_match|]; intros [= <-]; split; try done.
    all: intros (_ & Hcc & Hno).
    all: try (apply Hc in Hcc; done).
    all: destruct (proj1 Ht eq_refl) as (d & Hin & Hs); by apply Hno in Hin.
  - destruct last as [last|]; cbn; [destruct (config_hours _); [|done]; case_match|]; intros [= <-]; split; try done; by intros [? _].
Qed.

#[local] Existing Instance sim_sink.

Lemma recycler_actions_witness :
  Forall (λ a, harmless a ∨ (config_flag (dry_run (sla_config false)) = false ∧
      a = recycle_patch (sla_config false) "ns" (31 * us_minute)))
    (new_actions (run_recycler_tick (make_client "http://web") sim_store (sla_config false) "ns"
       (31 * us_minute) sim_emit) (sim_start (sim_of {[LAST_RECYCLE_AT := iso_pv 0]} 0) tt)).
Proof.
  apply (recycler_actions (make_client "http://web") sim_store (sla_config false) "ns" (31 * us_minute) sim_emit).
Defined.

Lemma recycler_cooldown_witness :
  Forall harmless (new_actions (run_recycler_tick (make_client "http://web") sim_store (sla_config false) "ns"
    (29 * us_minute) sim_emit) (sim_start (sim_of {[LAST_RECYCLE_AT := iso_pv 0]} 0) tt)).
Proof.
  refine (proj1 (recycler_cooldown (make_client "http://web") sim_store (sla_config false) "ns" (29 * us_minute)
    sim_emit _ 0 (30 * us_minute) _ _ _)).
  - by vm_compute.
  - done.
  - by vm_compute.
Defined.

Lemma armed_on_completion_witness :
  TRIGGER_ANALYSIS_COMPLETED = TRIGGER_ANALYSIS_COMPLETED ↔
  true = true ∧
  (∃ d, d ∈ [PDict {["status" := PStr "completed"]}] ∧ py_get d "status" = Ok (PStr _COMPLETED)) ∧
  (∀ d, d ∈ [PDict {["status" := PStr "completed"]}] → py_get d "status" ≠ Ok (PStr "started")).
Proof.
  apply (armed_on_completion [PDict {["status" := PStr "completed"]}] (sla_config false) 0 None).
  - by repeat constructor.
  - by vm_compute.
Defined.
