(* ===== verification/RedisClientSpec.v ===== *)
(** * What the Redis client promises

    Only allow-listed commands are sent; the queries answer what the keys hold;
    the layout check decides and ends; a URL never shows its credentials, and a
    Secret with a plain user part cannot point off the cluster. *)
From S2P Require Import Prelude PyValue Effects Logic PyTime Services StatusRecords Json Url RedisClient SimWorld.

(** ** Only reads *)

Section commands.
Context {W P : Type} `{RedisApi W} `{Clock W} (self : ReadOnlyRedisClient).
Implicit Types s : st W P.

Definition redis_read (a : action) : Prop :=
  match a with
  | RedisCommand c _ => c ∈ READ_ONLY_COMMANDS
  | MetricObserve _ _ => True
  | _ => False
  end.

Lemma execute_bound (Pa : action → Prop) command args :
  (∀ a, redis_read a → Pa a) → within (emits Pa) (_execute (P:=P) self command args).
Proof.
  intros HP. unfold _execute. destruct (bool_decide _) eqn:E; simpl; [|solve_within].
  apply bool_decide_eq_true in E. solve_within; try (by apply HP).
Qed.
#[local] Hint Resolve execute_bound : within.

(** The bound of every query, for a class of actions that has the reads. *)
Lemma redis_queries_bound (Pa : action → Prop) :
  (∀ a, redis_read a → Pa a) →
  (∀ id, within (emits Pa) (workers_for_analysis (P:=P) self id)) ∧
  within (emits Pa) (worker_heartbeats (P:=P) self) ∧
  within (emits Pa) (queue_depths (P:=P) self) ∧
  (∀ t, within (emits Pa) (stale_workers (P:=P) self t)) ∧
  (∀ fuel, within (emits Pa) (validate_key_layout (P:=P) self fuel)).
Proof.
  intros HP. assert (He : ∀ c a, within (emits Pa) (_execute (P:=P) self c a)) by (intros; by apply execute_bound).
  assert (Hl : ∀ fuel c seen, within (emits Pa) (scan_loop (P:=P) self fuel c seen)).
  { intros fuel. induction fuel as [|fuel IH]; intros; simpl; unfold scan; solve_within. }
  assert (Hh : within (emits Pa) (worker_heartbeats (P:=P) self)).
  { unfold worker_heartbeats. solve_within; try (by apply HP). }
  split_and!.
  - intros id. unfold workers_for_analysis. solve_within; try (by apply HP).
  - done.
  - unfold queue_depths, queue_depth. solve_within; try (by apply HP).
  - intros t. unfold stale_workers. solve_within.
  - intros fuel. unfold validate_key_layout, missing_keys. solve_within; try (by apply HP).
Qed.

(** A command outside the allowlist is refused before anything is sent, in
    any spelling; one inside it sends exactly that command. *)
Theorem execute_allowlisted command args s :
  (py_upper command ∉ READ_ONLY_COMMANDS →
   ∃ e, _execute self command args s = (Raise (WriteCommandForbidden e), s)) ∧
  (py_upper command ∈ READ_ONLY_COMMANDS →
   log (_execute self command args s).2 = log s ++ [RedisCommand (py_upper command) args] ∧
   ∀ e, (_execute self command args s).1 = Raise e → ∀ msg, e ≠ RedisError msg).
Proof.
  unfold _execute. split; intros Hc.
  - rewrite bool_decide_eq_false_2 by done. by eexists.
  - rewrite bool_decide_eq_true_2 by done. cbn [negb]. unfold try_except, ext.
    destruct (redis_call _ _ (world s)) as [[v|e] w]; [done|].
    split; [by destruct e|]. intros e' He' msg. destruct e; simpl in He'; naive_solver.
Qed.

(** Whatever query runs, only read-only commands reach Redis. *)
Theorem queries_read_only analysis_id threshold fuel s :
  Forall redis_read (drop (length (log s)) (log (workers_for_analysis self analysis_id s).2)) ∧
  Forall redis_read (drop (length (log s)) (log (queue_depths self s).2)) ∧
  Forall redis_read (drop (length (log s)) (log (stale_workers self threshold s).2)) ∧
  Forall redis_read (drop (length (log s)) (log (validate_key_layout self fuel s).2)).
Proof.
  destruct (redis_queries_bound redis_read (λ a Ha, Ha)) as (H1 & _ & H2 & H3 & H4).
  assert (Hdrop : ∀ A (m : M W P A), within (emits redis_read) m →
    Forall redis_read (drop (length (log s)) (log (m s).2))).
  { intros A m Hm. destruct (Hm s) as (l & L & HF). by rewrite L, drop_app_length. }
  auto.
Qed.
End commands.

(** ** What the queries answer *)

Section answers.
Context {W P : Type} `{RedisApi W} `{Clock W} (self : ReadOnlyRedisClient).
Implicit Types s : st W P.

(** Nobody writes to the keys while the query runs: the answer to a command is
    the same in every world reachable by reads. *)
Context (table : list string → res pv).
Hypothesis frozen : ∀ args w, (redis_call (client_url self) args w).1 = table args.

Lemma execute_frozen command args s v :
  py_upper command ∈ READ_ONLY_COMMANDS → table (py_upper command :: args) = Ok v →
  ∃ s', _execute self command args s = (Ok v, s').
Proof.
  intros Hc Ht. unfold _execute. rewrite bool_decide_eq_true_2 by done. cbn [negb].
  unfold try_except, ext. pose proof (frozen (py_upper command :: args) (world s)) as Hf.
  rewrite Ht in Hf. destruct (redis_call _ _ (world s)) as [r w]. simpl in Hf. subst r. by eexists.
Qed.

Lemma observe_redis_value {A} operation (m : M W P A) s : (observe_redis operation m s).1 = (m s).1.
Proof. unfold observe_redis, observe_duration, finally. by destruct (m s). Qed.

(** The job record of the worker, as the table has it, names the analysis. *)
Definition mentioned (analysis_id w : string) : bool :=
  match table ["GET"; worker_key w] with
  | Ok raw => match worker_runs analysis_id w raw with Ok b => b | Raise _ => false end
  | Raise _ => false
  end.

(** The scan of the registry collects the matches in the order of the reply. *)
Lemma collect_workers analysis_id ids acc s :
  Forall (λ w, ∃ b raw, table ["GET"; worker_key w] = Ok raw ∧ worker_runs analysis_id w raw = Ok b) ids →
  ∃ s', fold_m (λ matches worker_id,
       raw ← _execute self "get" [worker_key worker_id];
       runs ← of_res (worker_runs analysis_id worker_id raw);
       mret (if (runs : bool) then matches ++ [worker_id] else matches)) acc ids s =
    (Ok (acc ++ filter (λ w, mentioned analysis_id w = true) ids), s').
Proof.
  intros Hall. revert acc s. induction Hall as [|w ids (b & raw & Hraw & Hb) Hall IH]; intros acc s; simpl.
  { exists s. by rewrite app_nil_r. }
  destruct (execute_frozen "get" [worker_key w] s raw) as (s1 & E1); [by vm_compute; set_solver|done|].
  rewrite (bind_run _ _ s (if b then acc ++ [w] else acc) s1).
  2: { rewrite (bind_run _ _ s raw s1) by done. by rewrite Hb. }
  destruct (IH (if b then acc ++ [w] else acc) s1) as (s2 & E2). exists s2. rewrite E2.
  assert (Hm : mentioned analysis_id w = b) by (unfold mentioned; by rewrite Hraw, Hb).
  rewrite filter_cons, Hm. destruct b; simpl; [|done]. by rewrite <-app_assoc.
Qed.

(** The workers of an analysis are exactly the registered workers whose job
    record carries the analysis among its payload arguments; one that vanished
    or carries no such record is left out. *)
Theorem workers_for_analysis_spec analysis_id reply ids s :
  table ["SMEMBERS"; WORKER_REGISTRY_KEY] = Ok reply → reply_strings reply = Ok ids →
  Forall (λ w, ∃ b raw, table ["GET"; worker_key w] = Ok raw ∧ worker_runs analysis_id w raw = Ok b) ids →
  ∃ l, (workers_for_analysis self analysis_id s).1 = Ok l ∧
    ∀ w, w ∈ l ↔ w ∈ ids ∧ ∃ text record, table ["GET"; worker_key w] = Ok (PStr text) ∧
      json_loads text = Some record ∧ record_mentions analysis_id record = true.
Proof.
  intros Hs Hids Hall. unfold workers_for_analysis.
  destruct (execute_frozen "smembers" [WORKER_REGISTRY_KEY] s reply) as (s1 & E1); [by vm_compute; set_solver|done|].
  destruct (collect_workers analysis_id ids [] s1 Hall) as (s2 & E2).
  rewrite observe_redis_value, (bind_run _ _ s reply s1) by done. rewrite Hids.
  rewrite (bind_run _ _ s1 ids s1) by done. rewrite E2. eexists. split; [done|]. intros w. rewrite app_nil_l, list_elem_of_filter.
  enough (mentioned analysis_id w = true ↔ ∃ text record, table ["GET"; worker_key w] = Ok (PStr text) ∧
    json_loads text = Some record ∧ record_mentions analysis_id record = true) as -> by tauto.
  unfold mentioned. split.
  - intros Ht. destruct (table ["GET"; worker_key w]) as [raw|e]; [|done].
    destruct raw as [| | |text| | |]; try done. simpl in Ht.
    destruct (json_loads text) as [record|] eqn:Ej; [|done]. by exists text, record.
  - intros (text & record & -> & Hj & Hm). simpl. by rewrite Hj.
Qed.

(** The heartbeat of a registered worker. *)
Definition beat_of (beats : gmap string pv) (w : string) : option Z :=
  match dget beats w with
  | PNone => None
  | raw => match _parse_heartbeat raw w with Ok t => Some t | Raise _ => None end
  end.

(** The heartbeat is absent or readable. *)
Definition beat_ok (beats : gmap string pv) (w : string) : Prop :=
  dget beats w = PNone ∨ is_ok (_parse_heartbeat (dget beats w) w) = true.

Lemma heartbeats_map beats ids : Forall (beat_ok beats) ids →
  map_res (heartbeat_of (PDict beats)) ids = Ok ((λ w, (w, beat_of beats w)) <$> ids).
Proof.
  induction 1 as [|w ids Hw _ IH]; [done|]. simpl. rewrite IH. unfold heartbeat_of. simpl.
  unfold beat_of. destruct Hw as [->|Hok]; [done|].
  destruct (dget beats w) eqn:E; [done|..]; by destruct (_parse_heartbeat _ w) eqn:Ep.
Qed.

Lemma lookup_list_to_map_fun {B} (f : string → B) ids (w : string) :
  (list_to_map ((λ w, (w, f w)) <$> ids) : gmap string B) !! w = if decide (w ∈ ids) then Some (f w) else None.
Proof.
  induction ids as [|x ids IH]; [done|]. rewrite fmap_cons, list_to_map_cons.
  destruct (decide (w = x)) as [->|Hne].
  - rewrite lookup_insert_eq, decide_True by (by left). done.
  - rewrite lookup_insert_ne, IH by done. destruct (decide (w ∈ ids)), (decide (w ∈ x :: ids)) as [H1|H1]; try done.
    + by destruct H1; right.
    + by apply elem_of_cons in H1 as [?|?].
Qed.

Lemma worker_heartbeats_run reply ids beats s :
  table ["SMEMBERS"; WORKER_REGISTRY_KEY] = Ok reply → reply_strings reply = Ok ids →
  table ["HGETALL"; WORKER_HEARTBEAT_HASH_KEY] = Ok (PDict beats) →
  Forall (beat_ok beats) ids →
  ∃ m, (worker_heartbeats self s).1 = Ok m ∧
    ∀ w, m !! w = if decide (w ∈ ids) then Some (beat_of beats w) else None.
Proof.
  intros Hs Hids Hb Hall. unfold worker_heartbeats. rewrite observe_redis_value.
  destruct (execute_frozen "smembers" [WORKER_REGISTRY_KEY] s reply) as (s1 & E1); [by vm_compute; set_solver|done|].
  rewrite (bind_run _ _ s reply s1) by done. destruct (truthy reply) eqn:Et; cbn [negb].
  - destruct (execute_frozen "hgetall" [WORKER_HEARTBEAT_HASH_KEY] s1 (PDict beats)) as (s2 & E2);
      [by vm_compute; set_solver|done|].
    rewrite (bind_run _ _ s1 (PDict beats) s2), Hids by done. unfold of_res, mbind at 1, res_bind at 1.
    rewrite heartbeats_map by (by rewrite sorted_strings_perm). eexists. split; [done|].
    intros w. rewrite lookup_list_to_map_fun.
    pose proof (elem_of_sorted_strings w ids). destruct (decide _), (decide _); naive_solver.
  - assert (ids = []) as -> by (destruct reply as [| | | | |[|]|]; simpl in *; congruence).
    by eexists.
Qed.

(** The stale workers are exactly the registered workers without a
    heartbeat or whose heartbeat is older than the threshold. *)
Theorem stale_workers_spec threshold reply ids beats s :
  table ["SMEMBERS"; WORKER_REGISTRY_KEY] = Ok reply → reply_strings reply = Ok ids →
  table ["HGETALL"; WORKER_HEARTBEAT_HASH_KEY] = Ok (PDict beats) →
  Forall (beat_ok beats) ids →
  ∃ X, (stale_workers self threshold s).1 = Ok X ∧
    ∀ w, w ∈ X ↔ w ∈ ids ∧ (dget beats w = PNone ∨
      ∃ t, _parse_heartbeat (dget beats w) w = Ok t ∧ threshold < clock (world s) - t).
Proof.
  intros Hs Hids Hb Hall. unfold stale_workers.
  rewrite (bind_run (ask clock) _ s (clock (world s)) s) by done.
  destruct (worker_heartbeats_run reply ids beats s Hs Hids Hb Hall) as (m & E & Hm).
  destruct (worker_heartbeats self s) as [r s1] eqn:Er. simpl in E. subst r.
  rewrite (bind_run _ _ _ _ _ Er). eexists. split; [done|].
  intros w. rewrite elem_of_dom. unfold is_Some. setoid_rewrite map_lookup_filter_Some.
  rewrite Hm. simpl. rewrite Forall_forall in Hall. specialize (Hall w). unfold beat_of, beat_ok in *.
  destruct (decide (w ∈ ids)) as [Hin|Hin]; [|naive_solver]. specialize (Hall Hin).
  destruct (dget beats w) eqn:Ed; [naive_solver|..]; destruct Hall as [|Hok]; try done;
    destruct (_parse_heartbeat _ w) as [t|]; try done; unfold is_stale; (split;
    [intros (? & [= <-] & ?%Z.ltb_lt); split; [done|]; right; by exists t
    |intros (_ & [|(? & [= <-] & ?)]); [done|]; eexists; split; [done|]; by apply Z.ltb_lt]).
Qed.
End answers.

(** ** The layout check *)

Lemma observe_redis_run {W P A} operation (m : M W P A) s r s1 :
  m s = (r, s1) → ∃ s2, observe_redis operation m s = (r, s2) ∧ world s2 = world s1.
Proof. unfold observe_redis, observe_duration, finally. intros ->. by eexists. Qed.

Section layout.
Context {W P : Type} `{RedisApi W} (self : ReadOnlyRedisClient).
Implicit Types s : st W P.

(** Redis documents that a full [SCAN] iteration ends: some number of calls is
    left, no command adds to it and a call that returns a non-zero cursor
    uses one up. *)
Context (remaining : W → nat).
Hypothesis no_command_adds : ∀ args w, (remaining (redis_call (client_url self) args w).2 ≤ remaining w)%nat.
Hypothesis scan_progress : ∀ args w next batch w' c,
  redis_call (client_url self) ("SCAN" :: args) w = (Ok (PList [next; batch]), w') →
  PyInt.py_int next = Ok c → c ≠ 0 → (remaining w' < remaining w)%nat.

Lemma execute_remaining command args s :
  (remaining (world (_execute self command args s).2) ≤ remaining (world s))%nat.
Proof.
  unfold _execute. destruct (bool_decide _); cbn [negb]; [|done].
  unfold try_except, ext. pose proof (no_command_adds (py_upper command :: args) (world s)) as Hn.
  destruct (redis_call _ _ (world s)) as [[v|e] w]; [done|]. by destruct e.
Qed.

Lemma scan_progresses cursor s c batch s' :
  scan self cursor s = (Ok (c, batch), s') → c ≠ 0 → (remaining (world s') < remaining (world s))%nat.
Proof.
  unfold scan, _execute. rewrite bool_decide_eq_true_2 by (by vm_compute; set_solver). cbn [negb].
  intros (reply & s1 & E1 & E2)%bind_Ok Hc.
  unfold of_res in E2. simplify_eq/=. unfold try_except, ext in E1.
  destruct (redis_call _ _ (world s)) as [[v|e] w] eqn:Er; simplify_eq/=; [|by destruct e; simplify_eq].
  destruct reply as [| | | | |[|next [|keys [|]]]|]; simplify_eq/=.
  destruct (PyInt.py_int next) as [n|] eqn:En; simplify_eq/=. destruct (reply_strings keys); simplify_eq/=.
  change (py_upper "scan") with "SCAN" in Er. eapply scan_progress; [exact Er|exact En|]. unfold mret, res_ret in *. congruence.
Qed.

Lemma scan_loop_ends fuel cursor seen s :
  (remaining (world s) < fuel)%nat → (scan_loop self fuel cursor seen s).1 ≠ Ok None.
Proof.
  revert cursor seen s. induction fuel as [|fuel IH]; intros cursor seen s Hf; [lia|].
  cbn [scan_loop].
  destruct (scan self cursor s) as [[[c batch]|e] s1] eqn:Es.
  - rewrite (bind_run _ _ s (c, batch) s1) by done. cbv beta iota zeta.
    destruct (Z.eqb_spec c 0); [done|]. destruct (Nat.leb VALIDATE_SCAN_KEY_BUDGET _); [done|].
    apply IH. pose proof (scan_progresses cursor s c batch s1 Es n). lia.
  - by rewrite (bind_raise _ _ s e s1).
Qed.

(** What the server answers for the two keys. *)
Context (exists_count : string → Z).
Hypothesis exists_answers : ∀ key w,
  (redis_call (client_url self) ["EXISTS"; key] w).1 = Ok (PInt (exists_count key)).

Lemma execute_exists key s :
  ∃ s', _execute self "exists" [key] s = (Ok (PInt (exists_count key)), s') ∧
    (remaining (world s') ≤ remaining (world s))%nat.
Proof.
  pose proof (execute_remaining "exists" [key] s) as Hr. revert Hr. unfold _execute.
  rewrite bool_decide_eq_true_2 by (by vm_compute; set_solver). cbn [negb].
  unfold try_except, ext. change (py_upper "exists") with "EXISTS".
  pose proof (exists_answers key (world s)) as Ha.
  destruct (redis_call _ _ (world s)) as [r w]. simpl in Ha. subst r. eauto.
Qed.

Lemma missing_keys_run keys acc s :
  ∃ s', fold_m (λ acc key, reply ← _execute self "exists" [key];
                 mret (if truthy reply then acc else acc ++ [key])) acc keys s =
    (Ok (acc ++ filter (λ k, exists_count k = 0) keys), s') ∧ (remaining (world s') ≤ remaining (world s))%nat.
Proof.
  revert acc s. induction keys as [|k keys IH]; intros acc s; simpl.
  { exists s. by rewrite app_nil_r. }
  destruct (execute_exists k s) as (s1 & E1 & H1).
  rewrite (bind_run _ _ s (if exists_count k =? 0 then acc ++ [k] else acc) s1).
  2: { rewrite (bind_run _ _ s _ s1 E1). simpl. by destruct (exists_count k =? 0). }
  destruct (IH (if exists_count k =? 0 then acc ++ [k] else acc) s1) as (s2 & E2 & H2).
  exists s2. split; [|lia]. rewrite E2. rewrite filter_cons.
  destruct (Z.eqb_spec (exists_count k) 0).
  - rewrite decide_True by done. by rewrite <-app_assoc.
  - by rewrite decide_False by done.
Qed.

(** With enough fuel for the scan the layout check always reaches a
    verdict: it passes exactly when both keys exist, and fails with an error
    otherwise. *)
Theorem layout_verdict fuel s :
  (remaining (world s) < fuel)%nat →
  let r := (validate_key_layout self fuel s).1 in
  r ≠ Ok None ∧
  (r = Ok (Some tt) ↔ exists_count WORKER_REGISTRY_KEY ≠ 0 ∧ exists_count WORKER_HEARTBEAT_HASH_KEY ≠ 0).
Proof.
  intros Hf. unfold validate_key_layout.
  destruct (missing_keys_run [WORKER_REGISTRY_KEY; WORKER_HEARTBEAT_HASH_KEY] [] s) as (s1 & E1 & Hw).
  set (missing := filter _ _) in E1. rewrite app_nil_l in E1.
  assert (Hmiss : missing = [] ↔ exists_count WORKER_REGISTRY_KEY ≠ 0 ∧ exists_count WORKER_HEARTBEAT_HASH_KEY ≠ 0).
  { unfold missing. rewrite !filter_cons, filter_nil. destruct (decide _), (decide _); naive_solver. }
  rewrite <-Hmiss. clear Hmiss. clearbody missing.
  destruct (observe_redis_run "exists" (missing_keys self _) s _ _ E1) as (s2 & E2 & Hs2).
  rewrite (bind_run _ _ s missing s2) by exact E2. destruct missing as [|k ks]; [done|].
  pose proof (scan_loop_ends fuel 0 ∅ s2 ltac:(rewrite Hs2; lia)) as Hne.
  destruct (try_except (scan_loop self fuel 0 ∅) (λ e, match e with
    RedisError msg => Some (raise (RedisClientError ("SCAN failed: " +:+ msg))) | _ => None end) s2)
    as [r s3] eqn:E3.
  assert (Hr : r ≠ Ok None).
  { revert E3. unfold try_except. destruct (scan_loop self fuel 0 ∅ s2) as [[o|e] s4]; [intros [= <- _]; exact Hne|].
    by destruct e; intros [= <- _]. }
  destruct (observe_redis_run "scan" _ s2 _ _ E3) as (s5 & E5 & _).
  destruct r as [[[seen completed]|]|e]; [|done|by rewrite (bind_raise _ _ s2 e s5) by exact E5].
  rewrite (bind_run _ _ s2 (Some (seen, completed)) s5) by exact E5. by destruct (bool_decide _).
Qed.
End layout.

(** ** Concrete runs *)

Definition demo_record : string :=
  "{" +:+ dquote +:+ "payload" +:+ dquote +:+ ": {" +:+ dquote +:+ "args" +:+ dquote +:+ ": [" +:+
  dquote +:+ "a1" +:+ dquote +:+ ", 7]}}".

Definition demo_table (cmd : list string) : res pv :=
  match cmd with
  | ["SMEMBERS"; _] => Ok (PList [PStr "w1:1:*"; PStr "w2:2:*"])
  | ["GET"; k] => Ok (if String.eqb k (worker_key "w1:1:*") then PStr demo_record else PNone)
  | ["HGETALL"; _] => Ok (PDict {["w2:2:*" := PStr "1970-01-01T00:00:00Z"]})
  | ["EXISTS"; _] => Ok (PInt 1)
  | "SCAN" :: _ => Ok (PList [PInt 0; PList []])
  | _ => Raise (RedisError "unknown command")
  end.

Definition demo_client : ReadOnlyRedisClient := MkReadOnlyRedisClient "redis://queue" "redis://queue" None 60.

(** A world whose Redis is the table, whatever its state. *)
#[local] Instance table_redis : RedisApi unit := { redis_call url args w := (demo_table args, w) }.
#[local] Instance table_clock : Clock unit := { clock w := 0 }.
Lemma table_frozen args (w : unit) : (redis_call (client_url demo_client) args w).1 = demo_table args.
Proof. done. Qed.

Definition table_start : st unit unit := St tt tt (StoreMem ∅ None) [].

Lemma workers_for_analysis_spec_witness :
  ∃ l, (workers_for_analysis demo_client "a1" table_start).1 = Ok l ∧
    ∀ w, w ∈ l ↔ w ∈ ["w1:1:*"; "w2:2:*"] ∧ ∃ text record, demo_table ["GET"; worker_key w] = Ok (PStr text) ∧
      json_loads text = Some record ∧ record_mentions "a1" record = true.
Proof.
  apply (workers_for_analysis_spec demo_client demo_table table_frozen "a1"
    (PList [PStr "w1:1:*"; PStr "w2:2:*"])); [done..|].
  constructor; [|constructor; [|constructor]].
  - exists true, (PStr demo_record). by split; vm_compute.
  - by exists false, PNone.
Defined.

Lemma stale_workers_spec_witness :
  ∃ X, (stale_workers demo_client (300 * us_second) table_start).1 = Ok X ∧
    ∀ w, w ∈ X ↔ w ∈ ["w1:1:*"; "w2:2:*"] ∧ (dget {["w2:2:*" := PStr "1970-01-01T00:00:00Z"]} w = PNone ∨
      ∃ t, _parse_heartbeat (dget {["w2:2:*" := PStr "1970-01-01T00:00:00Z"]} w) w = Ok t ∧
           300 * us_second < clock (world table_start) - t).
Proof.
  apply (stale_workers_spec demo_client demo_table table_frozen (300 * us_second)
    (PList [PStr "w1:1:*"; PStr "w2:2:*"])); [done..|].
  constructor; [|constructor; [|constructor]].
  - by left.
  - right. by vm_compute.
Defined.

Lemma layout_verdict_witness :
  let r := (validate_key_layout demo_client 1 table_start).1 in
  r ≠ Ok None ∧ (r = Ok (Some tt) ↔ 1 ≠ 0 ∧ 1 ≠ 0).
Proof.
  apply (layout_verdict demo_client (λ _ : unit, O)) with (exists_count := λ _, 1).
  - done.
  - intros args w next batch w' c [= <- <- <-] [= <-]. done.
  - done.
  - simpl. lia.
Defined.
