(* ===== verification/RedisUrlSpec.v ===== *)
(** * The Redis URL of a Secret

    What the pattern accepts, which host the parser reads out of an accepted
    URL, and that error messages show no credentials. *)
From S2P Require Import Prelude PyValue Effects Logic PyTime Services Url RedisClient.

(** ** Splitting lemmas *)

Lemma break_app p l c rest :
  Forall (λ x, p x = false) l → p c = true → break p (l ++ c :: rest) = (l, c :: rest).
Proof. induction 1 as [|x l Hx _ IH]; intros Hc; simpl; [by rewrite Hc|]. by rewrite Hx, IH. Qed.

Lemma break_none p l : Forall (λ x, p x = false) l → break p l = (l, []).
Proof. induction 1 as [|x l Hx _ IH]; simpl; [done|]. by rewrite Hx, IH. Qed.

(** A prefix free of the delimiters only lengthens what is cut off. *)
Lemma break_prefix p u l : Forall (λ x, p x = false) u →
  break p (u ++ l) = (u ++ (break p l).1, (break p l).2).
Proof.
  induction 1 as [|x u Hx _ IH]; simpl; [by destruct (break p l)|]. by rewrite Hx, IH.
Qed.

Lemma partition_found n l rest :
  Forall (λ x, is_char n x = false) l →
  ∀ c, is_char n c = true → partition n (l ++ c :: rest) = (l, true, rest).
Proof. intros Hl c Hc. unfold partition. by rewrite break_app. Qed.

Lemma partition_none n l : Forall (λ x, is_char n x = false) l → partition n l = (l, false, []).
Proof. intros Hl. unfold partition. by rewrite break_none. Qed.

Lemma after_last_acc n l acc : Forall (λ x, is_char n x = false) l →
  fold_left (λ acc c, if is_char n c then [] else acc ++ [c]) l acc = acc ++ l.
Proof.
  intros Hl. revert acc. induction Hl as [|x l Hx _ IH]; intros acc; simpl; [by rewrite app_nil_r|].
  rewrite Hx, IH. by rewrite <-app_assoc.
Qed.

Lemma after_last_none n l : Forall (λ x, is_char n x = false) l → after_last n l = l.
Proof. intros Hl. unfold after_last. by rewrite after_last_acc. Qed.

Lemma after_last_skip n u c l : is_char n c = true → after_last n (u ++ c :: l) = after_last n l.
Proof. intros Hc. unfold after_last. rewrite fold_left_app. simpl. by rewrite Hc. Qed.

Lemma contains_app n l1 l2 : contains n (l1 ++ l2) = contains n l1 || contains n l2.
Proof. unfold contains. apply existsb_app. Qed.

Lemma contains_none n l : Forall (λ x, is_char n x = false) l → contains n l = false.
Proof. unfold contains. induction 1 as [|x l Hx _ IH]; simpl; [done|]. by rewrite Hx, IH. Qed.

(** ** Classes of characters *)

(** Text of the user part that stays inside the network location. *)
Definition user_char (c : Ascii.ascii) : bool :=
  is_ascii c && negb (is_delim c || is_char 91 c || is_char 93 c || is_char 9 c || is_char 10 c || is_char 13 c).

(** Every character test of the parser decided on every byte. *)
Definition all_bytes (f : Ascii.ascii → bool) : bool :=
  forallb (λ n, f (Ascii.ascii_of_nat n)) (seq 0 256).

Lemma all_bytes_spec f : all_bytes f = true → ∀ c, f c = true.
Proof.
  unfold all_bytes. rewrite forallb_forall. intros Hall c.
  rewrite <-(Ascii.ascii_nat_embedding c). apply Hall, in_seq. pose proof (Ascii.nat_ascii_bounded c). lia.
Qed.

(** An implication between tests, by evaluation on the 256 bytes. *)
Ltac by_bytes :=
  let c := fresh "c" in let Hc := fresh "Hc" in
  intros c Hc;
  match type of Hc with ?p _ = true =>
    match goal with |- ?q = ?b =>
      let q' := eval pattern c in q in
      match q' with ?f _ =>
        generalize (all_bytes_spec (λ x, implb (p x) (eqb (f x) b)) ltac:(vm_compute; reflexivity) c);
        cbv beta; rewrite Hc; simpl; apply eqb_prop
      end
    end
  end.

Definition host_char (c : Ascii.ascii) : bool := SecretPattern.alnum_dash c || is_char 46 c.
Definition db_char (c : Ascii.ascii) : bool := is_digit c || is_char 47 c.
Definition port_char (c : Ascii.ascii) : bool := is_digit c || is_char 58 c.

Lemma user_char_facts c : user_char c = true →
  is_ascii c = true ∧ is_delim c = false ∧ is_char 91 c = false ∧ is_char 93 c = false ∧
  is_char 9 c || is_char 10 c || is_char 13 c = false.
Proof. revert c. assert (∀ c, user_char c = true → is_ascii c = true) as H1 by by_bytes.
  assert (∀ c, user_char c = true → is_delim c = false) as H2 by by_bytes.
  assert (∀ c, user_char c = true → is_char 91 c = false) as H3 by by_bytes.
  assert (∀ c, user_char c = true → is_char 93 c = false) as H4 by by_bytes.
  assert (∀ c, user_char c = true → is_char 9 c || is_char 10 c || is_char 13 c = false) as H5 by by_bytes.
  intros c Hc. split_and!; auto.
Qed.

(** ** The language of the pattern *)

(** Every character of a word of [r] passes [p]. *)
Fixpoint chars_within (p : Ascii.ascii → bool) (r : re) : bool :=
  match r with
  | RNone | REps => true
  | RChar q => all_bytes (λ c, implb (q c) (p c))
  | RSeq r1 r2 | RAlt r1 r2 => chars_within p r1 && chars_within p r2
  | RStar r => chars_within p r
  end.

Lemma in_re_chars p r l : chars_within p r = true → in_re r l → Forall (λ c, p c = true) l.
Proof.
  intros Hp Hl. induction Hl as [|q c Hq|r1 r2 l1 l2 _ IH1 _ IH2|r1 r2 l _ IH|r1 r2 l _ IH| |r l1 l2 _ IH1 _ IH2];
    cbn [chars_within] in *.
  - constructor.
  - constructor; [|done]. pose proof (all_bytes_spec _ Hp c) as Hc. cbv beta in Hc. by rewrite Hq in Hc.
  - apply andb_true_iff in Hp as [??]. apply Forall_app; auto.
  - apply andb_true_iff in Hp as [??]; auto.
  - apply andb_true_iff in Hp as [??]; auto.
  - constructor.
  - apply Forall_app; auto.
Qed.

Lemma in_lit s l : in_re (SecretPattern.lit s) l → l = chars s.
Proof.
  unfold SecretPattern.lit. generalize (chars s). intros cs. revert l.
  induction cs as [|c cs IH]; intros l; simpl; inversion 1 as [| |? ? l1 l2 Q1 Q2| | | |]; subst; [done|].
  inversion Q1 as [|? c' Hc| | | | |]; subst. apply Ascii.eqb_eq in Hc as <-. simpl. f_equal. by apply IH.
Qed.

Lemma in_opt r l : in_re (SecretPattern.opt r) l → l = [] ∨ in_re r l.
Proof. inversion 1 as [| | |? ? ? Q|? ? ? Q| |]; subst; [by right|left; by inversion Q]. Qed.

Lemma in_re_seq_inv r1 r2 l : in_re (RSeq r1 r2) l → ∃ l1 l2, l = l1 ++ l2 ∧ in_re r1 l1 ∧ in_re r2 l2.
Proof. inversion 1; subst; eauto. Qed.

(** ** The parts of an accepted URL *)

Definition url_of (scheme user host port db : text_chars) : text_chars :=
  scheme ++ chars "://" ++ user ++ host ++ port ++ db.

(** The user part is empty or ends with the one [@]. *)
Definition user_part (user : text_chars) : Prop :=
  user = [] ∨ ∃ u, user = u ++ chars "@" ∧ Forall (λ c, is_char 64 c = false) u.

Lemma in_opt_within p r l : chars_within p r = true → in_re (SecretPattern.opt r) l → Forall (λ c, p c = true) l.
Proof. intros Hp [->|Hl]%in_opt; [constructor|by eapply in_re_chars]. Qed.

Lemma host_language l : in_re SecretPattern.host l → Forall (λ c, host_char c = true) l ∧ l ≠ [].
Proof.
  intros Hl. split; [eapply in_re_chars, Hl; by vm_compute|].
  intros ->. apply nullable_spec in Hl. by vm_compute in Hl.
Qed.

(** The port is empty or a colon and digits; the database is empty or starts
    with a slash. *)
Lemma port_language l : in_re (SecretPattern.opt SecretPattern.port) l →
  l = [] ∨ ∃ ds, l = chars ":" ++ ds ∧ Forall (λ c, is_digit c = true) ds.
Proof.
  intros [->|Hl]%in_opt; [by left|right]. apply in_re_seq_inv in Hl as (l1 & l2 & -> & H1%in_lit & H2).
  exists l2. split; [by rewrite H1|]. eapply in_re_chars, H2. by vm_compute.
Qed.

Lemma db_language l : in_re (SecretPattern.opt SecretPattern.db) l →
  l = [] ∨ ∃ ds, l = chars "/" ++ ds ∧ Forall (λ c, is_digit c = true) ds.
Proof.
  intros [->|Hl]%in_opt; [by left|right]. apply in_re_seq_inv in Hl as (l1 & l2 & -> & H1%in_lit & H2).
  exists l2. split; [by rewrite H1|]. eapply in_re_chars, H2. by vm_compute.
Qed.

Lemma user_language l : in_re (SecretPattern.opt SecretPattern.userinfo) l → user_part l.
Proof.
  intros [->|Hl]%in_opt; [by left|right]. apply in_re_seq_inv in Hl as (l1 & l2 & -> & H1 & H2%in_lit).
  exists l1. split; [by rewrite H2|].
  assert (Forall (λ c, negb (is_char 64 c) = true) l1) as HF by (eapply in_re_chars, H1; by vm_compute).
  eapply Forall_impl; [exact HF|]. intros c. cbv beta. by rewrite negb_true_iff.
Qed.

Lemma scheme_language l : in_re SecretPattern.scheme l →
  l = chars "redis://" ∨ l = chars "rediss://".
Proof.
  intros (l1 & l2 & -> & H1%in_lit & (l3 & l4 & -> & [->|H3%in_lit]%in_opt & H4%in_lit)%in_re_seq_inv)%in_re_seq_inv;
    subst; auto.
Qed.

(** An accepted URL, up to a final line feed, is made of these parts. *)
Lemma url_language l : re_match SecretPattern.url l = true →
  ∃ s user host port db eol,
    l = url_of s user host port db ++ eol ∧ (eol = [] ∨ eol = [Ascii.ascii_of_nat 10]) ∧
    (s = chars "redis" ∨ s = chars "rediss") ∧ user_part user ∧ in_re SecretPattern.host host ∧
    in_re (SecretPattern.opt SecretPattern.port) port ∧ in_re (SecretPattern.opt SecretPattern.db) db.
Proof.
  intros Hm.
  assert (∃ l', in_re SecretPattern.url l' ∧ (l = l' ∨ l = l' ++ [Ascii.ascii_of_nat 10])) as (l' & Hl & Heol).
  { apply orb_true_iff in Hm as [Hm%full_match_spec|Hm]; [by eauto|].
    destruct l as [|c l _] using rev_ind; [done|]. rewrite last_snoc, removelast_last in Hm.
    apply andb_true_iff in Hm as [Hc Hm%full_match_spec]. exists l. split; [done|right].
    apply Nat.eqb_eq in Hc. by rewrite <-(Ascii.ascii_nat_embedding c), Hc. }
  apply in_re_seq_inv in Hl as (s & l1 & -> & Hs%scheme_language & Hl).
  apply in_re_seq_inv in Hl as (user & l2 & -> & Hu%user_language & Hl).
  apply in_re_seq_inv in Hl as (host & l3 & -> & Hh & Hl).
  apply in_re_seq_inv in Hl as (port & db & -> & Hp & Hd).
  assert (∃ s', s = s' ++ chars "://" ∧ (s' = chars "redis" ∨ s' = chars "rediss")) as (s' & -> & Hs').
  { destruct Hs as [->| ->]; [exists (chars "redis")|exists (chars "rediss")]; auto. }
  assert (E : (s' ++ chars "://") ++ user ++ host ++ port ++ db = url_of s' user host port db).
  { unfold url_of. by rewrite <-app_assoc. }
  rewrite E in Heol. destruct Heol as [->| ->].
  - exists s', user, host, port, db, []. rewrite app_nil_r. auto 10.
  - exists s', user, host, port, db, [Ascii.ascii_of_nat 10]. auto 10.
Qed.

(** ** Parsing an assembled URL *)

Section parse.
Context `{UrlTables}.

Lemma Forall_bytes (p q : Ascii.ascii → bool) b l :
  Forall (λ c, p c = true) l →
  all_bytes (λ c, implb (p c) (eqb (q c) b)) = true → Forall (λ c, q c = b) l.
Proof.
  intros Hl Hall. eapply Forall_impl; [exact Hl|]. intros c Hc.
  pose proof (all_bytes_spec _ Hall c) as Hi. cbv beta in *. rewrite Hc in Hi. by apply eqb_prop.
Qed.

(** A list whose class implies another. *)
Ltac by_class := eapply Forall_bytes; [eassumption|by vm_compute].

(** A network location of plain characters passes whatever the tables say. *)
Lemma netloc_ok_plain l :
  Forall (λ c, is_char 91 c = false) l → Forall (λ c, is_char 93 c = false) l →
  Forall (λ c, is_ascii c = true) l → netloc_ok l = true.
Proof.
  intros H1 H2 H3. unfold netloc_ok. rewrite !contains_none by done. simpl.
  rewrite (proj2 (forallb_forall _ _)); [done|]. intros x Hx. rewrite Forall_forall in H3.
  by apply H3, list_elem_of_In.
Qed.

Definition redis_scheme (s : text_chars) : Prop := s = chars "redis" ∨ s = chars "rediss".

(** Scheme and authority marker come off, whatever follows. *)
Lemma urlparse_authority s body eol :
  redis_scheme s → eol = [] ∨ eol = [Ascii.ascii_of_nat 10] →
  Forall (λ c, is_char 9 c || is_char 10 c || is_char 13 c = false) body →
  urlparse (s ++ chars "://" ++ body ++ eol) =
  (let '(netloc, rest) := break is_delim body in
   if netloc_ok netloc
   then Ok (ParsedUrl s netloc (partition 63 (partition 35 rest).1.1).1.1)
   else Raise (ValueError "Invalid IPv6 URL")).
Proof.
  intros Hs He Hb. unfold urlparse.
  assert (Hclean : clean_url (s ++ chars "://" ++ body ++ eol) = s ++ chars "://" ++ body).
  { assert (Hd : drop_leading (λ c, Nat.leb (code c) 32) (s ++ chars "://" ++ body ++ eol) =
      s ++ chars "://" ++ body ++ eol) by (by destruct Hs as [->| ->]).
    unfold clean_url. rewrite Hd, !filter_app. rewrite (filter_Forall_all _ body) by done.
    assert (filter (λ c, is_char 9 c || is_char 10 c || is_char 13 c = false) eol = []) as ->
      by (by destruct He as [->| ->]).
    rewrite app_nil_r. by destruct Hs as [->| ->]. }
  rewrite Hclean. clear Hclean.
  assert (Hsplit : split_scheme (s ++ chars "://" ++ body) = (s, chars "//" ++ body)).
  { unfold split_scheme. change (chars "://" ++ body) with (Ascii.ascii_of_nat 58 :: chars "//" ++ body).
    rewrite (partition_found 58) by (try done; by destruct Hs as [->| ->]; repeat constructor).
    by destruct Hs as [->| ->]. }
  rewrite Hsplit. cbn [split_netloc chars String.list_ascii_of_string app].
  assert (Hu : uses_params s = false) by (by destruct Hs as [->| ->]; vm_compute).
  simpl. destruct (break is_delim body) as [netloc rest]. by rewrite Hu.
Qed.

(** The host and port a network location names after its user part. *)
Lemma hostname_parts s user host port path :
  user_part user → in_re SecretPattern.host host → in_re (SecretPattern.opt SecretPattern.port) port →
  hostname (ParsedUrl s (user ++ host ++ port) path) = host.
Proof.
  intros Hu Hh Hp. apply host_language in Hh as [Hh _].
  assert (Hpc : Forall (λ c, port_char c = true) port) by (eapply in_opt_within, Hp; by vm_compute).
  unfold hostname, hostinfo. cbn [url_netloc].
  assert (after_last 64 (user ++ host ++ port) = host ++ port) as ->.
  { assert (Hnone : after_last 64 (host ++ port) = host ++ port).
    { apply after_last_none, Forall_app. split; by_class. }
    destruct Hu as [->|(u & -> & _)]; [done|]. rewrite <-app_assoc.
    change (chars "@" ++ host ++ port) with (Ascii.ascii_of_nat 64 :: host ++ port).
    by rewrite after_last_skip. }
  rewrite (partition_none 91) by (apply Forall_app; split; by_class).
  assert (partition 58 (host ++ port) = (host, negb (bool_decide (port = [])), drop 1 port)) as ->.
  { assert (Hc : Forall (λ c, is_char 58 c = false) host) by (by_class).
    apply port_language in Hp as [->|(ds & -> & _)]; [rewrite app_nil_r; by apply partition_none|].
    simpl. by rewrite (partition_found 58). }
  cbn [fst]. rewrite (partition_none 37) by (by_class).
  rewrite !app_nil_r. rewrite <-(list_fmap_id host) at 2.
  apply list_fmap_ext. intros i c Hc. eapply Forall_lookup_1 in Hh; [|done].
  assert (Hlow : all_bytes (λ c, implb (host_char c) (Ascii.eqb (lower c) c)) = true) by (by vm_compute).
  pose proof (all_bytes_spec _ Hlow c) as Hl. cbv beta in *. rewrite Hh in Hl. by apply Ascii.eqb_eq in Hl.
Qed.

(** C37: a value of the Secret is either refused or names an in-cluster host:
    unless its user part smuggles a delimiter (or a bracket, a line break, a
    non-ASCII byte) the host the URL parser reads is the one the pattern
    checked. *)
Theorem secret_url_host value name key :
  redis_url_from_secret_value value name key = Ok value →
  ∃ s user host port db,
    redis_scheme s ∧ user_part user ∧ in_re SecretPattern.host host ∧
    (∃ eol, chars value = url_of s user host port db ++ eol) ∧
    (Forall (λ c, user_char c = true) user →
     ∃ parsed, urlparse (chars value) = Ok parsed ∧ hostname parsed = host).
Proof.
  unfold redis_url_from_secret_value. destruct (negb _ && _) eqn:E.
  2: { intros Hr. exfalso. revert Hr. destruct (String.eqb value ""); [done|].
       by destruct (_redis_target_for_diagnostics value). }
  intros _. apply andb_true_iff in E as [_ E].
  apply url_language in E as (s & user & host & port & db & eol & Hv & He & Hs & Hu & Hh & Hp & Hd).
  exists s, user, host, port, db. split_and!; [done..|by exists eol|]. intros Huc.
  pose proof (host_language _ Hh) as [Hhc _].
  assert (Hpc : Forall (λ c, port_char c = true) port) by (eapply in_opt_within, Hp; by vm_compute).
  assert (Hdc : Forall (λ c, db_char c = true) db) by (eapply in_opt_within, Hd; by vm_compute).
  assert (Hbody : url_of s user host port db ++ eol = s ++ chars "://" ++ (user ++ host ++ port ++ db) ++ eol).
  { unfold url_of. by rewrite <-!app_assoc. }
  rewrite Hv, Hbody, urlparse_authority; [|done..|].
  2: { repeat (apply Forall_app; split); by_class. }
  assert (Hnl : Forall (λ c, is_delim c = false) (user ++ host ++ port)).
  { repeat (apply Forall_app; split); by_class. }
  assert (break is_delim (user ++ host ++ port ++ db) = (user ++ host ++ port, db)) as ->.
  { rewrite (app_assoc host), (app_assoc user).
    apply db_language in Hd as [->|(ds & -> & _)]; [rewrite app_nil_r; by apply break_none|]. by apply break_app. }
  rewrite netloc_ok_plain by (repeat (apply Forall_app; split); by_class).
  eexists. split; [done|]. by apply hostname_parts.
Qed.
(** A user part that holds a slash passes the pattern and moves the host:
    this value is accepted although the parser connects outside the cluster. *)
Theorem secret_fence_bypass name key :
  let value := "redis://evil.example.com/@redis" in
  redis_url_from_secret_value value name key = Ok value ∧
  ∃ parsed, urlparse (chars value) = Ok parsed ∧ hostname parsed = chars "evil.example.com" ∧
    ¬ in_re SecretPattern.host (hostname parsed).
Proof.
  cbv zeta. split; [by vm_compute|]. eexists. split; [by vm_compute|]. split; [by vm_compute|].
  rewrite <-full_match_spec. by vm_compute.
Qed.

(** A refused value with a port that is no number escapes as [ValueError], not
    as the error class the tick runner skips on. *)
Lemma bad_port_escapes name key :
  redis_url_from_secret_value "redis://redis:abc" name key =
  Raise (ValueError "Port could not be cast to integer value as 'abc'").
Proof. by vm_compute. Qed.

(** ** Diagnostics *)

(** Printable ASCII text, as far as the parser cares. *)
Definition plain_char (c : Ascii.ascii) : bool :=
  is_ascii c && negb (is_char 9 c || is_char 10 c || is_char 13 c).

Lemma forallb_class (p : Ascii.ascii → bool) l : Forall (λ c, p c = true) l → forallb p l = true.
Proof. intros Hl. apply forallb_forall. intros x Hx%list_elem_of_In. by eapply Forall_forall in Hl. Qed.

Lemma netloc_ok_user u nl :
  Forall (λ c, user_char c = true) u → Forall (λ c, is_ascii c = true) nl →
  netloc_ok (u ++ chars "@" ++ nl) = netloc_ok nl.
Proof.
  intros Hu Hnl. unfold netloc_ok, bracketed_host. change (chars "@" ++ nl) with (Ascii.ascii_of_nat 64 :: nl).
  rewrite after_last_skip by done.
  assert (Hc : ∀ n, Forall (λ c, is_char n c = false) u → is_char n (Ascii.ascii_of_nat 64) = false →
    contains n (u ++ Ascii.ascii_of_nat 64 :: nl) = contains n nl).
  { intros n Hn H64. rewrite contains_app, contains_none by done. unfold contains. simpl. by rewrite H64. }
  rewrite !Hc by (try done; by_class).
  rewrite (forallb_class _ nl), (forallb_class _ (u ++ _)); [done| |done].
  apply Forall_app. split; [by_class|by constructor].
Qed.

Lemma break_incl p l (P : Ascii.ascii → Prop) : Forall P l → Forall P (break p l).1.
Proof.
  induction 1 as [|x l Hx _ IH]; simpl; [constructor|]. destruct (p x); [constructor|].
  destruct (break p l). by constructor.
Qed.

(** Error messages never show credentials: the diagnostic form of a URL is
    the one of the same URL without its user part. *)
Theorem diagnostics_hide_credentials s u rest :
  redis_scheme s → Forall (λ c, user_char c = true) u → Forall (λ c, plain_char c = true) rest →
  _redis_target_for_diagnostics (string_of (s ++ chars "://" ++ u ++ chars "@" ++ rest)) =
  _redis_target_for_diagnostics (string_of (s ++ chars "://" ++ rest)).
Proof.
  intros Hs Hu Hr. unfold _redis_target_for_diagnostics, chars at 1, string_of at 1.
  rewrite String.list_ascii_of_string_of_list_ascii.
  unfold chars at 3, string_of at 3. rewrite String.list_ascii_of_string_of_list_ascii.
  pose proof (urlparse_authority s (u ++ chars "@" ++ rest) [] Hs (or_introl eq_refl)) as E1.
  pose proof (urlparse_authority s rest [] Hs (or_introl eq_refl)) as E2.
  rewrite !app_nil_r in E1, E2. rewrite E1, E2; clear E1 E2; [|by_class|].
  2: { repeat (apply Forall_app; split); [by_class|by repeat constructor|by_class]. }
  rewrite (app_assoc u (chars "@") rest), break_prefix
    by (apply Forall_app; split; [by_class|by repeat constructor]).
  assert (Hnl : Forall (λ c, is_ascii c = true) (break is_delim rest).1) by (apply break_incl; by_class).
  destruct (break is_delim rest) as [nl r]. cbn [fst snd] in *. rewrite <-app_assoc, netloc_ok_user by done.
  destruct (netloc_ok nl); [|done]. unfold mbind, res_bind.
  set (path := (partition 63 _).1.1).
  assert (Hinfo : hostinfo (u ++ chars "@" ++ nl) = hostinfo nl).
  { unfold hostinfo. change (chars "@" ++ nl) with (Ascii.ascii_of_nat 64 :: nl). by rewrite after_last_skip. }
  unfold hostname, port. cbn [url_netloc url_scheme url_path]. by rewrite Hinfo.
Qed.
End parse.

#[local] Instance no_tables : UrlTables := { bracketed_host_ok _ := false; netloc_nfkc_ok _ := false }.

Lemma secret_url_host_witness :
  ∃ s user host port db,
    redis_scheme s ∧ user_part user ∧ in_re SecretPattern.host host ∧
    (∃ eol, chars "redis://:pw@queue.ns.svc:6379/0" = url_of s user host port db ++ eol) ∧
    (Forall (λ c, user_char c = true) user →
     ∃ parsed, urlparse (chars "redis://:pw@queue.ns.svc:6379/0") = Ok parsed ∧ hostname parsed = host).
Proof. apply (secret_url_host "redis://:pw@queue.ns.svc:6379/0" "openstudio-redis" "url"). by vm_compute. Defined.

Lemma diagnostics_hide_credentials_witness :
  _redis_target_for_diagnostics (string_of (chars "redis" ++ chars "://" ++ chars ":pw" ++ chars "@" ++ chars "queue:6379/0")) =
  _redis_target_for_diagnostics (string_of (chars "redis" ++ chars "://" ++ chars "queue:6379/0")).
Proof.
  apply (diagnostics_hide_credentials (chars "redis") (chars ":pw") (chars "queue:6379/0")).
  - by left.
  - by repeat constructor.
  - by repeat constructor.
Defined.
