(* ===== verification/WebBackground.v ===== *)
(** * The web_background stall monitor ([handlers/web_background_monitor.py])

    A queue stall is work queued, no fresh worker heartbeat and healthy worker
    pods.  When it is sustained for the configured window the monitor restarts
    the web_background Deployment, backs off when restarts do not help, and
    keeps its window across operator restarts in the CR status.  The tracker
    and the layout safeguard are objects cached per CR: two cells of the
    process memory, reached through lenses. *)
From S2P Require Import Prelude PyValue Effects Logic PyTime Services Config StatusRecords StatusStore KubeOps Url RedisClient AnalysisSla WorkerRecycler.

Definition DEFAULT_WEB_BACKGROUND_DEPLOYMENT := "web-background".
Definition WEB_BACKGROUND_RESTARTED_EVENT := "WebBackgroundRestarted".
Definition WEB_BACKGROUND_RESTART_INEFFECTIVE_EVENT := "WebBackgroundRestartIneffective".
Definition RESQUE_KEY_LAYOUT_UNKNOWN_EVENT := "ResqueKeyLayoutUnknown".
Definition INEFFECTIVE_RESTART_EVENT_THRESHOLD : Z := 3.
Definition NATURAL_REARM_WINDOWS : Z := 2.
Definition BACKOFF_WINDOW_SCHEDULE : list (Z * Z) := [(3, 4); (5, 6); (7, 8)].
Definition DEFAULT_WORKER_HEARTBEAT_STALE_SECONDS : Z := 300 * us_second.
Definition _LAYOUT_WARNING_GRACE_SECONDS : Z := 60 * us_second.
Definition REDIS_KEY_LAYOUT_REVALIDATION_INTERVAL : Z := 5 * us_minute.
Definition _RUNNING := "Running".

(** ** The back-off *)

Definition _backoff_windows (ineffective_restarts : Z) : Z :=
  fold_left (λ total ts, if ts.1 <=? ineffective_restarts then ts.2 else total)
    BACKOFF_WINDOW_SCHEDULE NATURAL_REARM_WINDOWS.

Definition _ineffective_breaker_message (consecutive : Z) : string :=
  let windows := _backoff_windows consecutive in
  let skipped := windows - NATURAL_REARM_WINDOWS in
  str_of_Z consecutive +:+ " consecutive web_background restarts have failed to " +:+
  "break the queue stall — the stall condition re-sustained a full " +:+
  "window after each restart's cooldown. The cause is likely systemic " +:+
  "and restarting cannot fix it: NFS share full, MongoDB down, or a " +:+
  "broken web-background image. Restart actions now back off (next " +:+
  "waits " +:+ str_of_Z windows +:+ " stall windows — " +:+ str_of_Z skipped +:+ " beyond the usual " +:+
  "cadence); detection keeps running. Runbook: README.md triage " +:+
  "commands + docs/validation.md (systemic-cause checklist).".

(** ** The state kept per CR *)

Record StallWindowTracker := MkTracker {
  first_observed : option Z;
  first_clean : option Z;
}.

Definition new_tracker : StallWindowTracker := MkTracker None None.

Definition tracker_reset (_ : StallWindowTracker) : StallWindowTracker := MkTracker None None.

(** [observe]: the new state, and whether the condition is sustained. *)
Definition observe (self : StallWindowTracker) (holds : bool) (now window : Z) : StallWindowTracker * bool :=
  if negb holds then
    (MkTracker None (match first_clean self with None => Some now | Some t => Some t end), false)
  else
    let since := default now (first_observed self) in
    (MkTracker (Some since) None, window <=? now - since).

Record Leg2SafeguardState := MkLeg2 {
  max_workers_seen : Z;
  empty_registry_since : option Z;
  layout_warning_emitted : bool;
}.

Definition new_leg2 : Leg2SafeguardState := MkLeg2 0 None false.

Section monitor.
Context {W P : Type}.
Context `{CustomObjectsApi W} `{Entropy W} `{StatusEventSink W P} `{KeyOrder}.
Context `{AppsV1Api W} `{CoreV1Api W} `{RedisApi W} `{Clock W}.
Context `{Lens P StallWindowTracker} `{Lens P Leg2SafeguardState}.
Context (redis_client : ReadOnlyRedisClient) (store : Store) (config : OperatorConfig).
Context (namespace : string) (now : Z) (emit : string → string → string → M W P unit).

(** ** The condition *)

Definition pod_healthy (p : pod) : bool :=
  String.eqb (default "" (pod_phase p)) _RUNNING &&
  existsb (λ c, String.eqb c.1 "Ready" && String.eqb c.2 "True") (pod_conditions p).

Definition _worker_pods_healthy (deployment : string) : M W P bool :=
  selector ← deployment_label_selector deployment namespace;
  match selector with
  | None => mret false
  | Some selector =>
      pods ← observe_duration "KUBE_API_REQUEST_DURATION_SECONDS" [("verb", "list")]
        (list_namespaced_pod namespace (Some selector));
      mret (negb (bool_decide (length pods = 0%nat)) && forallb pod_healthy pods)
  end.

(** [len(registered)] raises the high-water mark. *)
Definition note_workers (count : Z) : M W P unit :=
  leg2 ← get_part (C:=Leg2SafeguardState);
  when (max_workers_seen leg2 <? count)
    (put_part (MkLeg2 count (empty_registry_since leg2) (layout_warning_emitted leg2));;
     gauge "RESQUE_WORKERS_SEEN_MAX" [] (MInt count)).

(** The clock of an empty registry starts, or stops when a worker is seen. *)
Definition note_registry (empty : bool) : M W P unit :=
  leg2 ← get_part (C:=Leg2SafeguardState);
  put_part (MkLeg2 (max_workers_seen leg2)
    (if empty then match empty_registry_since leg2 with None => Some now | t => t end else None)
    (layout_warning_emitted leg2)).

Definition _stall_condition_holds (worker_deployment : string) (stale_seconds : Z) : M W P bool :=
  registered ← worker_heartbeats redis_client;
  note_workers (Z.of_nat (size registered));;
  depths ← queue_depths redis_client;
  foreach depths (λ qd, gauge "RESQUE_QUEUE_DEPTH" [("queue", qd.1)] (MInt qd.2));;
  gauge "RESQUE_QUEUE_DEPTH_FRESH" [] MNow;;
  if negb (existsb (λ qd, 0 <? qd.2) depths) then mret false
  else
    note_registry (bool_decide (registered = ∅));;
    stale ← stale_workers redis_client stale_seconds;
    if Nat.ltb (size stale) (size registered) then mret false
    else _worker_pods_healthy worker_deployment.

(** ** The layout warning *)

Definition layout_unknown_message (elapsed : Z) : string :=
  "Resque worker registry has been empty for " +:+ str_of_Z elapsed +:+ "s while a " +:+
  "non-zero queue depth is observed. The centralized Resque key " +:+
  "constants (WORKER_REGISTRY_KEY=" +:+ repr_str WORKER_REGISTRY_KEY +:+ ") may not match " +:+
  "the live v3.11.0 Redis layout; the stall condition's " +:+
  "'nobody is processing' leg is vacuously true and could periodic-" +:+
  "restart web_background. Run docs/kind-validation.md Resque layout " +:+
  "checklist (#44). RESQUE_WORKERS_SEEN_MAX is 0 — alert on " +:+
  "`openstudio_operator_resque_workers_seen_max == 0 AND queue depth > 0`.".

(** The warning is due: never emitted, no worker ever seen, the registry empty
    beyond the grace.  The result is the number of seconds. *)
Definition layout_warning_due (leg2 : Leg2SafeguardState) : option Z :=
  if layout_warning_emitted leg2 then None
  else if 0 <? max_workers_seen leg2 then None
  else since ← empty_registry_since leg2;
       if now - since <? _LAYOUT_WARNING_GRACE_SECONDS then None
       else Some (Z.quot (now - since) us_second).

Definition _maybe_warn_resque_layout_unknown : M W P unit :=
  leg2 ← get_part (C:=Leg2SafeguardState);
  match layout_warning_due leg2 with
  | None => mret tt
  | Some elapsed =>
      put_part (MkLeg2 (max_workers_seen leg2) (empty_registry_since leg2) true);;
      emit "Warning" RESQUE_KEY_LAYOUT_UNKNOWN_EVENT (layout_unknown_message elapsed)
  end.

(** ** The tick, in stages *)

(** A condition that cannot be evaluated forgets the window and re-raises. *)
Definition evaluate_condition : M W P bool :=
  try_except
    (_stall_condition_holds (target_deployment (target_worker_deployment config) DEFAULT_WORKER_DEPLOYMENT)
       DEFAULT_WORKER_HEARTBEAT_STALE_SECONDS)
    (λ e, if is_redis_client_error e || is_api_exception e then
            Some (tracker ← get_part (C:=StallWindowTracker);
                  put_part (tracker_reset tracker);;
                  gauge "STALL_WINDOW_ELAPSED_SECONDS" [] (MSeconds 0);;
                  set_stall_window_started_at store None;;
                  raise e)
          else None).

(** The sustained-window clock, seeded from the status when it starts. *)
Definition observe_window (holds : bool) (window : Z) : M W P (bool * bool) :=
  tracker ← get_part (C:=StallWindowTracker);
  let window_began := holds && negb (opt_is_some (first_observed tracker)) in
  (if window_began then
     persisted ← get_stall_window_started_at store;
     match persisted with
     | Some t => put_part (MkTracker (Some t) (first_clean tracker))
     | None => mret tt
     end
   else mret tt);;
  tracker ← get_part (C:=StallWindowTracker);
  let '(tracker, sustained) := observe tracker holds now window in
  put_part tracker;;
  gauge "STALL_WINDOW_ELAPSED_SECONDS" []
    (MSeconds (match first_observed tracker with
               | Some t => if holds then Z.max (now - t) 0 else 0
               | None => 0
               end));;
  gauge "STALL_WINDOW_FRESH" [] MNow;;
  (if window_began then set_stall_window_started_at store (first_observed tracker)
   else if negb holds then set_stall_window_started_at store None
   else mret tt);;
  mret (window_began, sustained).

(** A clean window clears the restart bookkeeping. *)
Definition clear_after_clean_window (holds : bool) (window : Z) (last_restart : option Z) : M W P unit :=
  tracker ← get_part (C:=StallWindowTracker);
  let clean := negb holds && match first_clean tracker with Some t => window <=? now - t | None => false end in
  if (clean : bool) then
    relevant ← (if opt_is_some last_restart then mret true
                else n ← get_web_background_ineffective_restarts store; mret (0 <? n));
    if (relevant : bool) then
      set_web_background_ineffective_restarts store 0;;
      when (opt_is_some last_restart) (set_last_web_background_restart_at store None)
    else mret tt
  else mret tt.

(** Consecutive ineffective restarts defer the next one. *)
Definition backed_off (window : Z) (last_restart : option Z) : M W P bool :=
  match last_restart with
  | None => mret false
  | Some last =>
      ineffective_now ← get_web_background_ineffective_restarts store;
      let windows := _backoff_windows ineffective_now in
      if NATURAL_REARM_WINDOWS <? windows then
        limit ← of_res (timedelta (window * windows));
        mret (now - last <=? limit)
      else mret false
  end.

Definition restart_message (deployment : string) (window : Z) : string :=
  "Queue stall sustained " +:+ str_of_Z (window / us_minute) +:+ "m (work queued on " +:+
  "simulations/requeued, no fresh Resque worker heartbeat in 300s, worker pods Running) — restarting " +:+
  "web_background Deployment " +:+ namespace +:+ "/" +:+ deployment +:+ " via " +:+
  RESTARTED_AT_ANNOTATION +:+ " patch" +:+
  (if config_flag (dry_run config) then " — patch suppressed (spec.dryRun)" else "").

(** The restart with its bookkeeping; the operator's own record comes after
    the patch. *)
Definition restart_web_background (window : Z) (last_restart : option Z) : M W P unit :=
  let deployment := target_deployment (target_web_background_deployment config) DEFAULT_WEB_BACKGROUND_DEPLOYMENT in
  when (negb (config_flag (dry_run config))) (rolling_restart_deployment deployment namespace now;; mret tt);;
  emit "Warning" WEB_BACKGROUND_RESTARTED_EVENT (restart_message deployment window);;
  inc "WEB_BACKGROUND_RESTARTS_TOTAL" [];;
  set_stall_window_started_at store None;;
  set_last_web_background_restart_at store (Some now);;
  when (opt_is_some last_restart)
    (before ← get_web_background_ineffective_restarts store;
     let ineffective := before + 1 in
     set_web_background_ineffective_restarts store ineffective;;
     inc "WEB_BACKGROUND_RESTARTS_INEFFECTIVE_TOTAL" [];;
     when (INEFFECTIVE_RESTART_EVENT_THRESHOLD <=? ineffective)
       (emit "Warning" WEB_BACKGROUND_RESTART_INEFFECTIVE_EVENT (_ineffective_breaker_message ineffective)));;
  tracker ← get_part (C:=StallWindowTracker);
  put_part (tracker_reset tracker).

(** The restart is recent. *)
Definition restart_cooling (window : Z) (last_restart : option Z) : bool :=
  match last_restart with Some last => now - last <=? window | None => false end.

Definition run_stall_tick : M W P bool :=
  window ← of_res (config_minutes (stall_window_minutes (web_background_policy config)));
  last_restart ← get_last_web_background_restart_at store;
  if restart_cooling window last_restart then
    gauge "RESQUE_QUEUE_DEPTH_FRESH" [] MNow;;
    gauge "STALL_WINDOW_FRESH" [] MNow;;
    mret false
  else
    holds ← evaluate_condition;
    try_except _maybe_warn_resque_layout_unknown (λ _, Some (mret tt));;
    '(_, sustained) ← observe_window holds window;
    clear_after_clean_window holds window last_restart;;
    if negb sustained then mret false
    else
      deferred ← backed_off window last_restart;
      if (deferred : bool) then mret false
      else restart_web_background window last_restart;; mret true.
End monitor.

(** ** Revalidation of the key layout *)

(** [_maybe_revalidate_redis_key_layout]: [last] is the module global
    [_last_key_layout_revalidation], [check] the layout check. *)
Definition revalidation_due (last : option Z) (now : Z) : bool :=
  match last with
  | Some t => negb (now - t <? REDIS_KEY_LAYOUT_REVALIDATION_INTERVAL)
  | None => true
  end.

Definition _maybe_revalidate_redis_key_layout {W P} `{Lens P (option Z)} (check : M W P unit) (now : Z)
  : M W P unit :=
  last ← get_part (C:=option Z);
  when (revalidation_due last now) (put_part (Some now);; check).

Definition reset_key_layout_revalidation_state {W P} `{Lens P (option Z)} : M W P unit :=
  put_part (None : option Z).
