(* ===== verification/WebBackgroundSpec.v ===== *)
(** * The stall monitor restarts only when it may

    The sustained-window clock against its reference, the back-off schedule,
    what a tick can do, the spacing of restarts and their durable record. *)
From S2P Require Import Prelude PyValue Effects Logic PyTime Services Config StatusRecords StatusStore StatusStoreFacts StatusScalars SimWorld StatusStoreSpec RestClient RestClientSpec Actions KubeOps Url RedisClient RedisClientSpec AnalysisSla AnalysisSlaSpec WorkerRecycler WebBackground.

(** ** The window clock *)

(** The tracker after a run of observations, oldest first. *)
Definition tracker_after (window : Z) (obs : list (bool * Z)) : StallWindowTracker :=
  fold_left (λ t o, (observe t o.1 o.2 window).1) obs new_tracker.

(** The condition has held at every observation since the one at [start], and
    not at the one before it. *)
Definition holds_since (obs : list (bool * Z)) (start : Z) : Prop :=
  ∃ before after, obs = before ++ (true, start) :: after ∧ Forall (λ o, o.1 = true) after ∧
    (before = [] ∨ ∃ t, last before = Some (false, t)).

Lemma tracker_after_snoc window obs o :
  tracker_after window (obs ++ [o]) = (observe (tracker_after window obs) o.1 o.2 window).1.
Proof. unfold tracker_after. by rewrite fold_left_app. Qed.

(** An observation that holds starts the window or continues it. *)
Lemma holds_since_snoc obs now start :
  holds_since (obs ++ [(true, now)]) start ↔
  holds_since obs start ∨ (start = now ∧ (obs = [] ∨ ∃ t, last obs = Some (false, t))).
Proof.
  unfold holds_since. split.
  - intros (before & after & E & Ha & Hb). destruct after as [|o after _] using rev_ind.
    + apply app_inj_tail in E as [-> [= ->]]. right. split; [done|]. destruct Hb; [by left|by right].
    + left. rewrite app_comm_cons, app_assoc in E. apply app_inj_tail in E as [-> <-].
      apply Forall_app in Ha as [Ha _]. by exists before, after.
  - intros [(before & after & -> & Ha & Hb)|[-> Hb]].
    + exists before, (after ++ [(true, now)]). split; [by rewrite <-app_assoc|]. split; [|done].
      apply Forall_app. split; [done|by constructor].
    + exists obs, []. split; [done|]. by split.
Qed.

Lemma holds_since_last obs start o : holds_since obs start → last obs = Some o → o.1 = true.
Proof.
  intros (before & after & -> & Ha & _) Hl. destruct after as [|o' after _] using rev_ind.
  - rewrite last_snoc in Hl. by injection Hl as <-.
  - rewrite app_comm_cons, app_assoc, last_snoc in Hl. injection Hl as <-.
    apply Forall_app in Ha as [_ Ha]. by inv Ha.
Qed.

(** The clock's start is the reference's. *)
Lemma first_observed_spec window obs start :
  first_observed (tracker_after window obs) = Some start ↔ holds_since obs start.
Proof.
  revert start. induction obs as [|[holds now] obs IH] using rev_ind; intros start.
  - split; [done|]. intros (before & after & E & _). by destruct before.
  - rewrite tracker_after_snoc. cbn [fst snd]. destruct holds; unfold observe; cbn [negb fst first_observed].
    + rewrite holds_since_snoc. destruct (first_observed (tracker_after window obs)) as [t|] eqn:Et; simpl.
      * pose proof (proj1 (IH t) eq_refl) as Hs. split.
        { intros [= <-]. by left. }
        intros [Hs'%IH|[-> Hno]]; [done|]. exfalso.
        destruct Hno as [->|[t' Hl]]; [by destruct Hs as (before & ? & E & _); destruct before|].
        by apply (holds_since_last _ _ _ Hs) in Hl.
      * split.
        { intros [= <-]. right. split; [done|]. destruct obs as [|[h t] obs _] using rev_ind; [by left|right].
          rewrite last_snoc. destruct h; [|by eexists]. rewrite tracker_after_snoc in Et. by cbn in Et. }
        intros [Hs%IH|[-> _]]; [by rewrite Hs in Et|done].
    + split; [done|]. intros Hs. exfalso.
      by apply (holds_since_last _ _ (false, now)) in Hs; [|by rewrite last_snoc].
Qed.

(** C26: the monitor's clock fires on an observation exactly when the condition
    holds there and has held at every observation since one at least a full
    window earlier. *)
Theorem window_fires window obs holds now :
  (observe (tracker_after window obs) holds now window).2 = true ↔
  holds = true ∧ ∃ start, holds_since (obs ++ [(holds, now)]) start ∧ window ≤ now - start.
Proof.
  destruct holds; unfold observe; cbn [negb snd].
  2: { split; [done|]. by intros [? _]. }
  rewrite Z.leb_le. set (since := default now (first_observed (tracker_after window obs))).
  assert (Hs : holds_since (obs ++ [(true, now)]) since).
  { apply (first_observed_spec window). rewrite tracker_after_snoc. done. }
  split; [intros Hle; split; [done|]; by exists since|].
  intros (_ & start & Hstart & Hle). apply (first_observed_spec window) in Hs, Hstart. congruence.
Qed.

(** The back-off is monotone in the number of ineffective restarts and stays
    between the natural cadence and eight windows. *)
Theorem backoff_monotone m n :
  m ≤ n → NATURAL_REARM_WINDOWS ≤ _backoff_windows m ≤ _backoff_windows n ∧ _backoff_windows n ≤ 8.
Proof.
  intros Hmn. unfold _backoff_windows, BACKOFF_WINDOW_SCHEDULE, NATURAL_REARM_WINDOWS. simpl.
  repeat case_match; lia.
Qed.

Lemma backoff_monotone_witness :
  3 ≤ 7 ∧ NATURAL_REARM_WINDOWS ≤ _backoff_windows 3 ≤ _backoff_windows 7 ∧ _backoff_windows 7 ≤ 8.
Proof. split; [lia|]. apply (backoff_monotone 3 7). lia. Defined.

(** ** What a tick can do *)

Section monitor.
Context {W P : Type}.
Context `{StatusServer W} `{Entropy W} `{StatusEventSink W P} `{KeyOrder} `{HttpApi W}.
Context `{AppsV1Api W} `{CoreV1Api W} `{RedisApi W} `{Clock W}.
Context `{Lens P StallWindowTracker} `{Lens P Leg2SafeguardState}.
Context (redis_client : ReadOnlyRedisClient) (store : Store) (config : OperatorConfig).
Context (namespace : string) (now : Z) (emit : string → string → string → M W P unit).
Context `{!QuietCollaborators emit None}.
Implicit Types s : st W P.

Notation tick := (run_stall_tick redis_client store config namespace now emit).

(** The restart the tick may send. *)
Definition stall_patch : action :=
  KubePatchDeployment
    (target_deployment (target_web_background_deployment config) DEFAULT_WEB_BACKGROUND_DEPLOYMENT) namespace
    (restart_patch RESTARTED_AT_ANNOTATION (isoformat now)).

Section bound.
Context (Pa : action → Prop) (HP : ∀ a, harmless a → Pa a).

Lemma redis_read_harmless a : redis_read a → Pa a.
Proof. intros Ha. apply HP. by destruct a. Qed.

Lemma condition_bound d stale : within (emits Pa) (_stall_condition_holds (P:=P) redis_client namespace now d stale).
Proof.
  destruct (redis_queries_bound (P:=P) redis_client Pa redis_read_harmless) as (_ & Hh & Hq & Hs & _).
  assert (Hd : within (emits Pa) (deployment_label_selector (P:=P) d namespace)).
  { apply label_selector_bound; intros; by apply HP. }
  unfold _stall_condition_holds, _worker_pods_healthy, note_workers, note_registry, get_part, put_part.
  solve_within; try (by apply HP).
Qed.

Lemma layout_warning_bound : within (emits Pa) (_maybe_warn_resque_layout_unknown now emit).
Proof.
  pose proof (emit_bound emit None Pa HP).
  unfold _maybe_warn_resque_layout_unknown, get_part, put_part. solve_within.
Qed.

Lemma restart_bound window last :
  (config_flag (dry_run config) = false → Pa stall_patch) →
  within (emits Pa) (restart_web_background store config namespace now emit window last).
Proof.
  intros Hpatch. pose proof (store_bound store emit None Pa HP). pose proof (emit_bound emit None Pa HP).
  assert (Hr : within (emits Pa) (when (negb (config_flag (dry_run config)))
    (rolling_restart_deployment (P:=P)
      (target_deployment (target_web_background_deployment config) DEFAULT_WEB_BACKGROUND_DEPLOYMENT) namespace now;;
     mret tt))).
  { destruct (config_flag (dry_run config)) eqn:Ed; cbn [negb when]; [solve_within|].
    apply within_bind; [apply _| |intros; solve_within].
    apply rolling_restart_bound; [by apply Hpatch|intros; by apply HP]. }
  unfold restart_web_background, get_part, put_part. apply within_bind; [apply _|exact Hr|intros _].
  solve_within; try (by apply HP).
Qed.

Lemma stall_tick_bound :
  (config_flag (dry_run config) = false → Pa stall_patch) → within (emits Pa) tick.
Proof.
  intros Hpatch. pose proof (store_bound store emit None Pa HP).
  pose proof condition_bound. pose proof layout_warning_bound. pose proof (λ w l, restart_bound w l Hpatch).
  unfold run_stall_tick, evaluate_condition, observe_window, clear_after_clean_window, backed_off, get_part, put_part.
  solve_within; try (by apply HP).
Qed.
End bound.

(** What a stall tick can do: restart the configured web_background
    Deployment in the CR's namespace, never in dry-run; everything else is
    harmless. *)
Theorem stall_actions s :
  Forall (λ a, harmless a ∨ (config_flag (dry_run config) = false ∧ a = stall_patch)) (new_actions tick s).
Proof. apply new_actions_emits, stall_tick_bound; [by left|]. intros Hd. by right. Qed.
End monitor.

(** ** Spacing and record of restarts *)

Section spacing.
Context {W P : Type}.
Context `{StatusServer W} `{Entropy W} `{StatusEventSink W P} `{KeyOrder} `{HttpApi W}.
Context `{AppsV1Api W} `{CoreV1Api W} `{RedisApi W} `{Clock W}.
Context `{Lens P StallWindowTracker} `{Lens P Leg2SafeguardState}.
Context (redis_client : ReadOnlyRedisClient) (store : Store) (config : OperatorConfig).
Context (namespace : string) (now : Z) (emit : string → string → string → M W P unit).
Implicit Types s : st W P.

(** Calls to the other services and Events leave the CR's status alone. *)
Class StallKeepsDoc : Prop := {
  stall_emit_keeps t rs m : within (keeps (doc store)) (emit t rs m);
  redis_keeps url args (w : W) : status_doc (redis_call url args w).2 = status_doc w;
  read_deployment_keeps name ns (w : W) : status_doc (read_deployment_call name ns w).2 = status_doc w;
  patch_deployment_keeps name ns body (w : W) : status_doc (patch_deployment_call name ns body w).2 = status_doc w;
  list_pods_keeps ns sel (w : W) : status_doc (list_pods_call ns sel w).2 = status_doc w;
}.
Context `{!StallKeepsDoc}.

Notation tick := (run_stall_tick redis_client store config namespace now emit).
Notation keeps_doc m := (within (keeps (doc store)) m).

Lemma execute_keeps_doc command args : keeps_doc (_execute (P:=P) redis_client command args).
Proof.
  unfold _execute. destruct (bool_decide _); cbn [negb]; [|solve_within].
  apply within_try; [apply _|apply ext_keeps_doc; intros; apply redis_keeps|].
  intros e k. destruct e; intros [= <-]; solve_within.
Qed.

Lemma condition_keeps_doc d stale : keeps_doc (_stall_condition_holds (P:=P) redis_client namespace now d stale).
Proof.
  pose proof execute_keeps_doc.
  assert (Hg : ∀ f ls v, keeps_doc (gauge (W:=W) (P:=P) f ls v)) by (intros; apply act_keeps_doc).
  assert (Hh : keeps_doc (worker_heartbeats (P:=P) redis_client)) by (unfold worker_heartbeats, observe_redis; solve_within).
  assert (Hr : ∀ n ns, keeps_doc (read_namespaced_deployment (P:=P) n ns))
    by (intros; apply ext_keeps_doc; intros; apply read_deployment_keeps).
  assert (Hp : ∀ ns sel, keeps_doc (list_namespaced_pod (P:=P) ns sel))
    by (intros; apply ext_keeps_doc; intros; apply list_pods_keeps).
  unfold _stall_condition_holds, _worker_pods_healthy, deployment_label_selector, note_workers, note_registry,
    queue_depths, queue_depth, stale_workers, observe_redis.
  solve_within.
Qed.

Lemma evaluate_run s holds s' :
  evaluate_condition redis_client store config namespace now s = (Ok holds, s') → doc store s' = doc store s.
Proof.
  unfold evaluate_condition, try_except.
  set (stale := DEFAULT_WORKER_HEARTBEAT_STALE_SECONDS). clearbody stale.
  destruct (_stall_condition_holds _ _ _ _ _ s) as [[h|e] s1] eqn:E.
  - intros [= <- <-]. by apply (run_keeps (doc store)) in E; [|apply condition_keeps_doc].
  - destruct (_ || _); [|done].
    intros Hr. exfalso. revert Hr. repeat (rewrite bind_Ok; intros (? & ? & _ & Hr); revert Hr). done.
Qed.

Lemma warn_keeps_doc : keeps_doc (try_except (_maybe_warn_resque_layout_unknown now emit) (λ _, Some (mret tt))).
Proof.
  pose proof stall_emit_keeps.
  apply within_try; [apply _| |intros e k [= <-]; solve_within].
  unfold _maybe_warn_resque_layout_unknown. solve_within.
Qed.

(** Only the window's own field is written while the condition holds. *)
Lemma observe_window_run holds window s b sustained s' :
  observe_window store now holds window s = (Ok (b, sustained), s') →
  (∀ f, f ≠ STALL_WINDOW_STARTED_AT → doc store s' !! f = doc store s !! f) ∧
  (sustained = true → holds = true).
Proof.
  unfold observe_window. rewrite bind_Ok. intros (tr & s1 & E1 & E). cbn in E1. injection E1 as <- <-.
  revert E. rewrite bind_Ok. intros ([] & s2 & E2 & E).
  assert (D2 : doc store s2 = doc store s).
  { apply (run_keeps (doc store)) in E2; [done|].
    pose proof (get_scalar_keeps (P:=P) store STALL_WINDOW_STARTED_AT). unfold get_stall_window_started_at. solve_within. }
  revert E. rewrite bind_Ok. intros (tr' & s3 & E3 & E). cbn in E3. injection E3 as <- <-.
  destruct (observe _ holds now window) as [tr sust] eqn:Eo.
  revert E. rewrite bind_Ok. intros ([] & s4 & E4 & E). cbn in E4. injection E4 as <-.
  revert E. rewrite bind_Ok. intros ([] & s5 & E5 & E). cbn in E5. injection E5 as <-.
  revert E. rewrite bind_Ok. intros ([] & s6 & E6 & E). cbn in E6. injection E6 as <-.
  revert E. rewrite bind_Ok. intros ([] & s7 & E7 & E). injection E as <- <- <-.
  split.
  - intros f Hf. rewrite <-D2. revert E7. unfold set_stall_window_started_at.
    destruct (holds && _); [|destruct (negb holds)].
    + intros (_ & E7)%set_scalar_run. rewrite E7. by rewrite scalar_after_ne.
    + intros (_ & E7)%set_scalar_run. rewrite E7. by rewrite scalar_after_ne.
    + by intros [= <-].
  - intros ->. destruct holds; [done|]. by cbn in Eo.
Qed.

(** C27: restarts keep their distance: after a recorded restart the next one
    comes only when more than a full window has passed, and after three or more
    ineffective ones only beyond the scheduled number of windows. *)
Theorem restart_spacing s s' last :
  tick s = (Ok true, s') →
  parse_opt_utc (dget (doc store s) LAST_WEB_BACKGROUND_RESTART_AT) ("status." +:+ LAST_WEB_BACKGROUND_RESTART_AT)
    = Ok (Some last) →
  ∃ window, config_minutes (stall_window_minutes (web_background_policy config)) = Ok window ∧
    window < now - last ∧
    ∀ n, int_of (dget (doc store s) WEB_BACKGROUND_INEFFECTIVE_RESTARTS) = Some n → 3 ≤ n →
      window * _backoff_windows n < now - last.
Proof.
  intros E Hlast. unfold run_stall_tick in E. apply bind_Ok in E as (window & s0 & [= Ew <-] & E).
  exists window. split; [done|]. apply bind_Ok in E as (lr & s1 & E1 & E).
  apply get_scalar_run in E1 as [D1 Hlr]. specialize (Hlr lr eq_refl). rewrite Hlast in Hlr. injection Hlr as <-.
  unfold restart_cooling in E. destruct (Z.leb_spec (now - last) window) as [Hle|Hlt].
  { exfalso. revert E. rewrite bind_Ok. intros ([] & ? & _ & E). revert E. rewrite bind_Ok. by intros ([] & ? & _ & E). }
  split; [done|]. apply bind_Ok in E as (holds & s2 & E2 & E). apply evaluate_run in E2.
  apply bind_Ok in E as ([] & s3 & E3 & E). apply (run_keeps (doc store)) in E3; [|apply warn_keeps_doc].
  apply bind_Ok in E as ([b sustained] & s4 & E4 & E). apply observe_window_run in E4 as [D4 Hsus].
  apply bind_Ok in E as ([] & s5 & E5 & E). destruct sustained; cbn [negb] in E; [|done].
  rewrite (Hsus eq_refl) in E5. assert (D5 : doc store s5 = doc store s4) by (cbn in E5; by injection E5 as <-).
  apply bind_Ok in E as (deferred & s6 & E6 & E). destruct deferred; [done|].
  intros n Hn Hn3. unfold backed_off in E6. apply bind_Ok in E6 as (n' & s7 & E7 & E6).
  apply get_int_run in E7 as [_ Hn']. specialize (Hn' n' eq_refl).
  assert (dget (doc store s5) WEB_BACKGROUND_INEFFECTIVE_RESTARTS = dget (doc store s) WEB_BACKGROUND_INEFFECTIVE_RESTARTS)
    as Hd by (unfold dget; rewrite D5, D4 by done; by rewrite E3, E2, D1).
  rewrite Hd, Hn in Hn'. injection Hn' as <-.
  assert (Hw : (NATURAL_REARM_WINDOWS <? _backoff_windows n) = true).
  { unfold _backoff_windows, BACKOFF_WINDOW_SCHEDULE, NATURAL_REARM_WINDOWS. simpl. repeat case_match; lia. }
  cbv zeta in E6. rewrite Hw in E6. apply bind_Ok in E6 as (limit & s8 & [= Et <-] & E6).
  injection E6 as E6 <-. unfold timedelta in Et. case_match; [|done]. injection Et as <-. lia.
Qed.

(** What the restart's last steps leave in the document. *)
Lemma restart_run window lr s s' :
  datetime_ok now = true →
  restart_web_background store config namespace now emit window lr s = (Ok tt, s') →
  parse_opt_utc (dget (doc store s') LAST_WEB_BACKGROUND_RESTART_AT) ("status." +:+ LAST_WEB_BACKGROUND_RESTART_AT)
    = Ok (Some now) ∧
  dget (doc store s') STALL_WINDOW_STARTED_AT = PNone ∧ lget (mem s') = new_tracker.
Proof.
  intros Hnow E. unfold restart_web_background in E. cbv zeta in E.
  apply bind_Ok in E as ([] & s1 & _ & E). apply bind_Ok in E as ([] & s2 & _ & E).
  apply bind_Ok in E as ([] & s3 & _ & E). apply bind_Ok in E as ([] & s4 & E4 & E).
  apply bind_Ok in E as ([] & s5 & E5 & E). apply bind_Ok in E as ([] & s6 & E6 & E).
  apply bind_Ok in E as (tr & s7 & E7 & E). cbn in E7. injection E7 as <- <-.
  apply set_scalar_run in E4 as [_ E4], E5 as [_ E5].
  assert (D6 : ∀ f, f ≠ WEB_BACKGROUND_INEFFECTIVE_RESTARTS → doc store s6 !! f = doc store s5 !! f).
  { intros f Hf. destruct (opt_is_some lr); cbn [when] in E6; [|by injection E6 as <-].
    apply bind_Ok in E6 as (n & t1 & T1 & E6). apply get_int_run in T1 as [T1 _].
    cbv zeta in E6. apply bind_Ok in E6 as ([] & t2 & T2 & E6). apply set_int_run in T2 as [_ T2].
    apply bind_Ok in E6 as ([] & t3 & T3 & E6). apply (run_keeps (doc store)) in T3; [|apply act_keeps_doc].
    apply (run_keeps (doc store)) in E6; [|apply within_when; [apply _|apply stall_emit_keeps]].
    by rewrite E6, T3, T2, scalar_after_ne, T1. }
  assert (Dd : ∀ f, f ≠ WEB_BACKGROUND_INEFFECTIVE_RESTARTS → dget (doc store s') f = dget (doc store s5) f).
  { intros f Hf. unfold dget. rewrite <-D6 by done. cbn in E. by injection E as <-. }
  rewrite !Dd, E5 by done. split_and!.
  - rewrite (scalar_after_time LAST_WEB_BACKGROUND_RESTART_AT (Some now)). by apply (parse_opt_utc_iso (Some now)).
  - unfold dget. rewrite scalar_after_ne, E4 by done. apply (scalar_after_time STALL_WINDOW_STARTED_AT None).
  - cbn in E. injection E as <-. cbn. apply lget_lput.
Qed.

(** C29: a restart that returns is on record: the status holds its time, the
    persisted window is gone and the tracker starts over. *)
Theorem restart_recorded s s' :
  datetime_ok now = true → tick s = (Ok true, s') →
  parse_opt_utc (dget (doc store s') LAST_WEB_BACKGROUND_RESTART_AT) ("status." +:+ LAST_WEB_BACKGROUND_RESTART_AT)
    = Ok (Some now) ∧
  dget (doc store s') STALL_WINDOW_STARTED_AT = PNone ∧ lget (mem s') = new_tracker.
Proof.
  intros Hnow E. unfold run_stall_tick in E.
  apply bind_Ok in E as (window & s0 & _ & E). apply bind_Ok in E as (lr & s1 & _ & E).
  destruct (restart_cooling _ _ _).
  { exfalso. revert E. rewrite bind_Ok. intros ([] & ? & _ & E). revert E. rewrite bind_Ok. by intros ([] & ? & _ & E). }
  apply bind_Ok in E as (holds & s2 & _ & E). apply bind_Ok in E as ([] & s3 & _ & E).
  apply bind_Ok in E as ([b sustained] & s4 & _ & E). apply bind_Ok in E as ([] & s5 & _ & E).
  destruct (negb sustained); [done|]. apply bind_Ok in E as ([] & s6 & _ & E); [done|].
  apply bind_Ok in E as ([] & s7 & E7 & [= <-]). by eapply restart_run.
Qed.

(** A tick that cannot evaluate the condition fails, forgets the window in
    memory and, if the status write succeeds, in the status, so that no restart
    rests on observations made before the outage. *)
Theorem blind_tick_forgets s e s1 :
  _stall_condition_holds redis_client namespace now
    (target_deployment (target_worker_deployment config) DEFAULT_WORKER_DEPLOYMENT)
    DEFAULT_WORKER_HEARTBEAT_STALE_SECONDS s = (Raise e, s1) →
  is_redis_client_error e || is_api_exception e = true →
  ∃ e' s', evaluate_condition redis_client store config namespace now s = (Raise e', s') ∧
    lget (mem s') = new_tracker ∧
    ((e' = e ∧ dget (doc store s') STALL_WINDOW_STARTED_AT = PNone) ∨
     ∃ s2, set_stall_window_started_at store None s2 = (Raise e', s')).
Proof.
  intros E He. pose proof (run_keeps (doc store) _ _ _ _ (condition_keeps_doc _ _) E) as D1.
  unfold evaluate_condition, try_except. rewrite E, He.
  rewrite (bind_run get_part _ s1 (lget (mem s1)) s1) by done.
  rewrite (bind_run (put_part _) _ s1 tt (St (world s1) (lput new_tracker (mem s1)) (shared s1) (log s1))) by done.
  set (s2 := St _ _ _ _). rewrite (bind_run (gauge _ _ _) _ s2 tt (St (world s2) (mem s2) (shared s2)
    (log s2 ++ [MetricSet "STALL_WINDOW_ELAPSED_SECONDS" [] (MSeconds 0)]))) by done.
  set (s3 := St (world s2) _ _ _). assert (D3 : doc store s3 = doc store s) by exact D1.
  assert (M3 : lget (mem s3) = new_tracker) by apply lget_lput.
  destruct (set_stall_window_started_at store None s3) as [r s4] eqn:E4.
  pose proof (set_scalar_run store _ None _ _ _ E4) as [(Hm & _ & _) Hr]. destruct r as [[]|e'].
  - rewrite (bind_run _ _ s3 tt s4) by exact E4. exists e, s4. split; [done|]. split; [congruence|]. left.
    rewrite Hr. split; [done|apply (scalar_after_time STALL_WINDOW_STARTED_AT None)].
  - rewrite (bind_raise _ _ s3 e' s4) by exact E4. exists e', s4. split; [done|]. split; [congruence|].
    right. by exists s3.
Qed.
End spacing.

(** ** Concrete ticks *)

#[local] Existing Instance sim_sink.

(** The memory of the monitor: the tracker and the safeguard. *)
Definition stall_mem : Type := StallWindowTracker * Leg2SafeguardState.
#[export, refine] Instance stall_tracker_lens : Lens stall_mem StallWindowTracker := {
  lget := fst; lput t p := (t, p.2) }.
Proof. done. Defined.
#[export, refine] Instance stall_leg2_lens : Lens stall_mem Leg2SafeguardState := {
  lget := snd; lput l p := (p.1, l) }.
Proof. done. Defined.

Definition stall_redis (cmd : list string) : res pv :=
  match cmd with
  | ["SMEMBERS"; _] => Ok (PList [])
  | ["LLEN"; _] => Ok (PInt 4)
  | _ => Raise (RedisError "unexpected")
  end.

(** A stalled cluster: queued work, no worker, one healthy worker pod. *)
Definition stall_world (d : gmap string pv) (redis : list string → res pv) : sim :=
  Sim {[("ns", "cr") := d]} 0 (PDict ∅) [Pod (Some "worker-1") (Some "Running") [("Ready", "True")]]
    {["worker" := Deployment [("app", "worker")] []]} ∅ ∅ (λ _ _, not_found) redis.

Definition stall_client : ReadOnlyRedisClient := MkReadOnlyRedisClient "redis://queue" "redis://queue" None 60.

#[local] Instance stall_keeps : StallKeepsDoc (P:=stall_mem) sim_store sim_emit.
Proof. by split; intros; try intros s. Qed.

(** Twenty minutes into a stall, an hour after the last restart. *)
Definition stall_doc : gmap string pv :=
  {[LAST_WEB_BACKGROUND_RESTART_AT := iso_pv 0; STALL_WINDOW_STARTED_AT := iso_pv (40 * us_minute)]}.

Definition stall_start : st sim stall_mem :=
  sim_start (stall_world stall_doc stall_redis) (new_tracker, new_leg2).

Notation stall_run := (run_stall_tick stall_client sim_store (sla_config false) "ns" (60 * us_minute) sim_emit stall_start).

Lemma stall_run_fires : stall_run = (Ok true, stall_run.2).
Proof. apply run_eq. vm_compute; reflexivity. Qed.

Lemma stall_actions_witness :
  Forall (λ a, harmless a ∨ (config_flag (dry_run (sla_config false)) = false ∧
      a = stall_patch (sla_config false) "ns" (60 * us_minute)))
    (new_actions (run_stall_tick stall_client sim_store (sla_config false) "ns" (60 * us_minute) sim_emit) stall_start).
Proof. apply (stall_actions stall_client sim_store (sla_config false) "ns" (60 * us_minute) sim_emit). Defined.

Lemma restart_spacing_witness :
  ∃ window, config_minutes (stall_window_minutes (web_background_policy (sla_config false))) = Ok window ∧
    window < 60 * us_minute - 0 ∧
    ∀ n, int_of (dget (doc sim_store stall_start) WEB_BACKGROUND_INEFFECTIVE_RESTARTS) = Some n → 3 ≤ n →
      window * _backoff_windows n < 60 * us_minute - 0.
Proof.
  apply (restart_spacing stall_client sim_store (sla_config false) "ns" (60 * us_minute) sim_emit
    stall_start stall_run.2 0).
  - exact stall_run_fires.
  - vm_compute; reflexivity.
Defined.

Lemma restart_recorded_witness :
  let d := doc sim_store stall_run.2 in
  parse_opt_utc (dget d LAST_WEB_BACKGROUND_RESTART_AT) ("status." +:+ LAST_WEB_BACKGROUND_RESTART_AT)
    = Ok (Some (60 * us_minute)) ∧
  dget d STALL_WINDOW_STARTED_AT = PNone ∧
  lget (C:=StallWindowTracker) (mem stall_run.2) = new_tracker.
Proof.
  apply (restart_recorded stall_client sim_store (sla_config false) "ns" (60 * us_minute) sim_emit stall_start).
  - vm_compute; reflexivity.
  - exact stall_run_fires.
Defined.

(** Redis is down. *)
Definition blind_start : st sim stall_mem :=
  sim_start (stall_world stall_doc (λ _, Raise (RedisError "down"))) (MkTracker (Some 0) None, new_leg2).

Notation blind_condition := (_stall_condition_holds stall_client "ns" (60 * us_minute)
  (target_deployment (target_worker_deployment (sla_config false)) DEFAULT_WORKER_DEPLOYMENT)
  DEFAULT_WORKER_HEARTBEAT_STALE_SECONDS blind_start).

Lemma blind_tick_forgets_witness :
  ∃ e' s', evaluate_condition stall_client sim_store (sla_config false) "ns" (60 * us_minute) blind_start = (Raise e', s') ∧
    lget (C:=StallWindowTracker) (mem s') = new_tracker ∧
    ((e' = RedisClientError "SMEMBERS failed: down" ∧ dget (doc sim_store s') STALL_WINDOW_STARTED_AT = PNone) ∨
     ∃ s2, set_stall_window_started_at sim_store None s2 = (Raise e', s')).
Proof.
  apply (blind_tick_forgets stall_client sim_store (sla_config false) "ns" (60 * us_minute) sim_emit blind_start
    (RedisClientError "SMEMBERS failed: down") blind_condition.2).
  - apply run_eq. vm_compute; reflexivity.
  - done.
Defined.
