(* ===== verification/RedisLayout.v ===== *)
(** * The Redis key-layout check ([handlers/redis_layout_check.py])

    One validation of the key layout per CR, on watch events and, through the
    stall monitor, periodically.  The freshness gauge is read back: it is a
    cell of the process memory. *)
From S2P Require Import Prelude PyValue Effects Logic PyTime Services Config KubeOps K8sApi StatusRecords StatusStore RestClient Url RedisClient ClientFactory SimWorld RedisClientSpec Events WebBackground.

(** The value of [REDIS_KEY_LAYOUT_STATUS_FRESH], 0 in a fresh process. *)
Record LayoutFresh := MkLayoutFresh { fresh_stamp : Z }.

Definition _REASON_LABELS : gmap string string :=
  {["ok" := "ok"; "degraded" := "layout_mismatch"; "unreachable" := "unreachable"; "error" := "error"; "skipped" := "skipped"]}.

(** [except (RedisClientError, OSError)]; the exceptions of requests are [OSError]s. *)
Definition is_unreachable (e : exn) : bool :=
  match e with OSError _ | RequestsError _ _ _ => true | e => is_redis_client_error e end.

(** Namespace and name of an item; [plain]: the item is a [dict], not the
    mapping view kopf hands to a watch handler. *)
Definition _validate_item_meta (plain : bool) (item : pv) : option (string * string) :=
  m ← mapping item;
  meta ← match dget m "metadata" with PDict meta => Some meta | _ => if plain then Some m else None end;
  let ns := str_or_empty (dget meta "namespace") in
  let nm := str_or_empty (dget meta "name") in
  if String.eqb ns "" || String.eqb nm "" then None else Some (ns, nm).

Definition drift_message (e : exn) : string :=
  "Redis key layout validation failed (issue #163): " +:+ exn_msg e +:+
  ". Modules 3/5 (worker recycler / web_background stall) may produce noisy signals or stay silent — the " +:+
  "centralized Resque key constants in src/openstudio_operator/redis_client.py do not match the " +:+
  "live Redis layout. Verify with `redis-cli -u <redis_url> KEYS 'resque:*'` and update " +:+
  "the constants (see issue #44 / docs/kind-validation.md).".

(** The actions of [_set_redis_key_layout_status]. *)
Definition status_actions (status : string) : list action :=
  [MetricSet "REDIS_KEY_LAYOUT_STATUS" [] (MInt (if String.eqb status "ok" then 1 else 0));
   MetricSet "REDIS_KEY_LAYOUT_STATUS_FRESH" [] MNow;
   MetricSet "REDIS_KEY_LAYOUT_STATUS_REASON" [("reason", default status (_REASON_LABELS !! status))] (MInt 1)].

Section layout.
Context {W P : Type}.
Context `{CustomObjectsApi W} `{Entropy W} `{CoreV1Api W} `{KubeConfigApi W} `{RedisApi W} `{Clock W} `{UrlTables}.
Context `{Lens P K8sClients} `{Lens P (list (string * ReadOnlyRedisClient))} `{Lens P SinkQueue} `{Lens P LayoutFresh}.
Context (env : RedisEnv) (store_factory : option (string → string → M W P Store)) (fuel : nat).

(** The gauges, and the freshness stamp. *)
Definition _set_redis_key_layout_status (status : string) : M W P unit :=
  gauge "REDIS_KEY_LAYOUT_STATUS" [] (MInt (if String.eqb status "ok" then 1 else 0));;
  now ← ask clock;
  put_part (MkLayoutFresh now);;
  gauge "REDIS_KEY_LAYOUT_STATUS_FRESH" [] MNow;;
  gauge "REDIS_KEY_LAYOUT_STATUS_REASON" [("reason", default status (_REASON_LABELS !! status))] (MInt 1).

Definition _emit_redis_key_layout_event (namespace name reason message : string) : M W P unit :=
  defer_to_next_tick store_factory (Deferred namespace name reason message).

Definition verdict (status : string) : M W P (option string) :=
  _set_redis_key_layout_status status;; mret (Some status).

(** The URL as the factory takes it: not looked at with a Secret reference. *)
Definition redis_url_arg (config : OperatorConfig) : res string :=
  match redis_url config, redis_secret_ref config with
  | PStr u, _ => Ok u
  | v, Some _ => Ok (py_str v)
  | v, None => Raise (AttributeError (type_name v +:+ " object has no attribute decode"))
  end.

(** The [try] block; [None] when the key scan outlasts the fuel. *)
Definition layout_attempt (namespace : string) (spec : pv) : M W P (option string) :=
  config ← of_res match spec with
                  | PDict m => from_spec m
                  | v => Raise (AttributeError (type_name v +:+ " object has no attribute get"))
                  end;
  if negb (truthy (redis_url config)) && negb (opt_is_some (redis_secret_ref config)) then verdict "skipped"
  else
    url ← of_res (redis_url_arg config);
    client ← get_read_only_redis_client env url (redis_secret_ref config) namespace;
    validated ← validate_key_layout client fuel;
    match validated with Some _ => verdict "ok" | None => mret None end.

(** The [except] clauses. *)
Definition layout_failure (namespace name : string) (e : exn) : M W P (option string) :=
  match e with
  | OperatorConfigError _ =>
      _emit_redis_key_layout_event namespace name "RedisKeyLayoutDrift" (drift_message e);; verdict "degraded"
  | e => verdict (if is_unreachable e then "unreachable" else "error")
  end.

Definition _check_redis_key_layout_for_cr (plain : bool) (item : pv) : M W P (option string) :=
  match _validate_item_meta plain item with
  | None => verdict "skipped"
  | Some (namespace, name) =>
      let spec := match mapping item with Some m => py_or (dget m "spec") (PDict ∅) | None => PNone end in
      try_except (layout_attempt namespace spec) (λ e, Some (layout_failure namespace name e))
  end.

Definition _key_layout_validation_is_fresh : M W P bool :=
  now ← ask clock;
  fresh ← get_part (C:=LayoutFresh);
  mret (now - fresh_stamp fresh <? REDIS_KEY_LAYOUT_REVALIDATION_INTERVAL).

(** The watch handler: an event with a type is skipped while the last check is
    fresh; the initial listing (no type) never is. *)
Definition _redis_key_layout_check (event_type : option string) (body : pv) : M W P unit :=
  skip ← (if opt_is_some event_type then _key_layout_validation_is_fresh else mret false);
  if (skip : bool) then mret tt else _check_redis_key_layout_for_cr false body;; mret tt.

(** ** Facts *)

Implicit Types s : st W P.

Definition statuses : list string := ["ok"; "degraded"; "unreachable"; "error"; "skipped"].

(** What a verdict leaves behind. *)
Definition stamped (status : string) s' : Prop :=
  status ∈ statuses ∧ (∃ l, log s' = l ++ status_actions status) ∧
  fresh_stamp (lget (mem s')) = clock (world s').

Lemma verdict_run status s : status ∈ statuses → ∃ s', verdict status s = (Ok (Some status), s') ∧ stamped status s'.
Proof.
  intros Hs. eexists. split; [reflexivity|]. split; [done|]. cbn. rewrite lget_lput. split; [|done].
  exists (log s). by rewrite <-!app_assoc.
Qed.

(** Queueing a warning never raises: its durable copy is best effort. *)
Lemma defer_never_raises d s : ∃ s', defer_to_next_tick store_factory d s = (Ok tt, s').
Proof.
  assert (Hs : ∀ ns n s, ∃ o s', _store_for store_factory ns n s = (Ok o, s')).
  { intros ns n s0. unfold _store_for. destruct store_factory as [f|]; [|eauto].
    unfold try_except, mbind, M_bind. destruct (f ns n s0) as [[x|e] s1]; eauto. }
  assert (Hp : ∀ s, ∃ s', _persist store_factory d s = (Ok tt, s')).
  { intros s0. unfold _persist. destruct (Hs (def_namespace d) (def_name d) s0) as (o & s1 & E).
    rewrite (bind_run _ _ s0 o s1 E). destruct o as [store|]; [|eauto]. unfold try_except.
    destruct (append_deferred_event store _ _ s1) as [[[]|e] s2]; eauto. }
  unfold defer_to_next_tick. rewrite (bind_run get_part _ s (lget (mem s)) s eq_refl).
  destruct (MAX_DEFERRED_WARNING_EVENTS <=? _); [eauto|].
  unfold mbind at 1, M_bind at 1. rewrite (bind_run (put_part _) _ s tt _ eq_refl).
  match goal with |- context [_persist store_factory d ?s1] => destruct (Hp s1) as (s2 & ->) end. eauto.
Qed.

(** The check never raises, whatever the CR, the Secret, Redis or the
    warning queue answer, and every verdict it returns is the one the gauges
    show: the status gauge is 1 exactly for [ok], the reason is its label, and
    the freshness stamp is the time of the verdict. *)
Theorem layout_check_total plain item s :
  ∃ o s', _check_redis_key_layout_for_cr plain item s = (Ok o, s') ∧
    match o with Some status => stamped status s' | None => True end.
Proof.
  assert (Hv : ∀ status s, status ∈ statuses → ∃ o s', verdict status s = (Ok o, s') ∧
    match o with Some st => stamped st s' | None => True end).
  { intros status s0 Hs. destruct (verdict_run status s0 Hs) as (s' & E & ?). eauto. }
  assert (Hin : ∀ status, bool_decide (status ∈ statuses) = true → status ∈ statuses) by (intros; by eapply bool_decide_eq_true).
  unfold _check_redis_key_layout_for_cr. destruct (_validate_item_meta plain item) as [[ns nm]|]; [|by apply Hv, Hin].
  cbv zeta. set (spec := match mapping item with Some _ => _ | None => _ end). unfold try_except.
  destruct (layout_attempt ns spec s) as [[o|e] s1] eqn:E.
  - exists o, s1. split; [done|]. destruct o as [status|]; [|done]. revert E. unfold layout_attempt.
    rewrite bind_Ok. intros (config & s2 & _ & E). revert E. destruct (_ && _).
    + destruct (verdict_run "skipped" s2) as (s' & -> & Hst); [by apply Hin|]. by intros [= <- <-].
    + rewrite bind_Ok. intros (url & s3 & _ & E). revert E. rewrite bind_Ok. intros (c & s4 & _ & E). revert E.
      rewrite bind_Ok. intros ([[]|] & s5 & _ & E); [|done]. revert E.
      destruct (verdict_run "ok" s5) as (s' & -> & Hst); [by apply Hin|]. by intros [= <- <-].
  - unfold layout_failure. destruct e; try (by apply Hv, Hin).
    destruct (defer_never_raises (Deferred ns nm "RedisKeyLayoutDrift" (drift_message (OperatorConfigError msg))) s1)
      as (s2 & E2).
    unfold _emit_redis_key_layout_event. rewrite (bind_run _ _ s1 tt s2 E2). by apply Hv, Hin.
Qed.

(** One validation per interval: a watch event within the interval of the
    last stamp does nothing at all, and a later one, or the initial listing,
    runs the check. *)
Theorem layout_check_debounced event_type body s :
  let fresh := bool_decide (clock (world s) - fresh_stamp (lget (mem s)) < REDIS_KEY_LAYOUT_REVALIDATION_INTERVAL) in
  _redis_key_layout_check event_type body s =
  if opt_is_some event_type && fresh then (Ok tt, s)
  else (_check_redis_key_layout_for_cr false body;; mret tt) s.
Proof.
  intros fresh. unfold _redis_key_layout_check.
  destruct event_type as [t|]; [|done]. cbn [opt_is_some andb]. subst fresh.
  rewrite (bind_run _key_layout_validation_is_fresh _ s
    (clock (world s) - fresh_stamp (lget (mem s)) <? REDIS_KEY_LAYOUT_REVALIDATION_INTERVAL) s eq_refl).
  destruct (Z.ltb_spec (clock (world s) - fresh_stamp (lget (mem s))) REDIS_KEY_LAYOUT_REVALIDATION_INTERVAL).
  - by rewrite bool_decide_eq_true_2.
  - by rewrite bool_decide_eq_false_2 by lia.
Qed.
End layout.
