(* ===== verification/Frame.v ===== *)
(** * Frames: what the components leave alone

    A frame is a preorder on states that bookkeeping respects.  A component
    touches the process memory only through its lenses, the world only through
    its calls and the status only through its store and its fields; it stays
    within every frame these stay within.  One lemma per component says so, and
    is used for invariants of the memory as well as for the ownership of the
    status fields. *)
From S2P Require Import Prelude PyValue Effects Logic Metrics PyTime Services Config CrCache KubeOps K8sApi StatusRecords StatusStore RestClient Url RedisClient StatusScalars Events AnalysisSla DatapointWatchdog WorkerRecycler WebBackground Archival Retention.

(** ** Runs within a relation on worlds and an invariant of the memory *)

(** From a memory in [I] the world moves by [T], the memory stays in [I], and
    every update of a metric is one of a declared family. *)
Definition evolves {W P} (I : P → Prop) (T : relation W) : relation (st W P) :=
  λ s s', I (mem s) → T (world s) (world s') ∧ I (mem s') ∧ emits (λ a, well_declared a = true) s s'.

#[export] Instance evolves_preorder {W P} (I : P → Prop) (T : relation W) `{!PreOrder T} : PreOrder (evolves I T).
Proof.
  split; [intros s Hs; by split_and!|]. intros s1 s2 s3 H12 H23 Hs.
  apply H12 in Hs as (T1 & Hs & E1). apply H23 in Hs as (T2 & Hs & E2). split_and!; [by etransitivity|done|by etransitivity].
Qed.

(** A call of a service that moves the world by [T]. *)
Class Foreign {W A} (T : relation W) (f : W → res A * W) : Prop := foreign w : T w (f w).2.

(** The calls outside the status of the CRs, all of them within [T]. *)
Class Outside {W} `{HttpApi W} `{CoreV1Api W} `{AppsV1Api W} `{KubeConfigApi W} `{KopfApi W} `{RedisApi W} (T : relation W) : Prop := {
  #[global] outside_http m u p d :: Foreign T (http_call m u p d);
  #[global] outside_pods ns sel :: Foreign T (list_pods_call ns sel);
  #[global] outside_delete_pod n ns g :: Foreign T (delete_pod_call n ns g);
  #[global] outside_secret n ns :: Foreign T (read_secret_call n ns);
  #[global] outside_event ns b :: Foreign T (create_event_call ns b);
  #[global] outside_read_deployment n ns :: Foreign T (read_deployment_call n ns);
  #[global] outside_patch_deployment n ns b :: Foreign T (patch_deployment_call n ns b);
  #[global] outside_incluster :: Foreign T incluster_config_call;
  #[global] outside_kubeconfig :: Foreign T kube_config_call;
  #[global] outside_kopf o t r m :: Foreign T (kopf_event_call o t r m);
  #[global] outside_redis u c :: Foreign T (redis_call u c);
}.

(** The status fields a patch body writes are owned. *)
Definition writes_only (owned : string → Prop) (body : pv) : Prop :=
  match body with
  | PDict b => match b !! "status" with Some (PDict m) => ∀ f, is_Some (m !! f) → owned f | _ => True end
  | _ => True
  end.

(** Reads of CRs, and writes of the fields owned in the CR of a given name. *)
Class CrCalls {W} `{CustomObjectsApi W} (T : relation W) (owned : string → string → string → Prop) : Prop := {
  #[global] cr_list ns :: Foreign T (list_crs_call ns);
  #[global] cr_get ns n :: Foreign T (get_status_call ns n);
  cr_patch ns n body : writes_only (owned ns n) body → Foreign T (patch_status_call ns n body);
}.

(** No constraint on the world: only the memory matters. *)
Definition anywhere {W} : relation W := λ _ _, True.

#[export] Instance anywhere_preorder {W} : PreOrder (anywhere (W:=W)).
Proof. by split. Qed.

#[export] Instance anywhere_foreign {W A} (f : W → res A * W) : Foreign anywhere f.
Proof. done. Qed.

#[export] Instance anywhere_outside {W} `{HttpApi W} `{CoreV1Api W} `{AppsV1Api W} `{KubeConfigApi W} `{KopfApi W} `{RedisApi W} :
  Outside (anywhere (W:=W)).
Proof. by split. Qed.

#[export] Instance anywhere_crs {W} `{CustomObjectsApi W} : CrCalls (anywhere (W:=W)) (λ _ _ _, True).
Proof. by split. Qed.

(** An invariant of the memory. *)
Notation preserves I := (evolves I anywhere).

Section bookkeeping.
Context {W P : Type} (I : P → Prop) (T : relation W) `{!PreOrder T}.

Lemma act_frame a : well_declared a = true → within (evolves (P:=P) I T) (act a).
Proof. intros Ha s Hs. split_and!; [simpl; reflexivity|done|by apply within_emits_act]. Qed.

Lemma set_shared_frame g : within (evolves (P:=P) I T) (set_shared g).
Proof. intros s Hs. split_and!; [simpl; reflexivity|done|by apply within_emits_set_shared]. Qed.

Lemma ext_frame {A} a (f : W → res A * W) :
  Foreign T f → well_declared a = true → within (evolves (P:=P) I T) (ext a f).
Proof.
  intros Hf Ha s Hs. pose proof (within_emits_ext (P:=P) (λ a, well_declared a = true) a f Ha s) as He.
  specialize (Hf (world s)). unfold ext in *. by destruct (f (world s)).
Qed.

(** A change of the memory alone. *)
Lemma mem_frame (f : P → P) : (∀ p, I p → I (f p)) → within (evolves (P:=P) I T) (modify_mem f).
Proof. intros Hf s Hs. split_and!; [simpl; reflexivity|by apply Hf|]. exists []. by rewrite app_nil_r. Qed.
End bookkeeping.

(** An increment by an amount known not to be negative. *)
Lemma counted family ls n :
  update_ok Counter family ls live_families = true → 0 ≤ n → well_declared (MetricInc family ls n) = true.
Proof. intros Hu Hn. simpl. rewrite Hu. by apply Z.leb_le. Qed.

Lemma guarded_frame {W P} (R : relation (st W P)) `{!PreOrder R} b m : (b = true → within R m) → within R (when b m).
Proof. intros Hm. destruct b; [by apply Hm|]. intros s. simpl. reflexivity. Qed.

Ltac declared :=
  solve [vm_compute; reflexivity
        |apply counted; [vm_compute; reflexivity|repeat match goal with H : (_ <? _) = true |- _ => apply Z.ltb_lt in H end; lia]].

Ltac frame_step :=
  match goal with
  | |- within _ (when _ _) => apply guarded_frame; [apply _|intros ?]
  | |- within _ (act _) => apply act_frame; [apply _|declared]
  | |- within _ (inc _ _) => apply act_frame; [apply _|declared]
  | |- within _ (gauge _ _ _) => apply act_frame; [apply _|declared]
  | |- within _ (ext _ _) => apply ext_frame; [first [apply _ | solve [eauto 2 with within]]|reflexivity]
  | |- within _ (set_shared _) => apply set_shared_frame, _
  | |- within _ (try_except _ _) =>
      apply within_try; [apply _| |let e := fresh "e" in intros e ? ?; destruct e; repeat case_match; simplify_eq/=]
  | _ => within_step
  end.

Ltac solve_frame := repeat (first [solve [eauto 2 with within] | frame_step]); try (simpl; done).

#[export] Hint Extern 0 (PreOrder _) => apply _ : within.
#[export] Hint Extern 0 (Foreign _ _) => apply _ : within.
#[export] Hint Extern 0 (Outside _) => apply _ : within.
#[export] Hint Extern 0 (CrCalls _ _) => apply _ : within.

(** ** The REST client and Redis *)

Section clients.
Context {W P : Type} (I : P → Prop) (T : relation W) `{!PreOrder T}.
Context `{Entropy W} `{KeyOrder} `{Clock W} `{HttpApi W} `{RedisApi W}.
Notation R := (evolves (P:=P) I T).

Lemma attempts_frame self method path params data n attempt last :
  (∀ m u p d, Foreign T (http_call m u p d)) → within R (_attempts self method path params data n attempt last).
Proof. intros Hh. revert attempt last. induction n as [|n IH]; intros attempt last; simpl; solve_frame. Qed.

Lemma scan_loop_frame (self : ReadOnlyRedisClient) fuel cursor seen :
  (∀ u c, Foreign T (redis_call u c)) → within R (scan_loop self fuel cursor seen).
Proof. intros Hr. revert cursor seen. induction fuel as [|n IH]; intros cursor seen; simpl; solve_frame. Qed.
End clients.
#[export] Hint Resolve attempts_frame scan_loop_frame : within.

(** ** The status store *)

Lemma writes_singleton (owned : string → Prop) f v : owned f → writes_only owned (status_patch {[f := v]}).
Proof. intros Hf. unfold writes_only, status_patch. rewrite lookup_singleton_eq. intros f' [x [<- _]%lookup_singleton_Some]. done. Qed.

(** A build closure that writes one owned field, by cases on the document. *)
Ltac owned_patch :=
  repeat lazymatch goal with
  | |- context [match ?x with _ => _ end = _] => destruct x
  | |- context [if ?x then _ else _] => destruct x
  end; intros; simplify_eq; by apply writes_singleton.

Section store.
Context {W P : Type} (I : P → Prop) (T : relation W) `{!PreOrder T}.
Context `{CustomObjectsApi W} `{Entropy W} `{StatusEventSink W P} `{KeyOrder}.
Context (own : string → string → string → Prop) `{!CrCalls T own} (self : Store).
Notation R := (evolves (P:=P) I T).
Notation owned := (own (store_namespace self) (store_name self)).

Lemma mutate_frame {X} (build : gmap string pv → X → res (option pv * X)) x :
  (∀ d y p y', build d y = Ok (Some p, y') → writes_only owned p) → within R (_mutate self build x).
Proof.
  intros Hb. assert (Hp : ∀ p, writes_only owned p → within R (try_patch self p)).
  { intros p Hp. pose proof (cr_patch _ _ p Hp). solve_frame. }
  unfold _mutate. generalize MAX_CONFLICT_RETRIES, 1. intros n. revert x. induction n as [|n IH]; intros x a; simpl; [solve_frame|].
  apply within_bind; [apply _|solve_frame|intros status]. apply within_of_res_bind; [apply _|]. intros [[p|] y] E; [|solve_frame].
  apply within_bind; [apply _|eauto|intros ok]. solve_frame.
Qed.

Lemma map_patch_owned protected field key v d x p x' :
  owned field → set_map_entry_patch protected field key v d x = Ok (Some p, x') → writes_only owned p.
Proof.
  intros Hf. unfold set_map_entry_patch. intros E. repeat case_match; simplify_eq; by apply writes_singleton.
Qed.

Lemma set_map_entry_frame field key v :
  owned field → (∀ r m, within R (_emit_status_map_event (store_namespace self) (store_name self) r m)) →
  within R (_set_map_entry self field key v).
Proof.
  intros Hf Hsink. unfold _set_map_entry. apply within_bind; [apply _|solve_frame|intros g]. cbv zeta.
  apply within_bind; [apply _|apply mutate_frame; intros; by eapply map_patch_owned|intros evicted]. destruct evicted; solve_frame.
Qed.

Lemma pure_frame (f : gmap string pv → option pv) x :
  (∀ d p, f d = Some p → writes_only owned p) → within R (_mutate self (pure_patch f) x).
Proof. intros Hf. apply mutate_frame. intros d y p y' [= E _]. by eapply Hf. Qed.

Lemma set_scalar_frame field t : owned field → within R (_set_scalar self field t).
Proof. intros Hf. apply pure_frame. intros d p E. case_match; simplify_eq. by apply writes_singleton. Qed.

Lemma set_int_frame field n : owned field → within R (_set_int self field n).
Proof. intros Hf. apply pure_frame. intros d p E. case_match; simplify_eq. by apply writes_singleton. Qed.

Lemma mark_escalated_frame id t o : owned SOFT_STOPS → within R (mark_soft_stop_escalated self id t o).
Proof.
  intros Hf. unfold mark_soft_stop_escalated. apply mutate_frame. intros d y p y'. unfold mark_escalated_patch.
  owned_patch.
Qed.

Lemma append_deferred_frame e n : owned DEFERRED_EVENTS → within R (append_deferred_event self e n).
Proof.
  intros Hf. unfold append_deferred_event. apply pure_frame. intros d p.
  owned_patch.
Qed.

Lemma clear_deferred_frame : owned DEFERRED_EVENTS → within R (clear_deferred_events self).
Proof.
  intros Hf. unfold clear_deferred_events. apply pure_frame. intros d p.
  owned_patch.
Qed.

Lemma prune_frame analyses datapoints :
  owned SOFT_STOPS → owned ARCHIVED_ANALYSES → owned STOPPED_ANALYSES → owned REQUEUES → owned STARTED_SINCE →
  within R (prune self analyses datapoints).
Proof.
  intros. unfold prune. apply mutate_frame. intros d y p y' E. unfold prune_patch in E.
  set (applied := prune_applied _ _) in E.
  assert (Hin : ∀ f, f ∈ applied.*1 → owned f).
  { intros f (e & -> & [_ Hin]%list_elem_of_filter)%list_elem_of_fmap.
    apply list_elem_of_fmap in Hin as ([f' live] & -> & Hin). unfold prune_scopes in Hin.
    repeat apply elem_of_cons in Hin as [[= -> ->]|Hin]; try done. by apply not_elem_of_nil in Hin. }
  clearbody applied. remember applied as l eqn:El in E at 1. destruct l as [|e l]; [done|]. injection E as <- _.
  unfold writes_only, status_patch. rewrite lookup_singleton_eq.
  intros f [x Hx]. apply Hin. apply elem_of_list_to_map_2 in Hx. apply list_elem_of_fmap in Hx as (e' & [= -> _] & Hx).
  by apply list_elem_of_fmap_2.
Qed.
End store.
#[export] Hint Resolve set_map_entry_frame set_scalar_frame set_int_frame mark_escalated_frame append_deferred_frame
  clear_deferred_frame prune_frame : within.

(** ** The fields of the components *)

Definition sla_fields : list string := [SOFT_STOPS; STOPPED_ANALYSES].
Definition watchdog_fields : list string := [SOFT_STOPS; ARCHIVED_ANALYSES; STOPPED_ANALYSES; REQUEUES; STARTED_SINCE].
Definition recycler_fields : list string := [LAST_RECYCLE_AT].
Definition stall_fields : list string :=
  [STALL_WINDOW_STARTED_AT; LAST_WEB_BACKGROUND_RESTART_AT; WEB_BACKGROUND_INEFFECTIVE_RESTARTS].
Definition retention_fields : list string := [ARCHIVED_ANALYSES].

(** ** The ticks *)

Section ticks.
Context {W P : Type} (I : P → Prop) (T : relation W) `{!PreOrder T}.
Context `{CustomObjectsApi W} `{Entropy W} `{StatusEventSink W P} `{KeyOrder} `{SetOrder} `{HttpApi W}.
Context `{CoreV1Api W} `{AppsV1Api W} `{RedisApi W} `{KubeConfigApi W} `{KopfApi W} `{Clock W}.
Context (own : string → string → string → Prop) `{!CrCalls T own} `{!Outside T}.
Context (store : Store) (config : OperatorConfig) (namespace : string) (now : Z).
Context (emit : string → string → string → M W P unit).
Notation R := (evolves (P:=P) I T).
Notation owned := (own (store_namespace store) (store_name store)).
Context (Hsink : ∀ ns n r m, within R (_emit_status_map_event (W:=W) (P:=P) ns n r m)).
Context (Hemit : ∀ t r m, within R (emit t r m)).

(** The ownership of a list of fields, one by one. *)
Local Ltac own_fields Hf := unfold sla_fields, watchdog_fields, recycler_fields, stall_fields, retention_fields in Hf; rewrite ?Forall_cons in Hf; destruct_and? Hf.

Lemma sla_tick_frame client pod_api redis :
  Forall owned sla_fields → (∀ c id, redis = Some c → within R (workers_for_analysis c id)) →
  within R (run_sla_tick client store config now emit namespace pod_api redis).
Proof. intros Hf Hredis. own_fields Hf. solve_frame. Qed.

Lemma recycler_tick_frame client :
  Forall owned recycler_fields → within R (run_recycler_tick client store config namespace now emit).
Proof. intros Hf. own_fields Hf. solve_frame. Qed.

Lemma watchdog_tick_frame `{Lens P AnchorPruneState} `{Lens P ExhaustedSeen} client :
  Forall owned watchdog_fields →
  (∀ c : AnchorPruneState, within R (put_part (W:=W) c)) → (∀ c : ExhaustedSeen, within R (put_part (W:=W) c)) →
  within R (run_watchdog_tick client store config now emit).
Proof. intros Hf Ha He. own_fields Hf. solve_frame. Qed.

Lemma stall_tick_frame `{Lens P StallWindowTracker} `{Lens P Leg2SafeguardState} redis :
  Forall owned stall_fields →
  (∀ c : StallWindowTracker, within R (put_part (W:=W) c)) → (∀ c : Leg2SafeguardState, within R (put_part (W:=W) c)) →
  within R (run_stall_tick redis store config namespace now emit).
Proof. intros Hf Ht Hl. own_fields Hf. solve_frame. Qed.

Lemma retention_tick_frame `{BatchV1Api W} client :
  (∀ n ns, Foreign T (read_job_call n ns)) → (∀ ns b, Foreign T (create_job_call ns b)) →
  (∀ n ns p, Foreign T (delete_job_call n ns p)) → Forall owned retention_fields →
  within R (run_retention_tick client store config now emit namespace).
Proof. intros Hr Hc Hd Hf. own_fields Hf. solve_frame. Qed.
End ticks.
