(* ===== verification/Operator.v ===== *)
(** * The operator process

    The memory of the whole process, the four timers as kopf calls them, and
    the wiring of the package: the warning queue as the sink of the status
    store, and the store behind the queue. *)
From S2P Require Import Prelude PyValue Effects Logic PyTime Services Config CrCache KubeOps K8sApi StatusRecords StatusStore RestClient Url RedisClient StatusScalars ClientFactory Events AnalysisSla DatapointWatchdog WorkerRecycler WebBackground Singleton DryRunAudit OscmTick RedisLayout.

(** ** The memory *)

Record OpMem := MkOpMem {
  op_tick : TickState;
  op_emitter : EmitterCount;
  op_sink : SinkQueue;
  op_apis : K8sClients;
  op_rest : list (string * OpenStudioClient);
  op_redis : list (string * ReadOnlyRedisClient);
  op_singleton : SingletonMem;
  op_audit : AuditState;
  op_layout : LayoutFresh;
  op_revalidated : option Z;
  op_exhausted : PerCRCache ExhaustedSeen;
  op_anchor_prune : PerCRCache AnchorPruneState;
  op_trackers : PerCRCache StallWindowTracker;
  op_leg2 : PerCRCache Leg2SafeguardState;
  op_store_armed : bool; (** whether the sink has its store factory *)
}.

Definition with_tick (c : TickState) (p : OpMem) : OpMem :=
  MkOpMem c (op_emitter p) (op_sink p) (op_apis p) (op_rest p) (op_redis p) (op_singleton p) (op_audit p) (op_layout p) (op_revalidated p) (op_exhausted p) (op_anchor_prune p) (op_trackers p) (op_leg2 p) (op_store_armed p).
Definition with_emitter (c : EmitterCount) (p : OpMem) : OpMem :=
  MkOpMem (op_tick p) c (op_sink p) (op_apis p) (op_rest p) (op_redis p) (op_singleton p) (op_audit p) (op_layout p) (op_revalidated p) (op_exhausted p) (op_anchor_prune p) (op_trackers p) (op_leg2 p) (op_store_armed p).
Definition with_sink (c : SinkQueue) (p : OpMem) : OpMem :=
  MkOpMem (op_tick p) (op_emitter p) c (op_apis p) (op_rest p) (op_redis p) (op_singleton p) (op_audit p) (op_layout p) (op_revalidated p) (op_exhausted p) (op_anchor_prune p) (op_trackers p) (op_leg2 p) (op_store_armed p).
Definition with_apis (c : K8sClients) (p : OpMem) : OpMem :=
  MkOpMem (op_tick p) (op_emitter p) (op_sink p) c (op_rest p) (op_redis p) (op_singleton p) (op_audit p) (op_layout p) (op_revalidated p) (op_exhausted p) (op_anchor_prune p) (op_trackers p) (op_leg2 p) (op_store_armed p).
Definition with_rest (c : list (string * OpenStudioClient)) (p : OpMem) : OpMem :=
  MkOpMem (op_tick p) (op_emitter p) (op_sink p) (op_apis p) c (op_redis p) (op_singleton p) (op_audit p) (op_layout p) (op_revalidated p) (op_exhausted p) (op_anchor_prune p) (op_trackers p) (op_leg2 p) (op_store_armed p).
Definition with_redis (c : list (string * ReadOnlyRedisClient)) (p : OpMem) : OpMem :=
  MkOpMem (op_tick p) (op_emitter p) (op_sink p) (op_apis p) (op_rest p) c (op_singleton p) (op_audit p) (op_layout p) (op_revalidated p) (op_exhausted p) (op_anchor_prune p) (op_trackers p) (op_leg2 p) (op_store_armed p).
Definition with_singleton (c : SingletonMem) (p : OpMem) : OpMem :=
  MkOpMem (op_tick p) (op_emitter p) (op_sink p) (op_apis p) (op_rest p) (op_redis p) c (op_audit p) (op_layout p) (op_revalidated p) (op_exhausted p) (op_anchor_prune p) (op_trackers p) (op_leg2 p) (op_store_armed p).
Definition with_audit (c : AuditState) (p : OpMem) : OpMem :=
  MkOpMem (op_tick p) (op_emitter p) (op_sink p) (op_apis p) (op_rest p) (op_redis p) (op_singleton p) c (op_layout p) (op_revalidated p) (op_exhausted p) (op_anchor_prune p) (op_trackers p) (op_leg2 p) (op_store_armed p).
Definition with_layout (c : LayoutFresh) (p : OpMem) : OpMem :=
  MkOpMem (op_tick p) (op_emitter p) (op_sink p) (op_apis p) (op_rest p) (op_redis p) (op_singleton p) (op_audit p) c (op_revalidated p) (op_exhausted p) (op_anchor_prune p) (op_trackers p) (op_leg2 p) (op_store_armed p).
Definition with_revalidated (c : option Z) (p : OpMem) : OpMem :=
  MkOpMem (op_tick p) (op_emitter p) (op_sink p) (op_apis p) (op_rest p) (op_redis p) (op_singleton p) (op_audit p) (op_layout p) c (op_exhausted p) (op_anchor_prune p) (op_trackers p) (op_leg2 p) (op_store_armed p).
Definition with_exhausted (c : PerCRCache ExhaustedSeen) (p : OpMem) : OpMem :=
  MkOpMem (op_tick p) (op_emitter p) (op_sink p) (op_apis p) (op_rest p) (op_redis p) (op_singleton p) (op_audit p) (op_layout p) (op_revalidated p) c (op_anchor_prune p) (op_trackers p) (op_leg2 p) (op_store_armed p).
Definition with_anchor_prune (c : PerCRCache AnchorPruneState) (p : OpMem) : OpMem :=
  MkOpMem (op_tick p) (op_emitter p) (op_sink p) (op_apis p) (op_rest p) (op_redis p) (op_singleton p) (op_audit p) (op_layout p) (op_revalidated p) (op_exhausted p) c (op_trackers p) (op_leg2 p) (op_store_armed p).
Definition with_trackers (c : PerCRCache StallWindowTracker) (p : OpMem) : OpMem :=
  MkOpMem (op_tick p) (op_emitter p) (op_sink p) (op_apis p) (op_rest p) (op_redis p) (op_singleton p) (op_audit p) (op_layout p) (op_revalidated p) (op_exhausted p) (op_anchor_prune p) c (op_leg2 p) (op_store_armed p).
Definition with_leg2 (c : PerCRCache Leg2SafeguardState) (p : OpMem) : OpMem :=
  MkOpMem (op_tick p) (op_emitter p) (op_sink p) (op_apis p) (op_rest p) (op_redis p) (op_singleton p) (op_audit p) (op_layout p) (op_revalidated p) (op_exhausted p) (op_anchor_prune p) (op_trackers p) c (op_store_armed p).
Definition with_store_armed (p : OpMem) : OpMem :=
  MkOpMem (op_tick p) (op_emitter p) (op_sink p) (op_apis p) (op_rest p) (op_redis p) (op_singleton p) (op_audit p) (op_layout p) (op_revalidated p) (op_exhausted p) (op_anchor_prune p) (op_trackers p) (op_leg2 p) true.

#[export] Instance op_tick_lens : Lens OpMem (TickState) := { lget := op_tick; lput := with_tick; lget_lput c p := eq_refl }.
#[export] Instance op_emitter_lens : Lens OpMem (EmitterCount) := { lget := op_emitter; lput := with_emitter; lget_lput c p := eq_refl }.
#[export] Instance op_sink_lens : Lens OpMem (SinkQueue) := { lget := op_sink; lput := with_sink; lget_lput c p := eq_refl }.
#[export] Instance op_apis_lens : Lens OpMem (K8sClients) := { lget := op_apis; lput := with_apis; lget_lput c p := eq_refl }.
#[export] Instance op_rest_lens : Lens OpMem (list (string * OpenStudioClient)) := { lget := op_rest; lput := with_rest; lget_lput c p := eq_refl }.
#[export] Instance op_redis_lens : Lens OpMem (list (string * ReadOnlyRedisClient)) := { lget := op_redis; lput := with_redis; lget_lput c p := eq_refl }.
#[export] Instance op_singleton_lens : Lens OpMem (SingletonMem) := { lget := op_singleton; lput := with_singleton; lget_lput c p := eq_refl }.
#[export] Instance op_audit_lens : Lens OpMem (AuditState) := { lget := op_audit; lput := with_audit; lget_lput c p := eq_refl }.
#[export] Instance op_layout_lens : Lens OpMem (LayoutFresh) := { lget := op_layout; lput := with_layout; lget_lput c p := eq_refl }.
#[export] Instance op_revalidated_lens : Lens OpMem (option Z) := { lget := op_revalidated; lput := with_revalidated; lget_lput c p := eq_refl }.

(** The module globals of a fresh process. *)
Definition fresh_mem : OpMem :=
  MkOpMem (MkTickState false ∅) (MkEmitterCount 0) (MkSinkQueue []) no_clients [] [] (MkSingletonMem None ∅ ∅ [])
    (MkAuditState ∅) (MkLayoutFresh 0) None ∅ ∅ ∅ ∅ false.

(** ** The objects cached per CR *)

Section cells.
Context (key : crkey).

(** The object the cache holds for the CR; a lookup comes after
    [get_or_create], so the default is never met. *)
Definition cell_get {V} (new : V) (c : PerCRCache V) : V := default new (snd <$> c !! key).
Definition cell_put {V} (v : V) (c : PerCRCache V) : PerCRCache V := <[key := (c !! key ≫= fst, v)]> c.

Lemma cell_get_put {V} (new v : V) c : cell_get new (cell_put v c) = v.
Proof. unfold cell_get, cell_put. by rewrite lookup_insert_eq. Qed.

Definition new_exhausted : ExhaustedSeen := MkExhaustedSeen ∅.
Definition new_anchor_prune : AnchorPruneState := MkAnchorPruneState 0 ∅ ∅.

#[refine] Instance exhausted_lens : Lens OpMem ExhaustedSeen := {
  lget p := cell_get new_exhausted (op_exhausted p);
  lput v p := with_exhausted (cell_put v (op_exhausted p)) p;
}.
Proof. intros. apply cell_get_put. Defined.

#[refine] Instance anchor_prune_lens : Lens OpMem AnchorPruneState := {
  lget p := cell_get new_anchor_prune (op_anchor_prune p);
  lput v p := with_anchor_prune (cell_put v (op_anchor_prune p)) p;
}.
Proof. intros. apply cell_get_put. Defined.

#[refine] Instance tracker_lens : Lens OpMem StallWindowTracker := {
  lget p := cell_get new_tracker (op_trackers p);
  lput v p := with_trackers (cell_put v (op_trackers p)) p;
}.
Proof. intros. apply cell_get_put. Defined.

#[refine] Instance leg2_lens : Lens OpMem Leg2SafeguardState := {
  lget p := cell_get new_leg2 (op_leg2 p);
  lput v p := with_leg2 (cell_put v (op_leg2 p)) p;
}.
Proof. intros. apply cell_get_put. Defined.
End cells.

(** ** The wiring of the package ([handlers/__init__.py]) *)

(** The arguments of the factories as strings: anything else fails in them. *)
Definition url_arg (v : pv) : res string :=
  match v with
  | PStr u => Ok u
  | v => Raise (AttributeError (type_name v +:+ " object has no attribute rstrip"))
  end.

Section wiring.
Context {W : Type}.
Context `{CustomObjectsApi W} `{Entropy W} `{KeyOrder} `{SetOrder} `{HttpApi W} `{CoreV1Api W} `{AppsV1Api W}.
Context `{KubeConfigApi W} `{KopfApi W} `{RedisApi W} `{Clock W} `{UrlTables}.
Context (rest_env : RestEnv) (redis_env : RedisEnv) (fuel : nat).

Notation Op A := (M W OpMem A).

Definition _deferred_event_store (namespace name : string) : Op Store :=
  operator_custom_objects_api;; mret (MkStore namespace name).

(** The factory of the sink: none until the startup handler has set it. *)
Definition store_factory (armed : bool) : option (string → string → Op Store) :=
  if armed then Some _deferred_event_store else None.

Definition with_store_factory {A} (f : option (string → string → Op Store) → Op A) : Op A :=
  p ← get_mem; f (store_factory (op_store_armed p)).

(** [_install_deferred_event_persistence], [set_store_factory] *)
Definition _install_deferred_event_persistence : Op unit := modify_mem with_store_armed.

Definition _emit_status_map_cap_event (namespace name reason message : string) : Op unit :=
  with_store_factory (λ f, defer_to_next_tick f (Deferred namespace name reason message)).

#[local] Instance cap_sink : StatusEventSink W OpMem := _emit_status_map_cap_event.

Definition _emit_redis_warning_event (namespace name message : string) : Op unit :=
  with_store_factory (λ f, defer_to_next_tick f (Deferred namespace name "RedisUrlEmpty" message)).

Definition _drain_queued_warning_events (name namespace : string) : Op unit :=
  with_store_factory (λ f, flush_for f namespace name);; mret tt.

Definition layout_check (body : pv) : Op unit :=
  with_store_factory (λ f, _check_redis_key_layout_for_cr redis_env f fuel false body);; mret tt.

(** The reset seams of the handler modules: every entry, or those of one CR. *)
Definition watchdog_reset_per_cr_caches (namespace name : option string) : Op unit :=
  reset op_exhausted with_exhausted namespace name;;
  reset op_anchor_prune with_anchor_prune namespace name.

Definition stall_reset_per_cr_caches (namespace name : option string) : Op unit :=
  reset op_trackers with_trackers namespace name.

Definition reset_leg2_safeguard_state (namespace name : option string) : Op unit :=
  reset op_leg2 with_leg2 namespace name;;
  gauge "RESQUE_WORKERS_SEEN_MAX" [] (MInt 0).

(** ** The clients of a tick *)

Definition rest_client_of (config : OperatorConfig) : Op OpenStudioClient :=
  url ← of_res (url_arg (server_url config)); get_openstudio_client rest_env url.

Definition redis_client_of (namespace : string) (config : OperatorConfig) : Op ReadOnlyRedisClient :=
  url ← of_res (redis_url_arg config);
  get_read_only_redis_client redis_env url (redis_secret_ref config) namespace.

(** A read-only client as the escalation uses it. *)
Definition redis_like (c : ReadOnlyRedisClient) : RedisClientLike W OpMem :=
  MkRedisClientLike (RedisClient.workers_for_analysis c) RedisClient.pod_name_for_worker.

(** ** The timers *)

Section timers.
Context (body : pv) (spec : gmap string pv) (namespace name : string).

Notation key := (namespace, name).

Definition analysis_sla_monitor : Op (option SlaTickResult) :=
  observe_tick_duration "analysis_sla"
    (run_oscm_tick spec body namespace name "analysis_sla" operator_custom_objects_api
      (λ config,
        client ← rest_client_of config;
        operator_core_api;;
        redis ← redis_client_of namespace config;
        mret (client, redis))
      (λ config store emitter deps now,
        run_sla_tick deps.1 store config now (emit emitter) namespace true (Some (redis_like deps.2)))).

Definition _get_exhausted_seen (uid : option string) : Op ExhaustedSeen :=
  get_or_create op_exhausted with_exhausted (λ _ _, mret tt) namespace name uid (mret new_exhausted).

Definition _get_anchor_prune_state (uid : option string) : Op AnchorPruneState :=
  get_or_create op_anchor_prune with_anchor_prune (λ _ _, mret tt) namespace name uid (mret new_anchor_prune).

Definition watchdog_body (client : OpenStudioClient) (store : Store) (config : OperatorConfig) (now : Z)
    (emit : string → string → string → Op unit) : Op (list string) :=
  let _ := exhausted_lens key in
  let _ := anchor_prune_lens key in
  run_watchdog_tick client store config now emit.

Definition zombie_datapoint_watchdog : Op (option (list string)) :=
  observe_tick_duration "datapoint_watchdog"
    (run_oscm_tick spec body namespace name "datapoint_watchdog" operator_custom_objects_api rest_client_of
      (λ config store emitter client now,
        layout_check body;;
        _get_exhausted_seen (cr_uid body);;
        _get_anchor_prune_state (cr_uid body);;
        watchdog_body client store config now (emit emitter))).

Definition worker_recycler : Op (option (option string)) :=
  observe_tick_duration "worker_recycler"
    (run_oscm_tick spec body namespace name "worker_recycler" operator_custom_objects_api
      (λ config, client ← rest_client_of config; operator_apps_api;; mret client)
      (λ config store emitter client now,
        layout_check body;;
        run_recycler_tick client store config namespace now (emit emitter))).

Definition _get_tracker (uid : option string) : Op StallWindowTracker :=
  get_or_create op_trackers with_trackers (λ _ _, mret tt) namespace name uid (mret new_tracker).

Definition _get_leg2_state (uid : option string) : Op Leg2SafeguardState :=
  get_or_create op_leg2 with_leg2 (λ _ _, mret tt) namespace name uid (mret new_leg2).

Definition stall_body (redis : ReadOnlyRedisClient) (store : Store) (config : OperatorConfig) (now : Z)
    (emit : string → string → string → Op unit) : Op bool :=
  let _ := tracker_lens key in
  let _ := leg2_lens key in
  run_stall_tick redis store config namespace now emit.

Definition web_background_monitor : Op (option bool) :=
  observe_tick_duration "web_background_monitor"
    (run_oscm_tick spec body namespace name "web_background_monitor" operator_custom_objects_api
      (λ config,
        redis ← redis_client_of namespace config;
        operator_apps_api;;
        operator_core_api;;
        _get_tracker (cr_uid body);;
        _get_leg2_state (cr_uid body);;
        mret redis)
      (λ config store emitter redis now,
        _maybe_revalidate_redis_key_layout (layout_check body) now;;
        stall_body redis store config now (emit emitter))).
End timers.

(** A timer as the registry calls it: gated, with the spec of the body. *)
Inductive timer := AnalysisSlaMonitor | ZombieDatapointWatchdog | WorkerRecycler | WebBackgroundMonitor.

Definition timer_name (t : timer) : string :=
  match t with
  | AnalysisSlaMonitor => "analysis_sla_monitor"
  | ZombieDatapointWatchdog => "zombie_datapoint_watchdog"
  | WorkerRecycler => "worker_recycler"
  | WebBackgroundMonitor => "web_background_monitor"
  end.

Definition timer_fn (t : timer) (body : pv) (spec : gmap string pv) (namespace name : string) : Op unit :=
  match t with
  | AnalysisSlaMonitor => analysis_sla_monitor body spec namespace name;; mret tt
  | ZombieDatapointWatchdog => zombie_datapoint_watchdog body spec namespace name;; mret tt
  | WorkerRecycler => worker_recycler body spec namespace name;; mret tt
  | WebBackgroundMonitor => web_background_monitor body spec namespace name;; mret tt
  end.

(** The [spec] kopf passes: that of the body. *)
Definition body_spec (body : pv) : gmap string pv :=
  match body with PDict m => default ∅ (mapping (dget m "spec")) | _ => ∅ end.

Definition run_timer (t : timer) (body : pv) (namespace name : string) : Op (option unit) :=
  _gated (timer_name t) (λ _, timer_fn t body (body_spec body) namespace name)
    (MkCall body (PStr namespace) (PStr name)).
End wiring.
