(* ===== verification/OperatorSpec.v ===== *)
(** * The operator under dry run

    The guarantees of the components composed: the real emitter, event sink,
    client factories, caches and Redis client discharge what the ticks assume
    of their collaborators, and the dry-run promise holds of every timer as
    kopf calls it. *)
From S2P Require Import Prelude PyValue Effects Logic PyTime Services Config CrCache KubeOps K8sApi StatusRecords StatusStore StatusStoreFacts SimWorld StatusStoreSpec RestClient RestClientSpec Url RedisClient RedisClientSpec StatusScalars ClientFactory Actions Events EventsSpec AnalysisSla AnalysisSlaSpec DatapointWatchdog DatapointWatchdogSpec WorkerRecycler WebBackground WebBackgroundSpec Singleton SingletonSpec DryRunAudit OscmTick RedisLayout Operator.

Lemma from_spec_dry_run spec c : from_spec spec = Ok c → dry_run c = dget_or spec "dryRun" (PBool false).
Proof. unfold from_spec. intros E. repeat (apply res_bind_Ok in E as (? & _ & E)). by injection E as <-. Qed.

Section operator.
Context {W : Type}.
Context `{StatusServer W} `{Entropy W} `{KeyOrder} `{SetOrder} `{HttpApi W} `{CoreV1Api W} `{AppsV1Api W}.
Context `{KubeConfigApi W} `{KopfApi W} `{RedisApi W} `{Clock W} `{UrlTables}.
Context (rest_env : RestEnv) (redis_env : RedisEnv) (fuel : nat).
Implicit Types s : st W OpMem.

#[local] Existing Instance cap_sink.
#[local] Hint Extern 0 (harmless _) => exact I : within.

(** ** The collaborators are quiet *)

(** The sink is no part of a read or a plain write of the store. *)
Definition no_sink : StatusEventSink W OpMem := λ _ _ _ _, mret tt.

Lemma no_sink_store self : @StoreQuiet W OpMem no_sink self harmless.
Proof.
  split; [intros a Ha; by eapply store_action_harmless|]. intros. unfold _emit_status_map_event, no_sink. solve_within.
Qed.

Lemma api_quiet slot strict : quiet (_cached_k8s_api (W:=W) (P:=OpMem) slot strict).
Proof. by apply cached_api_emits. Qed.

Lemma deferred_store_quiet ns n : quiet (_deferred_event_store (W:=W) ns n).
Proof. pose proof api_quiet. unfold _deferred_event_store, operator_custom_objects_api. solve_within. Qed.

(** The sink is used with and without its factory. *)
Lemma with_factory_within {R : relation (st W OpMem)} `{!PreOrder R} {A} (f : option (string → string → M W OpMem Store) → M W OpMem A) :
  (∀ armed, within R (f (store_factory armed))) → within R (with_store_factory f).
Proof. intros Hf. apply within_bind; [apply _|apply within_get_mem, _|intros p; apply Hf]. Qed.

Lemma store_for_quiet armed ns n : quiet (_store_for (store_factory (W:=W) armed) ns n).
Proof. pose proof deferred_store_quiet. unfold _store_for. destruct armed; cbn [store_factory]; solve_within; done. Qed.

Lemma defer_quiet armed d : quiet (defer_to_next_tick (W:=W) (P:=OpMem) (store_factory armed) d).
Proof.
  pose proof (store_for_quiet armed). unfold defer_to_next_tick, _persist, depth_gauge, put_part, get_part.
  assert (∀ self e n, quiet (append_deferred_event (W:=W) (P:=OpMem) self e n)).
  { intros. by apply (append_deferred_quiet (H1:=no_sink)), no_sink_store. }
  solve_within; done.
Qed.

Lemma cap_sink_quiet ns n r m : quiet (_emit_status_map_cap_event (W:=W) ns n r m).
Proof. apply with_factory_within; intros armed. apply defer_quiet. Qed.

Lemma emitter_quiet e t r m : quiet (Events.emit (W:=W) (P:=OpMem) e t r m).
Proof. unfold Events.emit, put_part, get_part, kopf_event. solve_within; done. Qed.

Lemma read_harmless a : redis_read a → harmless a.
Proof. by destruct a. Qed.

#[local] Instance collaborators e c : QuietCollaborators (Events.emit (W:=W) (P:=OpMem) e) (Some (redis_like c)).
Proof.
  split; [intros; apply emitter_quiet|intros; apply cap_sink_quiet|].
  intros redis id [= <-]. apply (redis_queries_bound c harmless read_harmless).
Qed.

#[local] Instance collaborators_no_redis e : QuietCollaborators (Events.emit (W:=W) (P:=OpMem) e) None.
Proof. split; [intros; apply emitter_quiet|intros; apply cap_sink_quiet|done]. Qed.

Lemma rest_client_quiet config : quiet (rest_client_of (W:=W) rest_env config).
Proof. unfold rest_client_of, get_openstudio_client, lru_call, put_part, get_part. solve_within. Qed.

Lemma redis_factory_quiet url ref ns : quiet (get_read_only_redis_client (W:=W) (P:=OpMem) redis_env url ref ns).
Proof.
  pose proof api_quiet.
  unfold get_read_only_redis_client, _redis_client_for_url, _resolve_redis_url, lru_call, operator_core_api, put_part, get_part.
  solve_within; try done.
Qed.

Lemma redis_client_quiet ns config : quiet (redis_client_of (W:=W) redis_env ns config).
Proof. pose proof redis_factory_quiet. unfold redis_client_of. solve_within. Qed.

Lemma layout_quiet armed plain item :
  quiet (_check_redis_key_layout_for_cr (W:=W) (P:=OpMem) redis_env (store_factory armed) fuel plain item).
Proof.
  pose proof redis_factory_quiet. pose proof defer_quiet.
  pose proof (λ c n, proj2 (proj2 (proj2 (proj2 (redis_queries_bound (P:=OpMem) c harmless read_harmless)))) n).
  unfold _check_redis_key_layout_for_cr, layout_attempt, layout_failure, verdict, _set_redis_key_layout_status,
    _emit_redis_key_layout_event, put_part.
  solve_within; done.
Qed.

Lemma layout_check_quiet body : quiet (layout_check (W:=W) redis_env fuel body).
Proof.
  apply within_bind; [apply _|apply with_factory_within; intros; apply layout_quiet|intros; solve_within].
Qed.

Lemma fetch_bound {V} Pa get put ns n uid (v : V) :
  within (emits Pa) (get_or_create (W:=W) (P:=OpMem) get put (λ _ _, mret tt) ns n uid (mret v)).
Proof. unfold get_or_create. cbv zeta. solve_within. Qed.

(** ** The runner *)

Lemma run_tick_bound {D R} (Pa : action → Prop) spec body ns n module (api : M W OpMem ApiClient)
    (wire : OperatorConfig → M W OpMem D) (tick : OperatorConfig → Store → EventEmitter → D → Z → M W OpMem R) :
  (∀ a, harmless a → Pa a) → quiet api → (∀ c, quiet (wire c)) →
  (∀ c store e d now, from_spec spec = Ok c → within (emits Pa) (tick c store e d now)) →
  within (emits Pa) (observe_tick_duration module (run_oscm_tick spec body ns n module api wire tick)).
Proof.
  intros HP Ha Hw Ht. unfold observe_tick_duration, run_oscm_tick, idle_tick, stamp_config_posture_gauges, heartbeat, get_part.
  apply within_finally; [apply _| |apply within_emits_act; by apply HP].
  apply within_bind; [apply _|solve_within|intros t]. destruct (_shutdown_requested t); [solve_within|].
  destruct (negb _); [solve_within; by apply HP|]. apply within_of_res_bind; [apply _|]. intros c Hc.
  pose proof (λ store e d now, Ht c store e d now Hc) as Ht'. clear Ht.
  pose proof (within_emits_weaken _ _ _ HP Ha) as Ha'. pose proof (within_emits_weaken _ _ _ HP (Hw c)) as Hw'.
  unfold guarded_tick, skip_tick, put_part, get_part. solve_within; by apply HP.
Qed.

(** ** What a timer may do *)

(** What changes the user's system, of what the operator process may do in the
    namespace of its CR: it stops, requeues and restarts, but it deletes no
    analysis and touches no Job. *)
Definition operator_may (namespace : string) (a : action) : Prop :=
  match a with
  | HttpRequest m _ _ _ => m = "GET" ∨ m = "POST"
  | KubeDeletePod _ ns _ | KubePatchDeployment _ ns _ => ns = namespace
  | _ => False
  end.

Definition dry_run_of (spec : gmap string pv) : bool := truthy (dget spec "dryRun").

Definition timer_allows (spec : gmap string pv) (namespace : string) (a : action) : Prop :=
  harmless a ∨ (dry_run_of spec = false ∧ operator_may namespace a).

Lemma config_dry_run spec c : from_spec spec = Ok c → config_flag (dry_run c) = dry_run_of spec.
Proof.
  intros ->%from_spec_dry_run. unfold dry_run_of, dget_or, dget, config_flag. by destruct (spec !! "dryRun").
Qed.

Section timers.
Context (body : pv) (spec : gmap string pv) (namespace name : string).
Notation Pa := (timer_allows spec namespace).

Lemma timer_harmless a : harmless a → Pa a.
Proof. by left. Qed.

Lemma timer_weaken {A} (m : M W OpMem A) : quiet m → within (emits Pa) m.
Proof. apply within_emits_weaken. intros a Ha. by left. Qed.

Lemma sla_monitor_bound : within (emits Pa) (analysis_sla_monitor rest_env redis_env body spec namespace name).
Proof.
  pose proof rest_client_quiet. pose proof redis_client_quiet. pose proof api_quiet.
  unfold analysis_sla_monitor, operator_custom_objects_api, operator_core_api. apply run_tick_bound; [exact timer_harmless|done|intros; solve_within|].
  intros c store e d now Hc. apply sla_tick_bound; [apply _|exact timer_harmless|].
  intros id dec a [?|[Hd Ha]]; [by left|right]. rewrite (config_dry_run _ _ Hc) in Hd. split; [done|].
  destruct dec; try done; [subst a; by left|destruct Ha as [->|(pod & g & ->)]; [by right|done]|by destruct Ha as (pod & g & ->)].
Qed.

Lemma watchdog_timer_bound :
  within (emits Pa) (zombie_datapoint_watchdog rest_env redis_env fuel body spec namespace name).
Proof.
  pose proof rest_client_quiet. pose proof api_quiet. pose proof (timer_weaken _ (layout_check_quiet body)).
  unfold zombie_datapoint_watchdog, operator_custom_objects_api. apply run_tick_bound; [exact timer_harmless|done|done|].
  intros c store e d now Hc. apply within_bind; [apply _|done|intros _].
  apply within_bind; [apply _|apply fetch_bound|intros _].
  apply within_bind; [apply _|apply fetch_bound|intros _].
  unfold watchdog_body. cbv zeta. apply watchdog_tick_bound; [apply _|exact timer_harmless|].
  intros id Hd. right. rewrite (config_dry_run _ _ Hc) in Hd. split; [done|by right].
Qed.

Lemma recycler_timer_bound : within (emits Pa) (worker_recycler rest_env redis_env fuel body spec namespace name).
Proof.
  pose proof rest_client_quiet. pose proof api_quiet. pose proof (timer_weaken _ (layout_check_quiet body)).
  unfold worker_recycler, operator_custom_objects_api, operator_apps_api. apply run_tick_bound; [exact timer_harmless|done|intros; solve_within|].
  intros c store e d now Hc. apply within_bind; [apply _|done|intros _].
  apply recycler_tick_bound; [apply _|exact timer_harmless|]. intros Hd. right. by rewrite (config_dry_run _ _ Hc) in Hd.
Qed.

Lemma stall_timer_bound : within (emits Pa) (web_background_monitor redis_env fuel body spec namespace name).
Proof.
  pose proof redis_client_quiet. pose proof api_quiet. pose proof (timer_weaken _ (layout_check_quiet body)).
  unfold web_background_monitor, operator_custom_objects_api, operator_apps_api, operator_core_api.
  apply run_tick_bound; [exact timer_harmless|done| |].
  - intros c. unfold _get_tracker, _get_leg2_state.
    pose proof (λ V get put uid (v : V), fetch_bound harmless get put namespace name uid v). solve_within.
  - intros c store e d now Hc. apply within_bind; [apply _| |intros _].
    + unfold _maybe_revalidate_redis_key_layout, get_part, put_part. solve_within.
    + unfold stall_body. cbv zeta. apply stall_tick_bound; [apply _|exact timer_harmless|].
      intros Hd. right. by rewrite (config_dry_run _ _ Hc) in Hd.
Qed.
End timers.

Lemma timer_bound t body namespace name :
  within (emits (timer_allows (body_spec body) namespace)) (run_timer rest_env redis_env fuel t body namespace name).
Proof.
  set (Pa := timer_allows (body_spec body) namespace).
  assert (HP : ∀ a, harmless a → Pa a) by (intros a Ha; by left).
  pose proof (sla_monitor_bound body (body_spec body) namespace name).
  pose proof (watchdog_timer_bound body (body_spec body) namespace name).
  pose proof (recycler_timer_bound body (body_spec body) namespace name).
  pose proof (stall_timer_bound body (body_spec body) namespace name).
  assert (∀ b ns, within (emits Pa) (is_active_cr (W:=W) (P:=OpMem) b ns)).
  { intros b ns. eapply within_emits_weaken; [|apply is_active_cr_emits]. intros a Ha. apply HP. by destruct a. }
  unfold run_timer, _gated, resolve_gate, timer_fn. solve_within; try (by apply HP).
  all: repeat case_match; simplify_eq; solve_within; by apply HP.
Qed.
(** What the operator process can do, whole: whatever the cluster, the
    server, Redis and the caches answer, a timer of the operator, gated and
    wired as kopf runs it, changes the user's system only outside dry run, and
    then only by soft stops, stops and requeues, by deleting pods and by
    restarting Deployments in the namespace of its own CR.  It never deletes an
    analysis and never creates or deletes a Job: only the pruner does. *)
Theorem timer_actions t body namespace name s :
  Forall (timer_allows (body_spec body) namespace)
    (new_actions (run_timer rest_env redis_env fuel t body namespace name) s).
Proof. apply new_actions_emits, timer_bound. Qed.
End operator.

(** ** The warning queue as the sink of the status store *)

Section sink.
Context {W : Type}.
Context `{StatusServer W} `{Entropy W} `{KeyOrder} `{CoreV1Api W} `{KubeConfigApi W} `{KopfApi W}.
Implicit Types s : st W OpMem.

(** Loading the cluster configuration leaves the status of the CRs alone. *)
Class ConfigKeepsStatus : Prop := {
  incluster_status w : status_doc (incluster_config_call w).2 = status_doc w;
  kube_config_status w : status_doc (kube_config_call w).2 = status_doc w;
}.
Context `{!ConfigKeepsStatus}.

(** What the sink leaves alone for the store [self]. *)
Definition untouched_by_sink (self : Store) (f : string) s : gmap (string * string * string) (gset string) * option pv :=
  (protected_anchor_keys (shared s), doc self s !! f).

Lemma config_keeps self f :
  within (keeps (untouched_by_sink self f))
    (load_operator_kube_config (W:=W) (P:=OpMem) load_incluster_config load_kube_config).
Proof.
  assert (Hext : ∀ {A} a (g : W → res A * W), (∀ w, status_doc (g w).2 = status_doc w) →
    within (keeps (untouched_by_sink self f)) (ext (P:=OpMem) a g)).
  { intros A a g Hg s. unfold keeps, untouched_by_sink, doc, ext. specialize (Hg (world s)).
    destruct (g (world s)) as [r w]. simpl in *. by rewrite Hg. }
  unfold load_operator_kube_config. apply within_try; [apply _|apply Hext, incluster_status|].
  intros e k. destruct e; try done. intros [= <-]. apply Hext, kube_config_status.
Qed.

Lemma put_keeps {C} (L : Lens OpMem C) self f (c : C) : within (keeps (untouched_by_sink self f)) (put_part (W:=W) c).
Proof. by intros s. Qed.

Lemma deferred_store_keeps self f ns n : within (keeps (untouched_by_sink self f)) (_deferred_event_store (W:=W) ns n).
Proof.
  unfold _deferred_event_store, operator_custom_objects_api, _cached_k8s_api, get_part, put_api. pose proof (config_keeps self f).
  pose proof (λ C (L : Lens OpMem C) c, put_keeps L self f c). solve_within.
  all: try (intros s; reflexivity). all: repeat case_match; simplify_eq; solve_within.
Qed.

Lemma append_keeps self f store entry bound :
  f ≠ DEFERRED_EVENTS →
  within (keeps (untouched_by_sink self f)) (append_deferred_event (W:=W) (P:=OpMem) store entry bound).
Proof.
  intros Hf s. destruct (append_deferred_event store entry bound s) as [r s'] eqn:E. simpl. unfold append_deferred_event in E.
  apply mutate_stable_run in E as [(_ & Hp & Ho) Hd]; [|by intros ? []].
  assert (Hg : ∀ d o, (if bound is Some n then
        if n <=? Z.of_nat (length (deferred_of d)) then None
        else Some (status_patch {[DEFERRED_EVENTS := PList (deferred_of d ++ [PDict (PStr <$> entry)])]})
      else Some (status_patch {[DEFERRED_EVENTS := PList (deferred_of d ++ [PDict (PStr <$> entry)])]})) = Some o →
      patch_effect d o !! f = d !! f).
  { intros d o Eo. assert (o = status_patch {[DEFERRED_EVENTS := PList (deferred_of d ++ [PDict (PStr <$> entry)])]}) as ->
      by (destruct bound; [case_match|]; by simplify_eq).
    unfold patch_effect, status_patch. rewrite lookup_singleton_eq, lookup_merge_dict, lookup_singleton_ne by done. done. }
  unfold keeps, untouched_by_sink. rewrite Hp. f_equal. unfold doc.
  destruct (decide ((store_namespace self, store_name self) = (store_namespace store, store_name store))) as [[= -> ->]|Hne];
    [|by rewrite Ho].
  fold (doc store s') (doc store s). unfold pure_patch in Hd. destruct r as [[]|e].
  - destruct Hd as (o & [= Eo] & ->). destruct o as [o|]; [|done]. by eapply Hg.
  - destruct Hd as [-> | (p & [] & [= Eo] & ->)]; [done|]. by eapply Hg.
Qed.

(** C20: the warning queue the operator installs as the event sink of its status
    store meets the contract on which the theorems of the store rest: queueing
    a warning, with its durable copy, touches no protected keys and no status
    field but the deferred events. *)
Theorem cap_sink_meets_contract self : @SinkSpec W OpMem _ _ cap_sink self.
Proof.
  assert (Hd : ∀ f d, f ≠ DEFERRED_EVENTS →
    within (keeps (untouched_by_sink self f)) (with_store_factory (W:=W) (λ factory, defer_to_next_tick factory d))).
  { intros f d Hf. apply with_factory_within; intros armed. pose proof (deferred_store_keeps self f). pose proof (λ st e b, append_keeps self f st e b Hf).
    pose proof (λ C (L : Lens OpMem C) c, put_keeps L self f c).
    unfold defer_to_next_tick, _persist, _store_for, depth_gauge, get_part. destruct armed; cbn [store_factory]; solve_within.
    all: try (intros s; reflexivity). }
  split; intros; intros s; unfold _emit_status_map_event, cap_sink, _emit_status_map_cap_event.
  - pose proof (Hd SOFT_STOPS (Deferred ns n r m) ltac:(done) s) as Hk. unfold keeps, untouched_by_sink in *. by injection Hk.
  - pose proof (Hd f (Deferred ns n r m) ltac:(done) s) as Hk. unfold keeps, untouched_by_sink in *. by injection Hk.
Qed.
End sink.

(** ** A concrete operator *)

#[local] Instance sim_config_keeps : ConfigKeepsStatus (W:=sim).
Proof. by split. Qed.

Lemma cap_sink_meets_contract_witness : @SinkSpec sim OpMem _ _ cap_sink sim_store.
Proof. exact (cap_sink_meets_contract sim_store). Defined.

#[local] Instance no_tables : UrlTables := { bracketed_host_ok _ := false; netloc_nfkc_ok _ := true }.

Definition op_rest_env : RestEnv := MkRestEnv None (λ _, false) (λ _, Raise (OSError "none")).
Definition op_redis_env : RedisEnv := MkRedisEnv None None (λ _, false) (λ _, Raise (OSError "none")) (λ _, Ok tt).

Definition op_body (dry : bool) : pv :=
  PDict {["metadata" := PDict {["name" := PStr "cr"; "namespace" := PStr "ns"; "uid" := PStr "u1"]};
          "spec" := PDict {["serverUrl" := PStr "http://web"; "redisUrl" := PStr "redis://queue:6379"; "dryRun" := PBool dry;
            "analysisPolicy" := PDict {["maxDurationMinutes" := PInt 180; "autoSoftStop" := PBool true]}]}]}.

(** A cluster with that CR, whose anchor says the analysis [a1] has been
    watched for far too long. *)
Definition op_world (dry : bool) : sim :=
  Sim {[("ns", "cr") := {[SOFT_STOPS := PDict {["a1" := PDict (to_dict (SoftStopRecord.Make (-200 * us_minute) "watching" None None))]}]}]}
    0 (PDict {["items" := PList [op_body dry]]}) [] ∅ ∅ ∅ sla_http (λ _, Raise (RedisError "down")).

Definition op_tick_run (dry : bool) : st sim OpMem :=
  (run_timer op_rest_env op_redis_env 10 AnalysisSlaMonitor (op_body dry) "ns" "cr" (sim_start (op_world dry) fresh_mem)).2.

Definition soft_stop_of_a1 : action := soft_stop_request (make_client "http://web") "a1".

(** The whole timer on that cluster: the soft stop is sent outside dry run and
    withheld under it. *)
Lemma timer_actions_witness :
  soft_stop_of_a1 ∈ log (op_tick_run false) ∧ soft_stop_of_a1 ∉ log (op_tick_run true) ∧
  Forall (timer_allows (body_spec (op_body true)) "ns")
    (new_actions (run_timer op_rest_env op_redis_env 10 AnalysisSlaMonitor (op_body true) "ns" "cr")
       (sim_start (op_world true) fresh_mem)).
Proof.
  split; [apply (bool_decide_unpack _); vm_compute; reflexivity|].
  split; [apply (bool_decide_unpack _); vm_compute; reflexivity|].
  exact (timer_actions op_rest_env op_redis_env 10 AnalysisSlaMonitor (op_body true) "ns" "cr"
    (sim_start (op_world true) fresh_mem)).
Defined.
