(* ===== verification/Process.v ===== *)
(** * The operator process over time

    The handlers kopf may call, in any order and with any arguments, a world
    that may change between any two calls, and restarts that lose the memory
    of the process; executions are the closure of these steps. *)
From S2P Require Import Prelude PyValue Effects Logic PyTime Services Config CrCache KubeOps K8sApi StatusRecords StatusStore RestClient Url RedisClient StatusScalars ClientFactory Events AnalysisSla DatapointWatchdog WorkerRecycler WebBackground Singleton DryRunAudit OscmTick RedisLayout Operator.

(** A call of a handler by the framework, or of the signal handler. *)
Inductive handler_call :=
  | CallTimer (t : timer) (body : pv) (namespace name : string)
  | CallDryRunAudit (namespace name : string) (event_type : option string) (body : pv)
  | CallDrain (namespace name : string)
  | CallKeyLayout (event_type : option string) (body : pv)
  | CallInstallPersistence
  | CallGuardStartup (pod_namespace : option string)
  | CallGuardEvent (namespace name : string) (body : gmap string pv) (event_type : option string)
  | CallSigterm.

Inductive event := Call (c : handler_call) | Environment | Restart.

Section process.
Context {W : Type}.
Context `{CustomObjectsApi W} `{Entropy W} `{KeyOrder} `{SetOrder} `{HttpApi W} `{CoreV1Api W} `{AppsV1Api W}.
Context `{KubeConfigApi W} `{KopfApi W} `{RedisApi W} `{Clock W} `{UrlTables}.
Context (rest_env : RestEnv) (redis_env : RedisEnv) (fuel : nat).

#[local] Existing Instance cap_sink.

Definition run_call (c : handler_call) : M W OpMem unit :=
  match c with
  | CallTimer t body namespace name => run_timer rest_env redis_env fuel t body namespace name;; mret tt
  | CallDryRunAudit namespace name event_type body => dry_run_toggle_audit emit_kopf_event namespace name event_type body
  | CallDrain namespace name => _drain_queued_warning_events name namespace
  | CallKeyLayout event_type body => with_store_factory (λ f, _redis_key_layout_check redis_env f fuel event_type body)
  | CallInstallPersistence => _install_deferred_event_persistence
  | CallGuardStartup pod_namespace => singleton_guard_startup redis_env pod_namespace
  | CallGuardEvent namespace name body event_type => singleton_guard_event redis_env namespace name body event_type
  | CallSigterm => request_shutdown
  end.

(** A handler that raises leaves what it has done: kopf logs and goes on. *)
Inductive step : event → relation (st W OpMem) :=
  | step_call c s : step (Call c) s (run_call c s).2
  | step_environment w s : step Environment s (St w (mem s) (shared s) (log s))
  | step_restart s : step Restart s (St (world s) fresh_mem (StoreMem ∅ None) (log s)).

Inductive execution : list event → relation (st W OpMem) :=
  | execution_nil s : execution [] s s
  | execution_cons e es s1 s2 s3 : step e s1 s2 → execution es s2 s3 → execution (e :: es) s1 s3.

Lemma execution_app es1 es2 s1 s2 s3 : execution es1 s1 s2 → execution es2 s2 s3 → execution (es1 ++ es2) s1 s3.
Proof. induction 1; simpl; [done|]. intros. econstructor; eauto. Qed.

(** Invariants by rule induction: what every event of the execution preserves. *)
Lemma execution_invariant (I : st W OpMem → Prop) es s s' :
  (∀ e s1 s2, e ∈ es → step e s1 s2 → I s1 → I s2) → execution es s s' → I s → I s'.
Proof.
  intros Hstep Hex. induction Hex as [s|e es s1 s2 s3 Hs Hex IH]; [done|]. intros Hi.
  apply IH; [intros e' ? ? He; apply Hstep; by right|]. eapply Hstep; [by left|done|done].
Qed.

(** The executions without changes of the world or restarts, as a function. *)
Fixpoint run_calls (cs : list handler_call) (s : st W OpMem) : st W OpMem :=
  match cs with
  | [] => s
  | c :: cs => run_calls cs (run_call c s).2
  end.

Lemma run_calls_execution cs s : execution (Call <$> cs) s (run_calls cs s).
Proof. revert s. induction cs as [|c cs IH]; intros s; simpl; econstructor; [constructor|apply IH]. Qed.
End process.
