(* ===== verification/EntryPoint.v ===== *)
(** * The entry point ([__main__.py]) and the import of the handlers ([handlers/__init__.py])

    The command line, the boot steps in their order up to the call of
    [kopf.run], which is an argument, and what is registered then. *)
From S2P Require Import Prelude PyValue Effects Logic PyTime Services Url PyText Sha256 Archival Singleton SingletonSpec OscmTick LogFormat KopfPersistence MetricsServer Operator Process.

(** ** The command line *)

(** An argument as the parser takes it, by the options it knows: the flag,
    with its value when the argument carries it, a value, or what ends the
    program (the help, an unknown or ambiguous option, the separator). *)
Inductive argument := Flag (value : option string) | Value (text : string) | Ends.

Definition option_names : list string := ["--help"; "--namespace"].

(** [-?[0-9]+] or [-?[0-9]*.[0-9]+], the sign given, up to a final line feed *)
Definition negative_number (l : text_chars) : bool :=
  let l := removesuffix [Ascii.ascii_of_nat 10] l in
  match partition 46 l with
  | (whole, false, _) => isdigit whole
  | (whole, true, fraction) => forallb is_digit whole && isdigit fraction
  end.

(** [_parse_optional] of the parser, for an argument that starts with a dash. *)
Definition dashed_argument (a : string) : argument :=
  let '(before, sep, after) := partition 61 (chars a) in
  let value := if (sep : bool) then Some (string_of after) else None in
  let unknown := if negative_number (drop 1 (chars a)) || contains 32 (chars a) then Value a else Ends in
  if String.eqb a "-" then Value a
  else if String.eqb a "--" then Ends
  else if String.prefix "--" a then
    match filter (λ o, starts_with before (chars o) = true) option_names with
    | [] => unknown
    | [o] => if String.eqb o "--namespace" then Flag value else Ends
    | _ => Ends
    end
  else if String.prefix "-h" a then Ends
  else unknown.

Definition argument_of (a : string) : argument := if String.prefix "-" a then dashed_argument a else Value a.

(** The parser ends the program with its own [SystemExit]. *)
Definition parser_exit : exn := OtherError "SystemExit" "".

Fixpoint parse_from (namespace : string) (argv : list string) : res string :=
  match argv with
  | [] => Ok namespace
  | a :: argv =>
      match argument_of a with
      | Flag (Some value) => parse_from value argv
      | Flag None =>
          match argv with
          | [] => Raise parser_exit
          | v :: argv => match argument_of v with Value v => parse_from v argv | _ => Raise parser_exit end
          end
      | _ => Raise parser_exit
      end
  end.

Definition DEFAULT_NAMESPACE : string := "openstudio-server".

Definition _parse_args (argv : list string) : res string := parse_from DEFAULT_NAMESPACE argv.

(** ** The boot *)

(** What the process has set up, in order. *)
Inductive setup :=
  | ConfigureLogging                                  (** [kopf.configure] *)
  | HandleSigterm                                     (** [signal.signal] *)
  | OnStartup (id : string) | OnEvent (id : string) | OnTimer (id : string) (interval : Z)
  | SetEventSink.                                     (** [status_store.set_event_sink] *)

#[export] Instance setup_eq_dec : EqDecision setup.
Proof. solve_decision. Defined.

(** The memory the boot writes: the list above, the default registry of the
    framework ([None]: not laid out as expected), the names of [REGISTRY], the
    root logger and the metrics server. *)
Record BootMem := MkBootMem {
  bt_setup : list setup;
  bt_spawning : option (list spawning);
  bt_REGISTRY : gset string;
  bt_root : log_target;
  bt_server : MetricsServer;
}.

Definition with_server (c : MetricsServer) (p : BootMem) : BootMem := MkBootMem (bt_setup p) (bt_spawning p) (bt_REGISTRY p) (bt_root p) c.

#[export] Instance bt_server_lens : Lens BootMem MetricsServer := { lget := bt_server; lput := with_server; lget_lput c p := eq_refl }.


Section boot.
Context {W : Type} `{KopfTimer}.
Notation Boot A := (M W BootMem A).



(** The cadences, in seconds. *)
Definition SLA_POLL_INTERVAL_SECONDS : Z := 30.
Definition DATAPOINT_POLL_INTERVAL_SECONDS : Z := 60.
Definition WORKER_RECYCLE_POLL_INTERVAL_SECONDS : Z := 300.
Definition WEB_BACKGROUND_POLL_INTERVAL_SECONDS : Z := 60.







End boot.

(** ** Facts *)

Example parse_abbreviated : _parse_args ["--nam"; "-5"; "--n=a b"] = Ok "a b".
Proof. reflexivity. Qed.
Example parse_values : _parse_args ["--namespace"; "-x y"] = Ok "-x y" ∧ _parse_args ["--namespace"; "--"] = Raise parser_exit ∧
  _parse_args ["--"] = Raise parser_exit ∧ _parse_args ["--=x"] = Raise parser_exit ∧ _parse_args ["--namespace="] = Ok "" ∧
  _parse_args ["--namespace"; "-"] = Ok "-" ∧ _parse_args ["--namespace"; "-.5"] = Ok "-.5" ∧ _parse_args ["--namespace"; "-5."] = Raise parser_exit.
Proof. repeat split; reflexivity. Qed.

(** A flag that carries its value, whatever the value is. *)
Lemma explicit_flag v : argument_of ("--namespace=" +:+ v) = Flag (Some v).
Proof. lazy. do 2 f_equal. apply String.string_of_list_ascii_of_string. Qed.

(** Arguments are taken from the left, one option at a time. *)
Lemma parse_from_app l l' d v : parse_from d l = Ok v → parse_from d (l ++ l') = parse_from v l'.
Proof.
  remember (length l) as n eqn:En. revert l d En. induction (lt_wf n) as [n _ IH]. intros [|a l] d ->; [by intros [= ->]|].
  cbn [parse_from app length]. destruct (argument_of a) as [[w|]| |]; try done.
  - apply (IH (length l)); [cbn; lia|done].
  - destruct l as [|b l]; [done|]. cbn [app length]. destruct (argument_of b); try done. apply (IH (length l)); [cbn; lia|done].
Qed.

(** The last namespace given is the one watched, as it was written; without
    any it is the namespace the manifests install into. *)
Theorem last_namespace_wins l v namespace :
  _parse_args l = Ok v → _parse_args (l ++ ["--namespace=" +:+ namespace]) = Ok namespace.
Proof. intros Hl. unfold _parse_args. rewrite (parse_from_app _ _ _ _ Hl). cbn [parse_from]. by rewrite explicit_flag. Qed.

(** ** What is in place when the framework starts *)

Section booted.
Context {W : Type} `{KopfTimer}.
Implicit Types s : st W BootMem.

Context `{!TimerDecorator}.

Definition timer_ids : list string := ["analysis_sla_monitor"; "zombie_datapoint_watchdog"; "web_background_monitor"; "worker_recycler"].

Definition boot_setup : list setup :=
  [ConfigureLogging; HandleSigterm;
   OnStartup "singleton_guard_startup"; OnEvent "singleton_guard_event"; OnTimer "analysis_sla_monitor" 30;
   OnEvent "_redis_key_layout_check"; OnTimer "zombie_datapoint_watchdog" 60; OnEvent "dry_run_toggle_audit";
   OnTimer "web_background_monitor" 60; OnTimer "worker_recycler" 300;
   SetEventSink; OnEvent "_drain_queued_warning_events"; OnStartup "_install_deferred_event_persistence"].

Definition boot_REGISTRY : gset string := list_to_set (reverse timer_ids).











(** *** The handlers, gated and disarmed *)






















End booted.

(** ** The process that is started *)

(** The cadence of a timer. *)
Definition timer_interval (t : timer) : Z :=
  match t with
  | AnalysisSlaMonitor => SLA_POLL_INTERVAL_SECONDS
  | ZombieDatapointWatchdog => DATAPOINT_POLL_INTERVAL_SECONDS
  | WorkerRecycler => WORKER_RECYCLE_POLL_INTERVAL_SECONDS
  | WebBackgroundMonitor => WEB_BACKGROUND_POLL_INTERVAL_SECONDS
  end.

(** The registration a call of the process model answers to. *)
Definition registration (c : handler_call) : setup :=
  match c with
  | CallTimer t _ _ _ => OnTimer (timer_name t) (timer_interval t)
  | CallDryRunAudit _ _ _ _ => OnEvent "dry_run_toggle_audit"
  | CallDrain _ _ => OnEvent "_drain_queued_warning_events"
  | CallKeyLayout _ _ => OnEvent "_redis_key_layout_check"
  | CallInstallPersistence => OnStartup "_install_deferred_event_persistence"
  | CallGuardStartup _ => OnStartup "singleton_guard_startup"
  | CallGuardEvent _ _ _ _ => OnEvent "singleton_guard_event"
  | CallSigterm => HandleSigterm
  end.

(** A call for each registration. *)
Definition some_calls : list handler_call :=
  [CallTimer AnalysisSlaMonitor PNone "" ""; CallTimer ZombieDatapointWatchdog PNone "" ""; CallTimer WorkerRecycler PNone "" "";
   CallTimer WebBackgroundMonitor PNone "" ""; CallDryRunAudit "" "" None PNone; CallDrain "" ""; CallKeyLayout None PNone;
   CallInstallPersistence; CallGuardStartup None; CallGuardEvent "" "" ∅ None; CallSigterm].

(** The process model has a call for each thing the boot registers, and no other. *)
Lemma calls_registered x :
  x ∈ boot_setup ↔ x = ConfigureLogging ∨ x = SetEventSink ∨ ∃ c, registration c = x.
Proof.
  split.
  - intros Hx. assert (Hin : Forall (.∈ ConfigureLogging :: SetEventSink :: (registration <$> some_calls)) boot_setup)
      by (apply (bool_decide_unpack _); vm_compute; reflexivity).
    rewrite Forall_forall in Hin. apply Hin in Hx. rewrite !elem_of_cons, list_elem_of_fmap in Hx.
    destruct Hx as [?|[?|(c & -> & _)]]; eauto.
  - intros [->|[->|[c <-]]]; [by left|apply (bool_decide_unpack _); vm_compute; reflexivity|].
    destruct c as [[]| | | | | | |]; apply (bool_decide_unpack _); vm_compute; reflexivity.
Qed.

(** ** A concrete boot *)







