(* ===== verification/ProcessSpec.v ===== *)
(** * What holds of the operator process over time

    Over every execution: what it may have done to the user's system, the
    bounds of its memory, and that a shutdown request stops it for good. *)
From S2P Require Import Prelude PyValue Effects Logic PyTime Services Config CrCache KubeOps K8sApi StatusRecords StatusStore StatusStoreFacts SimWorld StatusStoreSpec RestClient Url RedisClient RedisClientSpec StatusScalars ClientFactory Actions Metrics Events AnalysisSla AnalysisSlaSpec DatapointWatchdog WorkerRecycler WebBackground Singleton SingletonSpec DryRunAudit OscmTick RedisLayout Frame Operator OperatorSpec Process.

(** ** Actions *)

Section actions.
Context {W : Type}.
Context `{StatusServer W} `{Entropy W} `{KeyOrder} `{SetOrder} `{HttpApi W} `{CoreV1Api W} `{AppsV1Api W}.
Context `{KubeConfigApi W} `{KopfApi W} `{RedisApi W} `{Clock W} `{UrlTables}.
Context (rest_env : RestEnv) (redis_env : RedisEnv) (fuel : nat).
Implicit Types s : st W OpMem.

Notation call := (run_call rest_env redis_env fuel).
Notation execution := (execution rest_env redis_env fuel).

#[local] Hint Extern 0 (harmless _) => exact I : within.

(** What a call may do: only a timer changes the user's system. *)
Definition call_allows (c : handler_call) (a : action) : Prop :=
  match c with
  | CallTimer _ body namespace _ => timer_allows (body_spec body) namespace a
  | _ => harmless a
  end.

Lemma drain_quiet ns n : quiet (_drain_queued_warning_events (W:=W) n ns).
Proof.
  unfold _drain_queued_warning_events. apply within_bind; [apply _|apply with_factory_within; intros armed|intros; solve_within].
  pose proof (store_for_quiet (W:=W) armed). unfold flush_for, put_part, get_part.
  pose proof (λ self, get_deferred_quiet (H1:=no_sink) self harmless (StoreQuiet0:=no_sink_store self)).
  pose proof (λ self, clear_deferred_quiet (H1:=no_sink) self harmless (StoreQuiet0:=no_sink_store self)).
  solve_within; done.
Qed.

Lemma guard_check_quiet ns : quiet (_check (W:=W) (P:=OpMem) redis_env ns).
Proof.
  pose proof (redis_factory_quiet (W:=W) redis_env). pose proof (api_quiet (W:=W)).
  unfold _check, _get_guard, set_guard, modify_singleton, put_api, put_part, get_part. solve_within; done.
Qed.

Lemma call_bound c : within (emits (call_allows c)) (call c).
Proof.
  pose proof guard_check_quiet. pose proof drain_quiet.
  destruct c; cbn [run_call call_allows].
  - apply within_bind; [apply _|apply timer_bound|intros _; solve_within].
  - unfold dry_run_toggle_audit, record_dry_run_transition, emit_kopf_event, put_part, get_part. solve_within; done.
  - done.
  - apply with_factory_within; intros armed. pose proof (layout_quiet (W:=W) redis_env fuel armed). unfold _redis_key_layout_check. solve_within; done.
  - unfold _install_deferred_event_persistence. solve_within.
  - unfold singleton_guard_startup. done.
  - unfold singleton_guard_event, modify_singleton, put_part, get_part. solve_within; done.
  - unfold request_shutdown, put_part, get_part. solve_within.
Qed.
(** What an action of an execution answers to. *)
Definition answers_to (es : list event) (a : action) : Prop :=
  harmless a ∨
  ∃ t body namespace name, Call (CallTimer t body namespace name) ∈ es ∧
    dry_run_of (body_spec body) = false ∧ operator_may namespace a.

Lemma answers_to_call es c a : Call c ∈ es → call_allows c a → answers_to es a.
Proof.
  intros Hin. destruct c; simpl; try by left. intros [?|[??]]; [by left|right]. by eauto 8.
Qed.

Lemma answers_to_more es1 es2 a : es1 ⊆ es2 → answers_to es1 a → answers_to es2 a.
Proof. intros Hs [?|(t & body & ns & n & Hin & ?)]; [by left|right]. exists t, body, ns, n. auto. Qed.

(** C1: over every execution of the operator process, with any interleaving of
    its handlers, any changes of the world between them and any restarts, each
    action that changes the user's system answers to a call of a timer for a
    CR whose body is not in dry run, in the namespace of that CR, and is a soft
    stop, a stop, a requeue, the deletion of a pod or the restart of a
    Deployment.  The watch handlers, the startup check and the signal handler
    never change it. *)
Theorem process_actions es s s' :
  execution es s s' → ∃ l, log s' = log s ++ l ∧ Forall (answers_to es) l.
Proof.
  induction 1 as [s|e es s1 s2 s3 Hs Hex (l & El & Hl)]; [exists []; by rewrite app_nil_r|].
  assert (Hl' : Forall (answers_to (e :: es)) l).
  { eapply Forall_impl; [exact Hl|]. intros a. apply answers_to_more. set_solver. }
  destruct Hs as [c s|w s|s]; simpl in El; [|by exists l..].
  destruct (call_bound c s) as (l1 & E1 & H1'). exists (l1 ++ l). split; [by rewrite El, E1, assoc by apply _|].
  apply Forall_app. split; [|done]. eapply Forall_impl; [exact H1'|]. intros a. apply answers_to_call. by left.
Qed.
End actions.

(** A lookup in a cache of clients makes no call. *)
Lemma lru_call_outside {W P V} `{Lens P (list (string * V))} maxsize (make : string → res V) url (s : st W P) :
  let s' := (lru_call maxsize (λ u, of_res (make u)) url s).2 in world s' = world s ∧ log s' = log s.
Proof. rewrite lru_call_eq. unfold of_res. by destruct (lru_find url (cache_of s)); [|destruct (make url)]. Qed.

(** ** The memory *)

Section memory.
Context {W : Type}.
Context `{CustomObjectsApi W} `{Entropy W} `{KeyOrder} `{SetOrder} `{HttpApi W} `{CoreV1Api W} `{AppsV1Api W}.
Context `{KubeConfigApi W} `{KopfApi W} `{RedisApi W} `{Clock W} `{UrlTables}.
Context (rest_env : RestEnv) (redis_env : RedisEnv) (fuel : nat).
Implicit Types s : st W OpMem.

#[local] Existing Instance cap_sink.

(** An invariant [I] of the memory that the operations on each cell respect. *)
Class Respected (I : OpMem → Prop) : Prop := {
  ok_api slot c : client_bounded c = true →
    ∀ p, I p → I (with_apis (with_api slot (Some c) (op_apis p)) p);
  ok_api_drop slot p : I p → I (with_apis (with_api slot None (op_apis p)) p);
  ok_rest url s c s' : lru_call (W:=W) CLIENT_CACHE_MAXSIZE (λ u, of_res (new_openstudio_client rest_env u)) url s = (c, s') →
    I (mem s) → I (mem s');
  ok_redis url s c s' : lru_call (W:=W) REDIS_CLIENT_CACHE_MAXSIZE (λ u, of_res (make_redis_client redis_env u)) url s = (c, s') →
    I (mem s) → I (mem s');
  ok_queue d p : Z.of_nat (length (queue (op_sink p))) < MAX_DEFERRED_WARNING_EVENTS →
    I p → I (with_sink (MkSinkQueue (queue (op_sink p) ++ [d])) p);
  ok_flush ns n p : I p → I (with_sink (MkSinkQueue (filter (λ d, is_for ns n d = false) (queue (op_sink p)))) p);
  ok_failures f p : I p → I (with_tick (MkTickState (_shutdown_requested (op_tick p)) f) p);
  ok_shutdown p : I p → I (with_tick (MkTickState true (_cross_handler_failures (op_tick p))) p);
  ok_guard g p : I p → I (with_singleton (with_guard g (op_singleton p)) p);
  ok_url_warned k p : I p → I (with_singleton (with_url_warned k (op_singleton p)) p);
  ok_forbidden k p : I p → I (with_singleton (with_forbidden_warned k (op_singleton p)) p);
  ok_surface_get k p : I p → I (with_singleton (with_surfaces (GuardCache.get k (_guard_last_seen_surface (op_singleton p))).2 (op_singleton p)) p);
  ok_surface_set k v p : I p → I (with_singleton (with_surfaces (GuardCache.set k v (_guard_last_seen_surface (op_singleton p))) (op_singleton p)) p);
  ok_surface_pop k p : I p → I (with_singleton (with_surfaces (GuardCache.pop k (_guard_last_seen_surface (op_singleton p))) (op_singleton p)) p);
  ok_emitter c p : I p → I (with_emitter c p);
  ok_audit c p : I p → I (with_audit c p);
  ok_layout c p : I p → I (with_layout c p);
  ok_armed p : I p → I (with_store_armed p);
  ok_revalidated c p : I p → I (with_revalidated c p);
  ok_exhausted c p : I p → I (with_exhausted c p);
  ok_anchor_prune c p : I p → I (with_anchor_prune c p);
  ok_trackers c p : I p → I (with_trackers c p);
  ok_leg2 c p : I p → I (with_leg2 c p);
}.

Context (I : OpMem → Prop) `{!Respected I} (T : relation W) `{!PreOrder T, !Outside T}.
Context (own : string → string → string → Prop) `{!CrCalls T own} (Hdeferred : ∀ ns n, own ns n DEFERRED_EVENTS).
Notation R := (evolves (W:=W) I T).

(** A read of a cell and the rest, knowing what was read. *)
Lemma get_frame {C A} (L : Lens OpMem C) (k : C → M W OpMem A) :
  (∀ s, I (mem s) → R s (k (lget (mem s)) s).2) → within R (get_part (C:=C) ≫= k).
Proof. intros Hk s Hs. by apply Hk. Qed.

Lemma put_frame {C A} (L : Lens OpMem C) (c : C) (m : M W OpMem A) s :
  I (lput c (mem s)) → within R m → R s ((put_part c;; m) s).2.
Proof. intros Hc Hm _. by apply (Hm (St (world s) (lput c (mem s)) (shared s) (log s))). Qed.

Lemma seq_frame {A B} (m : M W OpMem A) (k : A → M W OpMem B) s :
  R s (m s).2 → (∀ a, within R (k a)) → R s ((m ≫= k) s).2.
Proof. intros Hm Hk. unfold mbind, M_bind. destruct (m s) as [[a|e] s1]; [etransitivity; [exact Hm|apply Hk]|done]. Qed.

Lemma update_frame {C} (L : Lens OpMem C) (f : C → C) :
  (∀ p, I p → I (lput (f (lget p)) p)) → within R (c ← get_part (C:=C); put_part (f c)).
Proof. intros Hf. refine (mem_frame I T (λ p, lput (f (lget p)) p) Hf). Qed.

Lemma put_any {C} (L : Lens OpMem C) (c : C) : (∀ p, I p → I (lput c p)) → within R (put_part c).
Proof. intros Hc. by refine (mem_frame I T (lput c) _). Qed.

(** The operations on constrained cells. *)

Lemma api_frame slot strict : within R (_cached_k8s_api slot strict).
Proof.
  assert (Hl : within R (load_operator_kube_config load_incluster_config load_kube_config)).
  { unfold load_operator_kube_config, load_incluster_config, load_kube_config. solve_frame. }
  unfold _cached_k8s_api. apply within_bind; [apply _|solve_frame|intros m]. destruct (operator_api slot m); [solve_frame|].
  apply within_bind; [apply _|solve_frame|intros _]. cbv zeta. apply within_bind; [apply _| |intros _; solve_frame].
  unfold put_api. apply update_frame. intros p. by apply ok_api.
Qed.

Lemma api_drop_frame slot : within R (put_api slot None).
Proof. unfold put_api. apply update_frame. intros p. apply ok_api_drop. Qed.

Lemma rest_frame url : within R (get_openstudio_client rest_env url).
Proof.
  intros s Hs. unfold get_openstudio_client. destruct (lru_call_outside CLIENT_CACHE_MAXSIZE (new_openstudio_client rest_env) url s) as [Ew El].
  split_and!; [by rewrite Ew|exact (ok_rest url s _ _ (surjective_pairing _) Hs)|exists []; by rewrite El, app_nil_r].
Qed.

Lemma redis_url_frame url : within R (_redis_client_for_url redis_env url).
Proof.
  intros s Hs. unfold _redis_client_for_url. destruct (lru_call_outside REDIS_CLIENT_CACHE_MAXSIZE (make_redis_client redis_env) url s) as [Ew El].
  split_and!; [by rewrite Ew|exact (ok_redis url s _ _ (surjective_pairing _) Hs)|exists []; by rewrite El, app_nil_r].
Qed.

Lemma deferred_store_frame ns n : within R (_deferred_event_store ns n).
Proof. pose proof api_frame. unfold _deferred_event_store, operator_custom_objects_api. solve_frame. Qed.

Lemma store_for_frame armed ns n : within R (_store_for (store_factory armed) ns n).
Proof. pose proof deferred_store_frame. unfold _store_for. destruct armed; cbn [store_factory]; solve_frame. Qed.

Lemma defer_frame armed d : within R (defer_to_next_tick (store_factory armed) d).
Proof.
  unfold defer_to_next_tick. apply get_frame. intros s Hs.
  apply seq_frame; [|intros _; solve_frame].
  destruct (Z.leb_spec MAX_DEFERRED_WARNING_EVENTS (Z.of_nat (length (queue (lget (mem s)))))) as [|Hlt].
  - refine (act_frame I T _ _ s). declared.
  - apply put_frame; [by apply ok_queue|]. pose proof store_for_frame. unfold _persist. solve_frame.
Qed.

Lemma flush_frame armed ns n : within R (flush_for (store_factory armed) ns n).
Proof.
  pose proof store_for_frame. assert (within R (depth_gauge (W:=W) (P:=OpMem))) by solve_frame.
  assert (Hq : ∀ x : Z, within R (q ← get_part (C:=SinkQueue);
    put_part (MkSinkQueue (filter (λ d, is_for ns n d = false) (queue q)));; depth_gauge;; mret x)).
  { intros x. apply get_frame. intros s Hs. apply put_frame; [by apply ok_flush|solve_frame]. }
  unfold flush_for. solve_frame.
Qed.
Lemma skip_tick_frame {A} ns n m e : within R (skip_tick (R:=A) ns n m e).
Proof.
  unfold skip_tick. apply within_bind; [apply _|solve_frame|intros _]. apply within_bind; [apply _|solve_frame|intros now].
  apply get_frame. intros s Hs. cbv zeta. set (f := record_failure _ _ _). pose proof (ok_failures f _ Hs) as Ht.
  destruct (outage_of f) as [ms|].
  - refine (transitivity (act_frame I T (MetricInc _ [("module_set", join "-" ms)] 1) _ s)
      (put_frame op_tick_lens _ _ (St (world s) (mem s) (shared s) (log s ++ [_])) Ht _)); [declared|solve_frame].
  - refine (put_frame op_tick_lens _ _ s Ht _). solve_frame.
Qed.
Lemma redis_factory_frame url ref ns : within R (get_read_only_redis_client redis_env url ref ns).
Proof. pose proof api_frame. pose proof redis_url_frame. solve_frame. Qed.

Lemma layout_frame armed plain item : within R (_check_redis_key_layout_for_cr redis_env (store_factory armed) fuel plain item).
Proof.
  pose proof redis_factory_frame. pose proof defer_frame.
  pose proof (λ c, put_any op_layout_lens c (ok_layout c)). solve_frame.
Qed.

Lemma guard_check_frame ns : within R (_check redis_env ns).
Proof.
  pose proof redis_factory_frame. pose proof api_frame. pose proof (api_drop_frame CustomObjects).
  pose proof (λ g, update_frame op_singleton_lens (with_guard g) (ok_guard g)).
  pose proof (λ k, update_frame op_singleton_lens (with_url_warned k) (ok_url_warned k)).
  pose proof (λ k, update_frame op_singleton_lens (with_forbidden_warned k) (ok_forbidden k)).
  solve_frame.
Qed.

Lemma skip_relist_frame body k ty : within R (_skip_guard_relist body k ty).
Proof.
  unfold _skip_guard_relist. destruct (negb _); [solve_frame|]. apply get_frame. intros s Hs. cbn [lget op_singleton_lens].
  destruct (_process_guard _ ≫= _); [|done]. pose proof (ok_surface_get k _ Hs) as Hg.
  destruct (GuardCache.get k _) as [seen cache]. apply put_frame; [exact Hg|solve_frame].
Qed.

Lemma cell_frame {V} get put ns n uid (v : V) :
  (∀ c p, I p → I (put c p)) → within R (get_or_create (W:=W) (P:=OpMem) get put (λ _ _, mret tt) ns n uid (mret v)).
Proof.
  intros Hput. assert (Hm : ∀ f : OpMem → OpMem, (∀ p, I p → I (f p)) → within R (modify_mem (W:=W) f)).
  { intros f Hf. by apply mem_frame. }
  unfold get_or_create. cbv zeta. apply within_bind; [apply _|solve_frame|intros p].
  pose proof (λ v r, Hm (λ p, put (<[(ns, n) := (r, v)]> (get p)) p) (λ p, Hput _ p)). solve_frame.
Qed.

(** ** The runner and the timers *)

Lemma emit_frame e t r m : within R (Events.emit (W:=W) (P:=OpMem) e t r m).
Proof. pose proof (λ c, put_any op_emitter_lens c (ok_emitter c)). solve_frame. Qed.

Lemma run_tick_frame {D A} spec body ns n module api (wire : OperatorConfig → M W OpMem D)
    (tick : OperatorConfig → Store → EventEmitter → D → Z → M W OpMem A) :
  within R api → (∀ c, within R (wire c)) → (∀ c e d now, within R (tick c (MkStore ns n) e d now)) →
  within R (observe_tick_duration module (run_oscm_tick spec body ns n module api wire tick)).
Proof.
  intros Ha Hw Ht. pose proof (λ e, skip_tick_frame (A:=A) ns n module e).
  pose proof (λ c, put_any op_emitter_lens c (ok_emitter c)).
  unfold observe_tick_duration, run_oscm_tick, idle_tick, guarded_tick, stamp_config_posture_gauges, heartbeat.
  apply within_finally; [apply _| |solve_frame]. apply within_bind; [apply _|solve_frame|intros t].
  destruct (_shutdown_requested t); [solve_frame|]. destruct (negb _); [solve_frame|].
  apply within_bind; [apply _|solve_frame|intros c]. apply within_bind; [apply _|solve_frame|intros _].
  apply within_finally; [apply _| |solve_frame]. destruct (negb _); [solve_frame|].
  apply within_bind; [apply _|solve_frame|intros now]. apply within_try; [apply _|solve_frame|].
  intros e k. destruct (skips_tick e); [intros [= <-]; solve_frame|done].
Qed.
Lemma sink_frame ns n r m : within R (_emit_status_map_event (W:=W) (P:=OpMem) ns n r m).
Proof. apply with_factory_within; intros armed. apply defer_frame. Qed.

Lemma rest_client_frame config : within R (rest_client_of rest_env config).
Proof. pose proof rest_frame. unfold rest_client_of. solve_frame. Qed.

Lemma redis_client_frame ns config : within R (redis_client_of redis_env ns config).
Proof. pose proof redis_factory_frame. unfold redis_client_of. solve_frame. Qed.

Lemma layout_check_frame body : within R (layout_check redis_env fuel body).
Proof.
  apply within_bind; [apply _|apply with_factory_within; intros; apply layout_frame|intros; solve_frame].
Qed.

(** The status fields a timer owns in its CR. *)
Definition timer_fields (t : timer) : list string :=
  match t with
  | AnalysisSlaMonitor => sla_fields
  | ZombieDatapointWatchdog => watchdog_fields
  | WorkerRecycler => recycler_fields
  | WebBackgroundMonitor => stall_fields
  end.

Section timers.
Context (body : pv) (spec : gmap string pv) (namespace name : string).
Notation key := (namespace, name).
Notation owns fields := (Forall (own namespace name) fields).

Lemma sla_timer_frame : owns sla_fields → within R (analysis_sla_monitor rest_env redis_env body spec namespace name).
Proof.
  intros Hf. pose proof rest_client_frame. pose proof redis_client_frame. pose proof api_frame.
  apply run_tick_frame; [apply api_frame|intros; solve_frame|]. intros c e [cl rd] now.
  eapply sla_tick_frame; [apply _|apply _|apply _|apply sink_frame|apply emit_frame|exact Hf|]. intros rc id [= <-]. cbn. solve_frame.
Qed.

Lemma watchdog_timer_frame : owns watchdog_fields → within R (zombie_datapoint_watchdog rest_env redis_env fuel body spec namespace name).
Proof.
  intros Hf. apply run_tick_frame; [apply api_frame|apply rest_client_frame|]. intros c e d now.
  apply within_bind; [apply _|apply layout_check_frame|intros _].
  apply within_bind; [apply _|apply cell_frame, ok_exhausted|intros _].
  apply within_bind; [apply _|apply cell_frame, ok_anchor_prune|intros _].
  unfold watchdog_body. cbv zeta. eapply watchdog_tick_frame; [apply _|apply _|apply _|apply sink_frame|apply emit_frame|exact Hf|..].
  - intros x. apply (put_any (anchor_prune_lens key)). intros p. apply ok_anchor_prune.
  - intros x. apply (put_any (exhausted_lens key)). intros p. apply ok_exhausted.
Qed.

Lemma recycler_timer_frame : owns recycler_fields → within R (worker_recycler rest_env redis_env fuel body spec namespace name).
Proof.
  intros Hf. pose proof rest_client_frame. pose proof api_frame.
  apply run_tick_frame; [apply api_frame|intros; solve_frame|]. intros c e d now.
  apply within_bind; [apply _|apply layout_check_frame|intros _].
  eapply recycler_tick_frame; [apply _|apply _|apply _|apply emit_frame|exact Hf].
Qed.

Lemma stall_timer_frame : owns stall_fields → within R (web_background_monitor redis_env fuel body spec namespace name).
Proof.
  intros Hf. pose proof redis_client_frame. pose proof api_frame. pose proof (layout_check_frame body).
  apply run_tick_frame; [apply api_frame| |].
  - intros c. apply within_bind; [apply _|solve_frame|intros redis]. apply within_bind; [apply _|solve_frame|intros _].
    apply within_bind; [apply _|solve_frame|intros _]. apply within_bind; [apply _|apply cell_frame, ok_trackers|intros _].
    apply within_bind; [apply _|apply cell_frame, ok_leg2|intros _]. solve_frame.
  - intros c e d now. apply within_bind; [apply _| |intros _].
    + pose proof (λ c, put_any op_revalidated_lens c (ok_revalidated c)). unfold _maybe_revalidate_redis_key_layout. solve_frame.
    + unfold stall_body. cbv zeta. eapply stall_tick_frame; [apply _|apply _|apply _|apply emit_frame|exact Hf|..].
      * intros x. apply (put_any (tracker_lens key)). intros p. apply ok_trackers.
      * intros x. apply (put_any (leg2_lens key)). intros p. apply ok_leg2.
Qed.
End timers.

Lemma is_active_frame b ns : within R (is_active_cr b ns).
Proof.
  pose proof api_frame. pose proof (api_drop_frame CustomObjects).
  pose proof (λ g, update_frame op_singleton_lens (with_guard g) (ok_guard g)). solve_frame.
Qed.

Lemma timer_fn_frame t body spec namespace name :
  Forall (own namespace name) (timer_fields t) →
  within R (timer_fn rest_env redis_env fuel t body spec namespace name).
Proof.
  intros Hf. destruct t; (apply within_bind; [apply _| |intros _; solve_frame]).
  - by apply sla_timer_frame.
  - by apply watchdog_timer_frame.
  - by apply recycler_timer_frame.
  - by apply stall_timer_frame.
Qed.

Lemma timer_frame t body namespace name :
  Forall (own namespace name) (timer_fields t) →
  within R (run_timer rest_env redis_env fuel t body namespace name).
Proof.
  intros Hf. pose proof (timer_fn_frame t body (body_spec body) namespace name Hf). pose proof is_active_frame.
  unfold run_timer, _gated, resolve_gate. solve_frame.
Qed.

Lemma call_frame c :
  (∀ t body namespace name, c = CallTimer t body namespace name → Forall (own namespace name) (timer_fields t)) →
  within R (run_call rest_env redis_env fuel c).
Proof.
  intros Hf. pose proof guard_check_frame. pose proof flush_frame. pose proof layout_frame.
  pose proof (λ c, put_any op_audit_lens c (ok_audit c)).
  destruct c; cbn [run_call]; [apply within_bind; [apply _|by eapply timer_frame, Hf|intros; solve_frame]|solve_frame| | | | | |].
  - apply within_bind; [apply _|apply with_factory_within; intros; apply flush_frame|intros; solve_frame].
  - apply with_factory_within; intros armed. pose proof (layout_frame armed). unfold _redis_key_layout_check. solve_frame.
  - refine (mem_frame I T with_store_armed _). intros p. apply ok_armed.
  - apply guard_check_frame.
  - unfold singleton_guard_event. destruct (bool_decide _).
    + apply within_bind; [apply _| |intros _; solve_frame]. apply update_frame. intros p. apply ok_surface_pop.
    + apply within_bind; [apply _|apply skip_relist_frame|intros skip]. destruct skip; [solve_frame|].
      apply within_bind; [apply _|solve_frame|intros _]. apply update_frame. intros p. apply ok_surface_set.
  - apply update_frame. intros p. apply ok_shutdown.
Qed.
End memory.

(** Every call keeps an invariant of the memory the cells respect. *)
Section preserved.
Context {W : Type}.
Context `{CustomObjectsApi W} `{Entropy W} `{KeyOrder} `{SetOrder} `{HttpApi W} `{CoreV1Api W} `{AppsV1Api W}.
Context `{KubeConfigApi W} `{KopfApi W} `{RedisApi W} `{Clock W} `{UrlTables}.
Context (rest_env : RestEnv) (redis_env : RedisEnv) (fuel : nat).
Context (I : OpMem → Prop) `{!Respected (W:=W) rest_env redis_env I}.

#[local] Existing Instance cap_sink.

Lemma call_preserves c : within (preserves I) (run_call (W:=W) rest_env redis_env fuel c).
Proof.
  eapply call_frame; [apply _..|done|]. intros t body ns n ->. by apply Forall_forall.
Qed.

Lemma is_active_preserves b ns : within (preserves I) (is_active_cr (W:=W) b ns).
Proof. apply (is_active_frame rest_env redis_env I anywhere (λ _ _ _, True)). Qed.
End preserved.

(** ** Bounds of the memory *)

Section bounds.
Context {W : Type}.
Context `{CustomObjectsApi W} `{Entropy W} `{KeyOrder} `{SetOrder} `{HttpApi W} `{CoreV1Api W} `{AppsV1Api W}.
Context `{KubeConfigApi W} `{KopfApi W} `{RedisApi W} `{Clock W} `{UrlTables}.
Context (rest_env : RestEnv) (redis_env : RedisEnv) (fuel : nat).
Implicit Types s : st W OpMem.

Notation execution := (execution rest_env redis_env fuel).

(** The queue of warnings, the two caches of clients with one client per URL,
    made for that URL, the Kubernetes clients with their timeouts, and the
    fingerprints with one entry per CR. *)
Record mem_bounded (p : OpMem) : Prop := MemBounded {
  bounded_queue : Z.of_nat (length (queue (op_sink p))) ≤ MAX_DEFERRED_WARNING_EVENTS;
  bounded_rest : cache_ok (λ url c, new_openstudio_client rest_env url = Ok c) CLIENT_CACHE_MAXSIZE (op_rest p);
  bounded_redis : cache_ok (λ url c, make_redis_client redis_env url = Ok c) REDIS_CLIENT_CACHE_MAXSIZE (op_redis p);
  bounded_apis : clients_bounded (op_apis p);
  bounded_surfaces : cache_wf (_guard_last_seen_surface (op_singleton p));
}.

Lemma fresh_bounded : mem_bounded fresh_mem.
Proof.
  assert (∀ V (Q : string → V → Prop) n, cache_ok Q n []) by (intros; split_and!; [constructor..|simpl; lia]).
  split; simpl; [done|auto..| |].
  - by intros [].
  - split; [constructor|simpl; lia].
Qed.

(** A call through a cache changes that cache only. *)
Lemma lru_call_mem {V} (L : Lens OpMem (list (string * V))) maxsize (make : string → res V) url s r s' :
  lru_call (W:=W) maxsize (λ u, of_res (make u)) url s = (r, s') →
  (∃ cache : list (string * V), mem s' = lput cache (mem s)) ∨ mem s' = mem s.
Proof.
  rewrite lru_call_eq. unfold of_res. destruct (lru_find url (cache_of s)); [|destruct (make url)]; intros [= <- <-]; simpl; eauto.
Qed.

Lemma lru_call_keeps {V} (Q : string → V → Prop) (L : Lens OpMem (list (string * V))) maxsize (make : string → res V) url s r s' :
  (0 < maxsize)%nat → (∀ u v, make u = Ok v → Q u v) → cache_ok Q maxsize (lget (mem s)) →
  lru_call (W:=W) maxsize (λ u, of_res (make u)) url s = (r, s') → cache_ok Q maxsize (lget (mem s')).
Proof. intros Hpos HQ Hok E. eapply lru_call_spec in E as [Hok' _]; [exact Hok'|by split; [|apply HQ]|done|done]. Qed.

#[local] Instance bounded_respected : Respected (W:=W) rest_env redis_env mem_bounded.
Proof.
  split.
  all: try (intros ? p [Bq Br Bd Ba Bs]; split; simpl; (done || exact Bs)).
  all: try (intros p [Bq Br Bd Ba Bs]; split; simpl; (done || exact Bs)).
  - intros slot c Hc p [Bq Br Bd Ba Bs]. split; simpl; [done..| |done]. intros slot' c'. rewrite operator_api_with.
    case_decide; [by intros [= <-]|apply Ba].
  - intros slot p [Bq Br Bd Ba Bs]. split; simpl; [done..| |done]. intros slot' c'. rewrite operator_api_with.
    case_decide; [done|apply Ba].
  - intros url s c s' E [Bq Br Bd Ba Bs].
    pose proof (lru_call_keeps (λ url c, new_openstudio_client rest_env url = Ok c) op_rest_lens _ _ _ _ _ _ (Nat.lt_0_succ _)
      (λ u v E, E) Br E) as Hc.
    destruct (lru_call_mem op_rest_lens _ _ _ _ _ _ E) as [[cache Em]|Em]; rewrite Em in Hc |- *; by split.
  - intros url s c s' E [Bq Br Bd Ba Bs].
    pose proof (lru_call_keeps (λ url c, make_redis_client redis_env url = Ok c) op_redis_lens _ _ _ _ _ _ (Nat.lt_0_succ _)
      (λ u v E, E) Bd E) as Hc.
    destruct (lru_call_mem op_redis_lens _ _ _ _ _ _ E) as [[cache Em]|Em]; rewrite Em in Hc |- *; by split.
  - intros d p Hd [Bq Br Bd Ba Bs]. split; simpl; [|done..]. rewrite length_app. simpl. lia.
  - intros ns n p [Bq Br Bd Ba Bs]. split; simpl; [|done..].
    pose proof (length_filter (λ d, is_for ns n d = false) (queue (op_sink p))). lia.
  - intros k p [Bq Br Bd Ba Bs]. split; simpl; [done..|]. by apply cache_get_wf.
  - intros k v p [Bq Br Bd Ba Bs]. split; simpl; [done..|]. by apply cache_set_wf.
  - intros k p [Bq Br Bd Ba Bs]. split; simpl; [done..|]. by apply cache_pop_wf.
Qed.

(** C4: the memory of the operator stays bounded for ever: after any execution
    from a fresh process, with any restarts, at most a thousand warnings are
    queued, at most eight REST and eight Redis clients are cached, each made
    for the URL it is kept under, every Kubernetes client in use has its
    request timeout, and at most a thousand fingerprints are kept, one per CR. *)
Theorem process_memory_bounded es s s' :
  mem s = fresh_mem → execution es s s' → mem_bounded (mem s').
Proof.
  intros Hs Hex. refine (execution_invariant _ _ _ (λ s, mem_bounded (mem s)) es s s' _ Hex _); [|by rewrite Hs; apply fresh_bounded].
  intros e s1 s2 _ [c t|w t|t]; simpl; [|done|intros _; apply fresh_bounded].
  apply (call_preserves rest_env redis_env fuel mem_bounded).
Qed.
End bounds.

(** ** Shutdown *)

Section shutdown.
Context {W : Type}.
Context `{StatusServer W} `{Entropy W} `{KeyOrder} `{SetOrder} `{HttpApi W} `{CoreV1Api W} `{AppsV1Api W}.
Context `{KubeConfigApi W} `{KopfApi W} `{RedisApi W} `{Clock W} `{UrlTables}.
Context (rest_env : RestEnv) (redis_env : RedisEnv) (fuel : nat).
Implicit Types s : st W OpMem.

Notation call := (run_call rest_env redis_env fuel).
Notation execution := (execution rest_env redis_env fuel).

Definition stopping (p : OpMem) : Prop := _shutdown_requested (op_tick p) = true.

#[local] Instance stopping_respected : Respected (W:=W) rest_env redis_env stopping.
Proof.
  split; try done; unfold stopping.
  - intros url s c s' E Hs. destruct (lru_call_mem op_rest_lens _ _ _ _ _ _ E) as [[cache ->]| ->]; done.
  - intros url s c s' E Hs. destruct (lru_call_mem op_redis_lens _ _ _ _ _ _ E) as [[cache ->]| ->]; done.
Qed.

(** While the process is stopping it goes on stopping, and does no harm. *)
Definition harmless_stop : relation (st W OpMem) := λ s s', stopping (mem s) → stopping (mem s') ∧ emits harmless s s'.

#[local] Instance harmless_stop_preorder : PreOrder harmless_stop.
Proof.
  split.
  - intros s Hs. split; [done|]. reflexivity.
  - intros s1 s2 s3 H1' H2' Hs. destruct (H1' Hs) as [Hs2 E1]. destruct (H2' Hs2) as [Hs3 E2].
    split; [done|]. by etransitivity.
Qed.

Lemma stop_both {A} (m : M W OpMem A) : within (preserves stopping) m → quiet m → within harmless_stop m.
Proof. intros Hp Hq s Hs. split; [by apply (Hp s)|apply Hq]. Qed.

Lemma stopping_tick {D A} spec body ns n module api (wire : OperatorConfig → M W OpMem D)
    (tick : OperatorConfig → Store → EventEmitter → D → Z → M W OpMem A) :
  within harmless_stop (observe_tick_duration module (run_oscm_tick spec body ns n module api wire tick)).
Proof.
  intros s Hs. unfold observe_tick_duration, observe_duration, finally, run_oscm_tick.
  rewrite (bind_run (get_part (C:=TickState)) _ s (lget (mem s)) s eq_refl). cbn [lget op_tick_lens]. rewrite (Hs : _ = true). cbn. split; [done|].
  eexists [_]. split; [reflexivity|by constructor].
Qed.

Lemma stopping_timer t body namespace name :
  within harmless_stop (run_timer rest_env redis_env fuel t body namespace name).
Proof.
  assert (Ha : ∀ a, harmless a → within harmless_stop (act a)).
  { intros a Ha s Hs. split; [exact Hs|]. by apply within_emits_act. }
  assert (Hactive : ∀ b ns, within harmless_stop (is_active_cr (W:=W) (P:=OpMem) b ns)).
  { intros b ns. apply stop_both; [apply (is_active_preserves rest_env redis_env), _|].
    eapply within_emits_weaken; [|apply is_active_cr_emits]. by intros []. }
  assert (Hfn : within harmless_stop (timer_fn rest_env redis_env fuel t body (body_spec body) namespace name)).
  { destruct t; (apply within_bind; [apply _|apply stopping_tick|intros _; by apply within_ret, _]). }
  unfold run_timer, _gated, resolve_gate. solve_within; try by apply Ha.
  all: repeat case_match; simplify_eq; solve_within; by apply Ha.
Qed.

Lemma stopping_call c : within harmless_stop (call c).
Proof.
  assert (Hq : (∀ a, call_allows c a → harmless a) → within harmless_stop (call c)).
  { intros Hc. apply stop_both; [apply (call_preserves rest_env redis_env), _|]. eapply within_emits_weaken; [exact Hc|apply call_bound]. }
  destruct c; [|by apply Hq..]. apply within_bind; [apply _|apply stopping_timer|intros _; apply within_ret, _].
Qed.

(** C11: a shutdown request is final: once the signal handler has run, no event
    of the process, in any order and whatever the world does, changes the
    user's system again, until the process is restarted. *)
Theorem shutdown_final es s s' :
  Restart ∉ es → execution (Call CallSigterm :: es) s s' →
  stopping (mem s') ∧ ∃ l, log s' = log s ++ l ∧ Forall harmless l.
Proof.
  intros Hr Hex. inversion Hex as [|? ? ? s1 ? Hs Hex']; subst. inversion Hs; subst.
  assert (Hs1 : stopping (mem (call CallSigterm s).2)) by done.
  assert (Hl1 : log (call CallSigterm s).2 = log s) by done. rewrite <-Hl1. clear Hl1 Hex Hs. revert Hr Hs1.
  induction Hex' as [|e es t1 t2 t3 Ht Hex' IH]; intros Hr Ht1.
  { split; [done|]. exists []. by rewrite app_nil_r. }
  apply not_elem_of_cons in Hr as [He Hr]. destruct Ht as [c t|w t|t]; [|by apply IH|done].
  destruct (stopping_call c t Ht1) as [Ht2 (l1 & E1 & H1')]. destruct (IH Hr Ht2) as [Hend (l & E & Hl)].
  split; [done|]. exists (l1 ++ l). split; [by rewrite E, E1, assoc by apply _|]. by apply Forall_app.
Qed.
End shutdown.


(** ** A concrete process *)

#[local] Instance no_tables : UrlTables := { bracketed_host_ok _ := false; netloc_nfkc_ok _ := true }.

Definition sla_call (dry : bool) : handler_call := CallTimer AnalysisSlaMonitor (op_body dry) "ns" "cr".
Definition process_start : st sim OpMem := sim_start (op_world false) fresh_mem.
Definition process_after (cs : list handler_call) : st sim OpMem :=
  run_calls op_rest_env op_redis_env 10 cs process_start.

(** After the startup check the CR of the timer is elected and the analysis stopped. *)
Lemma process_actions_witness :
  bool_decide (soft_stop_of_a1 ∈ log (process_after [CallGuardStartup (Some "ns"); sla_call false])) = true ∧
  ∃ l, log (process_after [CallGuardStartup (Some "ns"); sla_call false]) = log process_start ++ l ∧
    Forall (answers_to (Call <$> [CallGuardStartup (Some "ns"); sla_call false])) l.
Proof.
  split; [vm_compute; reflexivity|].
  exact (process_actions op_rest_env op_redis_env 10 _ process_start _
    (run_calls_execution op_rest_env op_redis_env 10 [CallGuardStartup (Some "ns"); sla_call false] process_start)).
Defined.

Lemma process_memory_bounded_witness :
  bool_decide (length (op_rest (mem (process_after [sla_call false]))) = 1%nat) = true ∧
  mem_bounded op_rest_env op_redis_env (mem (process_after [sla_call false])).
Proof.
  split; [vm_compute; reflexivity|].
  exact (process_memory_bounded op_rest_env op_redis_env 10 _ process_start _ eq_refl
    (run_calls_execution op_rest_env op_redis_env 10 [sla_call false] process_start)).
Defined.

(** The same timer sends nothing after the signal. *)
Lemma shutdown_final_witness :
  bool_decide (soft_stop_of_a1 ∈ log (process_after [CallSigterm; sla_call false])) = false ∧
  stopping (mem (process_after [CallSigterm; sla_call false])) ∧
  ∃ l, log (process_after [CallSigterm; sla_call false]) = log process_start ++ l ∧ Forall harmless l.
Proof.
  split; [vm_compute; reflexivity|].
  refine (shutdown_final op_rest_env op_redis_env 10 [Call (sla_call false)] process_start _ _
    (run_calls_execution op_rest_env op_redis_env 10 [CallSigterm; sla_call false] process_start)).
  by intros [|?%not_elem_of_nil]%elem_of_cons.
Defined.
