(* ===== verification/Ownership.v ===== *)
(** * Who writes which status field

    Several timers write the status of one CR, each with its own merge patches.
    They do not disturb each other because each field has one owner, but for
    the soft-stop anchors and stop records the hygiene of the watchdog prunes;
    the deferred warnings alone may be written by anyone, for any CR. *)
From S2P Require Import Prelude PyValue Effects Logic PyTime Services Config CrCache KubeOps K8sApi StatusRecords StatusStore StatusStoreFacts SimWorld StatusStoreSpec RestClient Url RedisClient RedisClientSpec StatusScalars ClientFactory Actions Events AnalysisSla AnalysisSlaSpec DatapointWatchdog WorkerRecycler WebBackground Singleton SingletonSpec DryRunAudit OscmTick RedisLayout Frame Operator OperatorSpec Process ProcessSpec.

Section ownership.
Context {W : Type}.
Context `{StatusServer W} `{Entropy W} `{KeyOrder} `{SetOrder} `{HttpApi W} `{CoreV1Api W} `{AppsV1Api W}.
Context `{KubeConfigApi W} `{KopfApi W} `{RedisApi W} `{Clock W} `{UrlTables}.
Context (rest_env : RestEnv) (redis_env : RedisEnv) (fuel : nat).

(** The fields of a status document that may differ between two worlds. *)
Definition touches (own : string → string → string → Prop) : relation W :=
  λ w w', ∀ ns n f, own ns n f ∨ status_doc w' ns n !! f = status_doc w ns n !! f.

Definition same_status : relation W := λ w w', status_doc w' = status_doc w.

(** A call that is not about the status of a CR leaves every status alone. *)
Class StatusApart : Prop := {
  #[global] apart_outside :: Outside same_status;
  apart_list ns : Foreign same_status (list_crs_call ns);
}.
Context `{!StatusApart}.

Section touches.
Context (own : string → string → string → Prop).

#[export] Instance touches_preorder : PreOrder (touches own).
Proof.
  split; [by right|]. intros w1 w2 w3 T1 T2 ns n f.
  destruct (T1 ns n f) as [?|E1]; [by left|]. destruct (T2 ns n f) as [?|E2]; [by left|right]. congruence.
Qed.

Lemma same_touches w w' : same_status w w' → touches own w w'.
Proof. intros E ns n f. right. by rewrite (E : _ = _). Qed.

Lemma foreign_touches {A} (f : W → res A * W) : Foreign same_status f → Foreign (touches own) f.
Proof. intros Hf w. apply same_touches, Hf. Qed.

#[export] Instance touches_outside : Outside (touches own).
Proof. split; intros; apply foreign_touches, _. Qed.

(** A patch body changes the fields it names. *)
Lemma patch_effect_other d body owned f :
  writes_only owned body → owned f ∨ patch_effect d body !! f = d !! f.
Proof.
  unfold writes_only, patch_effect. intros Hb. destruct body as [| | | | | |b]; try by right.
  destruct (b !! "status") as [[| | | | | |m]|]; try by right.
  destruct (m !! f) as [v|] eqn:E; [left; apply Hb; by exists v|right].
  by rewrite lookup_merge_dict, E.
Qed.

#[export] Instance touches_crs : CrCalls (touches own) own.
Proof.
  split.
  - intros ns. apply foreign_touches, apart_list.
  - intros ns n. apply foreign_touches. intros w. unfold same_status. destruct (get_status_call ns n w) as [[obj|e] w'] eqn:E; simpl.
    + by apply get_ok in E as [_ ?].
    + by apply get_err in E.
  - intros ns n body Hb w ns' n' f. destruct (decide ((ns', n') = (ns, n))) as [[= -> ->]|Hne].
    2: { right. by rewrite patch_other. }
    destruct (patch_status_call ns n body w) as [[[]|e] w'] eqn:E; simpl.
    + apply patch_ok in E as ->. by apply patch_effect_other.
    + apply patch_err in E as [-> | ->]; [by right|]. by apply patch_effect_other.
Qed.
End touches.

(** What a call may write: the deferred warnings, and a timer the fields it
    owns in the CR it runs for. *)
Definition call_owns (c : handler_call) (ns n f : string) : Prop :=
  f = DEFERRED_EVENTS ∨ ∃ t body, c = CallTimer t body ns n ∧ f ∈ timer_fields t.

#[local] Existing Instance cap_sink.

#[local] Instance any_memory : Respected (W:=W) rest_env redis_env (λ _, True).
Proof. by split. Qed.

(** C7: every status field has its owners: a call of a handler, whatever it
    meets on the way (conflicts, failed patches, eviction at the cap, an outage
    of any service), changes no status field of any CR except the deferred
    warnings, and, for a timer, the fields that timer owns in the CR it runs
    for. *)
Theorem status_ownership c s ns n f :
  call_owns c ns n f ∨
  status_doc (world (run_call rest_env redis_env fuel c s).2) ns n !! f = status_doc (world s) ns n !! f.
Proof.
  assert (Hc : within (evolves (λ _, True) (touches (call_owns c))) (run_call (W:=W) rest_env redis_env fuel c)).
  { eapply call_frame; [apply _..|by left|]. intros t body ns' n' ->. apply Forall_forall. intros f' Hf'. right. eauto. }
  by apply Hc.
Qed.
End ownership.

#[local] Instance no_tables : UrlTables := { bracketed_host_ok _ := false; netloc_nfkc_ok _ := true }.

#[export] Instance sim_apart : StatusApart (W:=sim).
Proof. by split. Qed.

(** A tick of the SLA monitor that stops an analysis writes its anchor; the
    requeues of the same CR stay. *)
Lemma status_ownership_witness :
  let cs := [CallGuardStartup (Some "ns")] in
  let s := process_after cs in
  let s' := (run_call op_rest_env op_redis_env 10 (sla_call false) s).2 in
  bool_decide (status_doc (world s') "ns" "cr" !! SOFT_STOPS = status_doc (world s) "ns" "cr" !! SOFT_STOPS) = false ∧
  (call_owns (sla_call false) "ns" "cr" REQUEUES ∨
   status_doc (world s') "ns" "cr" !! REQUEUES = status_doc (world s) "ns" "cr" !! REQUEUES).
Proof.
  split; [vm_compute; reflexivity|].
  exact (status_ownership op_rest_env op_redis_env 10 (sla_call false) _ "ns" "cr" REQUEUES).
Defined.
