(* ===== verification/MetricUpdates.v ===== *)
(** * The updates of the metrics

    Every update of a metric, by any handler of the operator or by the CronJob,
    is one the client library accepts: of a declared family, by a method of its
    kind, with its labels, and never a negative increment.  This is the type
    discipline of [metrics.py], which Python checks at run time only, by a
    ValueError in the middle of a tick. *)
From S2P Require Import Prelude PyValue Effects Logic Metrics PyTime Services Config CrCache KubeOps K8sApi StatusRecords StatusStore StatusStoreFacts SimWorld StatusStoreSpec RestClient Url RedisClient RedisClientSpec StatusScalars ClientFactory Actions Events AnalysisSla AnalysisSlaSpec DatapointWatchdog WorkerRecycler WebBackground Archival Retention PruneEntrypoint MetricsServer Singleton SingletonSpec DryRunAudit OscmTick RedisLayout Frame Operator OperatorSpec Process ProcessSpec.

Notation accepted := (λ a, well_declared a = true).

(** ** The operator *)

Section operator.
Context {W : Type}.
Context `{CustomObjectsApi W} `{Entropy W} `{KeyOrder} `{SetOrder} `{HttpApi W} `{CoreV1Api W} `{AppsV1Api W}.
Context `{KubeConfigApi W} `{KopfApi W} `{RedisApi W} `{Clock W} `{UrlTables}.
Context (rest_env : RestEnv) (redis_env : RedisEnv) (fuel : nat).
Implicit Types s : st W OpMem.

Notation execution := (execution rest_env redis_env fuel).

#[local] Existing Instance cap_sink.

#[local] Instance any_memory : Respected (W:=W) rest_env redis_env (λ _, True).
Proof. by split. Qed.

Lemma call_accepted c : within (emits accepted) (run_call (W:=W) rest_env redis_env fuel c).
Proof. intros s. by apply (call_preserves rest_env redis_env fuel (λ _, True) c s). Qed.

(** C12: no update of a metric is ever rejected: over every execution of the
    operator process, with any interleaving, changing world and restarts, each
    update is of a family that [metrics.py] declares, by a method of its kind,
    with exactly its label names, and no counter goes down. *)
Theorem metrics_accepted es s s' :
  execution es s s' → ∃ l, log s' = log s ++ l ∧ Forall accepted l.
Proof.
  induction 1 as [s|e es s1 s2 s3 Hs Hex (l & El & Hl)]; [exists []; by rewrite app_nil_r|].
  destruct Hs as [c s|w s|s]; simpl in El; [|by exists l..].
  destruct (call_accepted c s) as (l1 & E1 & H1'). exists (l1 ++ l). split; [by rewrite El, E1, assoc by apply _|].
  by apply Forall_app.
Qed.

(** The counter of failure streaks is declared, and no handler ever updates it. *)
Lemma streak_never_counted c s ls n :
  MetricInc "HANDLER_CONSECUTIVE_FAILURE_STREAK_TOTAL" ls n ∈ log (run_call rest_env redis_env fuel c s).2 →
  MetricInc "HANDLER_CONSECUTIVE_FAILURE_STREAK_TOTAL" ls n ∈ log s.
Proof.
  destruct (call_accepted c s) as (l & -> & Hl). rewrite elem_of_app. intros [?|Hin]; [done|].
  rewrite Forall_forall in Hl. by apply Hl in Hin.
Qed.
End operator.

(** ** The CronJob *)

Section cronjob.
Context {W P : Type}.
Context `{CustomObjectsApi W} `{Entropy W} `{StatusEventSink W P} `{KeyOrder} `{HttpApi W} `{BatchV1Api W}.
Context `{CoreV1Api W} `{Clock W} `{KubeConfigApi W} `{Lens P K8sClients} `{AppsV1Api W} `{RedisApi W} `{KopfApi W}.
Context (client_factory : pv → M W P OpenStudioClient) (apis : GivenApis) (now : option Z).
Notation R := (evolves (W:=W) (P:=P) (λ _, True) anywhere).
Context (Hfactory : ∀ url, within R (client_factory url)).
Context (Hsink : ∀ ns n r m, within R (_emit_status_map_event (W:=W) (P:=P) ns n r m)).

Lemma put_apis_frame (c : K8sClients) : within R (put_part (W:=W) c).
Proof. by apply mem_frame. Qed.

Lemma exit_on_skip_frame {A} (m : M W P A) k : within R m → (∀ a, within R (k a)) → within R (exit_on_skip m k).
Proof. intros Hm Hk. unfold exit_on_skip. solve_frame. Qed.

Lemma prune_emit_frame cr namespace emit :
  build_event_emitter (W:=W) (P:=P) cr namespace = Ok emit → ∀ t r m, within R (emit t r m).
Proof.
  unfold build_event_emitter. destruct (py_get cr "metadata"); [|done]. cbn [mbind res_bind].
  destruct (involved_object _ _); [|done]. intros [= <-] t r m. unfold prune_emit. solve_frame.
Qed.

Lemma prune_tick_frame namespace name config emit :
  (∀ t r m, within R (emit t r m)) → within R (prune_tick client_factory now namespace name config emit).
Proof.
  intros He. unfold prune_tick. apply within_bind; [apply _|apply Hfactory|intros client].
  apply within_bind; [apply _|solve_frame|intros t]. apply (retention_tick_frame (λ _, True) anywhere (λ _ _ _, True)); try done.
  by apply Forall_forall.
Qed.

Lemma prune_cr_frame namespace cr : within R (prune_cr client_factory now namespace cr).
Proof.
  unfold prune_cr. apply within_bind; [apply _|solve_frame|intros name]. apply exit_on_skip_frame; [solve_frame|intros config].
  destruct (negb _); [solve_frame|]. apply within_of_res_bind; [apply _|]. intros emit E. pose proof (prune_emit_frame _ _ _ E) as He.
  destruct (negb _); [solve_frame|]. apply exit_on_skip_frame; [by apply prune_tick_frame|intros; solve_frame].
Qed.

(** The same for the CronJob, whatever its collaborators do within the bound. *)
Lemma prune_accepted namespace pod_namespace :
  within (emits accepted) (PruneEntrypoint.main client_factory apis now namespace pod_namespace).
Proof.
  assert (Hm : within R (PruneEntrypoint.main client_factory apis now namespace pod_namespace)).
  { pose proof put_apis_frame. pose proof prune_cr_frame. unfold PruneEntrypoint.main.
    destruct (match namespace with Some n => Some n | None => pod_namespace end) as [ns|]; [|solve_frame].
    destruct (String.eqb ns ""); [solve_frame|]. apply exit_on_skip_frame; [solve_frame|intros _]. solve_frame. }
  intros s. by apply Hm.
Qed.
End cronjob.

(** ** The start of the process *)

(** The bind gauge of [start_metrics_server] is declared as it is set. *)
Lemma bound_gauge_declared addr port v :
  match bound_gauge addr port v with
  | MetricSet family ls _ => update_ok Gauge family ls families = true
  | _ => False
  end.
Proof. vm_compute. reflexivity. Qed.

(** ** A concrete process *)

Lemma metrics_accepted_witness :
  let cs := [CallGuardStartup (Some "ns"); sla_call false] in
  bool_decide (MetricInc "SOFT_STOPS_TOTAL" [("outcome", "issued")] 1 ∈ log (process_after cs)) = true ∧
  ∃ l, log (process_after cs) = log process_start ++ l ∧ Forall accepted l.
Proof.
  split; [vm_compute; reflexivity|].
  exact (metrics_accepted op_rest_env op_redis_env 10 _ process_start _
    (run_calls_execution op_rest_env op_redis_env 10 [CallGuardStartup (Some "ns"); sla_call false] process_start)).
Defined.
